(* ===== verification/_CoqProject ===== *)
-Q . S2P
JsBase.v
JsString.v
Hlc.v
Calendar.v
JsNumber.v
Json.v
Domain.v
Trees.v
Ledger.v
Fleet.v
Sealing.v
Envelope.v
Crypto.v
Vault.v
Device.v
Routes.v
Backup.v
SyncTarget.v
Settings.v
Sync.v
SyncSafety.v
SyncDemo.v
Interleaving.v
Delivery.v
Races.v
Paging.v
SyncServer.v
ServerSetup.v
StoreLocks.v
ServerAdapter.v
S3Adapter.v
GitAdapter.v
CorsProxy.v
Money.v
Conversion.v
Rates.v
CategoryTree.v
Categories.v
Accounts.v
Groups.v
Transactions.v
Period.v
Budgets.v
Schedule.v
Recurring.v
Cards.v
Csv.v
Import.v
Reports.v
NumberText.v
TransactionEditor.v
Editors.v
Pages.v
Screens.v
Shell.v
Charts.v
Program.v
Startup.v
