(* ===== verification/JsBase.v ===== *)
(** Easy Docket, verified: root of the development.

    Easy Docket is a personal ledger that works offline on every device and keeps the
    devices of one vault in step through a destination that sees only encrypted blobs.
    Paths below are relative to src/; core/ stands for app/src/app/core/, features/ for
    app/src/app/features/ and shared/ for app/src/app/shared/.

    * The program's parts and how they interact

    A device keeps tables of records and an append-only log of operations in a local
    database.  Every write goes through the ledger, which stamps it with a hybrid logical
    clock and records the operation; repositories (accounts, categories, rates, budgets,
    rules) are rules and views over the tables.  The sync engine seals batches of
    unsent operations into envelopes, uploads them to a destination, downloads the batches
    of the other devices and merges them, the last stamp winning record by record; every
    so often it writes a snapshot and prunes what the snapshot covers.  Destinations are a
    bundled HTTP server, an S3 bucket or a Git repository behind one interface.  The vault
    holds the key, wrapped under a passphrase; settings and backups are sealed with it.
    A scheduler starts cycles on a timer, on reconnection and on resume.  The screens are
    forms and summaries over the services.

    * Files, in order, and the code each models

    Ground: JsBase (exceptions, the state and error monad, stable sort, insertion-ordered
    maps, invariant tactics), JsString (strings of code units), JsNumber (binary64 on
    SpecFloat), Calendar (core/util/dates.ts), Json (JSON text), Domain (core/models/domain.ts
    and oplog.ts), Trees (records as JSON), NumberText (numbers and their texts).

    Replication: Hlc (core/util/hlc.ts); Ledger (core/db/docket-db.ts and
    core/repositories/ledger.service.ts: App is the database, put, remove, merge and the
    rest are the methods of the service); Fleet (devices that write and hear of each
    other's operations in any order, the abstract specification of synchronisation); Sync
    (core/sync/sync.service.ts over any instance of SyncAdapter and Sealing); SyncSafety
    (the engine refines the fleet); SyncDemo (its witnesses); Interleaving (the same engine
    cut at its awaits, and worlds in which edits and the cycles of several devices fall
    between any two calls); Delivery (what such worlds have sent); Races (concrete
    schedules, and three after which the devices part).

    Secrets: Envelope and Crypto (core/crypto/), Sealing (the interface the engine sees,
    with its laws), Vault (core/keys/), Device (the secret store of the platform and what
    can be asked of the person, core/keys/), Routes (app.routes.ts with the guards),
    Settings (core/sync/sync-settings.service.ts), Backup (core/backup/).

    Destinations: SyncTarget (core/sync/sync-target.ts, sync-adapter.ts, and the in-memory
    adapter of core/testing/), Paging (listings page by page), SyncServer (server/internal/:
    object store, tokens, handlers, a request at a time), ServerSetup (its configuration,
    tokens file, start-up, CORS and conditional requests, with server/cmd/docket-sync/),
    StoreLocks (concurrent requests under the locks and the cache of usages), ServerAdapter, S3Adapter and GitAdapter
    (core/sync/adapters/), CorsProxy (cors-proxy/src/worker.js).

    Ledger rules: Money, Conversion, Rates (core/util/money.ts, core/money/,
    rates.service.ts), CategoryTree, Categories, Accounts, Groups, Transactions, Period,
    Budgets, Schedule, Recurring, Cards, Csv, Import, Reports (core/ folders and services
    of the same names).

    Screens: TransactionEditor, Editors, Pages, Screens, Shell, Charts (features/, shared/,
    core/theme/, core/reports/geometry.ts).

    Composition: Program (every operation the screens can ask for as one type of acts, and
    worlds of devices that act and synchronise), Startup (app-bootstrap.ts,
    sync-scheduler.service.ts, the unlock page; deployments whose installations start,
    unlock, lock, change settings, work and synchronise).

    * Interfaces

    SyncAdapter and AdapterLaws (SyncTarget) are what the engine needs of a destination:
    the in-memory adapter, the client of the bundled server with the server at its other
    end, and the S3 client are instances with their laws proved; the Git adapter is not,
    since what it stages counts only after a flush, and has theorems of its own.  Sealing
    is what the engine needs of cryptography, with its law: the crypto service is an
    instance.  SecureStore (Device) is what the vault needs of the platform: the store in
    memory and that over the keystore plugin are instances, the second proved to be a map.  WebCrypto, S3Client, Git and WebUrl stand for code outside the repository,
    with the documented behaviour relied on as laws (WebCryptoLaws, S3Laws, GitLaws: a push
    sends the index committed on the branch it is given to the address the remote it is given
    stands for) and a concrete instance of each, so that every law has a model.  Locale is a collation.
    Comparator carries the order laws of a comparison function.

    * What the theorems show

    Replication: stamps of a clock increase and are unique in a fleet (Hlc, Fleet); a device
    holds for each record the last write it has heard of, whatever the order (Ledger); devices
    that heard of the same operations on a record hold the same version of it (Fleet); a run
    of engines, with any failures, is a run of the fleet, what an upload marks as sent is at
    the destination, a download that returns has learned every listed batch but those a
    snapshot covers, an upload that returns has sent the oldest PENDING_LIMIT operations that
    waited and left the rest, and a cycle always ends in a settled status (SyncSafety).
    Interleaved with edits and with other cycles, the steps of a cycle between its awaits
    still refine the fleet, as long as no edit falls between the reads of a snapshot, a
    restriction Races shows to be needed (Interleaving); under it, at a destination that
    meets AdapterLaws, what is marked as sent has been at the destination (Delivery).
    Program and Startup lift the refinement to everything the screens, the scheduler and
    start-up do.

    Secrets: the envelope parser accepts exactly the layout (Envelope); what is sealed opens
    under the key and only under it (Crypto); in any history of a vault the passphrase brings
    the key back, nothing at rest holds it in the open, and a locked vault stays locked, a
    store of secrets that refuses a write or a removal included, with the two cases in which
    such a refusal leaves the vault other than it means to be (Vault, Pages), with no page but
    the unlock screen to be seen without the key (Routes); settings and backups come back as
    saved, and a backup of another vault is refused with nothing written (Settings, Backup, Pages).

    Destinations: accounts of the server do not touch, objects never change, a listing ends
    and is complete, and over the bundled server cycles succeed only for short ledgers
    (SyncServer, ServerAdapter); concurrent uploads and deletions are atomic and none is
    stuck (StoreLocks); minted tokens open their accounts, and CORS names only listed
    origins (ServerSetup); the S3 listing ends (S3Adapter); what is flushed to Git is
    on the configured branch of the configured address, when the clone is of that address
    (GitAdapter); the proxy reaches only the hosts named (CorsProxy).

    Ledger rules: balances add up in each currency, net worth and reports agree with each
    other; budgets with rollover; schedules list each due date once, materialising is
    idempotent, the same on two devices with the same rules, and never redoes what was
    skipped while the rule keeps its skip; statements and payments settle; CSV and amounts
    survive the round trip, formula guards aside; an import adds the planned rows and the
    categories they name, nothing else, and repeats nothing.

    Screens: opening a record and saving it unchanged writes it back unchanged, where it is
    true, with the conditions listed; an account is deleted on screen only with no transaction,
    as counted before the person confirms; the list shows the order dragged; what an
    import shows is for the account shown.

    Lemmas named in the findings are behaviours the code has and does not mean to have, each
    evaluated on a concrete run.

    * Bounds and fuel

    MAX_SCAN (25,000 indices), 500 occurrences a run, batches of 500 operations, a snapshot
    after 200, 1,200 months of a report, six hops of the proxy and the other limits are the
    code's own constants.  Fuel
    the code does not have: the JSON parser takes twice the length of its text and two, since
    every step but a constant number consumes a character; the loops of the budget window make
    at most four corrections, which Period proves to be enough; the listing over the server takes one page for each file and one, which
    ServerAdapter proves to be enough, and the S3 listing more pages than there are keys; the
    shortest text of a number tries 17 digits, all a binary64 can need, and its magnitude 400
    decimal places.  Running out is a value (Throw of OutsideModel or None), never a
    default, and the theorems on those loops say they return.

    * Conventions

    Strings are code units below 256; case is ASCII case and NFKC is the identity on ASCII,
    anything else being OutsideModel.  JSON numbers are safe integers and amounts are
    integers of minor units; rates and coordinates are binary64.  Async code of a service or a
    screen runs one call at a time.  A cycle of the engine is one call in Sync and is followed
    await by await in Interleaving, which proves the two equal when nothing comes between; a
    call of the adapter or a write of the ledger is one step there, since the code queues its
    transaction at the call.  Goroutines of the server are followed lock by lock in
    StoreLocks.  Random draws and clocks are streams of the state.  The keystore of the platform
    takes or refuses all it is asked, as a field of the vault says, which may change at any
    time; in the deployments of Startup it refuses nothing.  A question on screen and the
    handler of its answer are two definitions, where anything may come between them, or one
    with the answer as an argument, where the code reads nothing in between.  Restoring a
    backup stores what is not of its type as the code does, apart from the typed tables
    (Backup); Program follows a restore that brings in no such row.

    * Not modelled, and why

    HTML templates, styles, icons, toasts and the localised spelling of dates and amounts
    (parameters where a text contains them): presentation.  The matching of the Angular
    router, the change propagation of signals and Dexie's live queries: libraries; effects
    are run where the code's dependencies say.  The database's schema versions and indexes:
    they change no row.  Handing a file to the browser or the share sheet, the status bar,
    the server's logging, its recovery from panics and the temporary file behind a write:
    input and output.  The preview of the converted amount in the transaction editor, which
    reads a number by the prefix rule of parseFloat, and the rounding of chart axes over
    binary64, whose exactness would need a theory of floating point beyond SpecFloat.  Test
    fixtures, end-to-end tests, the Android shell and build scripts. *)
From Stdlib Require Export ZArith Lia Bool Ascii String.
From stdpp Require Export base gmap strings list sorting option ssreflect.
#[local] Open Scope Z_scope.

(** * Exceptions and results *)

(** The exceptions the program throws.  [JsError] is a plain [new Error(message)];
    the next ones are the program's own subclasses of [Error].  [OutsideModel] is
    no exception of the program: it marks an input past which this development
    does not follow the code (a numeral beyond 2^53, say). *)
Inductive exn : Type :=
| JsError (message : string)
| ClockDriftError (drift : Z)
| BackupFormatError (message : string)
| NoSyncTargetError
| SyncTransportError (message : string) (retryable : bool)
| VaultLockedError
| DecryptionError (message : string)
| EnvelopeFormatError (message : string)
| OutsideModel (why : string).

(** A call either returns or throws. *)
Inductive result (A : Type) : Type :=
| Ok (a : A)
| Throw (e : exn).
Arguments Ok {A} a.
Arguments Throw {A} e.

#[export] Instance result_ret : MRet result := fun A a => Ok a.
#[export] Instance result_bind : MBind result := fun A B f m =>
  match m with Ok a => f a | Throw e => Throw e end.
#[export] Instance result_fmap : FMap result := fun A B f m =>
  match m with Ok a => Ok (f a) | Throw e => Throw e end.

(** Stateful code that may throw.  A throw keeps the state changes made before
    it, as an exception does. *)
Definition M (S A : Type) : Type := S -> result A * S.

#[export] Instance M_ret S : MRet (M S) := fun A a s => (Ok a, s).
#[export] Instance M_bind S : MBind (M S) := fun A B f m s =>
  match m s with (Ok a, s') => f a s' | (Throw e, s') => (Throw e, s') end.

(** A step given as a state function. *)
Definition stepM {S A} (f : S -> result A * S) : M S A := f.
Definition getS {S} : M S S := fun s => (Ok s, s).
Definition modifyS {S} (f : S -> S) : M S unit := fun s => (Ok tt, f s).
Definition throwM {S A} (e : exn) : M S A := fun s => (Throw e, s).
Definition liftR {S A} (r : result A) : M S A := fun s => (r, s).

(** [for (const x of xs) await f(x)] : stops at the first throw. *)
Fixpoint forM_ {S A} (xs : list A) (f : A -> M S unit) : M S unit :=
  match xs with
  | [] => mret tt
  | x :: xs' => mbind (fun _ => forM_ xs' f) (f x)
  end.

(** The same with an accumulator. *)
Fixpoint foldM {S A B} (f : B -> A -> M S B) (b : B) (xs : list A) : M S B :=
  match xs with
  | [] => mret b
  | x :: xs' => mbind (fun b' => foldM f b' xs') (f b x)
  end.

(** * Array.prototype.sort *)

(** ECMAScript's sort is stable, and a comparator counts only by its sign: for a
    consistent comparator the specification determines the result, which is
    what this insertion sort computes. *)
Section Sort.
Context {A : Type} (cmp : A -> A -> Z).

Fixpoint js_insert (x : A) (l : list A) : list A :=
  match l with
  | [] => [x]
  | y :: l' => if cmp x y <=? 0 then x :: y :: l' else y :: js_insert x l'
  end.

Fixpoint js_sort (l : list A) : list A :=
  match l with
  | [] => []
  | x :: l' => js_insert x (js_sort l')
  end.
End Sort.

(** Comparators built from [<], and [a || b] on comparators. *)
Definition cmp_string (a b : string) : Z :=
  match String.compare a b with Lt => -1 | Eq => 0 | Gt => 1 end.
Definition cmp_or (a b : Z) : Z := if a =? 0 then b else a.

(** * Map and Set in insertion order *)

Section JsMap.
Context {K V : Type} `{!EqDecision K}.

Fixpoint jmap_get (k : K) (m : list (K * V)) : option V :=
  match m with
  | [] => None
  | (k', v) :: m' => if decide (k = k') then Some v else jmap_get k m'
  end.

(** [Map.set] : an existing key keeps its place, a new one goes last. *)
Fixpoint jmap_set (k : K) (v : V) (m : list (K * V)) : list (K * V) :=
  match m with
  | [] => [(k, v)]
  | (k', v') :: m' => if decide (k = k') then (k, v) :: m' else (k', v') :: jmap_set k v m'
  end.

Definition jmap_has (k : K) (m : list (K * V)) : bool :=
  match jmap_get k m with Some _ => true | None => false end.

(** [new Map(entries)] : a later entry for the same key wins. *)
Definition jmap_of (l : list (K * V)) : list (K * V) :=
  fold_left (fun m kv => jmap_set (fst kv) (snd kv) m) l [].
End JsMap.

(** [Set.add] and [new Set(list)] : first occurrences, in order. *)
Definition jset_add {A} `{EqDecision A} (s : list A) (x : A) : list A :=
  if decide (x ∈ s) then s else s ++ [x].
Definition jset_of {A} `{EqDecision A} (l : list A) : list A := fold_left jset_add l [].

Definition sumZ (l : list Z) : Z := fold_right Z.add 0 l.

(** * Generic lemmas *)

Create HintDb docket.

(** Decide closed equations between constructors in the goal. *)
Ltac decide_closed :=
  repeat match goal with |- context [bool_decide (?a = ?b)] =>
    let v := eval vm_compute in (bool_decide (a = b)) in
    match v with true => idtac | false => idtac end; change (bool_decide (a = b)) with v end.

(** Membership in a list whose elements are written out. *)
Ltac elem_of_closed := repeat first [apply list_elem_of_here | apply list_elem_of_further].

(** Closed bounds, by evaluation. *)
Ltac bounds := repeat split; vm_compute; congruence.

Lemma bind_Ok {A B} (a : A) (f : A -> result B) : mbind f (Ok a) = f a.
Proof. done. Qed.

Lemma bind_Ok_inv {A B} (m : result A) (f : A -> result B) b :
  mbind f m = Ok b -> exists a, m = Ok a /\ f a = Ok b.
Proof. destruct m as [a|e]; [by exists a | done]. Qed.

Lemma M_bind_Ok_inv {S A B} (m : M S A) (f : A -> M S B) b s s' :
  mbind f m s = (Ok b, s') -> exists a s1, m s = (Ok a, s1) /\ f a s1 = (Ok b, s').
Proof.
  unfold mbind, M_bind. destruct (m s) as [[a|e] s1]; [|done]. intros H. by exists a, s1.
Qed.

Lemma M_bind_Throw_inv {S A B} (m : M S A) (f : A -> M S B) e s s' :
  mbind f m s = (Throw e, s') ->
  m s = (Throw e, s') \/ exists a s1, m s = (Ok a, s1) /\ f a s1 = (Throw e, s').
Proof.
  unfold mbind, M_bind. destruct (m s) as [[a|x] s1]; intros H.
  - right. by exists a, s1.
  - left. congruence.
Qed.

(** A loop every round of which establishes [P] ends in [P]. *)
Lemma forM_establishes {S A} (P : S -> Prop) (f : A -> M S unit) xs s s' :
  (forall x s1 s2, f x s1 = (Ok tt, s2) -> P s2) -> P s \/ xs <> [] ->
  forM_ xs f s = (Ok tt, s') -> P s'.
Proof.
  intros Hf. revert s. induction xs as [|x xs IH]; intros s HP E.
  - injection E as <-. by destruct HP.
  - cbn [forM_] in E. apply M_bind_Ok_inv in E as ([] & s1 & E1 & E).
    eapply IH; [|exact E]. left. by eapply Hf.
Qed.

(** Running a computation keeps an invariant of the state, whether it returns or throws. *)
Definition through {S A} (I : S -> Prop) (m : M S A) : Prop := forall s r s', I s -> m s = (r, s') -> I s'.

Lemma through_ret {S A} (I : S -> Prop) (a : A) : through I (mret a).
Proof. by intros s r s' Hs [= _ <-]. Qed.
Lemma through_liftR {S A} (I : S -> Prop) (a : result A) : through I (liftR a).
Proof. by intros s r s' Hs [= _ <-]. Qed.
Lemma through_bind {S A B} (I : S -> Prop) (m : M S A) (f : A -> M S B) :
  through I m -> (forall a, through I (f a)) -> through I (mbind f m).
Proof.
  intros Hm Hf s r s' Hs. unfold mbind, M_bind. destruct (m s) as [[a|e] s1] eqn:E.
  - intros H. eapply Hf; [|exact H]. by eapply Hm.
  - intros [= _ <-]. by eapply Hm.
Qed.
(** What follows a look at the state starts from it. *)
Lemma through_getS {S A} (I : S -> Prop) (f : S -> M S A) :
  (forall s r s', I s -> f s s = (r, s') -> I s') -> through I (mbind f getS).
Proof. intros Hf s r s' Hs. unfold mbind, M_bind, getS. by apply Hf. Qed.

Lemma sumZ_cons x l : sumZ (x :: l) = x + sumZ l.
Proof. done. Qed.

Lemma sumZ_app l k : sumZ (l ++ k) = sumZ l + sumZ k.
Proof. induction l as [|x l IH]; simpl; [done | rw IH; lia]. Qed.

Lemma sumZ_perm l k : l ≡ₚ k -> sumZ l = sumZ k.
Proof. induction 1; simpl; lia. Qed.

Lemma fold_left_sum {A} (f : A -> Z) l z :
  fold_left (fun acc x => acc + f x) l z = z + sumZ (map f l).
Proof. revert z. induction l as [|x l IH]; intros z; simpl; [lia | rw IH; lia]. Qed.

(** ** Sorting *)

(** A comparator that is a total preorder, which the program's all are. *)
Class Comparator {A} (cmp : A -> A -> Z) : Prop := {
  cmp_antisym : forall x y, Z.sgn (cmp y x) = - Z.sgn (cmp x y);
  cmp_trans : forall x y z, cmp x y <= 0 -> cmp y z <= 0 -> cmp x z <= 0;
}.

(** A comparator that separates distinct elements of [P]. *)
Definition separates {A} (cmp : A -> A -> Z) (P : A -> Prop) : Prop :=
  forall x y, P x -> P y -> cmp x y = 0 -> x = y.

Section SortLemmas.
Context {A : Type} (cmp : A -> A -> Z).

Lemma js_insert_perm x l : js_insert cmp x l ≡ₚ x :: l.
Proof.
  induction l as [|y l IH]; simpl; [done|].
  destruct (cmp x y <=? 0); [done|]. rw IH. constructor.
Qed.

Lemma js_sort_perm l : js_sort cmp l ≡ₚ l.
Proof.
  induction l as [|x l IH]; simpl; [done|].
  rw js_insert_perm. by constructor.
Qed.

Lemma elem_of_js_sort x l : x ∈ js_sort cmp l <-> x ∈ l.
Proof. by rw js_sort_perm. Qed.

Lemma length_js_sort l : length (js_sort cmp l) = length l.
Proof. apply Permutation_length, js_sort_perm. Qed.

Context `{!Comparator cmp}.

Let R (x y : A) : Prop := cmp x y <= 0.

Lemma cmp_flip x y : 0 < cmp x y -> cmp y x <= 0.
Proof. pose proof (cmp_antisym x y). lia. Qed.

Lemma js_insert_sorted x l :
  StronglySorted R l -> StronglySorted R (js_insert cmp x l).
Proof.
  induction 1 as [|y l Hl IH Hy]; simpl; [repeat constructor|].
  destruct (Z.leb_spec (cmp x y) 0) as [Hle|Hgt].
  - constructor; [by constructor|]. constructor; [done|].
    eapply Forall_impl; [exact Hy|]. intros z Hz. by eapply cmp_trans.
  - constructor; [done|]. rw js_insert_perm. constructor; [|done].
    by apply cmp_flip.
Qed.

Lemma js_sort_sorted l : StronglySorted R (js_sort cmp l).
Proof. induction l as [|x l IH]; simpl; [constructor | by apply js_insert_sorted]. Qed.

(** The order in which the rows arrive does not matter when the comparator
    separates them: this is what makes a list look the same on every device. *)
Lemma js_sort_unique l k :
  separates cmp (fun x => x ∈ l) -> l ≡ₚ k -> js_sort cmp l = js_sort cmp k.
Proof.
  intros Hsep Hp.
  apply (StronglySorted_unique_strong R); try apply js_sort_sorted.
  - intros x y Hx Hy Hxy Hyx. rw elem_of_js_sort in Hx.
    rw elem_of_js_sort -Hp in Hy. apply Hsep; [done..|].
    pose proof (cmp_antisym x y). unfold R in *. lia.
  - by rw !js_sort_perm.
Qed.
End SortLemmas.

Lemma StronglySorted_rev {A} (R : A -> A -> Prop) l :
  StronglySorted R l -> StronglySorted (fun a b => R b a) (rev l).
Proof.
  induction 1 as [|x l Hl IH Hx]; simpl; [constructor|].
  assert (Forall (fun y => R x y) (rev l)) as Hr by by rw -Permutation_rev.
  clear Hl Hx. induction IH as [|y k Hk IHk Hy]; simpl; [by repeat constructor|].
  apply Forall_cons in Hr as [Hxy Hr]. constructor; [by apply IHk|].
  apply Forall_app. split; [done|]. by constructor.
Qed.

Lemma StronglySorted_mono {A} (R R' : A -> A -> Prop) l :
  (forall x y, R x y -> R' x y) -> StronglySorted R l -> StronglySorted R' l.
Proof.
  intros HR. induction 1 as [|x l Hl IH Hx]; constructor; [done|]. eapply Forall_impl; [exact Hx|]. apply HR.
Qed.

Lemma StronglySorted_filter {A} (R : A -> A -> Prop) p l :
  StronglySorted R l -> StronglySorted R (List.filter p l).
Proof.
  induction 1 as [|x l Hl IH Hx]; simpl; [constructor|]. destruct (p x); [|done]. constructor; [done|].
  apply Forall_forall. intros y Hy. rewrite ->Forall_forall in Hx. apply Hx.
  rw list_elem_of_In filter_In -list_elem_of_In in Hy. by destruct Hy.
Qed.

(** ** String order *)

Lemma cmp_string_eq a b : cmp_string a b = 0 <-> a = b.
Proof.
  unfold cmp_string. split.
  - destruct (String.compare a b) eqn:E; [|done..]. intros _. by apply String.compare_eq_iff.
  - intros ->. destruct (String.compare b b) eqn:E; [done| |];
      pose proof (String.compare_antisym b b) as H; rw E in H; done.
Qed.

Lemma leb_cmp_string a b : String.leb a b = (cmp_string a b <=? 0).
Proof. unfold String.leb, cmp_string. by destruct (String.compare a b). Qed.

Lemma ltb_cmp_string a b : String.ltb a b = (cmp_string a b <? 0).
Proof. unfold String.ltb, cmp_string. by destruct (String.compare a b). Qed.

#[export] Instance cmp_string_comparator : Comparator cmp_string.
Proof.
  split.
  - intros x y. unfold cmp_string. rw (String.compare_antisym x y).
    by destruct (String.compare y x).
  - intros x y z Hxy Hyz.
    assert (forall a b, String.le a b <-> cmp_string a b <= 0) as Hle.
    { intros a b. unfold String.le. rw leb_cmp_string Is_true_true. lia. }
    apply Hle. etrans; apply Hle; eassumption.
Qed.

Lemma ltb_negb_leb a b : String.ltb a b = negb (String.leb b a).
Proof.
  rw ltb_cmp_string leb_cmp_string. pose proof (cmp_antisym (cmp := cmp_string) a b). lia.
Qed.

Lemma string_leb_refl a : String.leb a a = true.
Proof. rw leb_cmp_string. by rewrite ->(proj2 (cmp_string_eq a a)). Qed.

Lemma string_leb_trans a b c : String.leb a b = true -> String.leb b c = true -> String.leb a c = true.
Proof.
  rw !leb_cmp_string. intros H1%Z.leb_le H2%Z.leb_le. apply Z.leb_le. by eapply (cmp_trans (cmp := cmp_string)).
Qed.

Lemma cmp_or_eq a b : cmp_or a b = 0 <-> a = 0 /\ b = 0.
Proof. unfold cmp_or. case_match; lia. Qed.

(** ** Ordered maps *)

Section JsMapLemmas.
Context {K V : Type} `{!EqDecision K}.
Implicit Types (m : list (K * V)).

Lemma jmap_get_set k k' v m :
  jmap_get k (jmap_set k' v m) = if decide (k = k') then Some v else jmap_get k m.
Proof.
  induction m as [|[k1 v1] m IH]; simpl; [done|].
  destruct (decide (k' = k1)) as [->|Hne]; simpl; repeat case_decide; congruence.
Qed.

Lemma jmap_get_set_eq k v m : jmap_get k (jmap_set k v m) = Some v.
Proof. rw jmap_get_set. by case_decide. Qed.

Lemma jmap_get_set_ne k k' v m : k <> k' -> jmap_get k (jmap_set k' v m) = jmap_get k m.
Proof. intros. rw jmap_get_set. by case_decide. Qed.

Lemma jmap_set_keys k v m :
  map fst (jmap_set k v m) = if decide (k ∈ map fst m) then map fst m else map fst m ++ [k].
Proof.
  induction m as [|[k1 v1] m IH]; cbn [map jmap_set fst app].
  - by destruct (decide (k ∈ [])) as [Hin|]; [apply elem_of_nil in Hin|].
  - destruct (decide (k = k1)) as [->|Hne]; cbn [map fst].
    + destruct (decide (k1 ∈ k1 :: map fst m)); [done | set_solver].
    + rw IH. destruct (decide (k ∈ map fst m)), (decide (k ∈ k1 :: map fst m)); set_solver.
Qed.

Lemma jmap_get_elem k v m : jmap_get k m = Some v -> (k, v) ∈ m.
Proof.
  induction m as [|[k1 v1] m IH]; simpl; [done|].
  case_decide; [intros [= ->]; subst; by constructor | intros; constructor; auto].
Qed.

Lemma jmap_get_None k m : jmap_get k m = None <-> k ∉ map fst m.
Proof.
  induction m as [|[k1 v1] m IH]; simpl; [set_solver|].
  case_decide; subst; [split; [done | set_solver] | rw IH; set_solver].
Qed.
End JsMapLemmas.

#[export] Instance cmp_or_comparator {A} (f g : A -> A -> Z) :
  Comparator f -> Comparator g -> Comparator (fun a b => cmp_or (f a b) (g a b)).
Proof.
  intros Hf Hg. split.
  - intros x y. unfold cmp_or. pose proof (cmp_antisym (cmp := f) x y). pose proof (cmp_antisym (cmp := g) x y).
    destruct (Z.eqb_spec (f x y) 0), (Z.eqb_spec (f y x) 0); lia.
  - intros x y z. unfold cmp_or.
    pose proof (cmp_trans (cmp := f) x y z) as T1. pose proof (cmp_trans (cmp := g) x y z) as T2.
    pose proof (cmp_trans (cmp := f) z x y) as T3. pose proof (cmp_trans (cmp := f) y z x) as T4.
    pose proof (cmp_antisym (cmp := f) x y). pose proof (cmp_antisym (cmp := f) y z).
    pose proof (cmp_antisym (cmp := f) x z).
    destruct (Z.eqb_spec (f x y) 0), (Z.eqb_spec (f y z) 0), (Z.eqb_spec (f x z) 0); lia.
Qed.

#[export] Instance cmp_on_comparator {A B} (h : A -> B) (f : B -> B -> Z) :
  Comparator f -> Comparator (fun a b => f (h a) (h b)).
Proof. intros Hf. split; intros *; [apply cmp_antisym | apply cmp_trans]. Qed.

(** Division and modulo by constants, for [lia]. *)
Ltac div_lia := Z.to_euclidean_division_equations; lia.

(** Distinct keys stay as they are listed. *)
Lemma elem_of_jset_add {A} `{EqDecision A} (s : list A) x y : y ∈ jset_add s x <-> y ∈ s \/ y = x.
Proof. unfold jset_add. case_decide; set_solver. Qed.

Lemma elem_of_jset_of {A} `{EqDecision A} (l : list A) y : y ∈ jset_of l <-> y ∈ l.
Proof.
  unfold jset_of. assert (forall s, y ∈ fold_left jset_add l s <-> y ∈ s \/ y ∈ l) as H.
  { induction l as [|x l IH]; intros s; simpl; [set_solver|]. rewrite IH elem_of_jset_add. set_solver. }
  rewrite H. set_solver.
Qed.

Lemma jmap_of_nodup {K V} `{EqDecision K} (l : list (K * V)) : NoDup (map fst l) -> jmap_of l = l.
Proof.
  unfold jmap_of. assert (forall acc, NoDup (map fst (acc ++ l)) ->
    fold_left (fun m kv => jmap_set kv.1 kv.2 m) l acc = (acc ++ l)%list) as H; [|by apply (H [])].
  induction l as [|[k v] l IH]; intros acc Hnd; cbn [fold_left fst snd]; [by rewrite app_nil_r|].
  assert (jmap_set k v acc = (acc ++ [(k, v)])%list) as ->.
  { rewrite map_app in Hnd. apply NoDup_app in Hnd as (_ & Hk & _).
    assert (k ∉ map fst acc) as Hn by (intros Hk'; apply (Hk k Hk'); cbn; by constructor). clear -Hn.
    induction acc as [|[k1 v1] acc IHa]; [done|]. cbn. rewrite decide_False; [|set_solver]. by rewrite IHa; [|set_solver]. }
  rewrite IH; by rewrite -app_assoc.
Qed.

Lemma jmap_of_get {K V} `{EqDecision K} (l : list (K * V)) k v :
  NoDup (map fst l) -> jmap_get k (jmap_of l) = Some v <-> (k, v) ∈ l.
Proof.
  intros Hnd. unfold jmap_of.
  assert (forall m, jmap_get k (fold_left (fun m kv => jmap_set (fst kv) (snd kv) m) l m) = Some v
    <-> (k, v) ∈ l \/ (k ∉ map fst l /\ jmap_get k m = Some v)) as H.
  { clear -Hnd. induction l as [|[k1 v1] l IH]; intros m; cbn [fold_left].
    - split; [intros; right; set_solver | intros [?|[_ ?]]; [set_solver | done]].
    - cbn [map] in Hnd. apply NoDup_cons in Hnd as [Hk Hnd]. rewrite IH; [|done]. cbn [fst snd map].
      rewrite jmap_get_set. destruct (decide (k = k1)) as [->|Hne].
      + split.
        * intros [Hin|[_ [= ->]]]; [|left; constructor]. destruct Hk. by apply (list_elem_of_fmap_2 fst) in Hin.
        * intros [Hin|[Hn _]]; [|set_solver]. apply elem_of_cons in Hin as [[= ->]|Hin]; [by right|].
          destruct Hk. by apply (list_elem_of_fmap_2 fst) in Hin.
      + split; intros [Hin|[Hn Hg]].
        * left. by constructor.
        * right. split; [set_solver | done].
        * apply elem_of_cons in Hin as [[= -> ->]|Hin]; [done | by left].
        * right. split; [set_solver | done]. }
  rewrite H. split; [intros [?|[_ ?]]; done | by left].
Qed.

(** ** Filters *)

Lemma elem_of_filter_b {A} (p : A -> bool) l x : x ∈ List.filter p l <-> x ∈ l /\ p x = true.
Proof. by rw !list_elem_of_In filter_In. Qed.

Lemma NoDup_map_filter {A B} (f : A -> B) p l : NoDup (map f l) -> NoDup (map f (List.filter p l)).
Proof.
  induction l as [|x l IH]; [done|]. cbn [map List.filter]. intros [Hx Hnd]%NoDup_cons.
  destruct (p x); [|by apply IH]. cbn [map]. apply NoDup_cons. split; [|by apply IH].
  intros (y & Hy & [Hin _]%elem_of_filter_b)%list_elem_of_fmap. apply Hx, list_elem_of_fmap. by exists y.
Qed.

(** Of the elements of a list with distinct keys, one has a given key. *)
Lemma NoDup_map_unique {A B} (f : A -> B) l x y : NoDup (map f l) -> x ∈ l -> y ∈ l -> f x = f y -> x = y.
Proof.
  induction l as [|z l IH]; [by intros _ ?%not_elem_of_nil|]. cbn [map]. intros [Hz Hnd]%NoDup_cons Hx Hy E.
  apply elem_of_cons in Hx as [->|Hx], Hy as [->|Hy]; [done|..|by apply IH]; destruct Hz.
  - rewrite E. by apply list_elem_of_fmap_2.
  - rewrite -E. by apply list_elem_of_fmap_2.
Qed.

Lemma filter_perm {A} (p : A -> bool) l k : l ≡ₚ k -> List.filter p l ≡ₚ List.filter p k.
Proof.
  induction 1 as [|x l k _ IH|x y l|l m k _ IH1 _ IH2]; simpl.
  - done.
  - by destruct (p x); [constructor|].
  - destruct (p x), (p y); try done. constructor.
  - by etrans.
Qed.

(** Sums and filters respect rearrangement. *)
#[export] Instance filter_proper {A} (p : A -> bool) : Proper (Permutation ==> Permutation) (List.filter p).
Proof. intros l k. apply filter_perm. Qed.

#[export] Instance sumZ_proper : Proper (Permutation ==> eq) sumZ.
Proof. intros l k. apply sumZ_perm. Qed.

Lemma filter_ext_in_b {A} (p q : A -> bool) l :
  (forall x, x ∈ l -> p x = q x) -> List.filter p l = List.filter q l.
Proof. intros H. apply filter_ext_in. intros x Hx. apply H. by apply list_elem_of_In. Qed.

Lemma filter_split {A} (p q r : A -> bool) l :
  (forall x, x ∈ l -> r x = p x || q x) -> (forall x, x ∈ l -> p x && q x = false) ->
  List.filter r l ≡ₚ List.filter p l ++ List.filter q l.
Proof.
  induction l as [|x l IH]; intros Hr Hpq; simpl; [done|].
  rw Hr; [|constructor]. pose proof (Hpq x ltac:(constructor)) as Hx.
  assert (List.filter r l ≡ₚ List.filter p l ++ List.filter q l) as IH'.
  { apply IH; intros y Hy; [apply Hr | apply Hpq]; by constructor. }
  destruct (p x), (q x); simpl in *; try done.
  - by constructor.
  - rw IH'. apply Permutation_middle.
Qed.

(** The groups of a key partition the elements that have one. *)
Lemma filter_groups {A K} (key : A -> option K) `{EqDecision K} (ks : list K) l :
  NoDup ks -> (forall x k, x ∈ l -> key x = Some k -> k ∈ ks) ->
  concat (map (fun k => List.filter (fun x => bool_decide (key x = Some k)) l) ks)
  ≡ₚ List.filter (fun x => bool_decide (is_Some (key x))) l.
Proof.
  intros Hnd Hks.
  assert (concat (map (fun k => List.filter (fun x => bool_decide (key x = Some k)) l) ks)
    ≡ₚ List.filter (fun x => match key x with Some k => bool_decide (k ∈ ks) | None => false end) l) as ->.
  { clear Hks. induction ks as [|k ks IH]; cbn [map concat].
    - induction l as [|x l IHl]; cbn [List.filter]; [done|].
      destruct (key x); [|done]. case_bool_decide as Hx; [by apply not_elem_of_nil in Hx | done].
    - apply NoDup_cons in Hnd as [Hk Hnd]. rewrite (IH Hnd). symmetry. apply filter_split.
      + intros x _. destruct (key x) as [k'|]; [|done].
        rewrite -bool_decide_or. apply bool_decide_ext. rewrite elem_of_cons. naive_solver.
      + intros x _. destruct (key x) as [k'|]; [|done]. rewrite -bool_decide_and. apply bool_decide_eq_false_2.
        intros [[= ->] ?]. done. }
  erewrite filter_ext_in_b; [reflexivity|]. intros x Hx. simpl.
  destruct (key x) as [k|] eqn:E; [|done]. rewrite !bool_decide_eq_true_2; [done | by eexists | by eapply Hks].
Qed.

#[export] Hint Rewrite @jmap_get_set_eq : docket.
#[export] Hint Resolve cmp_string_comparator : docket.
