(* ===== verification/JsString.v ===== *)
(** Strings and numerals as ECMAScript has them.

    A string is a sequence of code units, here the 8-bit characters of
    [String.string]; [<] on strings is the lexicographic order of the code
    units, which [String.compare] is.  Case mapping and white space are those
    of the ASCII range (plus U+00A0), which is all that ids, stamps, dates and
    currency codes use.  Numerals are positional, most significant digit first;
    [fixed] is the zero-padded, fixed-width form that makes string order agree
    with numeric order. *)
From S2P Require Export JsBase.
#[local] Open Scope string_scope.
#[local] Open Scope Z_scope.

(* stdpp keeps [String.append] from reducing; string literals need it to. *)
#[global] Arguments String.append !_ _ / : simpl nomatch.

(** * Definitions *)

(** ** Pieces of String.prototype *)

Definition js_slice (s : string) (from upto : nat) : string := String.substring from (upto - from) s.
Definition js_slice_from (s : string) (from : nat) : string :=
  js_slice s from (String.length s).
Definition char_at (s : string) (i : nat) : option ascii := String.get i s.

Fixpoint str_repeat (c : ascii) (n : nat) : string :=
  match n with O => "" | S n' => String c (str_repeat c n') end.

Definition padStart (s : string) (width : nat) (c : ascii) : string :=
  str_repeat c (width - String.length s) ++ s.
Definition padEnd (s : string) (width : nat) (c : ascii) : string :=
  s ++ str_repeat c (width - String.length s).

Definition startsWith (s p : string) : bool := String.prefix p s.
Fixpoint str_rev (s acc : string) : string :=
  match s with "" => acc | String c s' => str_rev s' (String c acc) end.
Definition endsWith (s p : string) : bool := String.prefix (str_rev p "") (str_rev s "").

(** [s.includes(t)]. *)
Fixpoint includes (s t : string) : bool :=
  String.prefix t s || match s with "" => false | String _ s' => includes s' t end.

(** [s.split(c)] for a one-character separator. *)
Fixpoint split_on (c : ascii) (s : string) : list string :=
  match s with
  | "" => [""]
  | String d s' =>
      if Ascii.eqb c d then "" :: split_on c s'
      else match split_on c s' with
           | [] => [String d ""]
           | w :: ws => String d w :: ws
           end
  end.

Fixpoint join (sep : string) (l : list string) : string :=
  match l with [] => "" | [x] => x | x :: l' => x ++ sep ++ join sep l' end.

Fixpoint str_map (f : ascii -> ascii) (s : string) : string :=
  match s with "" => "" | String c s' => String (f c) (str_map f s') end.
Fixpoint str_filter (p : ascii -> bool) (s : string) : string :=
  match s with "" => "" | String c s' => if p c then String c (str_filter p s') else str_filter p s' end.
Fixpoint str_forall (p : ascii -> bool) (s : string) : bool :=
  match s with "" => true | String c s' => p c && str_forall p s' end.

(** [s.replace(c, r)] with a string pattern: the first occurrence only. *)
Fixpoint replace_first (c : ascii) (r s : string) : string :=
  match s with
  | "" => ""
  | String d s' => if Ascii.eqb c d then r ++ s' else String d (replace_first c r s')
  end.

Definition code (c : ascii) : Z := Z.of_N (N_of_ascii c).
Definition chr (n : Z) : ascii := ascii_of_N (Z.to_N n).

(** White space: tab to carriage return, space, no-break space. *)
Definition is_ws (c : ascii) : bool :=
  ((9 <=? code c) && (code c <=? 13)) || (code c =? 32) || (code c =? 160).
Fixpoint trimStart (s : string) : string :=
  match s with
  | "" => ""
  | String c s' => if is_ws c then trimStart s' else s
  end.
Definition trim (s : string) : string := str_rev (trimStart (str_rev (trimStart s) "")) "".

(** [s.replace(/^\/+/, '')] *)
Fixpoint trimStart_slashes (s : string) : string :=
  match s with String c s' => if Ascii.eqb c "/" then trimStart_slashes s' else s | "" => "" end.

Definition is_lower (c : ascii) : bool := (97 <=? code c) && (code c <=? 122).
Definition is_upper (c : ascii) : bool := (65 <=? code c) && (code c <=? 90).
Definition is_digit (c : ascii) : bool := (48 <=? code c) && (code c <=? 57).
Definition up (c : ascii) : ascii := if is_lower c then chr (code c - 32) else c.
Definition low (c : ascii) : ascii := if is_upper c then chr (code c + 32) else c.
Definition toUpperCase (s : string) : string := str_map up s.
Definition toLowerCase (s : string) : string := str_map low s.

(** JavaScript's truthiness of a string. *)
Definition truthy (s : string) : bool := negb (String.eqb s "").

(** The double quote, for messages that contain one. *)
Definition dquote : string := String "034"%char EmptyString.

(** [localeCompare] collates as the host does: all the program relies on is that
    the order is a total preorder.  A component that sorts names takes it from here. *)
Class Locale : Type := {
  localeCompare : string -> string -> Z;
  localeCompare_order :: Comparator localeCompare }.

(** One such collation: code unit order. *)
#[program] Definition codeunit_locale : Locale := {| localeCompare := cmp_string |}.

(** ** Numerals *)

Definition digit_char (d : Z) : ascii := chr (if d <? 10 then 48 + d else 87 + d).
Definition digit_val (base : Z) (c : ascii) : option Z :=
  let n := code c in
  let v := if is_digit c then n - 48 else if (97 <=? n) && (n <=? 122) then n - 87
           else if (65 <=? n) && (n <=? 90) then n - 55 else 99 in
  if v <? base then Some v else None.

Fixpoint to_digits (fuel : nat) (base n : Z) (acc : string) : string :=
  match fuel with
  | O => acc
  | S f => let acc' := String (digit_char (n mod base)) acc in
           if n <? base then acc' else to_digits f base (n / base) acc'
  end.

(** [n.toString(base)] of an integer; [String(n)] is base ten. *)
Definition num_to_string_base (base n : Z) : string :=
  let digits m := to_digits (S (Z.to_nat (Z.log2 m))) base m "" in
  if n <? 0 then "-" ++ digits (- n) else digits n.
Definition num_to_string (n : Z) : string := num_to_string_base 10 n.

(** Exactly [w] digits of [n], before [acc]. *)
Fixpoint fixed (base : Z) (w : nat) (n : Z) (acc : string) : string :=
  match w with
  | O => acc
  | S w' => fixed base w' (n / base) (String (digit_char (n mod base)) acc)
  end.

Fixpoint parse_digits_acc (base acc : Z) (s : string) : option Z :=
  match s with
  | "" => Some acc
  | String c s' =>
      match digit_val base c with
      | Some v => parse_digits_acc base (acc * base + v) s'
      | None => None
      end
  end.

(** A nonempty string of digits and nothing else. *)
Definition parse_digits (base : Z) (s : string) : option Z :=
  if String.eqb s "" then None else parse_digits_acc base 0 s.

(** * Lemmas *)

Lemma code_chr n : 0 <= n < 256 -> code (chr n) = n.
Proof.
  intros H. unfold code, chr. rw N_ascii_embedding; [|lia].
  change 256%N with (Z.to_N 256). lia.
Qed.

Lemma chr_code c : chr (code c) = c.
Proof. unfold chr, code. rw N2Z.id. apply ascii_N_embedding. Qed.

Lemma ascii_compare_code a b : Ascii.compare a b = (code a ?= code b).
Proof. unfold Ascii.compare, code. by rw N2Z.inj_compare. Qed.

Lemma code_digit_char d : 0 <= d < 36 -> code (digit_char d) = if d <? 10 then 48 + d else 87 + d.
Proof. intros H. unfold digit_char. apply code_chr. destruct (Z.ltb_spec d 10); lia. Qed.

Lemma digit_val_char base d : 0 <= d < base -> base <= 36 -> digit_val base (digit_char d) = Some d.
Proof.
  intros Hd Hb. unfold digit_val, is_digit. rw code_digit_char; [|lia].
  destruct (Z.ltb_spec d 10).
  - destruct (Z.leb_spec 48 (48 + d)), (Z.leb_spec (48 + d) 57); try lia. simpl.
    destruct (Z.ltb_spec (48 + d - 48) base); [f_equal; lia | lia].
  - destruct (Z.leb_spec 48 (87 + d)), (Z.leb_spec (87 + d) 57); try lia. simpl.
    destruct (Z.leb_spec 97 (87 + d)), (Z.leb_spec (87 + d) 122); try lia. simpl.
    destruct (Z.ltb_spec (87 + d - 87) base); [f_equal; lia | lia].
Qed.

Lemma digit_val_range base c v : digit_val base c = Some v -> 0 <= v < base.
Proof.
  unfold digit_val, is_digit.
  destruct (Z.leb_spec 48 (code c)), (Z.leb_spec (code c) 57),
    (Z.leb_spec 97 (code c)), (Z.leb_spec (code c) 122),
    (Z.leb_spec 65 (code c)), (Z.leb_spec (code c) 90); cbn [andb];
    match goal with |- (if ?x <? ?y then _ else _) = _ -> _ => destruct (Z.ltb_spec x y) end;
    intros [= <-]; lia.
Qed.

Lemma compare_digit_char a b :
  0 <= a < 36 -> 0 <= b < 36 -> Ascii.compare (digit_char a) (digit_char b) = (a ?= b).
Proof.
  intros Ha Hb. rw ascii_compare_code !code_digit_char; [|lia..].
  destruct (Z.ltb_spec a 10), (Z.ltb_spec b 10), (Z.compare_spec a b);
    (apply Z.compare_eq_iff || apply Z.compare_lt_iff || apply Z.compare_gt_iff); lia.
Qed.

Lemma split_on_nonempty c s : split_on c s <> [].
Proof. destruct s as [|d s]; cbn; [done|]. destruct (Ascii.eqb c d); [done|]. by destruct (split_on c s). Qed.

Lemma string_compare_refl s : String.compare s s = Eq.
Proof. pose proof (proj2 (cmp_string_eq s s) eq_refl). unfold cmp_string in *. by case_match. Qed.

Lemma str_app_nil_r (s : string) : s ++ "" = s.
Proof. induction s as [|c s IH]; simpl; [done | by rw IH]. Qed.

Lemma str_app_assoc (a b c : string) : (a ++ b) ++ c = a ++ b ++ c.
Proof. induction a as [|x a IH]; simpl; [done | by rw IH]. Qed.

Lemma length_str_app (a b : string) : String.length (a ++ b) = (String.length a + String.length b)%nat.
Proof. induction a as [|x a IH]; simpl; [done | by rw IH]. Qed.

(** A common prefix does not count. *)
Lemma compare_app p s t : String.compare (p ++ s) (p ++ t) = String.compare s t.
Proof.
  induction p as [|c p IH]; simpl; [done|].
  rw ascii_compare_code Z.compare_refl. exact IH.
Qed.

Section Fixed.
Context (base : Z) (Hbase : 2 <= base <= 36).

Lemma length_fixed w n acc : String.length (fixed base w n acc) = (w + String.length acc)%nat.
Proof.
  revert n acc. induction w as [|w IH]; intros n acc; simpl; [done|].
  rw IH. simpl. lia.
Qed.

Lemma fixed_zero w acc : fixed base w 0 acc = str_repeat "0" w ++ acc.
Proof.
  revert acc. induction w as [|w IH]; intros acc; simpl; [done|].
  rw Z.div_0_l; try lia. rw Z.mod_0_l; try lia. rw IH. change (digit_char 0) with "0"%char.
  clear IH. induction w as [|w IH]; simpl; [done | by f_equal].
Qed.

Lemma fixed_app w n acc : fixed base w n acc = fixed base w n "" ++ acc.
Proof.
  revert n acc. induction w as [|w IH]; intros n acc; simpl; [done|].
  rw (IH _ (String _ acc)) (IH _ (String _ "")) str_app_assoc. done.
Qed.

Lemma to_digits_fixed w f n acc :
  (1 <= w)%nat -> (1 <= f)%nat -> 0 <= n < base ^ Z.of_nat w -> n < base ^ Z.of_nat f ->
  exists z, fixed base w n acc = str_repeat "0" z ++ to_digits f base n acc
    /\ (z + String.length (to_digits f base n acc) = w + String.length acc)%nat.
Proof.
  revert f n acc. induction w as [|w IH]; intros f n acc Hw Hf Hn Hnf; [lia|].
  destruct f as [|f]; [lia|]. cbn [fixed to_digits].
  destruct (Z.ltb_spec n base) as [Hsmall|Hbig].
  - exists w. rw Z.div_small; try lia. rw fixed_zero. simpl. split; [done | lia].
  - rw Nat2Z.inj_succ Z.pow_succ_r in Hn; try lia. rw Nat2Z.inj_succ Z.pow_succ_r in Hnf; try lia.
    assert (0 <= n / base) by (apply Z.div_pos; lia).
    assert (n / base < base ^ Z.of_nat w) by (apply Z.div_lt_upper_bound; lia).
    assert (n / base < base ^ Z.of_nat f) by (apply Z.div_lt_upper_bound; lia).
    assert (1 <= n / base) by (apply Z.div_le_lower_bound; lia).
    destruct w as [|w]; [simpl in *; lia|]. destruct f as [|f]; [simpl in *; lia|].
    destruct (IH (S f) (n / base) (String (digit_char (n mod base)) acc)) as (z & E & L); [lia..|].
    exists z. rw E. split; [done|]. simpl in L |- *. lia.
Qed.

(** Padding a short enough numeral gives the fixed-width form. *)
Lemma padStart_fixed w n :
  (1 <= w)%nat -> 0 <= n < base ^ Z.of_nat w ->
  padStart (num_to_string_base base n) w "0" = fixed base w n "".
Proof.
  intros Hw Hn. unfold padStart, num_to_string_base.
  destruct (Z.ltb_spec n 0); [lia|].
  destruct (to_digits_fixed w (S (Z.to_nat (Z.log2 n))) n "") as (z & E & L); [lia..| |].
  - rw Nat2Z.inj_succ Z2Nat.id; [|apply Z.log2_nonneg].
    assert (n < 2 ^ Z.succ (Z.log2 n)).
    { destruct (Z.eq_dec n 0) as [->|]; [done|]. apply Z.log2_spec. lia. }
    assert (2 ^ Z.succ (Z.log2 n) <= base ^ Z.succ (Z.log2 n)).
    { apply Z.pow_le_mono_l. lia. }
    lia.
  - rw E. cbv zeta. set (d := to_digits _ _ _ _) in *. change (String.length "") with 0%nat in L.
    f_equal. f_equal. lia.
Qed.

(** The high digits, then the low ones. *)
Lemma fixed_split w e n acc :
  0 <= n -> fixed base (w + e) n acc = fixed base w (n / base ^ Z.of_nat e) (fixed base e n acc).
Proof.
  revert n acc. induction e as [|e IH]; intros n acc Hn.
  - rw Nat.add_0_r. simpl. by rw Z.div_1_r.
  - rw Nat.add_succ_r. cbn [fixed]. rw IH; [|apply Z.div_pos; lia].
    rw Nat2Z.inj_succ Z.pow_succ_r; [|lia]. by rw Z.div_div; [|lia|apply Z.pow_pos_nonneg; lia].
Qed.

Lemma to_digits_is_fixed f n acc :
  0 <= n < 2 ^ Z.of_nat f -> (1 <= f)%nat ->
  exists w, (1 <= w)%nat /\ 0 <= n < base ^ Z.of_nat w /\ to_digits f base n acc = fixed base w n acc.
Proof.
  revert n acc. induction f as [|f IH]; intros n acc Hn Hf; [lia|]. cbn [to_digits].
  destruct (Z.ltb_spec n base).
  - exists 1%nat. split_and!; [lia|lia|rw Z.pow_1_r; lia|done].
  - rw Nat2Z.inj_succ Z.pow_succ_r in Hn; try lia.
    assert (0 <= n / base < 2 ^ Z.of_nat f) as Hd.
    { split; [apply Z.div_pos; lia|]. apply Z.div_lt_upper_bound; [lia|]. nia. }
    destruct f as [|f]; [change (2 ^ Z.of_nat 0) with 1 in *; lia|].
    destruct (IH (n / base) (String (digit_char (n mod base)) acc) Hd) as (w & Hw & Hb & ->); [lia|].
    exists (S w). split_and!; [lia|lia| |done]. rw Nat2Z.inj_succ Z.pow_succ_r; [|lia].
    pose proof (Z_div_mod_eq_full n base). pose proof (Z.mod_pos_bound n base). nia.
Qed.

(** A numeral padded to a minimum width is a fixed-width one. *)
Lemma padStart_numeral w n :
  (1 <= w)%nat -> 0 <= n ->
  exists k, (w <= k)%nat /\ 0 <= n < base ^ Z.of_nat k
    /\ padStart (num_to_string_base base n) w "0" = fixed base k n "".
Proof.
  intros Hw Hn.
  destruct (to_digits_is_fixed (S (Z.to_nat (Z.log2 n))) n "") as (k & Hk & Hb & E); [|lia|].
  { split; [done|]. rw Nat2Z.inj_succ Z2Nat.id; [|apply Z.log2_nonneg].
    destruct (Z.eq_dec n 0) as [->|]; [done|]. apply Z.log2_spec. lia. }
  destruct (Nat.le_gt_cases k w).
  - assert (base ^ Z.of_nat k <= base ^ Z.of_nat w) by (apply Z.pow_le_mono_r; lia).
    exists w. split_and!; [done|lia|lia|]. apply padStart_fixed; [done|lia].
  - exists k. split_and!; [lia|lia|lia|]. unfold padStart, num_to_string_base.
    destruct (Z.ltb_spec n 0); [lia|]. rw E length_fixed.
    change (String.length "") with 0%nat. by replace (w - (k + 0))%nat with 0%nat by lia.
Qed.

Lemma str_forall_fixed P w n acc :
  (forall d, 0 <= d < base -> P (digit_char d) = true) ->
  str_forall P acc = true -> str_forall P (fixed base w n acc) = true.
Proof.
  intros HP. revert n acc. induction w as [|w IH]; intros n acc Hacc; cbn [fixed]; [done|].
  apply IH. cbn [str_forall]. rw HP; [done|]. apply Z.mod_pos_bound. lia.
Qed.

Lemma parse_fixed_acc w n acc s :
  0 <= n < base ^ Z.of_nat w ->
  parse_digits_acc base acc (fixed base w n s) = parse_digits_acc base (acc * base ^ Z.of_nat w + n) s.
Proof.
  revert n acc s. induction w as [|w IH]; intros n acc s Hn; cbn [fixed].
  - simpl in Hn. f_equal. simpl. lia.
  - rw Nat2Z.inj_succ Z.pow_succ_r in Hn; try lia.
    rw IH; [|split; [apply Z.div_pos; lia | apply Z.div_lt_upper_bound; lia]].
    cbn [parse_digits_acc]. pose proof (Z.mod_pos_bound n base).
    rw digit_val_char; try lia. f_equal.
    rw Nat2Z.inj_succ Z.pow_succ_r; try lia.
    pose proof (Z_div_mod_eq_full n base). nia.
Qed.

Lemma parse_fixed w n :
  (1 <= w)%nat -> 0 <= n < base ^ Z.of_nat w -> parse_digits base (fixed base w n "") = Some n.
Proof.
  intros Hw Hn. unfold parse_digits.
  destruct (String.eqb_spec (fixed base w n "") "") as [E|_].
  - apply (f_equal String.length) in E. rw length_fixed in E. simpl in E. lia.
  - rw parse_fixed_acc; [|done]. simpl. f_equal; lia.
Qed.

Lemma parse_digits_acc_bound acc s n :
  0 <= acc -> parse_digits_acc base acc s = Some n ->
  0 <= n < (acc + 1) * base ^ Z.of_nat (String.length s).
Proof.
  revert acc. induction s as [|c s IH]; intros acc Hacc; cbn [parse_digits_acc String.length].
  - intros [= <-]. simpl. lia.
  - destruct (digit_val base c) as [v|] eqn:E; [|done]. apply digit_val_range in E.
    intros Hn. apply IH in Hn; [|nia]. rw Nat2Z.inj_succ Z.pow_succ_r; try lia.
    assert (0 < base ^ Z.of_nat (String.length s)) by (apply Z.pow_pos_nonneg; lia). nia.
Qed.

(** What [\d{w}] reads is below [base ^ w]. *)
Lemma parse_digits_bound s n :
  parse_digits base s = Some n -> 0 <= n < base ^ Z.of_nat (String.length s).
Proof.
  unfold parse_digits. destruct (String.eqb s ""); [done|].
  intros H%parse_digits_acc_bound; lia.
Qed.

(** Fixed-width numerals compare as the numbers they write. *)
Lemma compare_fixed w a b s t :
  0 <= a < base ^ Z.of_nat w -> 0 <= b < base ^ Z.of_nat w ->
  String.compare (fixed base w a s) (fixed base w b t)
  = match a ?= b with Eq => String.compare s t | c => c end.
Proof.
  revert a b s t. induction w as [|w IH]; intros a b s t Ha Hb; cbn [fixed].
  - simpl in *. assert (a = b) as -> by lia. by rw Z.compare_refl.
  - rw !Nat2Z.inj_succ !Z.pow_succ_r in Ha Hb; try lia.
    rw IH; [|split; [apply Z.div_pos; lia | apply Z.div_lt_upper_bound; lia]..].
    cbn [String.compare].
    pose proof (Z.mod_pos_bound a base). pose proof (Z.mod_pos_bound b base).
    rw compare_digit_char; try lia.
    pose proof (Z_div_mod_eq_full a base). pose proof (Z_div_mod_eq_full b base).
    destruct (Z.compare_spec (a / base) (b / base)) as [E|E|E];
      destruct (Z.compare_spec a b) as [F|F|F]; try nia; try done.
    + subst. by rw Z.compare_refl.
    + rw (proj2 (Z.compare_lt_iff (a mod base) (b mod base))); [done | nia].
    + rw (proj2 (Z.compare_gt_iff (a mod base) (b mod base))); [done | nia].
Qed.
End Fixed.

Lemma up_idemp c : up (up c) = up c.
Proof.
  unfold up at 2 3. destruct (is_lower c) eqn:E; [|by unfold up; rw E].
  unfold is_lower in E. unfold up, is_lower. rw code_chr; try lia.
  destruct (Z.leb_spec 97 (code c - 32)); [lia | done].
Qed.

Lemma toUpperCase_idemp s : toUpperCase (toUpperCase s) = toUpperCase s.
Proof. unfold toUpperCase. induction s as [|c s IH]; simpl; [done|]. by rw up_idemp IH. Qed.

Lemma join_split c s : join (String c "") (split_on c s) = s.
Proof.
  induction s as [|d s IH]; simpl; [done|].
  assert (split_on c s <> []) as Hne.
  { destruct s as [|e s]; simpl; [done|]. destruct (Ascii.eqb c e); [done|].
    by destruct (split_on c s). }
  destruct (Ascii.eqb_spec c d) as [->|Hd].
  - destruct (split_on d s) as [|w ws] eqn:E; [done|].
    change (String d (join (String d "") (w :: ws)) = String d s). f_equal. exact IH.
  - destruct (split_on c s) as [|w ws] eqn:E; [done|].
    rw -IH. by destruct ws.
Qed.

Lemma split_on_none c s : str_forall (fun d => negb (Ascii.eqb c d)) s = true -> split_on c s = [s].
Proof.
  induction s as [|d s IH]; simpl; [done|]. intros [Hd Hs]%andb_prop.
  apply negb_true_iff in Hd. by rw Hd IH.
Qed.

Lemma split_on_app c s t :
  str_forall (fun d => negb (Ascii.eqb c d)) s = true ->
  split_on c (s ++ String c t) = s :: split_on c t.
Proof.
  induction s as [|d s IH]; simpl.
  - intros _. by rw Ascii.eqb_refl.
  - intros [Hd Hs]%andb_prop. apply negb_true_iff in Hd. by rw Hd IH.
Qed.

(** ** Predicates on every character *)

Lemma str_forall_app P s t : str_forall P (s ++ t) = str_forall P s && str_forall P t.
Proof. induction s as [|c s IH]; simpl; [done|]. by rw IH andb_assoc. Qed.

Lemma str_forall_impl P Q s :
  (forall c, P c = true -> Q c = true) -> str_forall P s = true -> str_forall Q s = true.
Proof.
  intros HPQ. induction s as [|c s IH]; simpl; [done|].
  intros [Hc Hs]%andb_prop. by rw HPQ // IH.
Qed.

Lemma str_filter_all P s : str_forall P s = true -> str_filter P s = s.
Proof. induction s as [|c s IH]; simpl; [done|]. intros [-> Hs]%andb_prop. by rw IH. Qed.

Lemma replace_first_none c r s :
  str_forall (fun d => negb (Ascii.eqb c d)) s = true -> replace_first c r s = s.
Proof.
  induction s as [|d s IH]; simpl; [done|]. intros [Hd Hs]%andb_prop.
  apply negb_true_iff in Hd. by rw Hd IH.
Qed.

(** ** Reversal, trimming, slices *)

Lemma str_rev_acc s acc : str_rev s acc = str_rev s "" ++ acc.
Proof.
  revert acc. induction s as [|c s IH]; intros acc; simpl; [done|].
  rw (IH (String c acc)) (IH (String c "")) str_app_assoc. done.
Qed.

Lemma str_rev_app s t : str_rev (s ++ t) "" = str_rev t "" ++ str_rev s "".
Proof.
  induction s as [|c s IH]; simpl; [by rw str_app_nil_r|].
  by rw str_rev_acc (str_rev_acc s (String c "")) IH str_app_assoc.
Qed.

Lemma str_rev_involutive s : str_rev (str_rev s "") "" = s.
Proof.
  induction s as [|c s IH]; simpl; [done|]. rw (str_rev_acc s). rw str_rev_app IH. done.
Qed.

Lemma str_forall_rev P s : str_forall P (str_rev s "") = str_forall P s.
Proof.
  induction s as [|c s IH]; simpl; [done|]. rw (str_rev_acc s) str_forall_app IH. simpl.
  rw andb_true_r. apply andb_comm.
Qed.

Lemma trimStart_none s : str_forall (fun c => negb (is_ws c)) s = true -> trimStart s = s.
Proof. destruct s as [|c s]; simpl; [done|]. intros [Hc%negb_true_iff _]%andb_prop. by rw Hc. Qed.

Lemma trim_none s : str_forall (fun c => negb (is_ws c)) s = true -> trim s = s.
Proof.
  intros H. unfold trim. rw (trimStart_none s) // trimStart_none; [apply str_rev_involutive|].
  by rw str_forall_rev.
Qed.

Lemma startsWith_common p a b : startsWith (p ++ a) (p ++ b) = startsWith a b.
Proof.
  unfold startsWith. induction p as [|c p IH]; [done|]. cbn [append String.prefix].
  by destruct (ascii_dec c c).
Qed.

Lemma prefix_split p s : String.prefix p s = true -> exists t, s = p ++ t.
Proof.
  revert s. induction p as [|c p IH]; intros s H; [by exists s|]. destruct s as [|d s]; [done|]. cbn in H.
  destruct (ascii_dec c d) as [->|]; [|done]. destruct (IH s H) as (t & ->). by exists t.
Qed.

Lemma endsWith_split s t : endsWith s t = true -> exists u, s = u ++ t.
Proof.
  unfold endsWith. intros (r & E)%prefix_split. exists (str_rev r "").
  rewrite -(str_rev_involutive s) E str_rev_app. by rewrite str_rev_involutive.
Qed.

Lemma substring_all s : String.substring 0 (String.length s) s = s.
Proof. induction s as [|c s IH]; simpl; [done | by rw IH]. Qed.

Lemma slice_app_l s t : js_slice (s ++ t) 0 (String.length s) = s.
Proof.
  unfold js_slice. rw Nat.sub_0_r. induction s as [|c s IH]; simpl; [by destruct t | by rw IH].
Qed.

Lemma slice_app_r s t : js_slice_from (s ++ t) (String.length s) = t.
Proof.
  unfold js_slice_from, js_slice. rw length_str_app.
  replace (String.length s + String.length t - String.length s)%nat with (String.length t) by lia.
  induction s as [|c s IH]; simpl; [apply substring_all | done].
Qed.
