(* ===== verification/Hlc.v ===== *)
(** The hybrid logical clock ([app/src/app/core/util/hlc.ts]): its stamps, the
    clock's two operations, and why plain string comparison of stamps is causal
    comparison. *)
From S2P Require Export JsString.
#[local] Open Scope string_scope.
#[local] Open Scope Z_scope.

(** * Definitions *)

Record HlcState : Type := mkHlcState { physical : Z; counter : Z }.

Definition PHYSICAL_WIDTH : nat := 19.
Definition COUNTER_WIDTH : nat := 4.
Definition MAX_COUNTER : Z := 65535.
Definition MAX_DRIFT_MS : Z := 60 * 60 * 1000.
(** [Number.MAX_SAFE_INTEGER]. *)
Definition MAX_SAFE_INTEGER : Z := 9007199254740991.

Definition encodeHlc (state : HlcState) (device : string) : string :=
  padStart (num_to_string (physical state)) PHYSICAL_WIDTH "0" ++ "-"
  ++ padStart (num_to_string_base 16 (counter state)) COUNTER_WIDTH "0" ++ "-" ++ device.

(** The two length checks are all the validation the code does; on fields that are
    not plain digits it goes on with whatever [Number] and [parseInt] give. *)
Definition decodeHlc (stamp : string) : result (HlcState * string) :=
  let malformed := Throw (JsError ("Malformed HLC stamp: " ++ stamp)) in
  match split_on "-" stamp with
  | [p; c; device] =>
      if negb (Nat.eqb (String.length p) PHYSICAL_WIDTH)
         || negb (Nat.eqb (String.length c) COUNTER_WIDTH)
      then malformed
      else match parse_digits 10 p, parse_digits 16 c with
           | Some physical, Some counter =>
               if physical <=? MAX_SAFE_INTEGER then Ok (mkHlcState physical counter, device)
               else Throw (OutsideModel "a physical time beyond 2^53")
           | _, _ => Throw (OutsideModel "a stamp field that is not a plain numeral")
           end
  | _ => malformed
  end.

(** [class HybridLogicalClock] ; [now] is passed to the operations that read it. *)
Record HybridLogicalClock : Type := mkClock { clock_device : string; clock_state : HlcState }.

Definition newClock (device : string) (initial : option HlcState) : HybridLogicalClock :=
  mkClock device (default (mkHlcState 0 0) initial).

Definition snapshot (c : HybridLogicalClock) : HlcState := clock_state c.

Definition bump (st : HlcState) : result Z :=
  let next := counter st + 1 in
  if next >? MAX_COUNTER then Throw (JsError "HLC counter overflow") else Ok next.

Definition tick (now : Z) : M HybridLogicalClock string := fun c =>
  let wall := now in
  if wall >? physical (clock_state c) then
    let st := mkHlcState wall 0 in (Ok (encodeHlc st (clock_device c)), mkClock (clock_device c) st)
  else
    match bump (clock_state c) with
    | Throw e => (Throw e, c)
    | Ok counter =>
        let st := mkHlcState (physical (clock_state c)) counter in
        (Ok (encodeHlc st (clock_device c)), mkClock (clock_device c) st)
    end.

Definition observe (stamp : string) (now : Z) : M HybridLogicalClock string := fun c =>
  match decodeHlc stamp with
  | Throw e => (Throw e, c)
  | Ok (remote, _) =>
      let wall := now in
      if physical remote - wall >? MAX_DRIFT_MS then
        (Throw (ClockDriftError (physical remote - wall)), c)
      else
        let phys := Z.max wall (Z.max (physical (clock_state c)) (physical remote)) in
        let ctr :=
          if (phys =? physical (clock_state c)) && (phys =? physical remote)
          then Z.max (counter (clock_state c)) (counter remote) + 1
          else if phys =? physical (clock_state c) then counter (clock_state c) + 1
          else if phys =? physical remote then counter remote + 1
          else 0 in
        if ctr >? MAX_COUNTER then (Throw (JsError "HLC counter overflow"), c)
        else let st := mkHlcState phys ctr in
             (Ok (encodeHlc st (clock_device c)), mkClock (clock_device c) st)
  end.

Definition compareHlc (a b : string) : Z :=
  if String.ltb a b then -1 else if String.ltb b a then 1 else 0.

(** A life of a clock: the calls made on it, each with the wall time it read.
    A call that throws yields no stamp. *)
Inductive clock_call : Type :=
| Tick (now : Z)
| Observe (stamp : string) (now : Z).

Definition clock_call_run (call : clock_call) : M HybridLogicalClock string :=
  match call with Tick now => tick now | Observe stamp now => observe stamp now end.

Fixpoint clock_run (calls : list clock_call) (c : HybridLogicalClock)
  : list string * HybridLogicalClock :=
  match calls with
  | [] => ([], c)
  | call :: calls' =>
      let '(r, c') := clock_call_run call c in
      let '(stamps, c'') := clock_run calls' c' in
      (match r with Ok stamp => stamp :: stamps | Throw _ => stamps end, c'')
  end.

(** * Specification *)

(** States in the range the fixed-width encoding has room for. *)
Definition hlc_ok (st : HlcState) : Prop :=
  0 <= physical st <= MAX_SAFE_INTEGER /\ 0 <= counter st <= MAX_COUNTER.

(** Causal order of states: physical time, then counter. *)
Definition hlc_lt (a b : HlcState) : Prop :=
  physical a < physical b \/ (physical a = physical b /\ counter a < counter b).

Definition no_dash (s : string) : bool := str_forall (fun c => negb (Ascii.eqb "-" c)) s.

Definition call_now (call : clock_call) : Z :=
  match call with Tick now => now | Observe _ now => now end.
Definition call_ok (call : clock_call) : Prop := 0 <= call_now call <= MAX_SAFE_INTEGER.

(** * Lemmas *)

Lemma compareHlc_cmp a b : compareHlc a b = cmp_string a b.
Proof.
  unfold compareHlc, cmp_string, String.ltb. rw (String.compare_antisym b a).
  by destruct (String.compare a b).
Qed.

#[export] Instance compareHlc_comparator : Comparator compareHlc.
Proof.
  split; intros *; rw !compareHlc_cmp; [apply cmp_antisym | apply cmp_trans].
Qed.

Lemma encodeHlc_fixed st dev :
  hlc_ok st ->
  encodeHlc st dev = fixed 10 19 (physical st) ("-" ++ fixed 16 4 (counter st) ("-" ++ dev)).
Proof.
  intros [Hp Hc]. unfold encodeHlc, num_to_string, MAX_SAFE_INTEGER, MAX_COUNTER in *.
  rw !padStart_fixed; try (unfold PHYSICAL_WIDTH, COUNTER_WIDTH; simpl; lia).
  unfold PHYSICAL_WIDTH, COUNTER_WIDTH.
  rw (fixed_app 10 19 _ (_ ++ _)) (fixed_app 16 4 _ ("-" ++ dev)). done.
Qed.

Lemma no_dash_fixed base w n acc :
  2 <= base <= 16 -> no_dash acc = true -> no_dash (fixed base w n acc) = true.
Proof.
  intros Hb. revert n acc. induction w as [|w IH]; intros n acc Hacc; cbn [fixed]; [done|].
  apply IH. unfold no_dash in *. cbn [str_forall]. apply andb_true_intro. split; [|done].
  apply negb_true_iff, Ascii.eqb_neq. intros E. apply (f_equal code) in E.
  pose proof (Z.mod_pos_bound n base). rw code_digit_char in E; [|lia].
  change (code "-") with 45 in E. case_match; lia.
Qed.

Lemma compare_encodeHlc s1 s2 d1 d2 :
  hlc_ok s1 -> hlc_ok s2 ->
  String.compare (encodeHlc s1 d1) (encodeHlc s2 d2)
  = match physical s1 ?= physical s2 with
    | Eq => match counter s1 ?= counter s2 with
            | Eq => String.compare d1 d2
            | c => c
            end
    | c => c
    end.
Proof.
  intros H1 H2. rw !encodeHlc_fixed; [|done..].
  destruct H1 as [Hp1 Hc1], H2 as [Hp2 Hc2]. unfold MAX_SAFE_INTEGER, MAX_COUNTER in *.
  rw compare_fixed; try (simpl; lia). case_match; [|done..].
  rw (compare_app "-") compare_fixed; try (simpl; lia). case_match; [|done..].
  apply (compare_app "-").
Qed.

Lemma hlc_lt_trans a b c : hlc_lt a b -> hlc_lt b c -> hlc_lt a c.
Proof. unfold hlc_lt. lia. Qed.

Lemma encode_lt s1 s2 dev :
  hlc_ok s1 -> hlc_ok s2 -> hlc_lt s1 s2 -> compareHlc (encodeHlc s1 dev) (encodeHlc s2 dev) < 0.
Proof.
  intros H1 H2 Hlt. rw compareHlc_cmp. unfold cmp_string. rw compare_encodeHlc; [|done..].
  destruct Hlt as [Hlt|[-> Hlt]].
  - by rw (proj2 (Z.compare_lt_iff _ _) Hlt).
  - rw Z.compare_refl. by rw (proj2 (Z.compare_lt_iff _ _) Hlt).
Qed.

Lemma decodeHlc_ok stamp st dev : decodeHlc stamp = Ok (st, dev) -> hlc_ok st.
Proof.
  unfold decodeHlc. destruct (split_on _ stamp) as [|p [|c [|d [|]]]]; try done.
  destruct (Nat.eqb_spec (String.length p) PHYSICAL_WIDTH); [|done].
  destruct (Nat.eqb_spec (String.length c) COUNTER_WIDTH) as [Hlen|]; [|done]. simpl.
  destruct (parse_digits 10 p) as [x|] eqn:Ep; [|done].
  destruct (parse_digits 16 c) as [y|] eqn:Ec; [|done].
  destruct (Z.leb_spec x MAX_SAFE_INTEGER); [|done]. intros [= <- <-].
  apply parse_digits_bound in Ep; [|lia]. apply parse_digits_bound in Ec; [|lia].
  rw Hlen in Ec. change (16 ^ Z.of_nat COUNTER_WIDTH) with 65536 in Ec.
  unfold hlc_ok, MAX_COUNTER. simpl. lia.
Qed.

(** What one successful call does: the clock moves strictly forward. *)
Lemma clock_call_forward call c stamp c' :
  call_ok call -> hlc_ok (clock_state c) -> clock_call_run call c = (Ok stamp, c') ->
  hlc_ok (clock_state c') /\ hlc_lt (clock_state c) (clock_state c') /\ clock_device c' = clock_device c
  /\ stamp = encodeHlc (clock_state c') (clock_device c).
Proof.
  intros Hcall Hok. destruct call as [now|remote now]; simpl; unfold call_ok in Hcall; simpl in Hcall.
  - unfold tick, bump. destruct (Z.gtb_spec now (physical (clock_state c))).
    + intros [= <- <-]. unfold hlc_ok, hlc_lt, MAX_COUNTER in *. simpl. repeat split; lia.
    + destruct (Z.gtb_spec (counter (clock_state c) + 1) MAX_COUNTER); [done|].
      intros [= <- <-]. unfold hlc_ok, hlc_lt in *. simpl. repeat split; lia.
  - unfold observe. destruct (decodeHlc remote) as [[r rd]|] eqn:E; [|done].
    apply decodeHlc_ok in E. destruct (Z.gtb_spec (physical r - now) MAX_DRIFT_MS); [done|].
    set (phys := Z.max _ _).
    match goal with |- context [?x >? MAX_COUNTER] => set (ctr := x) end.
    destruct (Z.gtb_spec ctr MAX_COUNTER); [done|].
    intros [= <- <-]. unfold hlc_ok, hlc_lt in *. simpl.
    assert (hlc_lt (clock_state c) (mkHlcState phys ctr) /\ 0 <= ctr) as [Hlt Hpos].
    { unfold hlc_lt, ctr. simpl.
      destruct (Z.eqb_spec phys (physical (clock_state c))), (Z.eqb_spec phys (physical r)); simpl; lia. }
    unfold hlc_lt in Hlt. simpl in Hlt. repeat split; try lia; unfold phys; lia.
Qed.

Lemma clock_call_throw call c e c' : clock_call_run call c = (Throw e, c') -> c' = c.
Proof.
  destruct call; simpl; unfold tick, observe, bump; repeat case_match; congruence.
Qed.

(** Every stamp of a run lies above the state it started from, and they increase. *)
Lemma clock_run_above calls c :
  Forall call_ok calls -> hlc_ok (clock_state c) ->
  exists sts st', clock_run calls c
    = (map (fun st => encodeHlc st (clock_device c)) sts, mkClock (clock_device c) st')
    /\ hlc_ok st' /\ Forall hlc_ok sts /\ StronglySorted hlc_lt (clock_state c :: sts).
Proof.
  revert c. induction calls as [|call calls IH]; intros c Hcalls Hok.
  - exists [], (clock_state c). destruct c. simpl. split_and!; [done.. | by constructor | by repeat constructor].
  - apply Forall_cons in Hcalls as [Hcall Hcalls]. cbn [clock_run].
    destruct (clock_call_run call c) as [[stamp|e] c'] eqn:E.
    + apply clock_call_forward in E as (Hok' & Hlt & Hdev & ->); [|done..].
      destruct (IH c' Hcalls Hok') as (sts & st' & -> & Hst' & Hsts & Hsort).
      exists (clock_state c' :: sts), st'. rw Hdev. split_and!; [done..| |].
      * by constructor.
      * constructor; [done|]. apply StronglySorted_inv in Hsort as [Hsort Hall].
        constructor; [done|]. eapply Forall_impl; [exact Hall|].
        intros st. by apply hlc_lt_trans.
    + apply clock_call_throw in E as ->. destruct (IH c Hcalls Hok) as (sts & st' & -> & ? & ? & ?).
      by exists sts, st'.
Qed.

Lemma hlc_decode_encode st dev :
  hlc_ok st -> no_dash dev = true -> decodeHlc (encodeHlc st dev) = Ok (st, dev).
Proof.
  intros Hok Hdev. rw encodeHlc_fixed; [|done]. destruct Hok as [Hp Hc].
  rw (fixed_app 10 19) (fixed_app 16 4). unfold decodeHlc.
  change ("-" ++ ?s) with (String "-" s).
  rw split_on_app; [|by apply (no_dash_fixed 10); [lia|]].
  rw split_on_app; [|by apply (no_dash_fixed 16); [lia|]]. rw split_on_none; [|exact Hdev].
  rw !length_fixed. cbn [String.length Nat.add Nat.eqb negb orb PHYSICAL_WIDTH COUNTER_WIDTH].
  unfold MAX_SAFE_INTEGER, MAX_COUNTER in *.
  rw !parse_fixed; try (simpl; lia).
  all: destruct (Z.leb_spec (physical st) 9007199254740991); [by destruct st | lia].
Qed.

#[export] Hint Resolve hlc_lt_trans encode_lt : docket.

(** String order of stamps, of any devices. *)
Lemma encode_order s1 s2 d1 d2 :
  hlc_ok s1 -> hlc_ok s2 ->
  (compareHlc (encodeHlc s1 d1) (encodeHlc s2 d2) < 0 <->
   hlc_lt s1 s2 \/ (s1 = s2 /\ String.ltb d1 d2 = true)).
Proof.
  intros H1 H2. rw compareHlc_cmp. unfold cmp_string, String.ltb. rw compare_encodeHlc; [|done..].
  destruct s1 as [p1 c1], s2 as [p2 c2]; unfold hlc_lt; simpl.
  destruct (Z.compare_spec p1 p2), (Z.compare_spec c1 c2), (String.compare d1 d2); subst;
    split; try lia; intros; try (left; lia); try (by right);
    repeat match goal with H : _ \/ _ |- _ => destruct H | H : _ /\ _ |- _ => destruct H end;
    simplify_eq; try lia.
Qed.

(** The stamps of a run increase from the state it started from. *)
Lemma run_increases calls c stamps c' :
  Forall call_ok calls -> hlc_ok (clock_state c) -> clock_run calls c = (stamps, c') ->
  StronglySorted (fun a b => compareHlc a b < 0) (encodeHlc (clock_state c) (clock_device c) :: stamps)
  /\ hlc_ok (clock_state c').
Proof.
  intros Hcalls Hok E. destruct (clock_run_above calls c Hcalls Hok) as (sts & st' & E' & Hst' & Hsts & Hsort).
  rw E' in E. injection E as <- <-. split; [|done].
  change (encodeHlc (clock_state c) (clock_device c) :: _)
    with (map (fun st => encodeHlc st (clock_device c)) (clock_state c :: sts)).
  assert (Forall hlc_ok (clock_state c :: sts)) as Hall by by constructor.
  clear -Hall Hsort. induction Hsort as [|st l Hl IH Hlt]; simpl; constructor.
  - apply IH. by apply Forall_cons in Hall as [_ ?].
  - apply Forall_cons in Hall as [Hst Hl']. rw Forall_map.
    apply Forall_forall. intros x Hx. rewrite ->Forall_forall in Hl'. rewrite ->Forall_forall in Hlt.
    apply encode_lt; auto.
Qed.

Lemma clock_run_app calls calls' c :
  clock_run (calls ++ calls') c
  = let '(before, c1) := clock_run calls c in let '(later, c2) := clock_run calls' c1 in (before ++ later, c2)%list.
Proof.
  revert c. induction calls as [|call calls IH]; intros c; cbn [app clock_run]; [by destruct (clock_run calls' c)|].
  destruct (clock_call_run call c) as [[stamp|e] c1]; rewrite IH; destruct (clock_run calls c1) as [s1 c2]; by destruct (clock_run calls' c2).
Qed.

(** An accepted observation leaves the clock above the stamp observed. *)
Lemma observe_above r d now c own c' :
  hlc_ok r -> no_dash d = true -> observe (encodeHlc r d) now c = (Ok own, c') -> hlc_lt r (clock_state c').
Proof.
  intros Hr Hd. unfold observe. rewrite hlc_decode_encode //. destruct (_ >? MAX_DRIFT_MS); [done|]. cbv zeta.
  set (phys := Z.max _ _). match goal with |- context [?x >? MAX_COUNTER] => set (ctr := x) end.
  destruct (ctr >? MAX_COUNTER); [done|]. intros [= _ <-]. unfold hlc_lt, ctr. simpl.
  destruct (Z.eqb_spec phys (physical (clock_state c))), (Z.eqb_spec phys (physical r)); simpl; lia.
Qed.

Lemma observe_then_above r d now c own c' post later c'' :
  Forall call_ok post -> call_ok (Observe (encodeHlc r d) now) -> hlc_ok (clock_state c) -> hlc_ok r -> no_dash d = true ->
  observe (encodeHlc r d) now c = (Ok own, c') -> clock_run post c' = (later, c'') ->
  Forall (fun stamp => compareHlc (encodeHlc r d) stamp < 0) (own :: later).
Proof.
  intros Hpost Hnow Hok Hr Hd E E'. pose proof (observe_above _ _ _ _ _ _ Hr Hd E) as Hlt.
  apply (clock_call_forward (Observe (encodeHlc r d) now)) in E as (Hok' & _ & _ & ->); [|done..].
  assert (compareHlc (encodeHlc r d) (encodeHlc (clock_state c') (clock_device c)) < 0) as Hown by (apply encode_order; [done..|by left]).
  constructor; [done|]. destruct (clock_run_above post c' Hpost Hok') as (sts & st' & E2 & _ & Hsts & Hsort).
  rewrite E2 in E'. injection E' as <- _. apply StronglySorted_inv in Hsort as [_ Hall]. rw Forall_map.
  apply Forall_forall. intros st Hst. rewrite ->Forall_forall in Hsts, Hall. apply encode_order; [done|by apply Hsts|left].
  eapply hlc_lt_trans; [exact Hlt|by apply Hall].
Qed.

(** * Properties *)

(** stamp decoding is the inverse of encoding: [decodeHlc] applied to
    [encodeHlc] of any in-range state and any dash-free device id returns exactly
    that state and device. *)
Theorem hlc_roundtrip st dev :
  hlc_ok st -> no_dash dev = true -> decodeHlc (encodeHlc st dev) = Ok (st, dev).
Proof. apply hlc_decode_encode. Qed.

(** plain string comparison of two stamps is causal comparison: by physical
    time, then by counter, then by device id, so stamps of different devices are
    never equal. *)
Theorem hlc_string_order_is_causal s1 s2 d1 d2 :
  hlc_ok s1 -> hlc_ok s2 ->
  (compareHlc (encodeHlc s1 d1) (encodeHlc s2 d2) < 0 <->
   hlc_lt s1 s2 \/ (s1 = s2 /\ String.ltb d1 d2 = true)).
Proof.
  apply encode_order.
Qed.

(** C26: over any interleaving of [tick] and [observe] calls, with any wall-clock
    readings (backwards ones included), the stamps a device issues strictly
    increase in string order and all lie above the state the clock was restored
    from: no stamp is ever issued twice.  And every stamp issued from the moment another
    device's stamp is observed, unless the observation is refused, lies above that one too. *)
Theorem clock_stamps_strictly_increase calls c stamps c' :
  Forall call_ok calls -> hlc_ok (clock_state c) -> clock_run calls c = (stamps, c') ->
  StronglySorted (fun a b => compareHlc a b < 0) (encodeHlc (clock_state c) (clock_device c) :: stamps)
  /\ hlc_ok (clock_state c')
  /\ forall pre r d now post,
       calls = (pre ++ Observe (encodeHlc r d) now :: post)%list -> hlc_ok r -> no_dash d = true ->
       let '(before, c1) := clock_run pre c in
       (exists e, observe (encodeHlc r d) now c1 = (Throw e, c1))
       \/ exists own later, observe (encodeHlc r d) now c1 = (Ok own, snd (observe (encodeHlc r d) now c1))
            /\ stamps = (before ++ own :: later)%list
            /\ Forall (fun stamp => compareHlc (encodeHlc r d) stamp < 0) (own :: later).
Proof.
  intros Hcalls Hok E. split_and!; [by eapply run_increases..|]. intros pre r d now post -> Hr Hd.
  apply Forall_app in Hcalls as [Hpre [Hnow Hpost]%Forall_cons]. rewrite clock_run_app in E.
  destruct (clock_run pre c) as [before c1] eqn:E1.
  destruct (run_increases _ _ _ _ Hpre Hok E1) as [_ Hok1]. cbn [clock_run clock_call_run] in E.
  destruct (observe (encodeHlc r d) now c1) as [[own|e] c2] eqn:Eo; cycle 1.
  { left. exists e. by rewrite (clock_call_throw (Observe _ _) _ _ _ Eo). }
  right. destruct (clock_run post c2) as [later c3] eqn:E3. injection E as <- <-. exists own, later. split_and!; [done..|].
  by eapply observe_then_above.
Qed.

(** * Witnesses *)

Lemma hlc_roundtrip_witness :
  decodeHlc (encodeHlc (mkHlcState 1700000000000 65535) "a1b2c3d4") = Ok (mkHlcState 1700000000000 65535, "a1b2c3d4").
Proof. apply hlc_roundtrip; [bounds | reflexivity]. Defined.

Lemma hlc_string_order_is_causal_witness :
  compareHlc (encodeHlc (mkHlcState 9 0) "z") (encodeHlc (mkHlcState 10 0) "a") < 0.
Proof.
  apply (hlc_string_order_is_causal (mkHlcState 9 0) (mkHlcState 10 0) "z" "a");
    [bounds.. | left; left; simpl; lia].
Defined.

(** A wall clock that steps back, and a stamp from a device that is ahead. *)
Lemma clock_stamps_strictly_increase_witness :
  let calls := [Tick 1000; Tick 900; Observe (encodeHlc (mkHlcState 5000 3) "b") 900; Tick 1001] in
  StronglySorted (fun a b => compareHlc a b < 0)
    ["0000000000000000000-0000-a"; "0000000000000001000-0000-a"; "0000000000000001000-0001-a";
     "0000000000000005000-0004-a"; "0000000000000005000-0005-a"]
  /\ compareHlc "0000000000000005000-0003-b" "0000000000000005000-0005-a" < 0.
Proof.
  intros calls.
  destruct (clock_stamps_strictly_increase calls (newClock "a" None)
    ["0000000000000001000-0000-a"; "0000000000000001000-0001-a";
     "0000000000000005000-0004-a"; "0000000000000005000-0005-a"]
    (mkClock "a" (mkHlcState 5000 5))) as (H1 & _ & H2).
  - repeat constructor; vm_compute; congruence.
  - bounds.
  - by vm_compute.
  - split; [exact H1|].
    destruct (H2 [Tick 1000; Tick 900] (mkHlcState 5000 3) "b" 900 [Tick 1001] eq_refl ltac:(bounds) eq_refl)
      as [(e & He)|(own & later & _ & E & H)]; [vm_compute in He; discriminate He|].
    injection E as <- <-. apply Forall_cons in H as [_ [H _]%Forall_cons]. exact H.
Defined.
