(* ===== verification/Calendar.v ===== *)
(** Calendar arithmetic: ECMAScript's day numbers (the part of [Date] the program
    uses) and [app/src/app/core/util/dates.ts] on top of them.

    A [Date] enters only through its calendar fields, so it is modelled by the
    civil day it falls on: [Date.UTC] and the UTC getters by a day number, a
    local [Date] by the day the local clock shows (the host's time zone is taken
    to skip no whole day). *)
From S2P Require Export JsString.
#[local] Open Scope string_scope.
#[local] Open Scope Z_scope.

(** * ECMAScript's calendar *)

(** [DayFromYear], [InLeapYear], [DaysInYear] of ECMA-262. *)
Definition day_from_year (y : Z) : Z :=
  365 * (y - 1970) + (y - 1969) / 4 - (y - 1901) / 100 + (y - 1601) / 400.
Definition leap (y : Z) : bool :=
  (y mod 4 =? 0) && (negb (y mod 100 =? 0) || (y mod 400 =? 0)).
Definition days_in_year (y : Z) : Z := if leap y then 366 else 365.

(** The first day (0-based) of month [m] (0-11) within its year. *)
Definition month_start (lp : bool) (m : Z) : Z :=
  let l := if lp then 1 else 0 in
  match m with
  | 0 => 0 | 1 => 31 | 2 => 59 + l | 3 => 90 + l | 4 => 120 + l | 5 => 151 + l
  | 6 => 181 + l | 7 => 212 + l | 8 => 243 + l | 9 => 273 + l | 10 => 304 + l
  | 11 => 334 + l | _ => 365 + l
  end.

(** [MakeDay(year, month, date)] : the day number, months and days out of range
    carrying over. *)
Definition make_day (year month date : Z) : Z :=
  let ym := year + month / 12 in
  let mn := month mod 12 in
  day_from_year ym + month_start (leap ym) mn + date - 1.

(** [YearFromTime] : the year holding a day, by an estimate that is then corrected. *)
Definition year_of_day (d : Z) : Z :=
  let y := 1970 + d * 400 / 146097 in
  if d <? day_from_year y then y - 1
  else if day_from_year (y + 1) <=? d then y + 1 else y.

(** [MonthFromTime] (0-11) of a day within its year. *)
Definition month_of (lp : bool) (n : Z) : Z :=
  if n <? month_start lp 1 then 0 else if n <? month_start lp 2 then 1
  else if n <? month_start lp 3 then 2 else if n <? month_start lp 4 then 3
  else if n <? month_start lp 5 then 4 else if n <? month_start lp 6 then 5
  else if n <? month_start lp 7 then 6 else if n <? month_start lp 8 then 7
  else if n <? month_start lp 9 then 8 else if n <? month_start lp 10 then 9
  else if n <? month_start lp 11 then 10 else 11.

(** The UTC getters: year, month (1-12) and day of month of a day number. *)
Record Ymd : Type := mkYmd { year : Z; month : Z; day : Z }.

Definition ymd_of_day (d : Z) : Ymd :=
  let y := year_of_day d in
  let n := d - day_from_year y in
  let m := month_of (leap y) n in
  mkYmd y (m + 1) (n - month_start (leap y) m + 1).

(** [Date.UTC] and [new Date(y, m, d)] read a year 0-99 as 1900-1999. *)
Definition full_year (y : Z) : Z := if (0 <=? y) && (y <=? 99) then 1900 + y else y.
Definition date_utc (y m d : Z) : Z := make_day (full_year y) m d.

(** A [Date] holds at most 10^8 days either side of 1970. *)
Definition valid_time (d : Z) : bool := Z.abs d <=? 100000000.

(** [new Date(year, month, 0).getDate()]. *)
Definition daysInMonth (year month : Z) : Z := day (ymd_of_day (date_utc year month 0)).

(** * util/dates.ts *)

Record DateRange : Type := mkRange { from : string; upto : string }.

(** [/^(\d{4})-(\d{2})-(\d{2})$/]. *)
Definition match_ymd (s : string) : option Ymd :=
  if Nat.eqb (String.length s) 10 then
    match char_at s 4, char_at s 7 with
    | Some "-"%char, Some "-"%char =>
        match parse_digits 10 (js_slice s 0 4), parse_digits 10 (js_slice s 5 7),
              parse_digits 10 (js_slice s 8 10) with
        | Some y, Some m, Some d => Some (mkYmd y m d)
        | _, _, _ => None
        end
    | _, _ => None
    end
  else None.

Definition parts (date : string) : result Ymd :=
  match match_ymd date with
  | Some p => Ok p
  | None => Throw (JsError ("Expected a YYYY-MM-DD date, got " ++ dquote ++ date ++ dquote))
  end.

Definition format (year month day : Z) : string :=
  padStart (num_to_string year) 4 "0" ++ "-" ++ padStart (num_to_string month) 2 "0"
  ++ "-" ++ padStart (num_to_string day) 2 "0".

Definition addDays (date : string) (days : Z) : result string :=
  p ← parts date;
  let shifted := date_utc (year p) (month p - 1) (day p + days) in
  if valid_time shifted then
    let q := ymd_of_day shifted in Ok (format (year q) (month q) (day q))
  else Ok "0NaN-NaN-NaN".

(** [%] takes the sign of the dividend. *)
Definition addMonths (date : string) (months : Z) : result string :=
  p ← parts date;
  let absolute := year p * 12 + (month p - 1) + months in
  let targetYear := absolute / 12 in
  let targetMonth := Z.rem absolute 12 + 1 in
  Ok (format targetYear targetMonth (Z.min (day p) (daysInMonth targetYear targetMonth))).

Definition monthKey (date : string) : string := js_slice date 0 7.

(** [Number(s)] of a numeral slice; an empty slice is 0, anything else NaN. *)
Definition slice_number (s : string) : option Z :=
  if String.eqb s "" then Some 0 else parse_digits 10 s.

(** The loop of [monthsIn], at most [guard] rounds. *)
Fixpoint months_loop (guard : nat) (year month : Z) (last : string) : list string :=
  match guard with
  | O => []
  | S g =>
      let key := padStart (num_to_string year) 4 "0" ++ "-" ++ padStart (num_to_string month) 2 "0" in
      key :: (if String.leb last key then []
              else if month + 1 >? 12 then months_loop g (year + 1) 1 last
                   else months_loop g year (month + 1) last)
  end.

Definition monthsIn (range : DateRange) : result (list string) :=
  if String.ltb (upto range) (from range) then Ok []
  else match slice_number (js_slice (from range) 0 4), slice_number (js_slice (from range) 5 7) with
       | Some y, Some m => Ok (months_loop 1200 y m (monthKey (upto range)))
       | _, _ => Throw (OutsideModel "monthsIn of a range that is not made of dates")
       end.

(** The ISO form of a year: four digits, or a sign and six. *)
Definition iso_year (y : Z) : string :=
  if (0 <=? y) && (y <=? 9999) then padStart (num_to_string y) 4 "0"
  else (if y <? 0 then "-" else "+") ++ padStart (num_to_string (Z.abs y)) 6 "0".

(** [toIsoDate] of the local date [p]: the first ten characters of its ISO form. *)
Definition toIsoDate (p : Ymd) : string :=
  js_slice (iso_year (year p) ++ "-" ++ padStart (num_to_string (month p)) 2 "0"
            ++ "-" ++ padStart (num_to_string (day p)) 2 "0") 0 10.

(** [new Date(y, m, d)] as a local date, [m] counted from 0. *)
Definition local_date (y m d : Z) : Ymd := ymd_of_day (date_utc y m d).

Definition currentMonth (today : Ymd) : DateRange :=
  mkRange (toIsoDate (local_date (year today) (month today - 1) 1))
          (toIsoDate (local_date (year today) (month today - 1 + 1) 0)).

Definition shiftMonth (range : DateRange) (delta : Z) : result DateRange :=
  match match_ymd (from range) with
  | Some anchor => Ok (currentMonth (local_date (year anchor) (month anchor - 1 + delta) 1))
  | None => Throw (OutsideModel "shiftMonth of a range that does not start on a date")
  end.

Definition endOfMonth (monthOrDate : string) : result string :=
  match slice_number (js_slice monthOrDate 0 4), slice_number (js_slice monthOrDate 5 7) with
  | Some y, Some m => Ok (toIsoDate (local_date y m 0))
  | _, _ => Throw (OutsideModel "endOfMonth of a string that is not a month")
  end.

Definition startOfMonth (monthOrDate : string) : string := js_slice monthOrDate 0 7 ++ "-01".

Definition within (date : string) (range : DateRange) : bool :=
  String.leb (from range) date && String.leb date (upto range).

(** * Specification *)

(** A day that exists, with a four-digit year outside 0-99. *)
Definition ymd_valid (p : Ymd) : Prop :=
  100 <= year p <= 9999 /\ 1 <= month p <= 12 /\ 1 <= day p <= daysInMonth (year p) (month p).

(** The day number of a date, and the text of a date. *)
Definition day_number (p : Ymd) : Z := make_day (year p) (month p - 1) (day p).
Definition ymd_text (p : Ymd) : string := format (year p) (month p) (day p).

(** * Lemmas *)


Lemma day_from_year_step y : day_from_year (y + 1) = day_from_year y + days_in_year y.
Proof.
  unfold day_from_year, days_in_year, leap.
  destruct (Z.eqb_spec (y mod 4) 0), (Z.eqb_spec (y mod 100) 0), (Z.eqb_spec (y mod 400) 0);
    cbn [andb orb negb]; div_lia.
Qed.

Lemma days_in_year_bounds y : 365 <= days_in_year y <= 366.
Proof. unfold days_in_year. destruct (leap y); lia. Qed.

Lemma day_from_year_mono x y : x <= y -> day_from_year x <= day_from_year y.
Proof. unfold day_from_year. intros. div_lia. Qed.

Lemma year_of_day_spec d :
  day_from_year (year_of_day d) <= d < day_from_year (year_of_day d + 1).
Proof.
  unfold year_of_day. set (y := 1970 + d * 400 / 146097).
  assert (day_from_year (y - 1) <= d < day_from_year (y + 2)) as [H1 H2].
  { unfold day_from_year, y. div_lia. }
  destruct (Z.ltb_spec d (day_from_year y)).
  - replace (y - 1 + 1) with y by lia. lia.
  - destruct (Z.leb_spec (day_from_year (y + 1)) d); [|lia].
    replace (y + 1 + 1) with (y + 2) by lia. lia.
Qed.

Lemma year_of_day_unique d y :
  day_from_year y <= d < day_from_year (y + 1) -> year_of_day d = y.
Proof.
  intros H. pose proof (year_of_day_spec d).
  destruct (Z.lt_trichotomy (year_of_day d) y) as [Hlt|[?|Hlt]]; [|done|].
  - pose proof (day_from_year_mono (year_of_day d + 1) y). lia.
  - pose proof (day_from_year_mono (y + 1) (year_of_day d)). lia.
Qed.

(** Case analysis on a month number in range. *)
Ltac each_month m :=
  let H := fresh in
  assert (m = 0 \/ m = 1 \/ m = 2 \/ m = 3 \/ m = 4 \/ m = 5 \/ m = 6 \/ m = 7 \/ m = 8
          \/ m = 9 \/ m = 10 \/ m = 11) as H by lia;
  repeat (destruct H as [H|H]); subst m.

(** Evaluate [month_start] at closed arguments. *)
Ltac month_eval :=
  repeat match goal with
  | H : context [month_start ?b ?x] |- _ =>
      let v := eval vm_compute in (month_start b x) in change (month_start b x) with v in H
  | |- context [month_start ?b ?x] =>
      let v := eval vm_compute in (month_start b x) in change (month_start b x) with v
  end.

Lemma month_of_spec (lp : bool) n :
  0 <= n < (if lp then 366 else 365) ->
  0 <= month_of lp n <= 11
  /\ month_start lp (month_of lp n) <= n < month_start lp (month_of lp n + 1).
Proof.
  intros H. unfold month_of.
  repeat match goal with |- context [n <? ?x] => destruct (Z.ltb_spec n x) end;
    destruct lp; month_eval; lia.
Qed.

Lemma month_start_mono lp m m' :
  0 <= m -> m < m' -> m' <= 12 -> month_start lp m + 28 <= month_start lp m'.
Proof.
  intros H0 H1 H2. assert (forall k, 0 <= k <= 11 -> month_start lp k + 28 <= month_start lp (k + 1)) as Hs.
  { intros k Hk. each_month k; destruct lp; month_eval; lia. }
  assert (forall i : nat, 0 <= m + 1 + Z.of_nat i <= 12 ->
            month_start lp m + 28 <= month_start lp (m + 1 + Z.of_nat i)) as Hi.
  { intros i. induction i as [|i IH]; intros Hb.
    - replace (m + 1 + Z.of_nat 0) with (m + 1) by lia. apply Hs. lia.
    - specialize (Hs (m + 1 + Z.of_nat i)). replace (m + 1 + Z.of_nat (S i)) with (m + 1 + Z.of_nat i + 1) by lia. lia. }
  specialize (Hi (Z.to_nat (m' - m - 1))). replace (m + 1 + Z.of_nat (Z.to_nat (m' - m - 1))) with m' in Hi by lia. lia.
Qed.

Lemma month_of_unique lp n m :
  0 <= m <= 11 -> 0 <= n -> month_start lp m <= n < month_start lp (m + 1) -> month_of lp n = m.
Proof.
  intros Hm Hn H. assert (n < (if lp then 366 else 365)).
  { each_month m; destruct lp; month_eval; lia. }
  pose proof (month_of_spec lp n ltac:(lia)) as [Hb Hs].
  destruct (Z.lt_trichotomy (month_of lp n) m) as [Hlt|[?|Hlt]]; [|done|].
  - destruct (Z.eq_dec (month_of lp n + 1) m) as [<-|]; [lia|].
    pose proof (month_start_mono lp (month_of lp n + 1) m). lia.
  - destruct (Z.eq_dec (m + 1) (month_of lp n)) as [E|]; [rw E in H; lia|].
    pose proof (month_start_mono lp (m + 1) (month_of lp n)). lia.
Qed.

(** The getters invert [MakeDay] on every existing day. *)
Lemma ymd_of_make_day y m d :
  0 <= m <= 11 -> 1 <= d <= month_start (leap y) (m + 1) - month_start (leap y) m ->
  ymd_of_day (make_day y m d) = mkYmd y (m + 1) d.
Proof.
  intros Hm Hd. unfold make_day. rw Z.div_small; [|lia]. rw Z.mod_small; [|lia]. rw Z.add_0_r.
  assert (0 <= month_start (leap y) m /\ month_start (leap y) (m + 1) <= days_in_year y) as [H0 H1].
  { unfold days_in_year. each_month m; destruct (leap y); month_eval; lia. }
  unfold ymd_of_day. rw (year_of_day_unique _ y); [|rw day_from_year_step; lia].
  rw (month_of_unique (leap y) _ m); [|lia..]. f_equal; lia.
Qed.

Lemma make_day_of_ymd d : day_number (ymd_of_day d) = d.
Proof.
  unfold day_number, ymd_of_day, make_day. cbn [year month day].
  pose proof (year_of_day_spec d) as Hy. rw day_from_year_step in Hy.
  pose proof (month_of_spec (leap (year_of_day d)) (d - day_from_year (year_of_day d))) as [Hm Hs].
  { unfold days_in_year in Hy. lia. }
  rw Z.add_simpl_r.
  rw Z.div_small; [|lia]. rw Z.mod_small; [|lia]. rw Z.add_0_r. lia.
Qed.

Lemma make_day_date y m d k : make_day y m (d + k) = make_day y m d + k.
Proof. unfold make_day. lia. Qed.

Lemma full_year_id y : 100 <= y -> full_year y = y.
Proof. intros H. unfold full_year. destruct (Z.leb_spec 0 y), (Z.leb_spec y 99); cbn [andb]; lia. Qed.

(** The month lengths. *)
Definition month_length (y m : Z) : Z := month_start (leap y) m - month_start (leap y) (m - 1).

Lemma month_length_bounds y m : 1 <= m <= 12 -> 28 <= month_length y m <= 31.
Proof.
  intros H. unfold month_length. remember (m - 1) as k eqn:E. replace m with (k + 1) by lia.
  assert (0 <= k <= 11) as Hk by lia. clear E H.
  each_month k; destruct (leap y); month_eval; lia.
Qed.

Lemma daysInMonth_length y m : 100 <= y -> 1 <= m <= 12 -> daysInMonth y m = month_length y m.
Proof.
  intros Hy Hm. unfold daysInMonth, date_utc. rw full_year_id; [|lia].
  pose proof (month_length_bounds y m Hm) as Hl.
  assert (make_day y m 0 = make_day y (m - 1) (month_length y m)) as ->.
  { unfold make_day, month_length. destruct (Z.eq_dec m 12) as [->|].
    - change (12 / 12) with 1. change (12 mod 12) with 0. change ((12 - 1) / 12) with 0.
      change ((12 - 1) mod 12) with 11. change (12 - 1) with 11.
      rw day_from_year_step !Z.add_0_r. unfold days_in_year. destruct (leap y), (leap (y + 1)); month_eval; lia.
    - rw !Z.div_small; [|lia..]. rw !Z.mod_small; [|lia..]. rw !Z.add_0_r. lia. }
  rw ymd_of_make_day; [done| |]; unfold month_length in *; replace (m - 1 + 1) with m by lia; lia.
Qed.

Lemma ymd_valid_length p :
  ymd_valid p <->
  100 <= year p <= 9999 /\ 1 <= month p <= 12 /\ 1 <= day p <= month_length (year p) (month p).
Proof.
  unfold ymd_valid. split; intros (Hy & Hm & Hd); (rw daysInMonth_length in Hd || rw daysInMonth_length);
    lia.
Qed.

Lemma ymd_of_day_number p : ymd_valid p -> ymd_of_day (day_number p) = p.
Proof.
  rewrite ymd_valid_length. intros (Hy & Hm & Hd). unfold day_number.
  unfold month_length in Hd. rw ymd_of_make_day.
  - destruct p. simpl. f_equal. lia.
  - lia.
  - replace (month p - 1 + 1) with (month p) by lia. lia.
Qed.

Lemma day_number_in_year p :
  ymd_valid p -> day_from_year (year p) <= day_number p < day_from_year (year p + 1).
Proof.
  intros Hv. pose proof (year_of_day_spec (day_number p)) as H.
  assert (year_of_day (day_number p) = year p) as E; [|by rw E in H].
  change (year_of_day (day_number p)) with (year (ymd_of_day (day_number p))).
  by rw ymd_of_day_number.
Qed.

(** The days whose dates have a year from 100 to 9999. *)
Definition day_in_range (d : Z) : Prop := day_from_year 100 <= d < day_from_year 10000.

Lemma ymd_of_day_valid d : day_in_range d -> ymd_valid (ymd_of_day d).
Proof.
  intros [H1 H2]. apply ymd_valid_length. pose proof (year_of_day_spec d) as Hy.
  pose proof Hy as Hn. rw day_from_year_step in Hn.
  pose proof (month_of_spec (leap (year_of_day d)) (d - day_from_year (year_of_day d))) as [Hm Hs].
  { unfold days_in_year in Hn. lia. }
  unfold month_length, ymd_of_day. cbn [year month day]. rw Z.add_simpl_r. split_and!; try lia.
  - destruct (Z.le_gt_cases 100 (year_of_day d)); [lia|].
    pose proof (day_from_year_mono (year_of_day d + 1) 100). lia.
  - destruct (Z.le_gt_cases (year_of_day d) 9999); [lia|].
    pose proof (day_from_year_mono 10000 (year_of_day d)). lia.
Qed.

Lemma day_number_range p : ymd_valid p -> day_in_range (day_number p).
Proof.
  intros Hv. pose proof (day_number_in_year p Hv). destruct Hv as (Hy & _).
  pose proof (day_from_year_mono 100 (year p)). pose proof (day_from_year_mono (year p + 1) 10000).
  unfold day_in_range. lia.
Qed.

(** ** Dates as text *)

Lemma format_fixed y m d :
  0 <= y <= 9999 -> 0 <= m <= 99 -> 0 <= d <= 99 ->
  format y m d = fixed 10 4 y ("-" ++ fixed 10 2 m ("-" ++ fixed 10 2 d "")).
Proof.
  intros Hy Hm Hd. unfold format, num_to_string.
  rw !padStart_fixed; try (simpl; lia).
  rw (fixed_app 10 4 y ("-" ++ _)) (fixed_app 10 2 m ("-" ++ _)). done.
Qed.

Lemma match_ymd_format y m d :
  0 <= y <= 9999 -> 0 <= m <= 99 -> 0 <= d <= 99 -> match_ymd (format y m d) = Some (mkYmd y m d).
Proof.
  intros Hy Hm Hd. rw format_fixed; [|done..]. unfold match_ymd.
  assert (js_slice (fixed 10 4 y ("-" ++ fixed 10 2 m ("-" ++ fixed 10 2 d ""))) 0 4 = fixed 10 4 y "") as -> by reflexivity.
  assert (js_slice (fixed 10 4 y ("-" ++ fixed 10 2 m ("-" ++ fixed 10 2 d ""))) 5 7 = fixed 10 2 m "") as -> by reflexivity.
  assert (js_slice (fixed 10 4 y ("-" ++ fixed 10 2 m ("-" ++ fixed 10 2 d ""))) 8 10 = fixed 10 2 d "") as -> by reflexivity.
  rw !parse_fixed; try (simpl; lia). reflexivity.
Qed.

Lemma ymd_valid_small p : ymd_valid p -> 0 <= year p <= 9999 /\ 0 <= month p <= 99 /\ 0 <= day p <= 99.
Proof.
  rewrite ymd_valid_length. intros (Hy & Hm & Hd).
  pose proof (month_length_bounds (year p) (month p)). lia.
Qed.

Lemma match_ymd_text p : ymd_valid p -> match_ymd (ymd_text p) = Some p.
Proof.
  intros Hv%ymd_valid_small. unfold ymd_text. rw match_ymd_format; try lia. by destruct p.
Qed.

Lemma parts_text p : ymd_valid p -> parts (ymd_text p) = Ok p.
Proof. intros Hv. unfold parts. by rw match_ymd_text. Qed.

Lemma compare_text p q :
  ymd_valid p -> ymd_valid q ->
  String.compare (ymd_text p) (ymd_text q) =
  match year p ?= year q with
  | Eq => match month p ?= month q with Eq => day p ?= day q | c => c end
  | c => c
  end.
Proof.
  intros Hp%ymd_valid_small Hq%ymd_valid_small. unfold ymd_text. rw !format_fixed; try lia.
  rw compare_fixed; try (simpl; lia). case_match; [|done..].
  rw (compare_app "-") compare_fixed; try (simpl; lia). case_match; [|done..].
  rw (compare_app "-") compare_fixed; try (simpl; lia). by case_match.
Qed.

Lemma make_day_mono_month y m d m' d' :
  0 <= m -> m < m' -> m' <= 11 -> d <= month_length y (m + 1) -> 1 <= d' ->
  make_day y m d < make_day y m' d'.
Proof.
  intros H0 H1 H2 Hd Hd'. unfold make_day, month_length in *. rw Z.add_simpl_r in Hd.
  rw !Z.div_small; [|lia..]. rw !Z.mod_small; [|lia..]. rw Z.add_0_r.
  destruct (Z.eq_dec (m + 1) m') as [<-|]; [lia|].
  pose proof (month_start_mono (leap y) (m + 1) m'). lia.
Qed.

(** Among existing dates, the text order is the order of the days. *)
Lemma compare_text_day p q :
  ymd_valid p -> ymd_valid q ->
  String.compare (ymd_text p) (ymd_text q) = (day_number p ?= day_number q).
Proof.
  intros Hp Hq. rw compare_text; [|done..].
  pose proof (day_number_in_year p Hp) as Dp. pose proof (day_number_in_year q Hq) as Dq.
  apply ymd_valid_length in Hp as (Yp & Mp & Lp), Hq as (Yq & Mq & Lq).
  symmetry. destruct (Z.compare_spec (year p) (year q)) as [E|Hlt|Hlt].
  - unfold day_number in *. rw E. rw E in Lp.
    destruct (Z.compare_spec (month p) (month q)) as [F|Hlt|Hlt].
    + rw F. unfold make_day. destruct (Z.compare_spec (day p) (day q));
        (apply Z.compare_eq_iff || apply Z.compare_lt_iff || apply Z.compare_gt_iff); lia.
    + apply Z.compare_lt_iff, make_day_mono_month; try lia. rw Z.sub_add. lia.
    + apply Z.compare_gt_iff, make_day_mono_month; try lia. rw Z.sub_add. lia.
  - apply Z.compare_lt_iff. pose proof (day_from_year_mono (year p + 1) (year q)). lia.
  - apply Z.compare_gt_iff. pose proof (day_from_year_mono (year q + 1) (year p)). lia.
Qed.

Lemma ltb_text p q :
  ymd_valid p -> ymd_valid q -> String.ltb (ymd_text p) (ymd_text q) = (day_number p <? day_number q).
Proof. intros Hp Hq. unfold String.ltb, Z.ltb. rw compare_text_day; [|done..]. by case_match. Qed.

Lemma leb_text p q :
  ymd_valid p -> ymd_valid q -> String.leb (ymd_text p) (ymd_text q) = (day_number p <=? day_number q).
Proof. intros Hp Hq. unfold String.leb, Z.leb. rw compare_text_day; [|done..]. by case_match. Qed.

Lemma text_inj p q : ymd_valid p -> ymd_valid q -> ymd_text p = ymd_text q -> p = q.
Proof.
  intros Hp Hq E. apply (f_equal match_ymd) in E. rw !match_ymd_text in E; [|done..]. congruence.
Qed.

Lemma valid_time_range d : day_in_range d -> valid_time d = true.
Proof.
  unfold valid_time, day_in_range. change (day_from_year 100) with (-683003).
  change (day_from_year 10000) with 2932897. lia.
Qed.

Lemma date_utc_day p n :
  ymd_valid p -> date_utc (year p) (month p - 1) (day p + n) = day_number p + n.
Proof. intros (Hy & _). unfold date_utc. rw full_year_id; [|lia]. apply make_day_date. Qed.

Lemma addDays_text p n :
  ymd_valid p -> day_in_range (day_number p + n) ->
  addDays (ymd_text p) n = Ok (ymd_text (ymd_of_day (day_number p + n))).
Proof.
  intros Hp Hr. unfold addDays. rewrite ->parts_text, bind_Ok by done. cbv beta zeta.
  rewrite ->date_utc_day by done. rewrite ->valid_time_range by done. by unfold ymd_text.
Qed.

(** ** Months *)

(** Months counted from year 0. *)
Definition month_index (p : Ymd) : Z := year p * 12 + (month p - 1).

Definition add_months (p : Ymd) (n : Z) : Ymd :=
  let a := month_index p + n in
  mkYmd (a / 12) (a mod 12 + 1) (Z.min (day p) (month_length (a / 12) (a mod 12 + 1))).

Definition month_in_range (a : Z) : Prop := 100 * 12 <= a < 10000 * 12.

Lemma month_index_range p : ymd_valid p -> month_in_range (month_index p).
Proof. intros (Hy & Hm & _). unfold month_in_range, month_index. lia. Qed.

Lemma add_months_valid p n :
  ymd_valid p -> month_in_range (month_index p + n) -> ymd_valid (add_months p n).
Proof.
  rewrite !ymd_valid_length. unfold month_in_range, add_months. cbn [year month day].
  set (a := month_index p + n). intros (_ & _ & Hd) Ha.
  pose proof (Z.mod_pos_bound a 12).
  pose proof (month_length_bounds (a / 12) (a mod 12 + 1)).
  assert (100 <= a / 12 <= 9999) by div_lia. lia.
Qed.

Lemma month_index_add_months p n : month_index (add_months p n) = month_index p + n.
Proof. unfold add_months, month_index. cbn [year month]. div_lia. Qed.

Lemma addMonths_text p n :
  ymd_valid p -> month_in_range (month_index p + n) ->
  addMonths (ymd_text p) n = Ok (ymd_text (add_months p n)).
Proof.
  intros Hp Ha. unfold addMonths. rewrite ->parts_text, bind_Ok by done. cbv beta zeta.
  change (year p * 12 + (month p - 1) + n) with (month_index p + n). set (a := month_index p + n) in *.
  unfold month_in_range in Ha. rewrite ->Z.rem_mod_nonneg by lia.
  pose proof (Z.mod_pos_bound a 12).
  assert (100 <= a / 12) by div_lia.
  rewrite ->daysInMonth_length by lia. by unfold ymd_text.
Qed.

(** A later month is a later day. *)
Lemma day_number_month_lt p q :
  ymd_valid p -> ymd_valid q -> month_index p < month_index q -> day_number p < day_number q.
Proof.
  intros Hp Hq Hlt. apply (proj1 (Z.compare_lt_iff _ _)). rw -compare_text_day; [|done..].
  rw compare_text; [|done..]. apply ymd_valid_length in Hp as (_ & Mp & _), Hq as (_ & Mq & _).
  unfold month_index in Hlt. destruct (Z.compare_spec (year p) (year q)); [|done|lia].
  destruct (Z.compare_spec (month p) (month q)); [lia | done | lia].
Qed.

(** The date of month [a] on day [d], the last day standing in for one it does not have. *)
Definition cycle_day (a d : Z) : Ymd :=
  mkYmd (a / 12) (a mod 12 + 1) (Z.min (Z.max d 1) (month_length (a / 12) (a mod 12 + 1))).

Lemma cycle_day_valid a d : month_in_range a -> ymd_valid (cycle_day a d).
Proof.
  unfold month_in_range. intros Hr. apply ymd_valid_length. unfold cycle_day. cbn [year month day].
  pose proof (Z.mod_pos_bound a 12 ltac:(lia)). pose proof (month_length_bounds (a / 12) (a mod 12 + 1) ltac:(lia)).
  assert (100 <= a / 12 <= 9999) by div_lia. lia.
Qed.

Lemma cycle_day_month a d : month_index (cycle_day a d) = a.
Proof. unfold month_index, cycle_day. cbn [year month]. div_lia. Qed.

Lemma cycle_day_length a d : month_in_range a ->
  daysInMonth (year (cycle_day a d)) (month (cycle_day a d)) = month_length (a / 12) (a mod 12 + 1).
Proof. intros Ha. destruct (cycle_day_valid a d Ha) as (? & ? & _). rewrite daysInMonth_length; [done|lia|done]. Qed.

(** The text of a month, and the loop of [monthsIn] on it. *)
Definition month_text (a : Z) : string :=
  padStart (num_to_string (a / 12)) 4 "0" ++ "-" ++ padStart (num_to_string (a mod 12 + 1)) 2 "0".

Definition month_small (a : Z) : Prop := 0 <= a < 10000 * 12.

Lemma month_text_fixed a :
  month_small a -> month_text a = fixed 10 4 (a / 12) ("-" ++ fixed 10 2 (a mod 12 + 1) "").
Proof.
  intros Ha. unfold month_small in Ha. pose proof (Z.mod_pos_bound a 12).
  assert (0 <= a / 12 <= 9999) by div_lia. unfold month_text, num_to_string.
  rw !padStart_fixed; try (simpl; lia). by rw (fixed_app 10 4 _ ("-" ++ _)).
Qed.

Lemma compare_month_text a b :
  month_small a -> month_small b -> String.compare (month_text a) (month_text b) = (a ?= b).
Proof.
  intros Ha Hb. rw !month_text_fixed; [|done..]. unfold month_small in *.
  pose proof (Z.mod_pos_bound a 12). pose proof (Z.mod_pos_bound b 12).
  rw compare_fixed; try (simpl; div_lia). rw (compare_app "-") compare_fixed; try (simpl; lia).
  symmetry. destruct (Z.compare_spec (a / 12) (b / 12)), (Z.compare_spec (a mod 12 + 1) (b mod 12 + 1));
    (apply Z.compare_eq_iff || apply Z.compare_lt_iff || apply Z.compare_gt_iff); div_lia.
Qed.

Lemma monthKey_text p : ymd_valid p -> monthKey (ymd_text p) = month_text (month_index p).
Proof.
  intros Hp. pose proof (month_index_range p Hp) as Hr. unfold month_in_range in Hr.
  rw month_text_fixed; [|unfold month_small; lia].
  destruct (Hp) as (Hy & Hm & _). pose proof (ymd_valid_small p Hp).
  unfold ymd_text. rw format_fixed; [|lia..].
  replace (month_index p / 12) with (year p) by (unfold month_index; div_lia).
  replace (month_index p mod 12 + 1) with (month p) by (unfold month_index; div_lia).
  reflexivity.
Qed.

Lemma months_loop_spec g a b :
  month_small a -> month_small b -> a <= b < a + Z.of_nat g ->
  months_loop g (a / 12) (a mod 12 + 1) (month_text b) = map month_text (seqZ a (b - a + 1)).
Proof.
  revert a. induction g as [|g IH]; intros a Ha Hb Hab; [lia|].
  cbn [months_loop]. change (padStart _ 4 "0" ++ _) with (month_text a).
  rw seqZ_cons; [|lia]. cbn [map]. f_equal. unfold String.leb. rw compare_month_text; [|done..].
  destruct (Z.compare_spec b a) as [->|?|?]; [|lia|].
  - replace (Z.pred _) with 0 by lia. by rw seqZ_nil.
  - replace (Z.pred (b - a + 1)) with (b - Z.succ a + 1) by lia.
    unfold month_small in *. rw -IH; [|lia..].
    destruct (Z.gtb_spec (a mod 12 + 1 + 1) 12); f_equal; div_lia.
Qed.

Lemma monthsIn_text p q :
  ymd_valid p -> ymd_valid q -> day_number p <= day_number q ->
  month_index q < month_index p + 1200 ->
  monthsIn (mkRange (ymd_text p) (ymd_text q))
  = Ok (map month_text (seqZ (month_index p) (month_index q - month_index p + 1))).
Proof.
  intros Hp Hq Hle Hspan. unfold monthsIn. cbn [from upto].
  remember 1200%nat as g eqn:Hg. assert (Z.of_nat g = 1200) as Hg' by (rw Hg; done). clear Hg.
  rw ltb_text; [|done..].
  destruct (Z.ltb_spec (day_number q) (day_number p)); [lia|].
  pose proof (ymd_valid_small p Hp). pose proof (month_index_range p Hp). pose proof (month_index_range q Hq).
  assert (slice_number (js_slice (ymd_text p) 0 4) = Some (year p)) as ->.
  { unfold ymd_text. rw format_fixed; [|lia..].
    change (slice_number (fixed 10 4 (year p) "") = Some (year p)).
    unfold slice_number. rw parse_fixed; [done | lia | lia | simpl; lia]. }
  assert (slice_number (js_slice (ymd_text p) 5 7) = Some (month p)) as ->.
  { unfold ymd_text. rw format_fixed; [|lia..].
    change (slice_number (fixed 10 2 (month p) "") = Some (month p)).
    unfold slice_number. rw parse_fixed; [done | lia | lia | simpl; lia]. }
  rw monthKey_text; [|done]. destruct (Hp) as (_ & Hm & _). unfold month_in_range in *.
  assert (month_index p <= month_index q).
  { destruct (Z.le_gt_cases (month_index p) (month_index q)); [lia|].
    pose proof (day_number_month_lt q p Hq Hp). lia. }
  replace (year p) with (month_index p / 12) by (unfold month_index; div_lia).
  replace (month p) with (month_index p mod 12 + 1) by (unfold month_index; div_lia).
  rewrite ->months_loop_spec by (unfold month_small; lia). done.
Qed.

#[export] Hint Resolve ymd_of_day_valid day_number_range add_months_valid month_index_range : docket.

(** * Properties *)

(** among existing dates, comparing the [YYYY-MM-DD] texts as strings (the only
    comparison the program ever makes) is comparing the days. *)
Theorem date_text_order p q :
  ymd_valid p -> ymd_valid q ->
  String.ltb (ymd_text p) (ymd_text q) = (day_number p <? day_number q)
  /\ String.leb (ymd_text p) (ymd_text q) = (day_number p <=? day_number q)
  /\ (ymd_text p = ymd_text q <-> day_number p = day_number q).
Proof.
  intros Hp Hq. split_and!; [by apply ltb_text | by apply leb_text|]. split; intros E.
  - by rw (text_inj p q).
  - by rw -(ymd_of_day_number p) // -(ymd_of_day_number q) // E.
Qed.

(** [addDays] moves an existing date by exactly that many days (negative ones
    too), over month ends and leap years, and its result is an existing date. *)
Theorem addDays_moves_by_days p n :
  ymd_valid p -> day_in_range (day_number p + n) ->
  exists q, addDays (ymd_text p) n = Ok (ymd_text q) /\ ymd_valid q
            /\ day_number q = day_number p + n.
Proof.
  intros Hp Hr. exists (ymd_of_day (day_number p + n)).
  split_and!; [by apply addDays_text | auto with docket | apply make_day_of_ymd].
Qed.

(** [addMonths] lands in exactly the month [n] months away, on the same day of
    the month or, when that month is too short, on its last day; it never rolls
    over into the next month, so the result is always an existing date. *)
Theorem addMonths_clamps p n :
  ymd_valid p -> month_in_range (month_index p + n) ->
  exists q, addMonths (ymd_text p) n = Ok (ymd_text q) /\ ymd_valid q
            /\ month_index q = month_index p + n
            /\ day q = Z.min (day p) (daysInMonth (year q) (month q)).
Proof.
  intros Hp Ha. exists (add_months p n). pose proof (add_months_valid p n Hp Ha) as Hq.
  split_and!; [by apply addMonths_text | done | apply month_index_add_months|].
  destruct (Hq) as (Hy & Hm & _). rw daysInMonth_length; [done | lia | done].
Qed.

(** * Witnesses *)

Lemma ymd_valid_example y m d :
  (100 <=? y) && (y <=? 9999) && (1 <=? m) && (m <=? 12) && (1 <=? d) && (d <=? daysInMonth y m) = true ->
  ymd_valid (mkYmd y m d).
Proof. rewrite !andb_true_iff !Z.leb_le. unfold ymd_valid. cbn [year month day]. lia. Qed.

Lemma date_text_order_witness :
  String.ltb (ymd_text (mkYmd 2024 2 29)) (ymd_text (mkYmd 2024 3 1)) = true.
Proof.
  rewrite (proj1 (date_text_order (mkYmd 2024 2 29) (mkYmd 2024 3 1)
    (ymd_valid_example 2024 2 29 eq_refl) (ymd_valid_example 2024 3 1 eq_refl))).
  by vm_compute.
Defined.

Lemma addDays_moves_by_days_witness :
  exists q, addDays (ymd_text (mkYmd 2024 2 28)) 2 = Ok (ymd_text q) /\ ymd_valid q
            /\ day_number q = day_number (mkYmd 2024 2 28) + 2.
Proof.
  apply (addDays_moves_by_days (mkYmd 2024 2 28) 2); [by apply ymd_valid_example|].
  unfold day_in_range. split; vm_compute; congruence.
Defined.

Lemma addMonths_clamps_witness :
  exists q, addMonths (ymd_text (mkYmd 2024 1 31)) 1 = Ok (ymd_text q) /\ ymd_valid q
            /\ month_index q = month_index (mkYmd 2024 1 31) + 1
            /\ day q = Z.min 31 (daysInMonth (year q) (month q)).
Proof.
  apply (addMonths_clamps (mkYmd 2024 1 31) 1); [by apply ymd_valid_example|].
  unfold month_in_range. split; vm_compute; congruence.
Defined.
