(* ===== verification/JsNumber.v ===== *)
(** Binary64 numbers, for the exchange rates: ECMAScript's [*], [/], [<], [Math.round]
    and [**] on them, on top of the standard library's executable [SpecFloat].
    Amounts of money are integers and stay in [Z]. *)
From S2P Require Export JsBase.
From Stdlib Require Export SpecFloat.
#[local] Open Scope Z_scope.

Notation number := spec_float.

Definition prec : Z := 53.
Definition emax : Z := 1024.

Definition f_mul (x y : number) : number := SFmul prec emax x y.
Definition f_div (x y : number) : number := SFdiv prec emax x y.

(** The number an integer rounds to. *)
Definition f_of_Z (z : Z) : number := binary_normalize prec emax z 0 false.

Definition isFinite (x : number) : bool :=
  match x with S754_zero _ | S754_finite _ _ _ => true | _ => false end.

(** [x <= 0]. *)
Definition f_nonpos (x : number) : bool := SFleb x (S754_zero false).
Definition f_neg (x : number) : bool := SFltb x (S754_zero false).

(** [Math.round(x)], the integer [floor(x + 1/2)]; no integer for NaN and infinities.
    (The sign of a zero result is not kept.) *)
Definition js_round (x : number) : option Z :=
  match x with
  | S754_zero _ => Some 0
  | S754_finite s m e =>
      let v := if s then Z.neg m else Z.pos m in
      Some (if 0 <=? e then v * 2 ^ e else (2 * v + 2 ^ (- e)) / 2 ^ (- e + 1))
  | _ => None
  end.

(** [10 ** k] for a small integer [k]. *)
Definition pow10 (k : Z) : number :=
  if 0 <=? k then f_of_Z (10 ^ k) else f_div (f_of_Z 1) (f_of_Z (10 ^ (- k))).

Definition f_ne0 (x : number) : bool :=
  match x with S754_zero _ | S754_nan => false | _ => true end.

#[export] Instance number_eq_dec : EqDecision number.
Proof. solve_decision. Defined.

(** * Lemmas *)

(** A rate the program accepts: finite and above zero. *)
Definition rate_ok (r : number) : bool := isFinite r && negb (f_nonpos r).

Lemma rate_ok_finite r : rate_ok r = true -> exists m e, r = S754_finite false m e.
Proof. destruct r as [[]|[]| |[] m e]; try done. by exists m, e. Qed.

(** Rounding is to the nearest integer: it is off by at most one half, halves going up. *)
Lemma js_round_spec s m e z :
  js_round (S754_finite s m e) = Some z ->
  let v := if s then Z.neg m else Z.pos m in
  if 0 <=? e then z = v * 2 ^ e
  else - 2 ^ (- e) < 2 * (v - z * 2 ^ (- e)) + 1 /\ 2 * (v - z * 2 ^ (- e)) < 2 ^ (- e).
Proof.
  unfold js_round. set (v := if s then Z.neg m else Z.pos m). destruct (Z.leb_spec 0 e); intros [= <-]; simpl; [done|].
  assert (0 < 2 ^ (- e)) by (apply Z.pow_pos_nonneg; lia).
  rw Z.pow_add_r; [|lia..]. change (2 ^ 1) with 2. remember (2 ^ (- e)) as p.
  pose proof (Z_div_mod_eq_full (2 * v + p) (p * 2)).
  pose proof (Z.mod_pos_bound (2 * v + p) (p * 2)). nia.
Qed.
