(* ===== verification/Json.v ===== *)
(** [JSON.stringify] and [JSON.parse] on the values the program writes: the text of an
    envelope's header, of a sealed payload, of a wrapped key and of a backup. *)
From S2P Require Export JsString JsNumber.
#[local] Open Scope string_scope.
#[local] Open Scope Z_scope.

(** * Definitions *)

(** A JavaScript value that JSON can carry.  [JNum] is a safe integer and [JReal] any
    other number, whose decimal text is outside this model. *)
Inductive json : Type :=
| JNull
| JBool (b : bool)
| JNum (n : Z)
| JReal (x : number)
| JStr (s : string)
| JArr (l : list json)
| JObj (fields : list (string * json)).

Definition MAX_SAFE_INTEGER : Z := 2 ^ 53 - 1.
Definition is_safe (n : Z) : bool := (- MAX_SAFE_INTEGER <=? n) && (n <=? MAX_SAFE_INTEGER).

(** ** JSON.stringify *)

Definition dq : ascii := "034"%char.
Definition backslash : ascii := "092"%char.

Definition escape (c : ascii) : option ascii :=
  match code c with
  | 8 => Some "b"%char | 9 => Some "t"%char | 10 => Some "n"%char | 12 => Some "f"%char | 13 => Some "r"%char
  | 34 => Some dq | 92 => Some backslash | _ => None
  end.

Definition quote_char (c : ascii) : string :=
  match escape c with
  | Some e => String backslash (String e "")
  | None => if code c <? 32 then String backslash (String "u" (fixed 16 4 (code c) "")) else String c ""
  end.

Fixpoint quote_body (s : string) : string :=
  match s with "" => "" | String c s' => quote_char c ++ quote_body s' end.
Definition quoteJSON (s : string) : string := String dq (quote_body s ++ String dq "").

Fixpoint stringify (v : json) : result string :=
  match v with
  | JNull => Ok "null"
  | JBool b => Ok (if b then "true" else "false")
  | JNum n => if is_safe n then Ok (num_to_string n) else Throw (OutsideModel "the text of a number that is no safe integer")
  | JReal _ => Throw (OutsideModel "the text of a number that is no safe integer")
  | JStr s => Ok (quoteJSON s)
  | JArr l => parts ← mapM (M := result) stringify l; mret ("[" ++ JsString.join "," parts ++ "]")
  | JObj fields =>
      parts ← mapM (M := result) (fun kv => text ← stringify kv.2; mret (quoteJSON kv.1 ++ ":" ++ text)) fields;
      mret ("{" ++ JsString.join "," parts ++ "}")
  end.

(** ** JSON.parse *)

Definition syntax_error {A} : result A := Throw (JsError "Unexpected token in JSON").
Definition out_of_fuel {A} : result A := Throw (OutsideModel "the parser ran out of fuel").

Definition is_json_ws (c : ascii) : bool :=
  Ascii.eqb c " " || Ascii.eqb c "009" || Ascii.eqb c "010" || Ascii.eqb c "013".
Fixpoint skip_ws (s : string) : string :=
  match s with String c s' => if is_json_ws c then skip_ws s' else s | "" => "" end.

Definition unescape (c : ascii) : option ascii :=
  match code c with
  | 98 => Some (chr 8) | 116 => Some (chr 9) | 110 => Some (chr 10) | 102 => Some (chr 12) | 114 => Some (chr 13)
  | 34 => Some dq | 92 => Some backslash | 47 => Some "/"%char | _ => None
  end.

(** A string after its opening quote, and what follows its closing one. *)
Fixpoint string_body (s : string) : result (string * string) :=
  match s with
  | "" => syntax_error
  | String c t =>
      if Ascii.eqb c dq then Ok ("", t)
      else if Ascii.eqb c backslash then
        match t with
        | String e r =>
            if Ascii.eqb e "u" then
              match r with
              | String a (String b (String d (String h r'))) =>
                  match parse_digits 16 (String a (String b (String d (String h "")))) with
                  | None => syntax_error
                  | Some n =>
                      if n <? 256 then '(x, rest) ← string_body r'; mret (String (chr n) x, rest)
                      else Throw (OutsideModel "a code unit past 255")
                  end
              | _ => syntax_error
              end
            else match unescape e with
                 | None => syntax_error
                 | Some x => '(y, rest) ← string_body r; mret (String x y, rest)
                 end
        | "" => syntax_error
        end
      else if code c <? 32 then syntax_error
      else '(x, rest) ← string_body t; mret (String c x, rest)
  end.

Fixpoint span_digits (s : string) : string * string :=
  match s with
  | String c t => if is_digit c then let '(ds, r) := span_digits t in (String c ds, r) else ("", s)
  | "" => ("", "")
  end.

Definition is_fraction (c : ascii) : bool := Ascii.eqb c "." || Ascii.eqb c "e" || Ascii.eqb c "E".

(** A number after its sign. *)
Definition number_from (negative : bool) (s : string) : result (json * string) :=
  let '(ds, r) := span_digits s in
  match parse_digits 10 ds with
  | None => syntax_error
  | Some n =>
      if startsWith ds "0" && (1 <? String.length ds)%nat then syntax_error
      else if match r with String c _ => is_fraction c | "" => false end || negb (is_safe n)
      then Throw (OutsideModel "a number that is no safe integer")
      else Ok (JNum (if negative then - n else n), r)
  end.
Definition parse_number (s : string) : result (json * string) :=
  if startsWith s "-" then number_from true (js_slice_from s 1) else number_from false s.

Definition expect (keyword : string) (v : json) (s : string) : result (json * string) :=
  if startsWith s keyword then Ok (v, js_slice_from s (String.length keyword)) else syntax_error.

Fixpoint parse_value (fuel : nat) (s : string) : result (json * string) :=
  match fuel with
  | O => out_of_fuel
  | S f =>
      match skip_ws s with
      | "" => syntax_error
      | String c t =>
          if Ascii.eqb c "{" then
            if startsWith (skip_ws t) "}" then Ok (JObj [], js_slice_from (skip_ws t) 1)
            else '(fields, r) ← parse_members f t; mret (JObj (jmap_of fields), r)
          else if Ascii.eqb c "[" then
            if startsWith (skip_ws t) "]" then Ok (JArr [], js_slice_from (skip_ws t) 1)
            else '(l, r) ← parse_elements f t; mret (JArr l, r)
          else if Ascii.eqb c dq then '(x, r) ← string_body t; mret (JStr x, r)
          else if is_digit c || Ascii.eqb c "-" then parse_number (String c t)
          else if Ascii.eqb c "t" then expect "true" (JBool true) (String c t)
          else if Ascii.eqb c "f" then expect "false" (JBool false) (String c t)
          else expect "null" JNull (String c t)
      end
  end
(** The rest of an array, its elements and the closing bracket. *)
with parse_elements (fuel : nat) (s : string) : result (list json * string) :=
  match fuel with
  | O => out_of_fuel
  | S f =>
      '(v, r) ← parse_value f s;
      match skip_ws r with
      | String c t =>
          if Ascii.eqb c "," then '(l, r') ← parse_elements f t; mret (v :: l, r')
          else if Ascii.eqb c "]" then Ok ([v], t) else syntax_error
      | "" => syntax_error
      end
  end
with parse_members (fuel : nat) (s : string) : result (list (string * json) * string) :=
  match fuel with
  | O => out_of_fuel
  | S f =>
      match skip_ws s with
      | String q t =>
          if negb (Ascii.eqb q dq) then syntax_error
          else
            '(k, r) ← string_body t;
            match skip_ws r with
            | String c1 t1 =>
                if negb (Ascii.eqb c1 ":") then syntax_error
                else
                  '(v, r1) ← parse_value f t1;
                  match skip_ws r1 with
                  | String c2 t2 =>
                      if Ascii.eqb c2 "," then '(l, r') ← parse_members f t2; mret ((k, v) :: l, r')
                      else if Ascii.eqb c2 "}" then Ok ([(k, v)], t2) else syntax_error
                  | "" => syntax_error
                  end
            | "" => syntax_error
            end
      | "" => syntax_error
      end
  end.

(** [JSON.parse(text)]: twice its length is fuel enough ([parse_has_fuel]). *)
Definition parse (text : string) : result json :=
  '(v, r) ← parse_value (2 * String.length text + 2) text;
  if String.eqb (skip_ws r) "" then Ok v else syntax_error.

(** [value.key] of an object. *)
Fixpoint lookup_field (key : string) (fields : list (string * json)) : option json :=
  match fields with
  | [] => None
  | (k, v) :: rest => if String.eqb k key then Some v else lookup_field key rest
  end.
Definition field (key : string) (v : json) : option json :=
  match v with JObj fields => lookup_field key fields | _ => None end.

(** * Specification *)

(** Every object in it has distinct keys, as JavaScript's objects do. *)
Fixpoint json_ok (v : json) : bool :=
  match v with
  | JArr l => forallb json_ok l
  | JObj fields => bool_decide (NoDup (map fst fields)) && forallb (fun kv => json_ok kv.2) fields
  | _ => true
  end.

(** * Lemmas *)

Section Json_induction.
Context (P : json -> Prop) (Hnull : P JNull) (Hbool : forall b, P (JBool b)) (Hnum : forall n, P (JNum n)).
Context (Hreal : forall x, P (JReal x)) (Hstr : forall s, P (JStr s)).
Context (Harr : forall l, Forall P l -> P (JArr l)) (Hobj : forall fs, Forall (fun kv => P kv.2) fs -> P (JObj fs)).

Fixpoint json_nested_ind (v : json) : P v :=
  match v with
  | JNull => Hnull | JBool b => Hbool b | JNum n => Hnum n | JReal x => Hreal x | JStr s => Hstr s
  | JArr l => Harr l ((fix go (l : list json) : Forall P l :=
      match l with [] => @List.Forall_nil _ _ | x :: r => @List.Forall_cons _ _ x r (json_nested_ind x) (go r) end) l)
  | JObj fs => Hobj fs ((fix go (fs : list (string * json)) : Forall (fun kv => P kv.2) fs :=
      match fs with
      | [] => @List.Forall_nil _ _
      | kv :: r => @List.Forall_cons _ (fun kv => P kv.2) kv r (json_nested_ind kv.2) (go r)
      end) fs)
  end.
End Json_induction.

(** ** Characters *)

Lemma quote_char_body c t : string_body (quote_char c ++ t) = ('(x, rest) ← string_body t; mret (String c x, rest)).
Proof. destruct c as [[] [] [] [] [] [] [] []]; reflexivity. Qed.

Lemma quote_body_spec s rest : string_body (quote_body s ++ String dq rest) = Ok (s, rest).
Proof. induction s as [|c s IH]; [done|]. cbn [quote_body]. by rewrite str_app_assoc quote_char_body IH. Qed.

Lemma quoted_spec s rest : quoteJSON s ++ rest = String dq (quote_body s ++ String dq rest).
Proof. unfold quoteJSON. cbn [append]. by rewrite str_app_assoc. Qed.

Lemma slice_from_cons c s : js_slice_from (String c s) 1 = s.
Proof. exact (slice_app_r (String c "") s). Qed.

Lemma digit_cases c :
  is_digit c = true ->
  is_json_ws c = false /\ Ascii.eqb c "{" = false /\ Ascii.eqb c "[" = false /\ Ascii.eqb c "]" = false /\ Ascii.eqb c dq = false
  /\ Ascii.eqb c "-" = false.
Proof. destruct c as [[] [] [] [] [] [] [] []]; intros H; first [discriminate H|by split_and!]. Qed.

Lemma skip_ws_id c s : is_json_ws c = false -> skip_ws (String c s) = String c s.
Proof. intros H. cbn. by rewrite H. Qed.

Lemma skip_ws_length s : (String.length (skip_ws s) <= String.length s)%nat.
Proof. induction s as [|c s IH]; cbn; [done|]. destruct (is_json_ws c); cbn; lia. Qed.

(** ** Numerals *)

(** What may follow a value. *)
Definition value_end (rest : string) : Prop :=
  match rest with "" => True | String c _ => is_digit c = false /\ is_fraction c = false end.

Lemma span_digits_app ds rest : str_forall is_digit ds = true -> value_end rest -> span_digits (ds ++ rest) = (ds, rest).
Proof.
  induction ds as [|c ds IH]; cbn.
  - intros _. destruct rest as [|c rest]; [done|]. intros [H _]. cbn. by rewrite H.
  - intros [Hc Hds]%andb_prop Hr. by rewrite Hc IH.
Qed.

Lemma to_digits_head f n acc :
  0 < n < 10 ^ Z.of_nat f -> exists d s, to_digits f 10 n acc = String (digit_char d) s /\ 0 < d < 10.
Proof.
  revert n acc. induction f as [|f IH]; intros n acc Hn; [cbn in Hn; lia|]. cbn [to_digits].
  destruct (Z.ltb_spec n 10) as [Hlt|Hge]; [exists (n mod 10); eexists; split; [done|]; rewrite Z.mod_small; lia|].
  apply IH. rewrite Nat2Z.inj_succ Z.pow_succ_r in Hn; [|lia].
  pose proof (Z.div_mod n 10 ltac:(done)). pose proof (Z.mod_pos_bound n 10 ltac:(done)). nia.
Qed.

Lemma numeral_spec n :
  0 <= n -> exists ds, num_to_string n = ds /\ str_forall is_digit ds = true /\ parse_digits 10 ds = Some n
    /\ startsWith ds "0" && (1 <? String.length ds)%nat = false /\ (1 <= String.length ds)%nat.
Proof.
  intros Hn. exists (num_to_string n). split; [done|]. unfold num_to_string, num_to_string_base.
  rewrite (proj2 (Z.ltb_ge n 0) Hn). set (f := S _).
  assert (0 <= n < 2 ^ Z.of_nat f) as Hf.
  { split; [done|]. unfold f. rewrite Nat2Z.inj_succ Z2Nat.id; [|apply Z.log2_nonneg].
    destruct (Z.eq_dec n 0) as [->|]; [done|]. apply Z.log2_spec. lia. }
  destruct (to_digits_is_fixed 10 ltac:(lia) f n "" Hf ltac:(unfold f; lia)) as (w & Hw & Hb & E). rewrite E.
  split_and!.
  - apply str_forall_fixed; [lia| |done]. intros d Hd.
    assert (d = 0 \/ d = 1 \/ d = 2 \/ d = 3 \/ d = 4 \/ d = 5 \/ d = 6 \/ d = 7 \/ d = 8 \/ d = 9) as Hc by lia.
    repeat destruct Hc as [->|Hc]; [done..|by subst].
  - by apply parse_fixed.
  - rewrite -E. destruct (Z.eq_dec n 0) as [->|Hpos]; [done|].
    destruct (to_digits_head f n "") as (d & s & Es & Hd).
    { split; [lia|]. eapply Z.lt_le_trans; [apply Hf|]. apply Z.pow_le_mono_l. lia. }
    rewrite Es. assert (d = 1 \/ d = 2 \/ d = 3 \/ d = 4 \/ d = 5 \/ d = 6 \/ d = 7 \/ d = 8 \/ d = 9) as Hc by lia.
    clear -Hc. repeat destruct Hc as [->|Hc]; [done..|by subst].
  - rewrite length_fixed. cbn. lia.
Qed.

Lemma number_from_spec negative n rest :
  0 <= n -> is_safe n = true -> value_end rest ->
  number_from negative (num_to_string n ++ rest) = Ok (JNum (if negative then - n else n), rest).
Proof.
  intros Hn Hs Hr. destruct (numeral_spec n Hn) as (ds & -> & Hd & Hp & H0 & _).
  unfold number_from. rewrite (span_digits_app ds rest Hd Hr) Hp H0 Hs.
  by assert (match rest with "" => false | String c _ => is_fraction c end = false) as -> by (destruct rest; [done|apply Hr]).
Qed.

Lemma numeral_head n : 0 <= n -> exists c s, num_to_string n = String c s /\ is_digit c = true.
Proof.
  intros Hn. destruct (numeral_spec n Hn) as (ds & -> & Hd & _ & _ & Hl).
  destruct ds as [|c s]; [cbn in Hl; lia|]. exists c, s. split; [done|]. cbn in Hd. by apply andb_prop in Hd as [Hd _].
Qed.

Lemma numeral_neg n : n < 0 -> num_to_string n = String "-" (num_to_string (- n)).
Proof.
  intros Hn. unfold num_to_string, num_to_string_base. by rewrite (proj2 (Z.ltb_lt n 0) Hn) (proj2 (Z.ltb_ge (- n) 0) ltac:(lia)).
Qed.

Lemma starts_own p s : startsWith (p ++ s) p = true.
Proof. unfold startsWith. induction p as [|c p IH]; [by destruct s|]. cbn. by destruct (ascii_dec c c). Qed.

Lemma starts_char a c s : startsWith (String c s) (String a "") = Ascii.eqb a c.
Proof.
  unfold startsWith. cbn [String.prefix]. destruct (ascii_dec a c) as [->|Hne].
  - rewrite Ascii.eqb_refl. by destruct s.
  - symmetry. by apply Ascii.eqb_neq.
Qed.

Lemma parse_number_spec n rest :
  is_safe n = true -> value_end rest -> parse_number (num_to_string n ++ rest) = Ok (JNum n, rest).
Proof.
  intros Hs Hr. unfold parse_number. destruct (Z.ltb_spec n 0) as [Hn|Hn].
  - rewrite numeral_neg //. cbn [append]. rewrite (starts_own "-" (num_to_string (- n) ++ rest)).
    rewrite slice_from_cons number_from_spec; [|lia|unfold is_safe in *; lia|done]. by rewrite Z.opp_involutive.
  - destruct (numeral_head n Hn) as (c & s & E & Hc). destruct (digit_cases c Hc) as (_ & _ & _ & _ & _ & Hm).
    assert (startsWith (num_to_string n ++ rest) "-" = false) as ->.
    { rewrite E. cbn [append]. by rewrite starts_char Ascii.eqb_sym. }
    by apply (number_from_spec false).
Qed.

(** ** Round trip *)

(** The fuel a value needs. *)
Fixpoint weight (v : json) : nat :=
  match v with
  | JArr l => 2 + list_sum (map (fun x => S (weight x)) l)
  | JObj fields => 2 + list_sum (map (fun kv => S (weight kv.2)) fields)
  | _ => 1
  end.

Lemma text_head v text :
  stringify v = Ok text -> exists c t, text = String c t /\ is_json_ws c = false /\ Ascii.eqb c "]" = false.
Proof.
  destruct v as [|b|n|x|s|l|fs]; cbn [stringify].
  - intros [= <-]. by eexists _, _.
  - intros [= <-]. by destruct b; eexists _, _.
  - destruct (is_safe n); [|done]. intros [= <-]. destruct (Z.ltb_spec n 0) as [Hn|Hn].
    + rewrite numeral_neg //. by eexists _, _.
    + destruct (numeral_head n Hn) as (c & t & -> & Hc). exists c, t. by destruct (digit_cases c Hc) as (? & _ & _ & ? & _).
  - done.
  - intros [= <-]. by eexists _, _.
  - intros (ps & _ & [= <-])%bind_Ok_inv. by eexists _, _.
  - intros (ps & _ & [= <-])%bind_Ok_inv. by eexists _, _.
Qed.

(** A written value reads back, whatever follows it, given its weight in fuel. *)
Definition reads_back (v : json) : Prop :=
  forall text fuel rest, stringify v = Ok text -> value_end rest -> (weight v <= fuel)%nat ->
  parse_value fuel (text ++ rest) = Ok (v, rest).

Lemma mapM_cons_Ok {A B} (f : A -> result B) x l ys :
  mapM (M := result) f (x :: l) = Ok ys -> exists y zs, f x = Ok y /\ mapM (M := result) f l = Ok zs /\ ys = y :: zs.
Proof. cbn. intros (y & Hy & (zs & Hz & [= <-])%bind_Ok_inv)%bind_Ok_inv. by exists y, zs. Qed.

Lemma parse_elements_spec l x parts : forall fuel rest,
  Forall reads_back (x :: l) -> mapM (M := result) stringify (x :: l) = Ok parts ->
  (list_sum (map (fun y => S (weight y)) (x :: l)) <= fuel)%nat ->
  parse_elements fuel (JsString.join "," parts ++ String "]" rest) = Ok (x :: l, rest).
Proof.
  revert x parts. induction l as [|y l IH]; intros x parts fuel rest [Hx Hl]%Forall_cons E Hf;
    apply mapM_cons_Ok in E as (tx & ts & Etx & Ets & ->); destruct fuel as [|f]; cbn in Hf; [lia| |lia|];
    cbn [parse_elements].
  - injection Ets as <-. cbn [JsString.join]. rewrite (Hx tx f); [|done|done|lia]. done.
  - pose proof Ets as (ty & ts' & Ety & Ets' & ->)%mapM_cons_Ok.
    change (JsString.join "," (tx :: ty :: ts')) with (tx ++ "," ++ JsString.join "," (ty :: ts')). rewrite !str_app_assoc.
    rewrite (Hx tx f); [|done|done|lia]. cbn [mbind result_bind]. rewrite skip_ws_id //. cbn iota beta.
    change (Ascii.eqb "," ",") with true. cbn iota. rewrite (IH y (ty :: ts')); [|done|done|cbn; lia]. done.
Qed.

Definition member_text (kv : string * json) : result string := text ← stringify kv.2; mret (quoteJSON kv.1 ++ ":" ++ text).

Lemma parse_member f k v text rest :
  reads_back v -> stringify v = Ok text -> value_end rest -> (weight v <= f)%nat ->
  exists t, skip_ws ((quoteJSON k ++ ":" ++ text) ++ rest) = String dq t
    /\ string_body t = Ok (k, String ":" (text ++ rest))
    /\ parse_value f (text ++ rest) = Ok (v, rest).
Proof.
  intros Hv E Hr Hf. exists (quote_body k ++ String dq (":" ++ text ++ rest)). split_and!.
  - rewrite str_app_assoc quoted_spec str_app_assoc. done.
  - apply quote_body_spec.
  - by apply Hv.
Qed.

Lemma parse_members_spec l kv parts : forall fuel rest,
  Forall (fun kv => reads_back kv.2) (kv :: l) -> mapM (M := result) member_text (kv :: l) = Ok parts ->
  (list_sum (map (fun kv => S (weight kv.2)) (kv :: l)) <= fuel)%nat ->
  parse_members fuel (JsString.join "," parts ++ String "}" rest) = Ok (kv :: l, rest).
Proof.
  revert kv parts. induction l as [|kv' l IH]; intros [k v] parts fuel rest [Hx Hl]%Forall_cons E Hf;
    apply mapM_cons_Ok in E as (tx & ts & (text & Et & [= <-])%bind_Ok_inv & Ets & ->); destruct fuel as [|f]; cbn in Hf; [lia| |lia|];
    cbn [fst snd] in *.
  - injection Ets as <-. cbn [JsString.join].
    destruct (parse_member f k v text (String "}" rest) Hx Et) as (t & E1 & E2 & E3); [done|lia|].
    cbn [parse_members]. rewrite E1. cbn. rewrite E2. cbn. by rewrite E3.
  - pose proof Ets as (ty & ts' & _ & _ & ->)%mapM_cons_Ok.
    change (JsString.join "," (?a :: ty :: ts')) with (a ++ "," ++ JsString.join "," (ty :: ts')).
    destruct (parse_member f k v text ("," ++ JsString.join "," (ty :: ts') ++ String "}" rest) Hx Et) as (t & E1 & E2 & E3);
      [done|lia|]. rewrite str_app_assoc (str_app_assoc ","). cbn [parse_members]. rewrite E1. cbn. rewrite E2. cbn. rewrite E3. cbn.
    rewrite (IH kv' (ty :: ts')); [|done|done|cbn; lia]. done.
Qed.

Lemma parse_value_spec v : json_ok v = true -> reads_back v.
Proof.
  induction v as [|b|n|x|s|l IH|fs IH] using json_nested_ind; intros Hok text fuel rest E Hr Hf;
    (destruct fuel as [|f]; [cbn in Hf; lia|]); cbn [stringify] in E.
  - injection E as <-. cbn. unfold expect. rewrite (starts_own "null" rest). by rewrite (slice_app_r "null" rest).
  - injection E as <-. destruct b; cbn; unfold expect.
    + rewrite (starts_own "true" rest). by rewrite (slice_app_r "true" rest).
    + rewrite (starts_own "false" rest). by rewrite (slice_app_r "false" rest).
  - destruct (is_safe n) eqn:Hs; [|done]. injection E as <-.
    assert (exists c t, num_to_string n = String c t /\ is_digit c || Ascii.eqb c "-" = true) as (c & t & Ec & Hc).
    { destruct (Z.ltb_spec n 0) as [Hn|Hn]; [rewrite numeral_neg //; by eexists _, _|].
      destruct (numeral_head n Hn) as (c & t & -> & Hc). exists c, t. by rewrite Hc. }
    pose proof (parse_number_spec n rest Hs Hr) as Hp. rewrite Ec in Hp |- *. cbn [append] in *. cbn [parse_value].
    assert (is_json_ws c = false /\ Ascii.eqb c "{" = false /\ Ascii.eqb c "[" = false /\ Ascii.eqb c dq = false) as (H1 & H2 & H3 & H4).
    { destruct (is_digit c) eqn:Hd; [by destruct (digit_cases c Hd) as (? & ? & ? & ? & ? & ?)|].
      cbn in Hc. apply Ascii.eqb_eq in Hc as ->. done. }
    rewrite skip_ws_id // H2 H3 H4 Hc. exact Hp.
  - done.
  - injection E as <-. rewrite quoted_spec. cbn. by rewrite quote_body_spec.
  - apply bind_Ok_inv in E as (parts & E & [= <-]). cbn [weight] in Hf. destruct l as [|x l].
    + injection E as <-. cbn -[startsWith js_slice_from]. by rewrite (starts_own "]" rest) slice_from_cons.
    + cbn [append]. rewrite str_app_assoc. cbn [parse_value append].
      assert (Forall reads_back (x :: l)) as Hall.
      { cbn [json_ok] in Hok. apply Forall_forall. intros y Hy. rewrite ->Forall_forall in IH. apply IH; [done|].
        rewrite ->forallb_forall in Hok. apply Hok. by apply list_elem_of_In. }
      assert (exists c t, JsString.join "," parts ++ String "]" rest = String c t /\ is_json_ws c = false /\ Ascii.eqb c "]" = false)
        as (c & t & Ej & Hw & Hc).
      { apply mapM_cons_Ok in E as (tx & ts & (c & t & -> & Hw & Hc)%text_head & _ & ->).
        exists c. destruct ts; cbn [JsString.join append]; eexists; by split. }
      pose proof (parse_elements_spec l x parts f rest Hall E ltac:(cbn in *; lia)) as Hp. cbn -[startsWith js_slice_from]. rewrite Ej in Hp |- *.
      rewrite skip_ws_id // starts_char Ascii.eqb_sym Hc Hp. done.
  - apply bind_Ok_inv in E as (parts & E & [= <-]). cbn [weight] in Hf. cbn [json_ok] in Hok.
    apply andb_prop in Hok as [Hnd%bool_decide_eq_true_1 Hok]. destruct fs as [|kv fs].
    + injection E as <-. cbn -[startsWith js_slice_from]. by rewrite (starts_own "}" rest) slice_from_cons.
    + cbn [append]. rewrite str_app_assoc. cbn [parse_value append].
      assert (Forall (fun kv => reads_back kv.2) (kv :: fs)) as Hall.
      { apply Forall_forall. intros y Hy. rewrite ->Forall_forall in IH. apply (IH y Hy).
        rewrite ->forallb_forall in Hok. apply (Hok y). by apply list_elem_of_In. }
      pose proof (parse_members_spec fs kv parts f rest Hall E ltac:(cbn in *; lia)) as Hp.
      assert (exists t, JsString.join "," parts ++ String "}" rest = String dq t) as (t & Ej).
      { apply mapM_cons_Ok in E as (tx & ts & (text & _ & [= <-])%bind_Ok_inv & _ & ->).
        destruct ts; cbn [JsString.join]; unfold quoteJSON; cbn [append]; by eexists. }
      cbn -[startsWith js_slice_from]. rewrite Ej in Hp |- *. rewrite skip_ws_id // starts_char. change (Ascii.eqb "}" dq) with false. cbn iota.
      rewrite Hp. cbn -[jmap_of]. by rewrite jmap_of_nodup.
Qed.

Lemma weight_bound v : forall text, stringify v = Ok text -> (weight v <= 2 * String.length text)%nat.
Proof.
  induction v as [|b|n|x|s|l IH|fs IH] using json_nested_ind; intros text E; pose proof (text_head _ _ E) as (c0 & t0 & -> & _);
    cbn [stringify] in E; try (cbn; lia).
  - apply bind_Ok_inv in E as (parts & E & [= _ <-]). cbn [String.length weight]. rewrite length_str_app. cbn.
    assert (list_sum (map (fun x => S (weight x)) l) <= 2 * String.length (JsString.join "," parts) + 2)%nat; [|lia].
    revert parts E. induction l as [|x l IHl]; intros parts E; [injection E as <-; cbn; lia|].
    apply Forall_cons in IH as [Hx IH]. apply mapM_cons_Ok in E as (tx & ts & Etx & Ets & ->).
    specialize (Hx tx Etx). specialize (IHl IH ts Ets). cbn [map list_sum foldr] in *.
    destruct ts as [|ty ts]; [destruct l; [cbn; lia|by apply mapM_cons_Ok in Ets as (? & ? & _ & _ & ?)]|].
    change (JsString.join "," (tx :: ty :: ts)) with (tx ++ "," ++ JsString.join "," (ty :: ts)). rewrite !length_str_app.
    change (String.length ",") with 1%nat. unfold list_sum in *. cbn [foldr] in *. lia.
  - apply bind_Ok_inv in E as (parts & E & [= _ <-]). cbn [String.length weight]. rewrite length_str_app. cbn.
    assert (list_sum (map (fun kv => S (weight kv.2)) fs) <= 2 * String.length (JsString.join "," parts) + 2)%nat; [|lia].
    revert parts E. induction fs as [|[k x] l IHl]; intros parts E; [injection E as <-; cbn; lia|].
    apply Forall_cons in IH as [Hx IH]. apply mapM_cons_Ok in E as (tx & ts & (text & Etx & [= <-])%bind_Ok_inv & Ets & ->).
    specialize (Hx text Etx). specialize (IHl IH ts Ets). cbn [map list_sum foldr snd fst] in *.
    destruct ts as [|ty ts]; [destruct l; [cbn [JsString.join String.length]; rewrite !length_str_app; unfold list_sum; cbn; lia
                                          |by apply mapM_cons_Ok in Ets as (? & ? & _ & _ & ?)]|].
    change (JsString.join "," (?a :: ty :: ts)) with (a ++ "," ++ JsString.join "," (ty :: ts)). cbn [append String.length]. rewrite !length_str_app.
    unfold list_sum in *. cbn [foldr String.length] in *. lia.
Qed.

(** What [JSON.stringify] writes, [JSON.parse] reads back. *)
Lemma parse_stringify v text : json_ok v = true -> stringify v = Ok text -> parse text = Ok v.
Proof.
  intros Hok E. unfold parse. pose proof (parse_value_spec v Hok text (2 * String.length text + 2)%nat "" E I) as H.
  rewrite str_app_nil_r in H. rewrite H; [done|]. pose proof (weight_bound v text E). lia.
Qed.

(** ** Termination *)

(** A parser that consumes something, and never stops for want of fuel. *)
Definition consumes {A} (s : string) (r : result (A * string)) : Prop :=
  match r with
  | Ok (_, rest) => (String.length rest < String.length s)%nat
  | Throw e => e <> OutsideModel "the parser ran out of fuel"
  end.

Lemma string_body_consumes s : consumes s (string_body s).
Proof.
  remember (String.length s) as n eqn:Hn. revert s Hn. induction n as [n IH] using lt_wf_ind. intros s ->.
  assert (forall A (f : string -> A) r, (String.length r < String.length s)%nat ->
    consumes s ('(x, rest) ← string_body r; mret (f x, rest))) as Hrec.
  { intros A f r Hr. specialize (IH _ Hr r eq_refl). destruct (string_body r) as [[x rest]|e]; cbn in *; [lia|done]. }
  destruct s as [|c t]; [done|]. cbn [string_body]. destruct (Ascii.eqb c dq); [cbn; lia|].
  destruct (Ascii.eqb c backslash).
  - destruct t as [|e r]; [done|]. destruct (Ascii.eqb e "u").
    + destruct r as [|a [|b [|d [|h r]]]]; [done..|]. destruct (parse_digits _ _) as [n|]; [|done].
      destruct (n <? 256); [|done]. apply Hrec. cbn. lia.
    + destruct (unescape e); [|done]. apply Hrec. cbn. lia.
  - destruct (code c <? 32); [done|]. apply Hrec. cbn. lia.
Qed.

Lemma span_digits_length s ds r : span_digits s = (ds, r) -> (String.length ds + String.length r = String.length s)%nat.
Proof.
  revert ds r. induction s as [|c s IH]; cbn; intros ds r; [by intros [= <- <-]|]. destruct (is_digit c); [|by intros [= <- <-]].
  destruct (span_digits s) as [ds' r']. intros [= <- <-]. specialize (IH _ _ eq_refl). cbn. lia.
Qed.

Lemma slice_from_length s n : String.length (js_slice_from s n) = (String.length s - n)%nat.
Proof.
  unfold js_slice_from, js_slice. revert n. induction s as [|c s IH]; intros [|n]; cbn; [done..| |].
  - f_equal. specialize (IH 0%nat). by rewrite Nat.sub_0_r in IH.
  - apply IH.
Qed.

Lemma number_from_consumes negative s : consumes s (number_from negative s).
Proof.
  unfold number_from. destruct (span_digits s) as [ds r] eqn:E. apply span_digits_length in E.
  destruct (parse_digits 10 ds) as [n|] eqn:Ep; [|done]. destruct (_ && _); [done|]. destruct (_ || _); [done|]. cbn.
  destruct ds; [done|]. cbn in E. lia.
Qed.

Lemma parse_number_consumes s : consumes s (parse_number s).
Proof.
  unfold parse_number. destruct (startsWith s "-"); [|apply number_from_consumes].
  pose proof (number_from_consumes true (js_slice_from s 1)) as H. pose proof (slice_from_length s 1) as Hl.
  destruct (number_from _ _) as [[x rest]|e]; cbn in *; [lia|done].
Qed.

Lemma expect_consumes k v s : (0 < String.length k)%nat -> (0 < String.length s)%nat -> consumes s (expect k v s).
Proof. intros Hk Hs. unfold expect. destruct (startsWith s k); [|done]. cbn. rewrite slice_from_length. lia. Qed.

Lemma consumes_bind {A B} s s' (r : result (A * string)) (f : A * string -> result (B * string)) :
  consumes s r -> (forall x rest, (String.length rest < String.length s)%nat -> consumes s' (f (x, rest))) ->
  consumes s' (mbind f r).
Proof. destruct r as [[x rest]|e]; cbn; [intros Hr H; by apply H|done]. Qed.

Lemma consumes_weaken {A} s s' (r : result (A * string)) :
  consumes s r -> (String.length s <= String.length s')%nat -> consumes s' r.
Proof. destruct r as [[x rest]|e]; cbn; [lia|done]. Qed.

Lemma parsers_consume n :
  (forall s, (2 * String.length s + 2 <= n)%nat -> consumes s (parse_value n s))
  /\ (forall s, (2 * String.length s + 3 <= n)%nat -> consumes s (parse_elements n s))
  /\ (forall s, (2 * String.length s + 3 <= n)%nat -> consumes s (parse_members n s)).
Proof.
  induction n as [|n (IHv & IHe & IHm)]; [split_and!; intros s Hs; lia|]. split_and!; intros s Hs.
  - cbn [parse_value]. pose proof (skip_ws_length s) as Hw. destruct (skip_ws s) as [|c t]; [done|].
    apply (consumes_weaken (String c t)); [|done]. cbn [String.length] in Hw. pose proof (skip_ws_length t) as Ht.
    destruct (Ascii.eqb c "{").
    { destruct (startsWith (skip_ws t) "}"); [cbn [consumes mret result_ret String.length]; rewrite slice_from_length; lia|].
      eapply consumes_bind; [apply IHm; lia|]. intros x rest Hr. cbn. lia. }
    destruct (Ascii.eqb c "[").
    { destruct (startsWith (skip_ws t) "]"); [cbn [consumes mret result_ret String.length]; rewrite slice_from_length; lia|].
      eapply consumes_bind; [apply IHe; lia|]. intros x rest Hr. cbn. lia. }
    destruct (Ascii.eqb c dq); [eapply consumes_bind; [apply string_body_consumes|]; intros x rest Hr; cbn; lia|].
    destruct (_ || _); [apply parse_number_consumes|].
    destruct (Ascii.eqb c "t"); [apply expect_consumes; cbn; lia|]. destruct (Ascii.eqb c "f"); apply expect_consumes; cbn; lia.
  - cbn [parse_elements]. eapply consumes_bind; [apply IHv; lia|]. intros v r Hr.
    pose proof (skip_ws_length r) as Hw. destruct (skip_ws r) as [|c t]; [done|]. cbn [String.length] in Hw.
    destruct (Ascii.eqb c ","); [|destruct (Ascii.eqb c "]"); [cbn; lia|done]].
    eapply consumes_bind; [apply IHe; lia|]. intros x rest Hx. cbn. lia.
  - cbn [parse_members]. pose proof (skip_ws_length s) as Hw. destruct (skip_ws s) as [|q t]; [done|]. cbn [String.length] in Hw.
    destruct (negb _); [done|]. eapply consumes_bind; [apply string_body_consumes|]. intros k r Hr.
    pose proof (skip_ws_length r) as Hw1. destruct (skip_ws r) as [|c1 t1]; [done|]. cbn [String.length] in Hw1.
    destruct (negb _); [done|]. eapply consumes_bind; [apply IHv; lia|]. intros v r1 Hr1.
    pose proof (skip_ws_length r1) as Hw2. destruct (skip_ws r1) as [|c2 t2]; [done|]. cbn [String.length] in Hw2.
    destruct (Ascii.eqb c2 ","); [|destruct (Ascii.eqb c2 "}"); [cbn; lia|done]].
    eapply consumes_bind; [apply IHm; lia|]. intros x rest Hx. cbn. lia.
Qed.

(** The parser always has the fuel it needs: whatever the text, it answers or rejects. *)
Lemma parse_has_fuel text : parse text <> out_of_fuel.
Proof.
  unfold parse. pose proof (proj1 (parsers_consume (2 * String.length text + 2)) text ltac:(lia)) as H.
  destruct (parse_value _ text) as [[v r]|e]; unfold out_of_fuel; cbn in *; [by destruct (String.eqb _ _)|congruence].
Qed.
