(* ===== verification/Domain.v ===== *)
(** The domain model ([app/src/app/core/models/domain.ts], [oplog.ts]): a record per
    entity, field names prefixed by the entity's abbreviation. *)
From S2P Require Export JsString JsNumber.
#[local] Open Scope Z_scope.

(** Amounts are integers in the currency's minor unit. *)
Notation Minor := Z.

Inductive AccountKind : Type := Kcash | Kbank | Kcard | Kwallet | Ksavings | Kinvestment.
Inductive AccountGroupType : Type := GDefault | GCreditCard | GDebitCard | GLoan.

Record AccountGroup : Type := mkAccountGroup {
  ag_id : string; ag_name : string; ag_type : AccountGroupType; ag_order : Z;
  ag_colour : string; ag_icon : string; ag_archived : bool;
  ag_createdAt : Z; ag_updatedAt : string }.

(** An absent field and [null] read alike throughout the code: both are [None]. *)
Record Account : Type := mkAccount {
  acc_id : string; acc_name : string; acc_kind : AccountKind; acc_currency : string;
  acc_openingBalance : Minor; acc_archived : bool; acc_colour : string; acc_icon : string;
  acc_groupId : option string; acc_creditLimit : option Minor;
  acc_statementDay : option Z; acc_dueDay : option Z;
  acc_excludedFromTotals : option bool; acc_createdAt : Z; acc_updatedAt : string }.

Inductive CategoryKind : Type := CIncome | CExpense.

Record Category : Type := mkCategory {
  cat_id : string; cat_name : string; cat_kind : CategoryKind; cat_parentId : option string;
  cat_colour : string; cat_icon : string; cat_archived : bool;
  cat_createdAt : Z; cat_updatedAt : string }.

Inductive TransactionKind : Type := Income | Expense | Transfer.

Record Transaction : Type := mkTransaction {
  txn_id : string; txn_kind : TransactionKind; txn_amount : Minor; txn_currency : string;
  txn_accountId : string; txn_counterAccountId : option string; txn_categoryId : option string;
  txn_date : string; txn_payee : string; txn_note : string; txn_tags : list string;
  txn_cleared : bool; txn_rate : option number; txn_rateDate : option string;
  txn_createdAt : Z; txn_updatedAt : string }.

Inductive RateSource : Type := Manual | Fetched.

Record ExchangeRate : Type := mkExchangeRate {
  er_id : string; er_base : string; er_quote : string; er_rate : number; er_date : string;
  er_source : RateSource; er_createdAt : Z; er_updatedAt : string }.

Inductive BudgetPeriod : Type := Weekly | Monthly | Yearly.

Record Budget : Type := mkBudget {
  bud_id : string; bud_name : string; bud_categoryIds : list string; bud_period : BudgetPeriod;
  bud_amount : Minor; bud_currency : string; bud_startDate : string; bud_rollover : bool;
  bud_archived : bool; bud_createdAt : Z; bud_updatedAt : string }.

Inductive RecurrenceUnit : Type := UDay | UWeek | UMonth | UYear.

Record RecurringRule : Type := mkRule {
  rule_id : string; rule_name : string; rule_kind : TransactionKind; rule_amount : Minor;
  rule_currency : string; rule_accountId : string; rule_counterAccountId : option string;
  rule_categoryId : option string; rule_payee : string; rule_note : string;
  rule_tags : list string; rule_interval : Z; rule_unit : RecurrenceUnit;
  rule_startDate : string; rule_endDate : option string; rule_maxOccurrences : option Z;
  rule_skipped : list string; rule_archived : bool; rule_createdAt : Z; rule_updatedAt : string }.

Record VaultSettings : Type := mkVaultSettings {
  vs_reportingCurrency : string; vs_subcategories : option bool;
  vs_createdAt : Z; vs_updatedAt : string }.

Inductive EntityName : Type :=
| EAccountGroups | EAccounts | ECategories | ETransactions | EBudgets | ERecurringRules
| ERates | EVaultSettings.

Definition ENTITY_NAMES : list EntityName :=
  [EAccountGroups; EAccounts; ECategories; ETransactions; EBudgets; ERecurringRules;
   ERates; EVaultSettings].

(** [EntityMap[EntityName]]. *)
Inductive AnyEntity : Type :=
| AnAccountGroup (v : AccountGroup) | AnAccount (v : Account) | ACategory (v : Category)
| ATransaction (v : Transaction) | ABudget (v : Budget) | ARule (v : RecurringRule)
| ARate (v : ExchangeRate) | ASettings (v : VaultSettings).

(** [{ ...value, updatedAt }], the one field update the ledger makes. *)
Definition set_updatedAt (stamp : string) (v : AnyEntity) : AnyEntity :=
  match v with
  | AnAccountGroup (mkAccountGroup i n t o c ic a cr _) => AnAccountGroup (mkAccountGroup i n t o c ic a cr stamp)
  | AnAccount (mkAccount i n k c o a co ic g cl sd dd ex cr _) =>
      AnAccount (mkAccount i n k c o a co ic g cl sd dd ex cr stamp)
  | ACategory (mkCategory i n k p c ic a cr _) => ACategory (mkCategory i n k p c ic a cr stamp)
  | ATransaction (mkTransaction i k a c ac ca ci d p n t cl r rd cr _) =>
      ATransaction (mkTransaction i k a c ac ca ci d p n t cl r rd cr stamp)
  | ABudget (mkBudget i n c p a cu s r ar cr _) => ABudget (mkBudget i n c p a cu s r ar cr stamp)
  | ARule (mkRule i n k a c ac ca ci p no t iv u s e m sk ar cr _) =>
      ARule (mkRule i n k a c ac ca ci p no t iv u s e m sk ar cr stamp)
  | ARate (mkExchangeRate i b q r d s cr _) => ARate (mkExchangeRate i b q r d s cr stamp)
  | ASettings (mkVaultSettings r s cr _) => ASettings (mkVaultSettings r s cr stamp)
  end.

Definition entity_id (v : AnyEntity) : string :=
  match v with
  | AnAccountGroup a => ag_id a | AnAccount a => acc_id a | ACategory c => cat_id c
  | ATransaction t => txn_id t | ABudget b => bud_id b | ARule r => rule_id r
  | ARate r => er_id r | ASettings _ => "vault"%string
  end.

Definition entity_updatedAt (v : AnyEntity) : string :=
  match v with
  | AnAccountGroup a => ag_updatedAt a | AnAccount a => acc_updatedAt a
  | ACategory c => cat_updatedAt c | ATransaction t => txn_updatedAt t
  | ABudget b => bud_updatedAt b | ARule r => rule_updatedAt r
  | ARate r => er_updatedAt r | ASettings s => vs_updatedAt s
  end.

(** The table an entity belongs in. *)
Definition entity_table (v : AnyEntity) : EntityName :=
  match v with
  | AnAccountGroup _ => EAccountGroups | AnAccount _ => EAccounts | ACategory _ => ECategories
  | ATransaction _ => ETransactions | ABudget _ => EBudgets | ARule _ => ERecurringRules
  | ARate _ => ERates | ASettings _ => EVaultSettings
  end.

(** A row read at its type. *)
Definition as_group (v : AnyEntity) : option AccountGroup :=
  match v with AnAccountGroup a => Some a | _ => None end.
Definition as_account (v : AnyEntity) : option Account :=
  match v with AnAccount a => Some a | _ => None end.
Definition as_category (v : AnyEntity) : option Category :=
  match v with ACategory c => Some c | _ => None end.
Definition as_transaction (v : AnyEntity) : option Transaction :=
  match v with ATransaction t => Some t | _ => None end.
Definition as_budget (v : AnyEntity) : option Budget :=
  match v with ABudget b => Some b | _ => None end.
Definition as_rule (v : AnyEntity) : option RecurringRule :=
  match v with ARule r => Some r | _ => None end.
Definition as_rate (v : AnyEntity) : option ExchangeRate :=
  match v with ARate r => Some r | _ => None end.
Definition as_settings (v : AnyEntity) : option VaultSettings :=
  match v with ASettings r => Some r | _ => None end.

(** ** oplog.ts *)

(** A [put] carries its value ([None] is the malformed put), a [delete] none. *)
Inductive OpKind : Type := Put | Delete.

Record Operation : Type := mkOp {
  op_hlc : string; op_entity : EntityName; op_entityId : string; op_op : OpKind;
  op_value : option AnyEntity; op_device : string }.

Record LocalOperation : Type := mkLocalOp { lop_op : Operation; lop_synced : bool }.

Record LedgerSnapshot : Type := mkSnapshot {
  snap_vaultId : string; snap_device : string; snap_watermark : string;
  snap_entities : list (EntityName * list AnyEntity); snap_operationCount : Z }.

Record OperationBatch : Type := mkBatch {
  batch_vaultId : string; batch_device : string; batch_head : string; batch_ops : list Operation }.

#[export] Instance AccountKind_eq_dec : EqDecision AccountKind.
Proof. solve_decision. Defined.
#[export] Instance AccountGroupType_eq_dec : EqDecision AccountGroupType.
Proof. solve_decision. Defined.
#[export] Instance CategoryKind_eq_dec : EqDecision CategoryKind.
Proof. solve_decision. Defined.
#[export] Instance TransactionKind_eq_dec : EqDecision TransactionKind.
Proof. solve_decision. Defined.
#[export] Instance BudgetPeriod_eq_dec : EqDecision BudgetPeriod.
Proof. solve_decision. Defined.
#[export] Instance EntityName_eq_dec : EqDecision EntityName.
Proof. solve_decision. Defined.

Definition EntityName_index (e : EntityName) : nat :=
  match e with
  | EAccountGroups => 0 | EAccounts => 1 | ECategories => 2 | ETransactions => 3
  | EBudgets => 4 | ERecurringRules => 5 | ERates => 6 | EVaultSettings => 7
  end.

#[export] Program Instance EntityName_countable : Countable EntityName :=
  inj_countable EntityName_index (fun n => nth_error ENTITY_NAMES n) _.
Next Obligation. by intros []. Qed.

(** * Lemmas *)

Lemma ENTITY_NAMES_all e : e ∈ ENTITY_NAMES.
Proof. destruct e; unfold ENTITY_NAMES; set_solver. Qed.

Lemma entity_id_set_updatedAt s v : entity_id (set_updatedAt s v) = entity_id v.
Proof. by destruct v as [[]|[]|[]|[]|[]|[]|[]|[]]. Qed.

Lemma entity_table_set_updatedAt s v : entity_table (set_updatedAt s v) = entity_table v.
Proof. by destruct v as [[]|[]|[]|[]|[]|[]|[]|[]]. Qed.

Lemma entity_updatedAt_set s v : entity_updatedAt (set_updatedAt s v) = s.
Proof. by destruct v as [[]|[]|[]|[]|[]|[]|[]|[]]. Qed.

#[export] Hint Rewrite entity_id_set_updatedAt entity_table_set_updatedAt entity_updatedAt_set : docket.
