(* ===== verification/Trees.v ===== *)
(** The records of the domain as the JavaScript values they are ([models/domain.ts],
    [models/oplog.ts]): what [JSON.stringify] sees of them, and how a parsed value is
    taken for one.  An absent field is left out; a field that may be [null] is [null]. *)
From S2P Require Export Json Domain.
#[local] Open Scope string_scope.
#[local] Open Scope Z_scope.

(** * Definitions *)

(** ** Building *)

(** An object literal; a field that is [undefined] is not written. *)
Definition obj (fields : list (string * option json)) : json :=
  JObj (omap (fun kv => (fun v => (kv.1, v)) <$> kv.2) fields).
Definition nullable (v : option json) : option json := Some (default JNull v).
Definition str (s : string) : option json := Some (JStr s).
Definition int (n : Z) : option json := Some (JNum n).
Definition flag (b : bool) : option json := Some (JBool b).
Definition strings (l : list string) : option json := Some (JArr (map JStr l)).

#[export] Instance spec_float_eq_dec : EqDecision number.
Proof. solve_decision. Defined.

(** A number: an integer one is written as such. *)
Definition tree_number (x : number) : json :=
  match js_round x with
  | Some z => if bool_decide (f_of_Z z = x) then JNum z else JReal x
  | None => JReal x
  end.

Definition account_group_type (t : AccountGroupType) : string :=
  match t with GDefault => "default" | GCreditCard => "credit-card" | GDebitCard => "debit-card" | GLoan => "loan" end.
Definition account_kind (k : AccountKind) : string :=
  match k with
  | Kcash => "cash" | Kbank => "bank" | Kcard => "card" | Kwallet => "wallet" | Ksavings => "savings" | Kinvestment => "investment"
  end.
Definition category_kind (k : CategoryKind) : string := match k with CIncome => "income" | CExpense => "expense" end.
Definition transaction_kind (k : TransactionKind) : string :=
  match k with Income => "income" | Expense => "expense" | Transfer => "transfer" end.
Definition rate_source (s : RateSource) : string := match s with Manual => "manual" | Fetched => "fetched" end.
Definition budget_period (p : BudgetPeriod) : string :=
  match p with Weekly => "weekly" | Monthly => "monthly" | Yearly => "yearly" end.
Definition recurrence_unit (u : RecurrenceUnit) : string :=
  match u with UDay => "day" | UWeek => "week" | UMonth => "month" | UYear => "year" end.
Definition entity_name (e : EntityName) : string :=
  match e with
  | EAccountGroups => "accountGroups" | EAccounts => "accounts" | ECategories => "categories" | ETransactions => "transactions"
  | EBudgets => "budgets" | ERecurringRules => "recurringRules" | ERates => "rates" | EVaultSettings => "vaultSettings"
  end.

Definition tree_group (a : AccountGroup) : json :=
  obj [("id", str (ag_id a)); ("name", str (ag_name a)); ("type", str (account_group_type (ag_type a))); ("order", int (ag_order a));
       ("colour", str (ag_colour a)); ("icon", str (ag_icon a)); ("archived", flag (ag_archived a));
       ("createdAt", int (ag_createdAt a)); ("updatedAt", str (ag_updatedAt a))].

Definition tree_account (a : Account) : json :=
  obj [("id", str (acc_id a)); ("name", str (acc_name a)); ("kind", str (account_kind (acc_kind a)));
       ("currency", str (acc_currency a)); ("openingBalance", int (acc_openingBalance a)); ("archived", flag (acc_archived a));
       ("colour", str (acc_colour a)); ("icon", str (acc_icon a)); ("groupId", JStr <$> acc_groupId a);
       ("creditLimit", JNum <$> acc_creditLimit a); ("statementDay", JNum <$> acc_statementDay a);
       ("dueDay", JNum <$> acc_dueDay a); ("excludedFromTotals", JBool <$> acc_excludedFromTotals a);
       ("createdAt", int (acc_createdAt a)); ("updatedAt", str (acc_updatedAt a))].

Definition tree_category (c : Category) : json :=
  obj [("id", str (cat_id c)); ("name", str (cat_name c)); ("kind", str (category_kind (cat_kind c)));
       ("parentId", nullable (JStr <$> cat_parentId c)); ("colour", str (cat_colour c)); ("icon", str (cat_icon c));
       ("archived", flag (cat_archived c)); ("createdAt", int (cat_createdAt c)); ("updatedAt", str (cat_updatedAt c))].

Definition tree_transaction (t : Transaction) : json :=
  obj [("id", str (txn_id t)); ("kind", str (transaction_kind (txn_kind t))); ("amount", int (txn_amount t));
       ("currency", str (txn_currency t)); ("accountId", str (txn_accountId t));
       ("counterAccountId", nullable (JStr <$> txn_counterAccountId t)); ("categoryId", nullable (JStr <$> txn_categoryId t));
       ("date", str (txn_date t)); ("payee", str (txn_payee t)); ("note", str (txn_note t)); ("tags", strings (txn_tags t));
       ("cleared", flag (txn_cleared t)); ("rate", tree_number <$> txn_rate t); ("rateDate", JStr <$> txn_rateDate t);
       ("createdAt", int (txn_createdAt t)); ("updatedAt", str (txn_updatedAt t))].

Definition tree_rate (r : ExchangeRate) : json :=
  obj [("id", str (er_id r)); ("base", str (er_base r)); ("quote", str (er_quote r)); ("rate", Some (tree_number (er_rate r)));
       ("date", str (er_date r)); ("source", str (rate_source (er_source r))); ("createdAt", int (er_createdAt r));
       ("updatedAt", str (er_updatedAt r))].

Definition tree_budget (b : Budget) : json :=
  obj [("id", str (bud_id b)); ("name", str (bud_name b)); ("categoryIds", strings (bud_categoryIds b));
       ("period", str (budget_period (bud_period b))); ("amount", int (bud_amount b)); ("currency", str (bud_currency b));
       ("startDate", str (bud_startDate b)); ("rollover", flag (bud_rollover b)); ("archived", flag (bud_archived b));
       ("createdAt", int (bud_createdAt b)); ("updatedAt", str (bud_updatedAt b))].

Definition tree_rule (r : RecurringRule) : json :=
  obj [("id", str (rule_id r)); ("name", str (rule_name r)); ("kind", str (transaction_kind (rule_kind r)));
       ("amount", int (rule_amount r)); ("currency", str (rule_currency r)); ("accountId", str (rule_accountId r));
       ("counterAccountId", nullable (JStr <$> rule_counterAccountId r));
       ("categoryId", nullable (JStr <$> rule_categoryId r)); ("payee", str (rule_payee r)); ("note", str (rule_note r));
       ("tags", strings (rule_tags r)); ("interval", int (rule_interval r)); ("unit", str (recurrence_unit (rule_unit r)));
       ("startDate", str (rule_startDate r)); ("endDate", nullable (JStr <$> rule_endDate r));
       ("maxOccurrences", nullable (JNum <$> rule_maxOccurrences r)); ("skipped", strings (rule_skipped r));
       ("archived", flag (rule_archived r)); ("createdAt", int (rule_createdAt r)); ("updatedAt", str (rule_updatedAt r))].

Definition tree_settings (s : VaultSettings) : json :=
  obj [("id", str "vault"); ("reportingCurrency", str (vs_reportingCurrency s));
       ("subcategories", JBool <$> vs_subcategories s); ("createdAt", int (vs_createdAt s)); ("updatedAt", str (vs_updatedAt s))].

Definition tree_entity (v : AnyEntity) : json :=
  match v with
  | AnAccountGroup a => tree_group a | AnAccount a => tree_account a | ACategory c => tree_category c
  | ATransaction t => tree_transaction t | ABudget b => tree_budget b | ARule r => tree_rule r
  | ARate r => tree_rate r | ASettings s => tree_settings s
  end.

Definition tree_operation (o : Operation) : json :=
  obj [("hlc", str (op_hlc o)); ("entity", str (entity_name (op_entity o))); ("entityId", str (op_entityId o));
       ("op", str (match op_op o with Put => "put" | Delete => "delete" end)); ("value", tree_entity <$> op_value o);
       ("device", str (op_device o))].

Definition tree_batch (b : OperationBatch) : json :=
  obj [("vaultId", str (batch_vaultId b)); ("device", str (batch_device b)); ("head", str (batch_head b));
       ("ops", Some (JArr (map tree_operation (batch_ops b))))].

(** ** Reading *)

Definition as_str (v : json) : option string := match v with JStr s => Some s | _ => None end.
Definition as_int (v : json) : option Z := match v with JNum n => Some n | _ => None end.
Definition as_flag (v : json) : option bool := match v with JBool b => Some b | _ => None end.
Definition as_number (v : json) : option number :=
  match v with JNum n => Some (f_of_Z n) | JReal x => Some x | _ => None end.
Definition as_list {A} (read : json -> option A) (v : json) : option (list A) :=
  match v with JArr l => mapM read l | _ => None end.
Definition as_one_of {A} (name : A -> string) (all : list A) (v : json) : option A :=
  match v with JStr s => List.find (fun a => String.eqb (name a) s) all | _ => None end.

Definition get {A} (key : string) (read : json -> option A) (v : json) : option A := field key v ≫= read.
Definition get_opt {A} (key : string) (read : json -> option A) (v : json) : option (option A) :=
  match field key v with
  | None => Some None
  | Some x => match read x, x with Some a, _ => Some (Some a) | None, JNull => Some None | None, _ => None end
  end.

Definition as_transaction_kind : json -> option TransactionKind := as_one_of transaction_kind [Income; Expense; Transfer].
Definition as_entity_name : json -> option EntityName := as_one_of entity_name ENTITY_NAMES.

Definition read_group (v : json) : option AccountGroup :=
  id ← get "id" as_str v; name ← get "name" as_str v;
  type ← get "type" (as_one_of account_group_type [GDefault; GCreditCard; GDebitCard; GLoan]) v;
  order ← get "order" as_int v; colour ← get "colour" as_str v; icon ← get "icon" as_str v;
  archived ← get "archived" as_flag v; createdAt ← get "createdAt" as_int v; updatedAt ← get "updatedAt" as_str v;
  mret (mkAccountGroup id name type order colour icon archived createdAt updatedAt).

Definition read_account (v : json) : option Account :=
  id ← get "id" as_str v; name ← get "name" as_str v;
  kind ← get "kind" (as_one_of account_kind [Kcash; Kbank; Kcard; Kwallet; Ksavings; Kinvestment]) v;
  currency ← get "currency" as_str v; openingBalance ← get "openingBalance" as_int v; archived ← get "archived" as_flag v;
  colour ← get "colour" as_str v; icon ← get "icon" as_str v; groupId ← get_opt "groupId" as_str v;
  creditLimit ← get_opt "creditLimit" as_int v; statementDay ← get_opt "statementDay" as_int v;
  dueDay ← get_opt "dueDay" as_int v; excluded ← get_opt "excludedFromTotals" as_flag v;
  createdAt ← get "createdAt" as_int v; updatedAt ← get "updatedAt" as_str v;
  mret (mkAccount id name kind currency openingBalance archived colour icon groupId creditLimit statementDay dueDay excluded
          createdAt updatedAt).

Definition read_category (v : json) : option Category :=
  id ← get "id" as_str v; name ← get "name" as_str v; kind ← get "kind" (as_one_of category_kind [CIncome; CExpense]) v;
  parentId ← get_opt "parentId" as_str v; colour ← get "colour" as_str v; icon ← get "icon" as_str v;
  archived ← get "archived" as_flag v; createdAt ← get "createdAt" as_int v; updatedAt ← get "updatedAt" as_str v;
  mret (mkCategory id name kind parentId colour icon archived createdAt updatedAt).

Definition read_transaction (v : json) : option Transaction :=
  id ← get "id" as_str v; kind ← get "kind" as_transaction_kind v; amount ← get "amount" as_int v;
  currency ← get "currency" as_str v; accountId ← get "accountId" as_str v;
  counterAccountId ← get_opt "counterAccountId" as_str v; categoryId ← get_opt "categoryId" as_str v;
  date ← get "date" as_str v; payee ← get "payee" as_str v; note ← get "note" as_str v; tags ← get "tags" (as_list as_str) v;
  cleared ← get "cleared" as_flag v; rate ← get_opt "rate" as_number v; rateDate ← get_opt "rateDate" as_str v;
  createdAt ← get "createdAt" as_int v; updatedAt ← get "updatedAt" as_str v;
  mret (mkTransaction id kind amount currency accountId counterAccountId categoryId date payee note tags cleared rate rateDate
          createdAt updatedAt).

Definition read_rate (v : json) : option ExchangeRate :=
  id ← get "id" as_str v; base ← get "base" as_str v; quote ← get "quote" as_str v; rate ← get "rate" as_number v;
  date ← get "date" as_str v; source ← get "source" (as_one_of rate_source [Manual; Fetched]) v;
  createdAt ← get "createdAt" as_int v; updatedAt ← get "updatedAt" as_str v;
  mret (mkExchangeRate id base quote rate date source createdAt updatedAt).

Definition read_budget (v : json) : option Budget :=
  id ← get "id" as_str v; name ← get "name" as_str v; categoryIds ← get "categoryIds" (as_list as_str) v;
  period ← get "period" (as_one_of budget_period [Weekly; Monthly; Yearly]) v; amount ← get "amount" as_int v;
  currency ← get "currency" as_str v; startDate ← get "startDate" as_str v; rollover ← get "rollover" as_flag v;
  archived ← get "archived" as_flag v; createdAt ← get "createdAt" as_int v; updatedAt ← get "updatedAt" as_str v;
  mret (mkBudget id name categoryIds period amount currency startDate rollover archived createdAt updatedAt).

Definition read_rule (v : json) : option RecurringRule :=
  id ← get "id" as_str v; name ← get "name" as_str v; kind ← get "kind" as_transaction_kind v; amount ← get "amount" as_int v;
  currency ← get "currency" as_str v; accountId ← get "accountId" as_str v;
  counterAccountId ← get_opt "counterAccountId" as_str v; categoryId ← get_opt "categoryId" as_str v;
  payee ← get "payee" as_str v; note ← get "note" as_str v; tags ← get "tags" (as_list as_str) v;
  interval ← get "interval" as_int v; unit ← get "unit" (as_one_of recurrence_unit [UDay; UWeek; UMonth; UYear]) v;
  startDate ← get "startDate" as_str v; endDate ← get_opt "endDate" as_str v;
  maxOccurrences ← get_opt "maxOccurrences" as_int v; skipped ← get "skipped" (as_list as_str) v;
  archived ← get "archived" as_flag v; createdAt ← get "createdAt" as_int v; updatedAt ← get "updatedAt" as_str v;
  mret (mkRule id name kind amount currency accountId counterAccountId categoryId payee note tags interval unit startDate endDate
          maxOccurrences skipped archived createdAt updatedAt).

Definition read_settings (v : json) : option VaultSettings :=
  _ ← get "id" (as_one_of id ["vault"]) v; reportingCurrency ← get "reportingCurrency" as_str v;
  subcategories ← get_opt "subcategories" as_flag v; createdAt ← get "createdAt" as_int v;
  updatedAt ← get "updatedAt" as_str v;
  mret (mkVaultSettings reportingCurrency subcategories createdAt updatedAt).

Definition read_entity (e : EntityName) (v : json) : option AnyEntity :=
  match e with
  | EAccountGroups => AnAccountGroup <$> read_group v | EAccounts => AnAccount <$> read_account v
  | ECategories => ACategory <$> read_category v | ETransactions => ATransaction <$> read_transaction v
  | EBudgets => ABudget <$> read_budget v | ERecurringRules => ARule <$> read_rule v
  | ERates => ARate <$> read_rate v | EVaultSettings => ASettings <$> read_settings v
  end.

Definition read_operation (v : json) : option Operation :=
  hlc ← get "hlc" as_str v; entity ← get "entity" as_entity_name v; entityId ← get "entityId" as_str v;
  op ← get "op" (as_one_of (fun o => match o with Put => "put" | Delete => "delete" end) [Put; Delete]) v;
  value ← get_opt "value" (read_entity entity) v; device ← get "device" as_str v;
  mret (mkOp hlc entity entityId op value device).

Definition read_batch (v : json) : option OperationBatch :=
  vaultId ← get "vaultId" as_str v; device ← get "device" as_str v; head ← get "head" as_str v;
  ops ← get "ops" (as_list read_operation) v;
  mret (mkBatch vaultId device head ops).

(** * Lemmas *)

Lemma as_list_spec {A} (tree : A -> json) (read : json -> option A) l :
  Forall (fun x => read (tree x) = Some x) l -> as_list read (JArr (map tree l)) = Some l.
Proof. cbn. induction 1 as [|x l Hx _ IH]; [done|]. cbn. by rewrite Hx /= IH. Qed.

Lemma as_strings l : as_list as_str (JArr (map JStr l)) = Some l.
Proof. apply as_list_spec. by apply Forall_forall. Qed.

Lemma as_number_tree x : as_number (tree_number x) = Some x.
Proof. unfold tree_number. destruct (js_round x) as [z|]; [|done]. by case_bool_decide; subst. Qed.

Ltac read_back := repeat progress (cbn -[as_list tree_number as_number]; rewrite ?as_strings ?as_number_tree); done.

Lemma read_tree_group a : read_group (tree_group a) = Some a.
Proof. destruct a as [? ? []]; read_back. Qed.
Lemma read_tree_account a : read_account (tree_account a) = Some a.
Proof. destruct a as [? ? [] ? ? ? ? ? [] [] [] [] []]; read_back. Qed.
Lemma read_tree_category c : read_category (tree_category c) = Some c.
Proof. destruct c as [? ? [] []]; read_back. Qed.
Lemma read_tree_transaction t : read_transaction (tree_transaction t) = Some t.
Proof. destruct t as [? [] ? ? ? [] [] ? ? ? ? ? [] []]; read_back. Qed.
Lemma read_tree_rate r : read_rate (tree_rate r) = Some r.
Proof. destruct r as [? ? ? ? ? []]; read_back. Qed.
Lemma read_tree_budget b : read_budget (tree_budget b) = Some b.
Proof. destruct b as [? ? ? []]; read_back. Qed.
Lemma read_tree_rule r : read_rule (tree_rule r) = Some r.
Proof. destruct r as [? ? [] ? ? ? [] [] ? ? ? ? [] ? [] []]; read_back. Qed.
Lemma read_tree_settings s : read_settings (tree_settings s) = Some s.
Proof. destruct s as [? []]; read_back. Qed.

#[export] Hint Rewrite read_tree_group read_tree_account read_tree_category read_tree_transaction read_tree_rate read_tree_budget
  read_tree_rule read_tree_settings : trees.

(** What a row is written as is read back as that row. *)
Lemma read_tree_entity v : read_entity (entity_table v) (tree_entity v) = Some v.
Proof. by destruct v; cbn [read_entity entity_table tree_entity]; autorewrite with trees. Qed.

(** An operation is well typed when its value belongs in its table, as the ledger makes them. *)
Definition op_typed (o : Operation) : Prop := forall v, op_value o = Some v -> entity_table v = op_entity o.

Lemma read_tree_operation o : op_typed o -> read_operation (tree_operation o) = Some o.
Proof.
  intros H. destruct o as [hlc e id op value device]. assert (forall v, value = Some v -> read_entity e (tree_entity v) = Some v) as Hv.
  { intros v ->. pose proof (H v eq_refl) as Et. cbn in Et. subst e. apply read_tree_entity. }
  destruct value as [v|]; [specialize (Hv v eq_refl)|clear Hv];
    destruct e, op; cbn -[read_entity tree_entity]; rewrite ?Hv; done.
Qed.

Lemma read_tree_batch b : Forall op_typed (batch_ops b) -> read_batch (tree_batch b) = Some b.
Proof.
  intros H. destruct b as [v d h ops]. unfold read_batch. cbn -[as_list]. rewrite as_list_spec; [done|].
  eapply Forall_impl; [exact H|]. apply read_tree_operation.
Qed.

(** Every tree has distinct keys. *)
Lemma ok_strings l : forallb json_ok (map JStr l) = true.
Proof. induction l; done. Qed.

Lemma tree_number_ok x : json_ok (tree_number x) = true.
Proof. unfold tree_number. destruct (js_round x); [|done]. by case_bool_decide. Qed.

Lemma obj_ok fields :
  bool_decide (NoDup (map fst fields)) = true ->
  forallb (fun kv => match kv.2 with Some v => json_ok v | None => true end) fields = true -> json_ok (obj fields) = true.
Proof.
  intros Hnd%bool_decide_eq_true_1 Hv. unfold obj. cbn [json_ok]. apply andb_true_iff. split.
  - apply bool_decide_eq_true_2. revert Hnd. clear Hv. induction fields as [|[k [v|]] fields IH]; cbn; [done| |].
    + intros [Hk Hnd]%NoDup_cons. apply NoDup_cons. split; [|by apply IH]. contradict Hk.
      clear -Hk. induction fields as [|[k' [v'|]] fields IH]; cbn in *; [done| |].
      * apply elem_of_cons in Hk as [->|Hk]; [by constructor|]. constructor. by apply IH.
      * constructor. by apply IH.
    + intros [_ Hnd]%NoDup_cons. by apply IH.
  - clear Hnd. induction fields as [|[k [v|]] fields IH]; cbn in *; [done| |by apply IH].
    apply andb_prop in Hv as [Hv Hrest]. by rewrite Hv IH.
Qed.

Lemma default_ok (o : option json) : match o with Some v => json_ok v | None => true end = true -> json_ok (default JNull o) = true.
Proof. by destruct o. Qed.

Ltac keys_ok := apply obj_ok; [by vm_compute|]; cbn -[tree_number]; rewrite ?ok_strings ?tree_number_ok; done.

Lemma tree_entity_ok v : json_ok (tree_entity v) = true.
Proof.
  destruct v as [[]|[? ? ? ? ? ? ? ? [] [] [] [] []]|[? ? ? []]|[? ? ? ? ? [] [] ? ? ? ? ? [] []]|[]
    |[? ? ? ? ? ? [] [] ? ? ? ? ? ? [] []]|[]|[? []]]; keys_ok.
Qed.

Lemma tree_operation_ok o : json_ok (tree_operation o) = true.
Proof.
  destruct o as [? ? ? ? [v|]]; (apply obj_ok; [by vm_compute|]); cbn -[tree_entity]; rewrite ?tree_entity_ok; done.
Qed.

Lemma forallb_map_ok {A} (tree : A -> json) l : (forall x, json_ok (tree x) = true) -> forallb json_ok (map tree l) = true.
Proof. intros H. induction l as [|x l IH]; [done|]. cbn. by rewrite H. Qed.

Lemma tree_batch_ok b : json_ok (tree_batch b) = true.
Proof.
  destruct b as [? ? ? ops]. apply obj_ok; [by vm_compute|]. cbn -[tree_operation]. rewrite forallb_map_ok; [done|].
  apply tree_operation_ok.
Qed.
