(* ===== verification/Ledger.v ===== *)
(** The local database and the ledger service
    ([app/src/app/core/db/docket-db.ts], [core/repositories/ledger.service.ts]):
    every write of the program goes through [put], [remove] and [merge] here. *)
From S2P Require Export Hlc Domain.
#[local] Open Scope string_scope.
#[local] Open Scope Z_scope.

(** * Definitions *)

(** The running application: the database's tables, the rows of its [meta] table
    the core uses, the ledger's clock, and what the host supplies, as streams:
    the successive readings of [Date.now()] and results of [crypto.randomUUID()]. *)
Record App : Type := mkApp {
  rows : gmap (EntityName * string) AnyEntity;
  oplog : gmap string LocalOperation;
  remoteObjects : gmap string Z;
  meta_clock : option HlcState;
  meta_lastSyncAt : option Z;
  meta_lastSnapshot : option string;
  clock : option HybridLogicalClock;
  nows : nat -> Z; reads : nat;
  uuids : nat -> string; drawn : nat }.

Definition set_rows f (s : App) : App :=
  mkApp (f (rows s)) (oplog s) (remoteObjects s) (meta_clock s) (meta_lastSyncAt s)
    (meta_lastSnapshot s) (clock s) (nows s) (reads s) (uuids s) (drawn s).
Definition set_oplog f (s : App) : App :=
  mkApp (rows s) (f (oplog s)) (remoteObjects s) (meta_clock s) (meta_lastSyncAt s)
    (meta_lastSnapshot s) (clock s) (nows s) (reads s) (uuids s) (drawn s).
Definition set_remoteObjects f (s : App) : App :=
  mkApp (rows s) (oplog s) (f (remoteObjects s)) (meta_clock s) (meta_lastSyncAt s)
    (meta_lastSnapshot s) (clock s) (nows s) (reads s) (uuids s) (drawn s).
Definition set_meta_clock v (s : App) : App :=
  mkApp (rows s) (oplog s) (remoteObjects s) v (meta_lastSyncAt s)
    (meta_lastSnapshot s) (clock s) (nows s) (reads s) (uuids s) (drawn s).
Definition set_lastSyncAt v (s : App) : App :=
  mkApp (rows s) (oplog s) (remoteObjects s) (meta_clock s) v
    (meta_lastSnapshot s) (clock s) (nows s) (reads s) (uuids s) (drawn s).
Definition set_lastSnapshot v (s : App) : App :=
  mkApp (rows s) (oplog s) (remoteObjects s) (meta_clock s) (meta_lastSyncAt s)
    v (clock s) (nows s) (reads s) (uuids s) (drawn s).
Definition set_clock v (s : App) : App :=
  mkApp (rows s) (oplog s) (remoteObjects s) (meta_clock s) (meta_lastSyncAt s)
    (meta_lastSnapshot s) v (nows s) (reads s) (uuids s) (drawn s).
Definition set_reads n (s : App) : App :=
  mkApp (rows s) (oplog s) (remoteObjects s) (meta_clock s) (meta_lastSyncAt s)
    (meta_lastSnapshot s) (clock s) (nows s) n (uuids s) (drawn s).
Definition set_drawn n (s : App) : App :=
  mkApp (rows s) (oplog s) (remoteObjects s) (meta_clock s) (meta_lastSyncAt s)
    (meta_lastSnapshot s) (clock s) (nows s) (reads s) (uuids s) n.

(** A fresh installation. *)
Definition emptyApp (nows : nat -> Z) (uuids : nat -> string) : App :=
  mkApp ∅ ∅ ∅ None None None None nows 0 uuids 0.

Definition Date_now : M App Z := fun s => (Ok (nows s (reads s)), set_reads (S (reads s)) s).
Definition randomUUID : M App string := fun s => (Ok (uuids s (drawn s)), set_drawn (S (drawn s)) s).

(** ** Tables *)

(** [table.get], [table.put], [table.delete]; a row is stored under its own id. *)
Definition table_get (e : EntityName) (id : string) (s : App) : option AnyEntity := rows s !! (e, id).
Definition table_put (e : EntityName) (v : AnyEntity) (s : App) : App :=
  set_rows <[(e, entity_id v) := v]> s.
Definition table_delete (e : EntityName) (id : string) (s : App) : App := set_rows (delete (e, id)) s.

(** [table.toArray()] : the rows in primary-key order. *)
Definition table_rows (e : EntityName) (s : App) : list AnyEntity :=
  map snd (js_sort (fun a b => cmp_string (fst a) (fst b))
    (omap (fun kv : (EntityName * string) * AnyEntity =>
             if decide (kv.1.1 = e) then Some (kv.1.2, kv.2) else None) (map_to_list (rows s)))).
Definition table_count (e : EntityName) (s : App) : nat := length (table_rows e s).

(** A table's rows at their type. *)
Definition table_of {A} (as_ : AnyEntity -> option A) (e : EntityName) (s : App) : list A :=
  omap as_ (table_rows e s).
Definition get_of {A} (as_ : AnyEntity -> option A) (e : EntityName) (id : string) (s : App) : option A :=
  table_get e id s ≫= as_.
Definition groups := table_of as_group EAccountGroups.
Definition accounts := table_of as_account EAccounts.
Definition categories := table_of as_category ECategories.
Definition transactions := table_of as_transaction ETransactions.
Definition budgets := table_of as_budget EBudgets.
Definition rules := table_of as_rule ERecurringRules.
Definition rates := table_of as_rate ERates.
Definition settings := get_of as_settings EVaultSettings "vault".

Definition oplog_put (lop : LocalOperation) (s : App) : App :=
  set_oplog <[op_hlc (lop_op lop) := lop]> s.

(** The log in primary-key (stamp) order. *)
Definition oplog_sorted (s : App) : list LocalOperation :=
  map snd (js_sort (fun a b => cmp_string (fst a) (fst b)) (map_to_list (oplog s))).

(** ** class LedgerService *)

Definition requireClock : M App HybridLogicalClock := fun s =>
  match clock s with
  | Some c => (Ok c, s)
  | None => (Throw (JsError "LedgerService.initialise() has not been called"), s)
  end.

Definition initialise (deviceId : string) : M App unit := fun s =>
  (Ok tt, set_clock (Some (newClock deviceId (meta_clock s))) s).

(** Run a clock operation on the service's clock, at the next wall-clock reading. *)
Definition on_clock {A} (f : Z -> M HybridLogicalClock A) : M App A :=
  c ← requireClock;
  now ← Date_now;
  stepM (fun s => let '(r, c') := f now c in (r, set_clock (Some c') s)).

Definition persistClock (s : App) : App :=
  match clock s with Some c => set_meta_clock (Some (snapshot c)) s | None => s end.

(** The tick comes before the database transaction, which is atomic. *)
Definition put (entity : EntityName) (value : AnyEntity) : M App AnyEntity :=
  c ← requireClock;
  hlc ← on_clock tick;
  let stamped := set_updatedAt hlc value in
  _ ← modifyS (fun s =>
        persistClock
          (oplog_put (mkLocalOp (mkOp hlc entity (entity_id stamped) Put (Some stamped)
                                      (clock_device c)) false)
             (table_put entity stamped s)));
  mret stamped.

Definition remove (entity : EntityName) (id : string) : M App unit :=
  c ← requireClock;
  hlc ← on_clock tick;
  modifyS (fun s =>
    persistClock
      (oplog_put (mkLocalOp (mkOp hlc entity id Delete None (clock_device c)) false)
         (table_delete entity id s))).

(** The stamps logged for an entity, in primary-key order. *)
Definition stamps_for (e : EntityName) (id : string) (log : gmap string LocalOperation) : list string :=
  js_sort cmp_string
    (omap (fun kv : string * LocalOperation =>
             if decide (op_entity (lop_op kv.2) = e /\ op_entityId (lop_op kv.2) = id)
             then Some kv.1 else None) (map_to_list log)).

Definition max_step (max : option string) (stamp : string) : option string :=
  match max with
  | Some m => if negb (truthy m) || (compareHlc stamp m >? 0) then Some stamp else max
  | None => Some stamp
  end.

Definition latestStampFor (e : EntityName) (id : string) (s : App) : option string :=
  fold_left max_step (stamps_for e id (oplog s)) None.

(** One round of the loop in [merge] : the new state, and whether it applied. *)
Definition merge_op (s : App) (op : Operation) : App * bool :=
  let stale :=
    match latestStampFor (op_entity op) (op_entityId op) s with
    | Some latest => truthy latest && (compareHlc (op_hlc op) latest <=? 0)
    | None => false
    end in
  if stale then (s, false)
  else match op_op op with
       | Delete =>
           (oplog_put (mkLocalOp op true) (table_delete (op_entity op) (op_entityId op) s), true)
       | Put =>
           match op_value op with
           | Some v => (oplog_put (mkLocalOp op true) (table_put (op_entity op) v s), true)
           | None => (s, false)
           end
       end.

Fixpoint merge_loop (s : App) (ops : list Operation) : App * Z :=
  match ops with
  | [] => (s, 0)
  | op :: ops' =>
      let '(s1, applied) := merge_op s op in
      let '(s2, n) := merge_loop s1 ops' in
      (s2, if applied then n + 1 else n)
  end.

Definition merge (ops : list Operation) : M App Z :=
  match ops with
  | [] => mret 0
  | _ =>
      _ ← requireClock;
      stepM (fun s =>
        let ordered := js_sort (fun a b => compareHlc (op_hlc a) (op_hlc b)) ops in
        let '(s', applied) := merge_loop s ordered in
        (Ok applied, persistClock s'))
  end.

(** Stops at the first stamp the clock refuses, keeping the earlier ones. *)
Definition observeStamps (stamps : list string) : M App unit :=
  _ ← requireClock;
  forM_ stamps (fun stamp => _ ← on_clock (observe stamp); mret tt).

Definition pendingOperations (limit : nat) (s : App) : list LocalOperation :=
  take limit (List.filter (fun lop => negb (lop_synced lop)) (oplog_sorted s)).

Definition mark_one (s : App) (hlc : string) : App :=
  set_oplog (alter (fun lop => mkLocalOp (lop_op lop) true) hlc) s.
Definition markSynced (stamps : list string) (s : App) : App := fold_left mark_one stamps s.

Definition hasHistory (e : EntityName) (id : string) (s : App) : bool :=
  match latestStampFor e id s with Some _ => true | None => false end.

(** No character of an id reaches [\uffff], so the key range is a prefix test. *)
Definition latestEntityIdWithPrefix (e : EntityName) (prefix : string) (s : App) : option string :=
  fold_left (fun latest id =>
      match latest with
      | Some l => if String.ltb l id then Some id else latest
      | None => Some id
      end)
    (omap (fun lop => if decide (op_entity (lop_op lop) = e)
                      then if startsWith (op_entityId (lop_op lop)) prefix
                           then Some (op_entityId (lop_op lop)) else None
                      else None) (oplog_sorted s))
    None.

Definition allOperations (s : App) : list LocalOperation := oplog_sorted s.

(** * Specification *)

(** What an operation leaves in its row. *)
Definition op_state (op : Operation) : option AnyEntity :=
  match op_op op with Delete => None | Put => op_value op end.

Definition same_key (e : EntityName) (id : string) (op : Operation) : Prop :=
  op_entity op = e /\ op_entityId op = id.

(** The operations a device makes: stamped by a clock, a put carrying a value with
    the operation's own id. *)
Definition op_wf (op : Operation) : Prop :=
  (exists r d, hlc_ok r /\ no_dash d = true /\ op_hlc op = encodeHlc r d)
  /\ match op_op op with
     | Put => exists v, op_value op = Some v /\ entity_id v = op_entityId op
     | Delete => op_value op = None
     end.

(** The same write, whichever device passes it on. *)
Definition same_write (a b : Operation) : Prop :=
  op_entity a = op_entity b /\ op_entityId a = op_entityId b /\ op_op a = op_op b /\ op_value a = op_value b.

(** A stamp identifies its write. *)
Definition unique_stamps (ops : list Operation) : Prop :=
  forall a b, a ∈ ops -> b ∈ ops -> op_hlc a = op_hlc b -> same_write a b.

(** Last writer wins: [op] has the greatest stamp of its key in [ops]. *)
Definition lww (ops : list Operation) (e : EntityName) (id : string) (op : Operation) : Prop :=
  op ∈ ops /\ same_key e id op
  /\ forall op', op' ∈ ops -> same_key e id op' -> compareHlc (op_hlc op') (op_hlc op) <= 0.

(** The ledger a set of operations determines, whatever the order they came in. *)
Definition lww_rows (ops : list Operation) (r : gmap (EntityName * string) AnyEntity) : Prop :=
  forall e id v, r !! (e, id) = Some v <-> exists op, lww ops e id op /\ op_state op = Some v.

(** The device that writes on [s]. *)
Definition device_of (s : App) : string := match clock s with Some c => clock_device c | None => "" end.

(** The steps a device takes: it edits, deletes, observes stamps, receives batches
    whose head stamps it observed first, as [SyncService.pull] does, restarts, and
    does things that concern neither its rows, its log nor its clock, as marking
    operations as sent.  The second argument is every operation the device has
    authored or been handed. *)
Inductive device_history : App -> list Operation -> Prop :=
| dh_init : forall s c, rows s = ∅ -> oplog s = ∅ -> clock s = Some c -> meta_clock s = None ->
    hlc_ok (clock_state c) -> no_dash (clock_device c) = true ->
    (forall n, 0 <= nows s n <= MAX_SAFE_INTEGER) -> device_history s []
| dh_put : forall s h e v v' s', device_history s h -> put e v s = (Ok v', s') ->
    device_history s'
      (mkOp (entity_updatedAt v') e (entity_id v') Put (Some v') (device_of s) :: h)
| dh_remove : forall s h e id s', device_history s h -> remove e id s = (Ok tt, s') ->
    device_history s'
      (mkOp match clock s' with Some c => encodeHlc (clock_state c) (clock_device c) | None => "" end
         e id Delete None (device_of s) :: h)
| dh_observe : forall s h heads r s', device_history s h -> observeStamps heads s = (r, s') ->
    device_history s' h
| dh_receive : forall s h heads ops s1 s2 n, device_history s h ->
    observeStamps heads s = (Ok tt, s1) -> merge ops s1 = (Ok n, s2) ->
    Forall op_wf ops ->
    Forall (fun head => exists r d, hlc_ok r /\ no_dash d = true /\ head = encodeHlc r d) heads ->
    Forall (fun op => exists head, head ∈ heads /\ compareHlc (op_hlc op) head <= 0) ops ->
    device_history s2 (ops ++ h)
| dh_restart : forall s h s', device_history s h -> initialise (device_of s) s = (Ok tt, s') ->
    device_history s' h
| dh_idle : forall s h s', device_history s h ->
    rows s' = rows s -> lop_op <$> oplog s' = lop_op <$> oplog s -> clock s' = clock s ->
    meta_clock s' = meta_clock s -> nows s' = nows s -> device_history s' h.

(** * Lemmas *)

Lemma truthy_encode r d : hlc_ok r -> truthy (encodeHlc r d) = true.
Proof.
  intros Hok. unfold truthy. destruct (String.eqb_spec (encodeHlc r d) "") as [E|]; [|done].
  apply (f_equal String.length) in E. rw encodeHlc_fixed in E; [|done]. by rw length_fixed in E.
Qed.

Lemma op_wf_truthy op : op_wf op -> truthy (op_hlc op) = true.
Proof. intros [(r & d & Hr & _ & ->) _]. by apply truthy_encode. Qed.

Lemma compareHlc_eq a b : compareHlc a b = 0 <-> a = b.
Proof. rw compareHlc_cmp. apply cmp_string_eq. Qed.

Lemma compareHlc_refl a : compareHlc a a = 0.
Proof. by apply compareHlc_eq. Qed.

Lemma cmp_lt_irrefl a : ~ compareHlc a a < 0.
Proof. rw compareHlc_refl. lia. Qed.

Lemma compareHlc_flip a b : ~ compareHlc a b <= 0 <-> compareHlc b a < 0.
Proof. pose proof (cmp_antisym (cmp := compareHlc) a b). lia. Qed.

Lemma compareHlc_antisym a b : compareHlc a b <= 0 -> compareHlc b a <= 0 -> a = b.
Proof.
  intros. apply compareHlc_eq. pose proof (cmp_antisym (cmp := compareHlc) a b). lia.
Qed.

Lemma compareHlc_le_lt_trans a b c : compareHlc a b <= 0 -> compareHlc b c < 0 -> compareHlc a c < 0.
Proof.
  intros Hab Hbc. pose proof (cmp_trans (cmp := compareHlc) a b c Hab ltac:(lia)).
  destruct (Z.eq_dec (compareHlc a c) 0) as [->%compareHlc_eq|]; [|lia].
  exfalso. assert (c = b) as -> by (apply compareHlc_antisym; lia). by eapply cmp_lt_irrefl.
Qed.

(** ** Tables *)

Lemma elem_of_table_rows e s v : v ∈ table_rows e s <-> exists id, rows s !! (e, id) = Some v.
Proof.
  unfold table_rows. rewrite list_elem_of_fmap. split.
  - intros ([id w] & -> & Hin). rewrite elem_of_js_sort list_elem_of_omap in Hin.
    destruct Hin as ([[e' id'] w'] & Hin%elem_of_map_to_list & E). cbn in E.
    case_decide; [|done]. simplify_eq. by exists id.
  - intros (id & Hid). exists (id, v). split; [done|]. rewrite elem_of_js_sort list_elem_of_omap.
    exists ((e, id), v). rewrite elem_of_map_to_list. split; [done|]. cbn. by case_decide.
Qed.

Lemma elem_of_table_of {A} (as_ : AnyEntity -> option A) e s a :
  a ∈ table_of as_ e s <-> exists id v, rows s !! (e, id) = Some v /\ as_ v = Some a.
Proof.
  unfold table_of. rewrite list_elem_of_omap. split.
  - intros (v & (id & Hv)%elem_of_table_rows & Ha). by exists id, v.
  - intros (id & v & Hv & Ha). exists v. split; [|done]. apply elem_of_table_rows. by exists id.
Qed.

Lemma table_entries_perm (e : EntityName) (m m' : gmap (EntityName * string) AnyEntity) :
  (forall id, m' !! (e, id) = m !! (e, id)) ->
  let entries m := omap (fun kv : (EntityName * string) * AnyEntity =>
             if decide (kv.1.1 = e) then Some (kv.1.2, kv.2) else None) (map_to_list m) in
  entries m' ≡ₚ entries m /\ NoDup (map fst (entries m)).
Proof.
  intros H entries.
  assert (forall m, NoDup (map fst (entries m))) as Hnd.
  { intros k. unfold entries. assert (NoDup (map fst (map_to_list k))) as Hk by apply NoDup_fst_map_to_list.
    revert Hk. induction (map_to_list k) as [|[[e1 i] v] l IH]; [constructor|]. cbn [map fst].
    intros [Hn Hm]%NoDup_cons. cbn [omap list_omap]. cbn [fst snd]. case_decide; [|by apply IH].
    cbn [map fst]. apply NoDup_cons. split; [|by apply IH]. intros Hin. apply Hn.
    apply list_elem_of_fmap in Hin as ([j w] & Hj & Hin). cbn in Hj. apply list_elem_of_omap in Hin as ([[e2 i2] w2] & Hin & Hw).
    cbn in Hw. case_decide; [|done]. apply list_elem_of_fmap. exists ((e2, i2), w2). split; [|done]. cbn. congruence. }
  assert (forall m i v, (i, v) ∈ entries m <-> m !! (e, i) = Some v) as Hel.
  { intros k i v. unfold entries. rewrite list_elem_of_omap. split.
    - intros ([[e1 i1] w] & Hin%elem_of_map_to_list & Hw). cbn in Hw. case_decide; [|done]. congruence.
    - intros Hk. exists ((e, i), v). rewrite elem_of_map_to_list. split; [done|]. cbn. by rewrite ->decide_True. }
  split; [|done]. apply NoDup_Permutation; [by eapply NoDup_fmap_1, Hnd..|]. intros [i v]. rewrite !Hel. by rewrite H.
Qed.

(** A table's rows depend on that table only. *)
Lemma table_rows_ext e s s' :
  (forall id, rows s' !! (e, id) = rows s !! (e, id)) -> table_rows e s' = table_rows e s.
Proof.
  intros H. destruct (table_entries_perm e (rows s) (rows s') H) as [Hp _].
  destruct (table_entries_perm e (rows s') (rows s') (fun _ => eq_refl)) as [_ Hnd].
  unfold table_rows. f_equal. apply (js_sort_unique (fun a b => cmp_string a.1 b.1)); [|done].
  intros [i v] [j w] Hi Hj Hz%cmp_string_eq. cbn in Hz. subst j.
  apply list_elem_of_lookup in Hi as [a Ha], Hj as [b Hb].
  assert (a = b) as <-; [|congruence].
  eapply NoDup_lookup; [exact Hnd|rewrite list_lookup_fmap Ha //|rewrite list_lookup_fmap Hb //].
Qed.

(** What a write that returns does to the tables. *)
Lemma put_rows e v s v' s' :
  put e v s = (Ok v', s') ->
  v' = set_updatedAt (entity_updatedAt v') v /\ rows s' = <[(e, entity_id v) := v']> (rows s).
Proof.
  unfold put. intros (c & s1 & E1 & E)%M_bind_Ok_inv.
  assert (s1 = s) as -> by (unfold requireClock in E1; destruct (clock s); congruence).
  apply M_bind_Ok_inv in E as (hlc & s2 & E2 & E).
  assert (rows s2 = rows s) as Hr.
  { unfold on_clock, requireClock, mbind, M_bind, Date_now, stepM in E2.
    destruct (clock s); [|done]. cbn in E2. destruct (tick _ _) as [r c']. by injection E2 as _ <-. }
  unfold mbind, M_bind, modifyS, mret, M_ret in E. injection E as <- <-.
  rewrite entity_updatedAt_set. split; [done|].
  unfold persistClock. cbn. destruct (clock s2); cbn; by rewrite entity_id_set_updatedAt Hr.
Qed.

Lemma remove_rows e id s s' : remove e id s = (Ok tt, s') -> rows s' = delete (e, id) (rows s).
Proof.
  unfold remove. intros (c & s1 & E1 & E)%M_bind_Ok_inv.
  assert (s1 = s) as -> by (unfold requireClock in E1; destruct (clock s); congruence).
  apply M_bind_Ok_inv in E as (hlc & s2 & E2 & E).
  assert (rows s2 = rows s) as Hr.
  { unfold on_clock, requireClock, mbind, M_bind, Date_now, stepM in E2.
    destruct (clock s); [|done]. cbn in E2. destruct (tick _ _) as [r c']. by injection E2 as _ <-. }
  unfold modifyS in E. injection E as <-.
  unfold persistClock. cbn. destruct (clock s2); cbn; by rewrite Hr.
Qed.

Lemma Date_now_rows s t s' : Date_now s = (Ok t, s') -> rows s' = rows s.
Proof. by intros [= _ <-]. Qed.

Lemma randomUUID_rows s t s' : randomUUID s = (Ok t, s') -> rows s' = rows s.
Proof. by intros [= _ <-]. Qed.

(** ** Stamps of an entity *)

Lemma elem_of_stamps_for e id log k :
  k ∈ stamps_for e id log <-> exists lop, log !! k = Some lop /\ same_key e id (lop_op lop).
Proof.
  unfold stamps_for. rw elem_of_js_sort list_elem_of_omap. split.
  - intros ([k' lop] & Hin%elem_of_map_to_list & E). simpl in E.
    case_decide as Hk; [|done]. injection E as ->. by exists lop.
  - intros (lop & Hlog & Hk). exists (k, lop). rw elem_of_map_to_list. split; [done|].
    simpl. by rewrite ->decide_True.
Qed.

Lemma max_fold l acc :
  Forall (fun k => truthy k = true) l ->
  (forall a, acc = Some a -> truthy a = true) ->
  match fold_left max_step l acc with
  | None => l = [] /\ acc = None
  | Some m => (m ∈ l \/ acc = Some m) /\ truthy m = true
              /\ (forall k, k ∈ l -> compareHlc k m <= 0)
              /\ (forall a, acc = Some a -> compareHlc a m <= 0)
  end.
Proof.
  revert acc. induction l as [|k l IH]; intros acc Hl Hacc; simpl.
  - destruct acc as [a|]; [|done]. split_and!; [by right | by apply Hacc | set_solver|].
    intros ? [= <-]. rw compareHlc_refl; lia.
  - apply Forall_cons in Hl as [Hk Hl].
    assert (forall a, max_step acc k = Some a -> truthy a = true) as Hstep.
    { intros a. unfold max_step. destruct acc as [b|]; [|by intros [= <-]].
      case_match; [by intros [= <-] | intros [= <-]; by apply Hacc]. }
    assert (exists a, max_step acc k = Some a /\ compareHlc k a <= 0
              /\ (a = k \/ acc = Some a) /\ (forall b, acc = Some b -> compareHlc b a <= 0)) as (a & Ea & Hka & Ha & Hb).
    { unfold max_step. destruct acc as [b|].
      - rw (Hacc b eq_refl). cbn [negb orb]. destruct (Z.gtb_spec (compareHlc k b) 0).
        + exists k. split_and!; [done | rw compareHlc_refl; lia | by left|].
          intros ? [= <-]. apply Z.lt_le_incl, compareHlc_flip. lia.
        + exists b. split_and!; [done | lia | by right|]. intros ? [= <-].
          rw compareHlc_refl; lia.
      - exists k. split_and!; [done | rw compareHlc_refl; lia | by left | done]. }
    specialize (IH (max_step acc k) Hl Hstep). rw Ea in IH |- *.
    destruct (fold_left max_step l (Some a)) as [m|]; [|by destruct IH].
    destruct IH as (Hm & Ht & Hle & Hacc'). specialize (Hacc' a eq_refl). split_and!; [|done|..].
    + destruct Hm as [Hm|[= ->]]; [left; by constructor|]. destruct Ha as [->|Ha]; [left; constructor | by right].
    + intros k' [->|Hk']%elem_of_cons; [by eapply cmp_trans | by apply Hle].
    + intros b Eb. eapply cmp_trans; [by apply Hb | done].
Qed.

(** The log holds only clock stamps. *)
Definition log_truthy (s : App) : Prop := forall k lop, oplog s !! k = Some lop -> truthy k = true.

Lemma latestStampFor_spec e id s :
  log_truthy s ->
  match latestStampFor e id s with
  | None => forall k lop, oplog s !! k = Some lop -> ~ same_key e id (lop_op lop)
  | Some m => (exists lop, oplog s !! m = Some lop /\ same_key e id (lop_op lop))
              /\ forall k lop, oplog s !! k = Some lop -> same_key e id (lop_op lop) -> compareHlc k m <= 0
  end.
Proof.
  intros Ht. unfold latestStampFor.
  pose proof (max_fold (stamps_for e id (oplog s)) None) as H.
  assert (Forall (fun k => truthy k = true) (stamps_for e id (oplog s))) as Hl.
  { apply Forall_forall. intros k (lop & Hlog & _)%elem_of_stamps_for. by eapply Ht. }
  specialize (H Hl ltac:(done)). destruct (fold_left _ _ _) as [m|].
  - destruct H as ([Hm|?] & _ & Hle & _); [|done]. split; [by apply elem_of_stamps_for|].
    intros k lop Hlog Hk. apply Hle, elem_of_stamps_for. by exists lop.
  - destruct H as [Hnil _]. intros k lop Hlog Hk.
    assert (k ∈ stamps_for e id (oplog s)) as Hin by (apply elem_of_stamps_for; by exists lop).
    rw Hnil in Hin. set_solver.
Qed.

Lemma latestStampFor_unique e id s m lop :
  log_truthy s -> oplog s !! m = Some lop -> same_key e id (lop_op lop) ->
  (forall k lop', oplog s !! k = Some lop' -> same_key e id (lop_op lop') -> compareHlc k m <= 0) ->
  latestStampFor e id s = Some m.
Proof.
  intros Ht Hm Hk Hmax. pose proof (latestStampFor_spec e id s Ht) as H.
  destruct (latestStampFor e id s) as [m'|]; [|by destruct (H m lop)].
  destruct H as [(lop' & Hm' & Hk') Hmax']. f_equal. apply compareHlc_antisym; eauto.
Qed.

(** The latest stamp depends only on the log's entries for the key. *)
Lemma latestStampFor_ext e id s s' :
  log_truthy s -> log_truthy s' ->
  (forall k lop, same_key e id (lop_op lop) -> oplog s !! k = Some lop <-> oplog s' !! k = Some lop) ->
  latestStampFor e id s = latestStampFor e id s'.
Proof.
  intros Ht Ht' Hext. pose proof (latestStampFor_spec e id s Ht) as H.
  destruct (latestStampFor e id s) as [m|].
  - destruct H as [(lop & Hm & Hk) Hmax]. symmetry. eapply latestStampFor_unique; eauto.
    + by apply Hext.
    + intros k lop' Hl Hk'. eapply Hmax; [by apply Hext | done].
  - pose proof (latestStampFor_spec e id s' Ht') as H'.
    destruct (latestStampFor e id s') as [m'|]; [|done].
    destruct H' as [(lop & Hm & Hk) _]. exfalso. by eapply H; [apply Hext|].
Qed.

(** ** The ledger invariant *)

(** What the tables and the log owe the operations seen so far. *)
Record ledger_inv (s : App) (h : list Operation) : Prop := {
  inv_wf : Forall op_wf h;
  inv_log : forall k lop, oplog s !! k = Some lop -> op_hlc (lop_op lop) = k /\ lop_op lop ∈ h;
  inv_top : forall op, op ∈ h -> exists k lop, oplog s !! k = Some lop
              /\ same_key (op_entity op) (op_entityId op) (lop_op lop) /\ compareHlc (op_hlc op) k <= 0;
  inv_rows : forall e id, rows s !! (e, id) =
    match latestStampFor e id s with
    | None => None
    | Some k => match oplog s !! k with Some lop => op_state (lop_op lop) | None => None end
    end }.

(** Record an operation and bring its row in line with it. *)
Definition apply_op (synced : bool) (op : Operation) (s : App) : App :=
  oplog_put (mkLocalOp op synced)
    (match op_state op with
     | Some v => table_put (op_entity op) v s
     | None => table_delete (op_entity op) (op_entityId op) s
     end).

Lemma inv_truthy s h : ledger_inv s h -> log_truthy s.
Proof.
  intros Hinv k lop Hlog. destruct (inv_log _ _ Hinv k lop Hlog) as [<- Hin].
  apply op_wf_truthy. pose proof (inv_wf _ _ Hinv) as Hwf. rewrite ->Forall_forall in Hwf. auto.
Qed.

Lemma lookup_same_ops (s s' : App) k :
  lop_op <$> oplog s' = lop_op <$> oplog s -> lop_op <$> oplog s' !! k = lop_op <$> oplog s !! k.
Proof. intros H. by rewrite -!lookup_fmap H. Qed.

Lemma inv_same_ops s s' h :
  rows s' = rows s -> lop_op <$> oplog s' = lop_op <$> oplog s -> ledger_inv s h -> ledger_inv s' h.
Proof.
  intros Hr Ho Hinv. pose proof Hinv as [Hwf Hlog Htop Hrows].
  assert (forall k lop', oplog s' !! k = Some lop' -> exists lop, oplog s !! k = Some lop /\ lop_op lop' = lop_op lop) as Hback.
  { intros k lop' Hk. pose proof (lookup_same_ops s s' k Ho) as E. rewrite Hk in E.
    destruct (oplog s !! k) as [lop|]; [|done]. injection E as E. by exists lop. }
  assert (forall k lop, oplog s !! k = Some lop -> exists lop', oplog s' !! k = Some lop' /\ lop_op lop' = lop_op lop) as Hforth.
  { intros k lop Hk. pose proof (lookup_same_ops s s' k Ho) as E. rewrite Hk in E.
    destruct (oplog s' !! k) as [lop'|]; [|done]. injection E as E. by exists lop'. }
  assert (log_truthy s') as Ht'.
  { intros k lop' (lop & Hk & _)%Hback. destruct (Hlog k lop Hk) as [<- Hin]. apply op_wf_truthy.
    rewrite ->Forall_forall in Hwf. auto. }
  assert (log_truthy s) as Ht.
  { intros k lop Hk. destruct (Hlog k lop Hk) as [<- Hin]. apply op_wf_truthy. rewrite ->Forall_forall in Hwf. auto. }
  split; [done| | |].
  - intros k lop' (lop & Hk & ->)%Hback. by apply Hlog.
  - intros op Hop. destruct (Htop op Hop) as (k & lop & Hk & Hkey & Hle). destruct (Hforth k lop Hk) as (lop' & Hk' & Hl).
    exists k, lop'. by rewrite Hl.
  - intros e id. rewrite Hr Hrows.
    assert (latestStampFor e id s' = latestStampFor e id s) as ->.
    { pose proof (latestStampFor_spec e id s Ht) as H1. pose proof (latestStampFor_spec e id s' Ht') as H2.
      destruct (latestStampFor e id s) as [m|] eqn:E1, (latestStampFor e id s') as [m'|] eqn:E2.
      - destruct H1 as [(lop & Hm & Hk) Hmax], H2 as [(lop' & Hm' & Hk') Hmax'].
        destruct (Hforth m lop Hm) as (l2 & Hl2 & E). destruct (Hback m' lop' Hm') as (l3 & Hl3 & E3).
        f_equal. apply compareHlc_antisym; [eapply Hmax; [exact Hl3|by rewrite -E3] | eapply Hmax'; [exact Hl2|by rewrite E]].
      - exfalso. destruct H1 as [(lop & Hm & Hk) _]. destruct (Hforth m lop Hm) as (l2 & Hl2 & E).
        by apply (H2 m l2 Hl2); rewrite E.
      - exfalso. destruct H2 as [(lop' & Hm' & Hk') _]. destruct (Hback m' lop' Hm') as (l3 & Hl3 & E3).
        by apply (H1 m' l3 Hl3); rewrite -E3.
      - done. }
    destruct (latestStampFor e id s) as [m|]; [|done].
    pose proof (lookup_same_ops s s' m Ho) as E.
    destruct (oplog s !! m), (oplog s' !! m); try done. by injection E as ->.
Qed.

Lemma inv_same s s' h :
  rows s' = rows s -> oplog s' = oplog s -> ledger_inv s h -> ledger_inv s' h.
Proof. intros Hr Ho. apply inv_same_ops; [done|by rewrite Ho]. Qed.

Lemma inv_elems s h h' :
  (forall op, op ∈ h <-> op ∈ h') -> ledger_inv s h -> ledger_inv s h'.
Proof.
  intros Heq [Hwf Hlog Htop Hrows]. split.
  - apply Forall_forall. intros op Hin. rewrite ->Forall_forall in Hwf. by apply Hwf, Heq.
  - intros k lop Hl. destruct (Hlog k lop Hl). split; [done | by apply Heq].
  - intros op Hin. by apply Htop, Heq.
  - done.
Qed.

(** An operation newer than everything logged for its key. *)
Definition newer (op : Operation) (s : App) : Prop :=
  forall k lop, oplog s !! k = Some lop ->
    same_key (op_entity op) (op_entityId op) (lop_op lop) -> compareHlc k (op_hlc op) < 0.

Lemma oplog_apply_op b op s : oplog (apply_op b op s) = <[op_hlc op := mkLocalOp op b]> (oplog s).
Proof. unfold apply_op. by destruct (op_state op). Qed.

Lemma rows_apply_op b op s e id :
  op_wf op ->
  rows (apply_op b op s) !! (e, id) =
  if decide ((e, id) = (op_entity op, op_entityId op)) then op_state op else rows s !! (e, id).
Proof.
  intros [_ Hop]. unfold apply_op, op_state. destruct (op_op op).
  - destruct Hop as (v & -> & Hid). simpl. rewrite Hid lookup_insert. 
    destruct (decide ((op_entity op, op_entityId op) = (e, id))), (decide ((e, id) = (op_entity op, op_entityId op)));
      congruence.
  - simpl. rewrite lookup_delete.
    destruct (decide ((op_entity op, op_entityId op) = (e, id))), (decide ((e, id) = (op_entity op, op_entityId op)));
      congruence.
Qed.

Lemma inv_apply b op s h :
  ledger_inv s h -> op_wf op -> newer op s -> oplog s !! op_hlc op = None ->
  ledger_inv (apply_op b op s) (op :: h).
Proof.
  intros Hinv Hop Hnew Hfresh. pose proof (inv_truthy s h Hinv) as Ht.
  assert (log_truthy (apply_op b op s)) as Ht'.
  { intros k lop. rewrite oplog_apply_op lookup_insert_Some. intros [[<- _]|[_ Hl]]; [by apply op_wf_truthy | by eapply Ht]. }
  split.
  - constructor; [done | apply (inv_wf _ _ Hinv)].
  - intros k lop. rewrite oplog_apply_op lookup_insert_Some. intros [[<- <-]|[_ Hl]]; [split; [done|constructor]|].
    destruct (inv_log _ _ Hinv k lop Hl). split; [done | by constructor].
  - intros op' [->|Hin]%elem_of_cons.
    + exists (op_hlc op), (mkLocalOp op b). rewrite oplog_apply_op lookup_insert_eq compareHlc_refl. done.
    + destruct (inv_top _ _ Hinv op' Hin) as (k & lop & Hl & Hk & Hle). exists k, lop.
      rewrite oplog_apply_op lookup_insert_ne; [done | intros <-; congruence].
  - intros e id. rewrite rows_apply_op; [|done]. case_decide as Hkey.
    + injection Hkey as -> ->.
      rewrite (latestStampFor_unique _ _ _ (op_hlc op) (mkLocalOp op b)); [|done|..].
      * by rewrite oplog_apply_op lookup_insert_eq.
      * by rewrite oplog_apply_op lookup_insert_eq.
      * done.
      * intros k lop. rewrite oplog_apply_op lookup_insert_Some.
        intros [[<- _]|[_ Hl]] Hk; [by rewrite compareHlc_refl | by apply Z.lt_le_incl, (Hnew k lop)].
    + rewrite (inv_rows _ _ Hinv).
      assert (latestStampFor e id (apply_op b op s) = latestStampFor e id s) as ->.
      { apply latestStampFor_ext; [done..|]. intros k lop Hk. rewrite oplog_apply_op lookup_insert_Some.
        split; [intros [[_ <-]|[_ ?]]; [|done]|].
        - destruct Hk as [<- <-]. done.
        - intros Hl. right. split; [intros <-; congruence | done]. }
      pose proof (latestStampFor_spec e id s Ht) as Hl. destruct (latestStampFor e id s) as [m|]; [|done].
      destruct Hl as [(lop & Hm & _) _]. rewrite oplog_apply_op lookup_insert_ne; [done|].
      intros <-. congruence.
Qed.

(** [merge_op] either applies the operation, which was newer, or leaves the state
    because something at least as new is logged. *)
Lemma merge_op_cases s h op :
  ledger_inv s h -> op_wf op ->
  (newer op s /\ merge_op s op = (apply_op true op s, true))
  \/ ((exists k lop, oplog s !! k = Some lop /\ same_key (op_entity op) (op_entityId op) (lop_op lop)
        /\ compareHlc (op_hlc op) k <= 0) /\ merge_op s op = (s, false)).
Proof.
  intros Hinv Hop. pose proof (inv_truthy s h Hinv) as Ht. unfold merge_op.
  pose proof (latestStampFor_spec (op_entity op) (op_entityId op) s Ht) as Hl.
  assert (forall st : App * bool, st = (apply_op true op s, true) ->
    match op_op op with
    | Put => match op_value op with
             | Some v => (oplog_put (mkLocalOp op true) (table_put (op_entity op) v s), true)
             | None => (s, false)
             end
    | Delete => (oplog_put (mkLocalOp op true) (table_delete (op_entity op) (op_entityId op) s), true)
    end = st) as Happly.
  { intros st ->. unfold apply_op, op_state. destruct Hop as [_ Hop].
    destruct (op_op op); [by destruct Hop as (v & -> & _) | done]. }
  destruct (latestStampFor _ _ s) as [m|].
  - destruct Hl as [(lop & Hm & Hk) Hmax]. rewrite (Ht m lop Hm). cbn [andb].
    destruct (Z.leb_spec (compareHlc (op_hlc op) m) 0) as [Hle|Hgt].
    + right. split; [by exists m, lop | done].
    + left. split; [|by apply Happly]. intros k lop' Hl' Hk'.
      eapply compareHlc_le_lt_trans; [by eapply Hmax|]. apply compareHlc_flip. lia.
  - left. split; [|by apply Happly]. intros k lop Hlog Hk. by destruct (Hl k lop).
Qed.

Lemma newer_fresh s h op :
  ledger_inv s h -> unique_stamps (op :: h) -> newer op s -> oplog s !! op_hlc op = None.
Proof.
  intros Hinv Huniq Hnew. destruct (oplog s !! op_hlc op) as [lop|] eqn:E; [|done]. exfalso.
  destruct (inv_log _ _ Hinv _ _ E) as [Hh Hin].
  assert (same_write (lop_op lop) op) as (He & Hid & _) by (apply Huniq; [by constructor | constructor | done]).
  by apply (cmp_lt_irrefl (op_hlc op)), (Hnew _ lop E).
Qed.

Lemma inv_merge_op s h op :
  ledger_inv s h -> op_wf op -> unique_stamps (op :: h) ->
  ledger_inv (fst (merge_op s op)) (op :: h).
Proof.
  intros Hinv Hop Huniq. destruct (merge_op_cases s h op Hinv Hop) as [[Hnew ->]|[Hold ->]]; simpl.
  - apply inv_apply; [done..|]. by eapply newer_fresh.
  - destruct Hinv as [Hwf Hlog Htop Hrows]. split; [by constructor| |..].
    + intros k lop Hl. destruct (Hlog k lop Hl). split; [done | by constructor].
    + intros op' [->|Hin]%elem_of_cons; [done | by apply Htop].
    + done.
Qed.

Lemma unique_stamps_sub ops ops' :
  (forall op, op ∈ ops' -> op ∈ ops) -> unique_stamps ops -> unique_stamps ops'.
Proof. intros Hsub Huniq a b Ha Hb. by apply Huniq; apply Hsub. Qed.

Lemma inv_merge_loop ops : forall s h,
  ledger_inv s h -> Forall op_wf ops -> unique_stamps (ops ++ h) ->
  ledger_inv (fst (merge_loop s ops)) (ops ++ h).
Proof.
  induction ops as [|op ops IH]; intros s h Hinv Hwf Huniq; [done|].
  apply Forall_cons in Hwf as [Hop Hwf]. cbn [merge_loop].
  pose proof (inv_merge_op s h op Hinv Hop) as H1.
  destruct (merge_op s op) as [s1 applied]. cbn [fst] in H1.
  specialize (IH s1 (op :: h)). destruct (merge_loop s1 ops) as [s2 n]. cbn [fst] in *.
  eapply inv_elems; [|apply IH; [apply H1|done|]].
  - intros o. set_solver.
  - eapply unique_stamps_sub; [|exact Huniq]. set_solver.
  - eapply unique_stamps_sub; [|exact Huniq]. set_solver.
Qed.

(** A [merge] that returns leaves the loop's tables and log. *)
Lemma merge_Ok ops s n s' :
  merge ops s = (Ok n, s') ->
  let loop := merge_loop s (js_sort (fun a b => compareHlc (op_hlc a) (op_hlc b)) ops) in
  rows s' = rows loop.1 /\ oplog s' = oplog loop.1 /\ n = loop.2.
Proof.
  unfold merge. destruct ops as [|o ops]; [by intros [= <- <-]|].
  unfold mbind, M_bind, requireClock, stepM. destruct (clock s); [|done].
  destruct (merge_loop _ _) as [s1 k]. intros [= <- <-]. simpl.
  unfold persistClock. by destruct (clock s1).
Qed.

Lemma inv_merge ops s n s' h :
  ledger_inv s h -> Forall op_wf ops -> unique_stamps (ops ++ h) -> merge ops s = (Ok n, s') ->
  ledger_inv s' (ops ++ h).
Proof.
  intros Hinv Hwf Huniq (Hr & Ho & _)%merge_Ok.
  set (sorted := js_sort _ ops) in *.
  assert (forall o, o ∈ sorted <-> o ∈ ops) as Hin by (intros o; apply elem_of_js_sort).
  apply (inv_same (merge_loop s sorted).1); [done..|].
  apply (inv_elems _ (sorted ++ h)); [intros o; rewrite !elem_of_app Hin; done|].
  apply inv_merge_loop; [done| |].
  - apply Forall_forall. intros o Ho'. rewrite ->Forall_forall in Hwf. by apply Hwf, Hin.
  - eapply unique_stamps_sub; [|exact Huniq]. intros o. rewrite !elem_of_app Hin. done.
Qed.

(** The invariant says exactly that the tables are the last writes. *)
Lemma inv_lww s h : ledger_inv s h -> unique_stamps h -> lww_rows h (rows s).
Proof.
  intros Hinv Huniq e id v. rewrite (inv_rows _ _ Hinv).
  pose proof (latestStampFor_spec e id s (inv_truthy s h Hinv)) as Hl.
  destruct (latestStampFor e id s) as [m|].
  - destruct Hl as [(lop & Hm & Hk) Hmax]. rewrite Hm.
    destruct (inv_log _ _ Hinv m lop Hm) as [Hh Hin].
    assert (lww h e id (lop_op lop)) as Hwin.
    { split_and!; [done..|]. intros op' Hin' [He Hid].
      destruct (inv_top _ _ Hinv op' Hin') as (k & lop' & Hl' & Hk' & Hle). rewrite He Hid in Hk'.
      eapply cmp_trans; [exact Hle|]. rewrite Hh. by eapply Hmax. }
    split; [intros Hv; by exists (lop_op lop)|].
    intros (op & (Hop & Hkey & Hbest) & <-). destruct Hwin as (_ & _ & Hbest').
    assert (same_write (lop_op lop) op) as (_ & _ & Hk' & Hv)
      by (apply Huniq; [done..|]; apply compareHlc_antisym; auto).
    unfold op_state. by rewrite Hk' Hv.
  - split; [done|]. intros (op & (Hop & Hkey & _) & _).
    destruct (inv_top _ _ Hinv op Hop) as (k & lop & Hl' & Hk' & _).
    destruct Hkey as [He Hid]. rewrite He Hid in Hk'. by destruct (Hl k lop).
Qed.

(** Last-writer-wins is a function of the set of operations. *)
Lemma lww_rows_unique ops ops' r r' :
  (forall op, op ∈ ops <-> op ∈ ops') -> lww_rows ops r -> lww_rows ops' r' -> r = r'.
Proof.
  intros Heq Hr Hr'. apply map_eq. intros [e id].
  assert (forall v, r !! (e, id) = Some v <-> r' !! (e, id) = Some v) as H.
  { intros v. rewrite (Hr e id v) (Hr' e id v). split; intros (op & (Hin & Hk & Hmax) & Hv); exists op;
      (split; [split_and!; [by apply Heq | done | intros op' Ho; by apply Hmax, Heq] | done]). }
  destruct (r !! (e, id)) as [v|] eqn:E.
  - symmetry. by apply H.
  - destruct (r' !! (e, id)) as [v|]; [|done]. by destruct (proj2 (H v) eq_refl).
Qed.

(** ** Local edits and the clock *)

(** Everything seen lies below any later state of the clock. *)
Definition covered (c : HybridLogicalClock) (stamp : string) : Prop :=
  forall st, hlc_ok st -> hlc_lt (clock_state c) st ->
    compareHlc stamp (encodeHlc st (clock_device c)) < 0.

Record clock_inv (s : App) (h : list Operation) (c : HybridLogicalClock) : Prop := {
  ci_clock : clock s = Some c;
  ci_ok : hlc_ok (clock_state c);
  ci_device : no_dash (clock_device c) = true;
  ci_nows : forall n, 0 <= nows s n <= MAX_SAFE_INTEGER;
  ci_covered : forall op, op ∈ h -> covered c (op_hlc op) }.

Lemma covered_mono c c' stamp :
  clock_device c' = clock_device c ->
  clock_state c' = clock_state c \/ hlc_lt (clock_state c) (clock_state c') ->
  covered c stamp -> covered c' stamp.
Proof.
  intros Hd Hs Hc st Hok Hlt. rewrite Hd. apply Hc; [done|].
  destruct Hs as [<-|Hs]; [done | by eapply hlc_lt_trans].
Qed.

Lemma covered_own st dev : hlc_ok st -> covered (mkClock dev st) (encodeHlc st dev).
Proof. intros Hok st' Hok' Hlt. by apply encode_lt. Qed.

Lemma covered_le c a b : compareHlc a b <= 0 -> covered c b -> covered c a.
Proof. intros Hab Hb st Hok Hlt. eapply compareHlc_le_lt_trans; [exact Hab | by apply Hb]. Qed.

(** A successful clock call through the service. *)
Lemma on_clock_call call s h c stamp s' :
  clock_inv s h c ->
  on_clock (fun now => clock_call_run (match call with Some st => Observe st now | None => Tick now end)) s
    = (Ok stamp, s') ->
  exists c', clock_inv s' h c' /\ hlc_lt (clock_state c) (clock_state c')
    /\ clock_device c' = clock_device c /\ stamp = encodeHlc (clock_state c') (clock_device c)
    /\ rows s' = rows s /\ oplog s' = oplog s.
Proof.
  intros [Hc Hok Hd Hn Hcov]. unfold on_clock, requireClock, mbind, M_bind, Date_now, stepM.
  rewrite Hc. set (cc := match call with Some _ => _ | None => _ end).
  destruct (clock_call_run cc c) as [r c'] eqn:E. intros [= -> <-].
  apply clock_call_forward in E as (Hok' & Hlt & Hdev & ->);
    [|by destruct call; unfold call_ok; simpl; apply Hn|done].
  exists c'. split_and!; [|done..]. split; simpl; [done|done|by rewrite Hdev|done|].
  intros op Hop. eapply covered_mono; [exact Hdev | by right | by apply Hcov].
Qed.

Lemma on_clock_tick s h c stamp s' :
  clock_inv s h c -> on_clock tick s = (Ok stamp, s') ->
  exists c', clock_inv s' h c' /\ hlc_lt (clock_state c) (clock_state c')
    /\ clock_device c' = clock_device c /\ stamp = encodeHlc (clock_state c') (clock_device c)
    /\ rows s' = rows s /\ oplog s' = oplog s.
Proof. apply (on_clock_call None). Qed.

Lemma on_clock_observe remote s h c stamp s' :
  clock_inv s h c -> on_clock (observe remote) s = (Ok stamp, s') ->
  exists c', clock_inv s' h c' /\ hlc_lt (clock_state c) (clock_state c')
    /\ clock_device c' = clock_device c /\ stamp = encodeHlc (clock_state c') (clock_device c)
    /\ rows s' = rows s /\ oplog s' = oplog s.
Proof. apply (on_clock_call (Some remote)). Qed.

(** A successful [observe] moves the clock past the stamp. *)
Lemma observe_covers r d now c stamp c' :
  hlc_ok r -> no_dash d = true -> observe (encodeHlc r d) now c = (Ok stamp, c') ->
  hlc_lt r (clock_state c').
Proof.
  intros Hr Hd. unfold observe. rewrite (hlc_decode_encode r d) //.
  destruct (Z.gtb_spec (physical r - now) MAX_DRIFT_MS); [done|].
  set (phys := Z.max _ _).
  match goal with |- context [?x >? MAX_COUNTER] => set (ctr := x) end.
  destruct (Z.gtb_spec ctr MAX_COUNTER); [done|]. intros [= <- <-].
  unfold hlc_lt, ctr. cbn [physical counter clock_state].
  destruct (Z.eqb_spec phys (physical (clock_state c))), (Z.eqb_spec phys (physical r)); cbn [andb]; lia.
Qed.

(** The effect of [put] and [remove] that return. *)
Lemma put_Ok s h c e v v' s' :
  clock_inv s h c -> put e v s = (Ok v', s') ->
  exists c' s1, clock_inv s1 h c' /\ hlc_lt (clock_state c) (clock_state c')
    /\ clock_device c' = clock_device c
    /\ v' = set_updatedAt (encodeHlc (clock_state c') (clock_device c)) v
    /\ rows s1 = rows s /\ oplog s1 = oplog s
    /\ s' = persistClock (apply_op false (mkOp (encodeHlc (clock_state c') (clock_device c)) e
              (entity_id v') Put (Some v') (clock_device c)) s1).
Proof.
  intros Hc. unfold put. unfold mbind at 1, M_bind at 1, requireClock. rewrite (ci_clock _ _ _ Hc).
  unfold mbind at 1, M_bind at 1. destruct (on_clock tick s) as [[hlc|] s1] eqn:E; [|done].
  destruct (on_clock_tick s h c hlc s1 Hc E) as (c' & Hc' & Hlt & Hd & -> & Hr & Ho).
  unfold mbind, M_bind, modifyS, mret, M_ret. intros [= <- <-].
  by exists c', s1.
Qed.

Lemma remove_Ok s h c e id s' :
  clock_inv s h c -> remove e id s = (Ok tt, s') ->
  exists c' s1, clock_inv s1 h c' /\ hlc_lt (clock_state c) (clock_state c')
    /\ clock_device c' = clock_device c
    /\ rows s1 = rows s /\ oplog s1 = oplog s
    /\ s' = persistClock (apply_op false (mkOp (encodeHlc (clock_state c') (clock_device c)) e
              id Delete None (clock_device c)) s1).
Proof.
  intros Hc. unfold remove. unfold mbind at 1, M_bind at 1, requireClock. rewrite (ci_clock _ _ _ Hc).
  unfold mbind at 1, M_bind at 1. destruct (on_clock tick s) as [[hlc|] s1] eqn:E; [|done].
  destruct (on_clock_tick s h c hlc s1 Hc E) as (c' & Hc' & Hlt & Hd & -> & Hr & Ho).
  unfold modifyS. intros [= <-]. by exists c', s1.
Qed.

Lemma clock_inv_same s s' h c :
  clock s' = clock s -> nows s' = nows s -> clock_inv s h c -> clock_inv s' h c.
Proof. intros Hc Hn [? ? ? Hnows ?]. split; rewrite ?Hc ?Hn; done. Qed.

Lemma clock_inv_cons s h c op :
  clock_inv s h c -> covered c (op_hlc op) -> clock_inv s (op :: h) c.
Proof. intros [? ? ? ? Hcov] Hop. split; [done..|]. by intros o [->|Ho]%elem_of_cons; [|apply Hcov]. Qed.

Lemma clock_apply_op b op s : clock (apply_op b op s) = clock s /\ nows (apply_op b op s) = nows s.
Proof. unfold apply_op. by destruct (op_state op). Qed.

Lemma persistClock_same s :
  rows (persistClock s) = rows s /\ oplog (persistClock s) = oplog s
  /\ clock (persistClock s) = clock s /\ nows (persistClock s) = nows s.
Proof. unfold persistClock. by destruct (clock s) eqn:E; simpl; rewrite ?E. Qed.

Lemma merge_op_clock s op :
  clock (fst (merge_op s op)) = clock s /\ nows (fst (merge_op s op)) = nows s.
Proof. unfold merge_op. by repeat case_match. Qed.

Lemma merge_loop_clock ops s :
  clock (fst (merge_loop s ops)) = clock s /\ nows (fst (merge_loop s ops)) = nows s.
Proof.
  revert s. induction ops as [|op ops IH]; intros s; [done|]. cbn [merge_loop].
  pose proof (merge_op_clock s op) as [H1 H2]. destruct (merge_op s op) as [s1 a]. cbn [fst] in *.
  specialize (IH s1) as [H3 H4]. destruct (merge_loop s1 ops) as [s2 n]. cbn [fst] in *.
  by rewrite H3 H4.
Qed.

Lemma merge_clock ops s n s' :
  merge ops s = (Ok n, s') -> clock s' = clock s /\ nows s' = nows s.
Proof.
  unfold merge. destruct ops as [|o ops]; [by intros [= <- <-]|].
  unfold mbind, M_bind, requireClock, stepM. destruct (clock s) eqn:Hc; [|done].
  pose proof (merge_loop_clock (js_sort (fun a b => compareHlc (op_hlc a) (op_hlc b)) (o :: ops)) s) as [H1 H2].
  destruct (merge_loop _ _) as [s1 k]. cbn [fst] in *. intros [= <- <-].
  destruct (persistClock_same s1) as (_ & _ & -> & ->). by rewrite H1 H2.
Qed.

Lemma observe_loop heads : forall s h c s',
  clock_inv s h c ->
  Forall (fun head => exists r d, hlc_ok r /\ no_dash d = true /\ head = encodeHlc r d) heads ->
  forM_ heads (fun stamp => _ ← on_clock (observe stamp); mret tt) s = (Ok tt, s') ->
  exists c', clock_inv s' h c' /\ (forall head, head ∈ heads -> covered c' head)
    /\ rows s' = rows s /\ oplog s' = oplog s /\ clock_device c' = clock_device c
    /\ (clock_state c' = clock_state c \/ hlc_lt (clock_state c) (clock_state c')).
Proof.
  induction heads as [|head heads IH]; intros s h c s' Hc Hheads E.
  - injection E as <-. exists c. split_and!; try done; [set_solver | by left].
  - apply Forall_cons in Hheads as [(r & d & Hr & Hd & ->) Hheads].
    cbn [forM_] in E. apply M_bind_Ok_inv in E as ([] & s1 & E1 & E).
    apply M_bind_Ok_inv in E1 as (stamp & s1' & E1 & [= ->]). pose proof E1 as E1'.
    destruct (on_clock_observe _ s h c stamp s1 Hc E1) as (c1 & Hc1 & Hlt1 & Hd1 & _ & Hr1 & Ho1).
    destruct (IH s1 h c1 s' Hc1 Hheads E) as (c' & Hc' & Hcov & Hr' & Ho' & Hd' & Hs').
    exists c'. split_and!; [done| | by rewrite Hr' Hr1 | by rewrite Ho' Ho1 | by rewrite Hd' Hd1 |].
    + intros head [->|Hin]%elem_of_cons; [|by apply Hcov].
      eapply covered_mono; [exact Hd' | exact Hs'|]. intros st Hok Hlt.
      unfold on_clock, requireClock, mbind, M_bind, Date_now, stepM in E1'.
      rewrite (ci_clock _ _ _ Hc) in E1'.
      destruct (observe (encodeHlc r d) (nows s (reads s)) c) as [r' c''] eqn:E2.
      injection E1' as -> <-. pose proof (ci_clock _ _ _ Hc1) as [= ->].
      pose proof (observe_covers r d _ c stamp c1 Hr Hd E2) as Hrc.
      rewrite compareHlc_cmp. unfold cmp_string. rewrite compare_encodeHlc; [|done..].
      pose proof (hlc_lt_trans _ _ _ Hrc Hlt) as [Hp|[-> Hp]].
      * by rewrite (proj2 (Z.compare_lt_iff _ _) Hp).
      * rewrite Z.compare_refl. by rewrite (proj2 (Z.compare_lt_iff _ _) Hp).
    + right. destruct Hs' as [->|Hs']; [done | by eapply hlc_lt_trans].
Qed.

Lemma observeStamps_Ok heads s h c s' :
  clock_inv s h c ->
  Forall (fun head => exists r d, hlc_ok r /\ no_dash d = true /\ head = encodeHlc r d) heads ->
  observeStamps heads s = (Ok tt, s') ->
  exists c', clock_inv s' h c' /\ (forall head, head ∈ heads -> covered c' head)
    /\ rows s' = rows s /\ oplog s' = oplog s.
Proof.
  intros Hc Hheads. unfold observeStamps. unfold mbind at 1, M_bind at 1, requireClock.
  rewrite (ci_clock _ _ _ Hc). intros E.
  destruct (observe_loop heads s h c s' Hc Hheads E) as (c' & ? & ? & ? & ? & _). by exists c'.
Qed.

(** A local operation, stamped after everything seen, is recorded as the newest. *)
Lemma local_op_inv s s1 h c c' op :
  ledger_inv s h -> clock_inv s1 h c' -> clock_inv s h c -> rows s1 = rows s -> oplog s1 = oplog s ->
  hlc_lt (clock_state c) (clock_state c') -> clock_device c' = clock_device c ->
  op_hlc op = encodeHlc (clock_state c') (clock_device c) -> op_wf op ->
  let s' := persistClock (apply_op false op s1) in
  ledger_inv s' (op :: h) /\ clock_inv s' (op :: h) c'.
Proof.
  intros Hinv Hc' Hc Hr Ho Hlt Hd Hh Hwf s'.
  assert (forall k lop, oplog s1 !! k = Some lop -> compareHlc k (op_hlc op) < 0) as Hbelow.
  { intros k lop. rewrite Ho. intros Hl. destruct (inv_log _ _ Hinv k lop Hl) as [<- Hin].
    rewrite Hh. apply (ci_covered _ _ _ Hc); [done | apply (ci_ok _ _ _ Hc') | done]. }
  destruct (persistClock_same (apply_op false op s1)) as (Hr' & Ho' & Hcl' & Hn').
  split.
  - apply (inv_same (apply_op false op s1)); [done..|]. apply inv_apply; [|done| |].
    + by apply (inv_same s).
    + intros k lop Hl _. by eapply Hbelow.
    + destruct (oplog s1 !! op_hlc op) as [lop|] eqn:E; [|done].
      exfalso. by eapply cmp_lt_irrefl, Hbelow.
  - apply (clock_inv_same (apply_op false op s1)); [done..|].
    destruct (clock_apply_op false op s1) as [Hcl Hn].
    apply (clock_inv_same s1); [done..|]. apply clock_inv_cons; [done|].
    rewrite Hh -Hd. destruct c' as [d' st']. apply covered_own. apply (ci_ok _ _ _ Hc').
Qed.

(** ** What a clock that refuses leaves behind *)

Lemma on_clock_throw f s e s' :
  (forall now c r c', f now c = (Throw r, c') -> c' = c) ->
  @on_clock string f s = (Throw e, s') ->
  s' = s \/ s' = set_clock (clock s) (set_reads (S (reads s)) s).
Proof.
  intros Hf. unfold on_clock, requireClock, mbind, M_bind, Date_now, stepM.
  destruct (clock s) as [c|] eqn:Hc; [|intros [= _ <-]; by left].
  cbn. destruct (f (nows s (reads s)) c) as [[r|x] c'] eqn:E; [done|].
  intros [= -> <-]. right. by rewrite (Hf _ _ _ _ E).
Qed.

Lemma tick_throw now c e c' : tick now c = (Throw e, c') -> c' = c.
Proof. apply (clock_call_throw (Tick now)). Qed.

(** ** The persisted clock *)

(** The clock on disk is enough to restart from: it too lies above everything the
    tables know. *)
Definition meta_inv (s : App) (h : list Operation) (dev : string) : Prop :=
  match meta_clock s with
  | Some st => hlc_ok st /\ forall op, op ∈ h -> covered (mkClock dev st) (op_hlc op)
  | None => h = []
  end.

Lemma on_clock_meta {A} (f : Z -> M HybridLogicalClock A) s r s' :
  on_clock f s = (r, s') -> meta_clock s' = meta_clock s.
Proof.
  unfold on_clock, requireClock, mbind, M_bind, Date_now, stepM.
  destruct (clock s); [|congruence]. cbn. destruct (f _ _) as [r' c']. by intros [= _ <-].
Qed.

Lemma observeStamps_meta heads s r s' : observeStamps heads s = (r, s') -> meta_clock s' = meta_clock s.
Proof.
  unfold observeStamps, mbind at 1, M_bind at 1, requireClock. destruct (clock s); [|congruence].
  revert s. induction heads as [|hd heads IH]; intros s; cbn [forM_]; [by intros [= _ <-]|].
  unfold mbind at 1, M_bind at 1. destruct ((_ ← on_clock (observe hd); mret tt) s) as [[[]|x] s1] eqn:E.
  - intros ->%IH. unfold mbind, M_bind in E.
    destruct (on_clock (observe hd) s) as [[y|y] s2] eqn:E2; [|congruence]. injection E as <-. by eapply on_clock_meta.
  - intros [= _ <-]. unfold mbind, M_bind in E.
    destruct (on_clock (observe hd) s) as [[y|y] s2] eqn:E2; [done|]. injection E as _ <-. by eapply on_clock_meta.
Qed.

Lemma persistClock_meta s : meta_clock (persistClock s) = match clock s with Some c => Some (clock_state c) | None => meta_clock s end.
Proof. unfold persistClock. destruct (clock s) eqn:E; by rewrite ?E. Qed.

Lemma merge_op_meta s op : meta_clock (fst (merge_op s op)) = meta_clock s.
Proof. unfold merge_op. by repeat case_match. Qed.

Lemma merge_loop_meta ops s : meta_clock (fst (merge_loop s ops)) = meta_clock s.
Proof.
  revert s. induction ops as [|op ops IH]; intros s; [done|]. cbn [merge_loop].
  pose proof (merge_op_meta s op) as H. destruct (merge_op s op) as [s1 a]. cbn [fst] in H.
  specialize (IH s1). destruct (merge_loop s1 ops) as [s2 n]. cbn [fst] in *. by rewrite IH.
Qed.

Lemma merge_meta ops s n s' :
  merge ops s = (Ok n, s') ->
  (ops = [] /\ meta_clock s' = meta_clock s) \/ meta_clock s' = clock_state <$> clock s.
Proof.
  unfold merge. destruct ops as [|o ops]; [intros [= _ <-]; by left|].
  unfold mbind, M_bind, requireClock, stepM. destruct (clock s) eqn:Hc; [|done].
  pose proof (merge_loop_clock (js_sort (fun a b => compareHlc (op_hlc a) (op_hlc b)) (o :: ops)) s) as [Hcl _].
  destruct (merge_loop _ _) as [s1 k]. intros [= _ <-]. cbn [fst] in Hcl. right.
  by rewrite persistClock_meta Hcl Hc.
Qed.

(** Observing, whatever comes of it, only moves the clock forward. *)
Lemma observe_any heads : forall s h c r s',
  clock_inv s h c -> observeStamps heads s = (r, s') ->
  exists c', clock_inv s' h c' /\ clock_device c' = clock_device c /\ rows s' = rows s /\ oplog s' = oplog s.
Proof.
  intros s h c r s' Hc. unfold observeStamps, mbind at 1, M_bind at 1, requireClock. rewrite (ci_clock _ _ _ Hc).
  revert s c Hc. induction heads as [|hd heads IH]; intros s c Hc; cbn [forM_]; [intros [= _ <-]; by exists c|].
  unfold mbind at 1, M_bind at 1. destruct ((_ ← on_clock (observe hd); mret tt) s) as [[[]|x] s1] eqn:E.
  - intros E'. unfold mbind, M_bind in E. destruct (on_clock (observe hd) s) as [[y|y] s2] eqn:E2; [|done].
    injection E as <-. destruct (on_clock_observe _ _ _ _ _ _ Hc E2) as (c1 & Hc1 & _ & Hd1 & _ & Hr1 & Ho1).
    destruct (IH s2 c1 Hc1 E') as (c' & ? & Hd' & Hr' & Ho'). exists c'. by rewrite Hd' Hr' Ho'.
  - intros [= _ <-]. unfold mbind, M_bind in E. destruct (on_clock (observe hd) s) as [[y|y] s2] eqn:E2; [done|].
    injection E as _ <-. exists c. 
    assert (forall now c r c', observe hd now c = (Throw r, c') -> c' = c) as Hthrow
      by (intros now; apply (clock_call_throw (Observe hd now))).
    destruct (on_clock_throw _ _ _ _ Hthrow E2) as [->| ->]; [done|].
    split_and!; [by apply (clock_inv_same s)|done..].
Qed.

Lemma local_op_inv_meta s s1 h c c' op :
  ledger_inv s h -> clock_inv s1 h c' -> clock_inv s h c -> rows s1 = rows s -> oplog s1 = oplog s ->
  hlc_lt (clock_state c) (clock_state c') -> clock_device c' = clock_device c ->
  op_hlc op = encodeHlc (clock_state c') (clock_device c) ->
  match op_op op with
  | Put => exists v, op_value op = Some v /\ entity_id v = op_entityId op
  | Delete => op_value op = None
  end ->
  let s' := persistClock (apply_op false op s1) in
  ledger_inv s' (op :: h) /\ clock_inv s' (op :: h) c' /\ meta_inv s' (op :: h) (clock_device c').
Proof.
  intros Hi Hc' Hc Hr Ho Hlt Hd Hh Hv s'.
  assert (op_wf op) as Hwf.
  { split; [|done]. exists (clock_state c'), (clock_device c).
    split_and!; [apply (ci_ok _ _ _ Hc') | apply (ci_device _ _ _ Hc) | done]. }
  destruct (local_op_inv s s1 h c c' op) as [H1 H2]; [done..|]. split_and!; [done..|].
  unfold meta_inv, s'. rewrite persistClock_meta (proj1 (clock_apply_op _ _ _)) (ci_clock _ _ _ Hc').
  split; [apply (ci_ok _ _ _ Hc')|]. intros o Hop. pose proof (ci_covered _ _ _ H2 o Hop). by destruct c'.
Qed.

(** Every reachable device satisfies the invariants. *)
Lemma device_inv_meta s h :
  device_history s h -> unique_stamps h ->
  exists c, ledger_inv s h /\ clock_inv s h c /\ meta_inv s h (clock_device c).
Proof.
  induction 1 as [s c Hr Ho Hc Hm Hok Hd Hn|s h e v v' s' Hh IH E|s h e id s' Hh IH E
    |s h heads r s' Hh IH E|s h heads ops s1 s2 n Hh IH E1 E2 Hwf Hheads Hbound
    |s h s' Hh IH E|s h s' Hh IH Hr Ho Hcl Hm Hn]; intros Huniq.
  - exists c. split; [|split; [by split; [..|set_solver]|by unfold meta_inv; rewrite Hm]].
    split; [constructor | by rewrite Ho | set_solver |].
    intros e id. rewrite Hr lookup_empty. unfold latestStampFor, stamps_for.
    by rewrite Ho map_to_list_empty.
  - destruct IH as (c & Hinv & Hc & _); [eapply unique_stamps_sub; [|exact Huniq]; set_solver|].
    destruct (put_Ok s h c e v v' s' Hc E) as (c' & s1 & Hc' & Hlt & Hd & Hv & Hr & Ho & ->).
    exists c'. unfold device_of. rewrite (ci_clock _ _ _ Hc).
    assert (entity_updatedAt v' = encodeHlc (clock_state c') (clock_device c)) as ->
      by by rewrite Hv entity_updatedAt_set.
    refine (local_op_inv_meta s s1 h c c' _ _ _ _ _ _ _ _ _ _); try done. by exists v'.
  - destruct IH as (c & Hinv & Hc & _); [eapply unique_stamps_sub; [|exact Huniq]; set_solver|].
    destruct (remove_Ok s h c e id s' Hc E) as (c' & s1 & Hc' & Hlt & Hd & Hr & Ho & ->).
    exists c'. unfold device_of. rewrite (ci_clock _ _ _ Hc).
    destruct (persistClock_same (apply_op false
      (mkOp (encodeHlc (clock_state c') (clock_device c)) e id Delete None (clock_device c)) s1)) as (_ & _ & -> & _).
    rewrite (proj1 (clock_apply_op _ _ _)) (ci_clock _ _ _ Hc') Hd.
    destruct (local_op_inv_meta s s1 h c c' (mkOp (encodeHlc (clock_state c') (clock_device c)) e id Delete None
                (clock_device c))) as (HA & HB & HC); [done..|]. rewrite Hd in HC. by split_and!.
  - destruct IH as (c & Hinv & Hc & Hmeta); [done|].
    destruct (observe_any heads s h c r s' Hc E) as (c' & Hc' & Hd & Hr & Ho).
    exists c'. split_and!; [by apply (inv_same s)|done|]. unfold meta_inv in *.
    by rewrite (observeStamps_meta _ _ _ _ E) Hd.
  - destruct IH as (c & Hinv & Hc & Hmeta); [eapply unique_stamps_sub; [|exact Huniq]; set_solver|].
    destruct (observe_any heads s h c _ s1 Hc E1) as (c0 & Hc0 & Hd0 & _ & _).
    destruct (observeStamps_Ok heads s h c s1 Hc Hheads E1) as (c' & Hc' & Hcov & Hr & Ho).
    assert (c' = c0) as -> by (pose proof (ci_clock _ _ _ Hc'); pose proof (ci_clock _ _ _ Hc0); congruence).
    destruct (merge_clock _ _ _ _ E2) as [Hcl Hn].
    assert (clock_inv s2 (ops ++ h) c0) as Hc2.
    { apply (clock_inv_same s1); [done..|].
      destruct Hc' as [? ? ? ? Hcov']. split; [done..|].
      intros op [Hop|Hop]%elem_of_app; [|by apply Hcov'].
      rewrite ->Forall_forall in Hbound. destruct (Hbound op Hop) as (head & Hhead & Hle).
      eapply covered_le; [exact Hle | by apply Hcov]. }
    exists c0. split_and!; [|done|].
    + eapply inv_merge; [|exact Hwf|exact Huniq|exact E2]. by apply (inv_same s).
    + unfold meta_inv in *. rewrite Hd0. destruct (merge_meta _ _ _ _ E2) as [[-> ->]| ->].
      * by rewrite (observeStamps_meta _ _ _ _ E1).
      * rewrite (ci_clock _ _ _ Hc'). cbn. split; [apply (ci_ok _ _ _ Hc')|]. intros op Hop.
        pose proof (ci_covered _ _ _ Hc2 op Hop) as Hco. rewrite -Hd0. by destruct c0.
  - destruct IH as (c & Hinv & Hc & Hmeta); [done|]. unfold initialise in E. injection E as <-.
    assert (device_of s = clock_device c) as -> by (unfold device_of; by rewrite (ci_clock _ _ _ Hc)).
    exists (newClock (clock_device c) (meta_clock s)). split_and!; [by apply (inv_same s)| |done].
    unfold meta_inv in Hmeta. unfold newClock. destruct (meta_clock s) as [st|]; cbn.
    + destruct Hmeta as [Hok Hcov]. split; [done..|apply (ci_device _ _ _ Hc)|apply (ci_nows _ _ _ Hc)|done].
    + subst h. split; [done|unfold hlc_ok, MAX_SAFE_INTEGER, MAX_COUNTER; cbn; lia|apply (ci_device _ _ _ Hc)|apply (ci_nows _ _ _ Hc)|set_solver].
  - destruct IH as (c & Hinv & Hc & Hmeta); [done|]. exists c.
    split_and!; [by apply (inv_same_ops s)|by apply (clock_inv_same s)|]. unfold meta_inv. by rewrite Hm.
Qed.

Lemma device_inv s h :
  device_history s h -> unique_stamps h -> exists c, ledger_inv s h /\ clock_inv s h c.
Proof. intros H Hu. destruct (device_inv_meta s h H Hu) as (c & Hi & Hc & _). by exists c. Qed.

#[export] Hint Resolve inv_truthy compareHlc_refl : docket.

(** ** Repeated batches *)

(** Operations already seen are all stale. *)
Lemma merge_loop_seen ops s h :
  ledger_inv s h -> unique_stamps h -> (forall op, op ∈ ops -> op ∈ h) -> merge_loop s ops = (s, 0).
Proof.
  intros Hinv Huniq. induction ops as [|op ops IH]; intros Hsub; [done|]. cbn [merge_loop].
  assert (op ∈ h) as Hin by (apply Hsub; constructor).
  pose proof (inv_wf _ _ Hinv) as Hwf. rewrite ->Forall_forall in Hwf.
  destruct (inv_top _ _ Hinv op Hin) as (k & lop & Hl & Hk & Hle).
  destruct (merge_op_cases s h op Hinv (Hwf op Hin)) as [[Hnew _]|[_ ->]].
  - exfalso. specialize (Hnew k lop Hl Hk). apply (cmp_lt_irrefl (op_hlc op)).
    by eapply compareHlc_le_lt_trans.
  - rewrite IH; [done|]. intros o Ho. apply Hsub. by constructor.
Qed.

(** ** A write that is refused *)

Lemma requireClock_Ok s c s' : requireClock s = (Ok c, s') -> s' = s.
Proof. unfold requireClock. destruct (clock s); [congruence | done]. Qed.

Lemma on_clock_tick_throw s x s' :
  on_clock tick s = (Throw x, s') ->
  x = JsError "HLC counter overflow" \/ x = JsError "LedgerService.initialise() has not been called".
Proof.
  unfold on_clock, requireClock, mbind, M_bind, Date_now, stepM, tick, bump.
  destruct (clock s); [|intros; right; congruence]. repeat case_match; intros; simplify_eq; by left.
Qed.

(** ** Which keys have a history *)

Lemma hasHistory_iff s h e id :
  ledger_inv s h -> hasHistory e id s = true <-> exists op, op ∈ h /\ same_key e id op.
Proof.
  intros Hinv. unfold hasHistory.
  pose proof (latestStampFor_spec e id s (inv_truthy s h Hinv)) as Hl.
  destruct (latestStampFor e id s) as [m|].
  - destruct Hl as [(lop & Hm & Hk) _]. split; [intros _ | done].
    exists (lop_op lop). split; [|done]. by destruct (inv_log _ _ Hinv m lop Hm).
  - split; [done|]. intros (op & Hop & He & Hid).
    destruct (inv_top _ _ Hinv op Hop) as (k & lop & Hlog & Hk & _). rewrite He Hid in Hk.
    by destruct (Hl k lop).
Qed.

(** ** Live devices *)

(** A key the log mentions. *)
Definition seen (e : EntityName) (id : string) (s : App) : Prop :=
  exists k lop, oplog s !! k = Some lop /\ same_key e id (lop_op lop).

(** A device both invariants hold of, with some past. *)
Definition live (s : App) : Prop := exists h c, ledger_inv s h /\ clock_inv s h c.

Lemma device_live s h : device_history s h -> unique_stamps h -> live s.
Proof. intros H Hu. exists h. by apply device_inv. Qed.

Lemma hasHistory_seen s e id : live s -> hasHistory e id s = true <-> seen e id s.
Proof.
  intros (h & c & Hi & _). unfold hasHistory.
  pose proof (latestStampFor_spec e id s (inv_truthy s h Hi)) as Hl.
  destruct (latestStampFor e id s) as [m|].
  - destruct Hl as [(lop & Hm & Hk) _]. split; [intros _ | done]. by exists m, lop.
  - split; [done|]. intros (k & lop & Hlog & Hk). by destruct (Hl k lop).
Qed.

(** A row is there only for a key the log mentions, and is stored under its id. *)
Lemma live_row s e id v : live s -> rows s !! (e, id) = Some v -> seen e id s /\ entity_id v = id.
Proof.
  intros (h & c & Hi & _). rewrite (inv_rows _ _ Hi).
  pose proof (latestStampFor_spec e id s (inv_truthy s h Hi)) as Hl.
  destruct (latestStampFor e id s) as [m|]; [|done]. destruct Hl as [(lop & Hm & He & Hid) _].
  rewrite Hm. intros Hst. split; [by exists m, lop|].
  destruct (inv_log _ _ Hi m lop Hm) as [_ Hin]. pose proof (inv_wf _ _ Hi) as Hwf. rewrite ->Forall_forall in Hwf.
  destruct (Hwf _ Hin) as [_ Hop]. unfold op_state in Hst. destruct (op_op (lop_op lop)); [|done].
  destruct Hop as (w & Hw & Hww). congruence.
Qed.

Lemma live_fresh_row s e id : live s -> ~ seen e id s -> rows s !! (e, id) = None.
Proof. intros Hl Hn. destruct (rows s !! (e, id)) eqn:E; [|done]. by destruct (live_row s e id _ Hl E). Qed.

Lemma live_same s s' :
  rows s' = rows s -> oplog s' = oplog s -> clock s' = clock s -> nows s' = nows s -> live s -> live s'.
Proof.
  intros Hr Ho Hc Hn (h & c & Hi & Hci). exists h, c. split; [by apply (inv_same s) | by apply (clock_inv_same s)].
Qed.

Lemma seen_same s s' e id : oplog s' = oplog s -> seen e id s' <-> seen e id s.
Proof. unfold seen. by intros ->. Qed.

Lemma Date_now_live s t s' : Date_now s = (Ok t, s') -> live s -> live s'.
Proof. unfold Date_now. intros [= _ <-]. by apply live_same. Qed.

Lemma Date_now_seen s t s' e id : Date_now s = (Ok t, s') -> seen e id s' <-> seen e id s.
Proof. unfold Date_now. intros [= _ <-]. by apply seen_same. Qed.

Lemma local_op_live s h c s1 c' op :
  ledger_inv s h -> clock_inv s h c -> clock_inv s1 h c' ->
  rows s1 = rows s -> oplog s1 = oplog s ->
  hlc_lt (clock_state c) (clock_state c') -> clock_device c' = clock_device c ->
  op_hlc op = encodeHlc (clock_state c') (clock_device c) ->
  match op_op op with
  | Put => exists v, op_value op = Some v /\ entity_id v = op_entityId op
  | Delete => op_value op = None
  end ->
  let s' := persistClock (apply_op false op s1) in
  live s' /\ (forall e id, seen e id s' <-> seen e id s \/ (e, id) = (op_entity op, op_entityId op)).
Proof.
  intros Hi Hc Hc' Hr Ho Hlt Hd Hh Hv s'.
  assert (op_wf op) as Hwf.
  { split; [|done]. exists (clock_state c'), (clock_device c).
    split_and!; [apply (ci_ok _ _ _ Hc') | apply (ci_device _ _ _ Hc) | done]. }
  destruct (local_op_inv s s1 h c c' op) as [H1 H2]; [done..|].
  split; [by exists (op :: h), c'|]. intros e id. unfold seen, s'.
  destruct (persistClock_same (apply_op false op s1)) as (_ & -> & _ & _). rewrite oplog_apply_op Ho.
  assert (oplog s !! op_hlc op = None) as Hfresh.
  { destruct (oplog s !! op_hlc op) as [lop|] eqn:E; [|done]. destruct (inv_log _ _ Hi _ _ E) as [Hk Hin].
    exfalso. apply (cmp_lt_irrefl (op_hlc op)). rewrite <-Hk at 1. rewrite Hh.
    apply (ci_covered _ _ _ Hc _ Hin); [apply (ci_ok _ _ _ Hc') | done]. }
  split.
  - intros (k & lop & Hl & He & Hid). rewrite lookup_insert in Hl. case_decide.
    + injection Hl as <-. right. by rewrite -He -Hid.
    + left. by exists k, lop.
  - intros [(k & lop & Hl & Hk)|[= -> ->]].
    + exists k, lop. rewrite lookup_insert. case_decide; [congruence | done].
    + exists (op_hlc op), (mkLocalOp op false). rewrite lookup_insert. by case_decide.
Qed.

(** What a write that returns does, for the services built on it. *)
Lemma put_live e v s v' s' :
  live s -> put e v s = (Ok v', s') ->
  live s' /\ (exists st, v' = set_updatedAt st v)
  /\ rows s' = <[(e, entity_id v) := v']> (rows s)
  /\ forall e' id', seen e' id' s' <-> seen e' id' s \/ (e', id') = (e, entity_id v).
Proof.
  intros (h & c & Hi & Hc) E. pose proof (put_rows _ _ _ _ _ E) as Hrows.
  destruct (put_Ok s h c e v v' s' Hc E) as (c' & s1 & Hc' & Hlt & Hd & Hv & Hr & Ho & ->).
  assert (entity_id v' = entity_id v) as Hid by by rewrite Hv entity_id_set_updatedAt.
  destruct (local_op_live s h c s1 c' (mkOp (encodeHlc (clock_state c') (clock_device c)) e
              (entity_id v') Put (Some v') (clock_device c))) as [Hl Hs]; [done..|by exists v'|].
  cbn [op_entity op_entityId] in Hs. rewrite Hid in Hs, Hl |- *.
  destruct Hrows as [_ Hrows]. rewrite ->Hid in Hrows. split_and!; [done | by eexists | done..].
Qed.

Lemma remove_live e id s s' :
  live s -> remove e id s = (Ok tt, s') ->
  live s' /\ rows s' = delete (e, id) (rows s)
  /\ forall e' id', seen e' id' s' <-> seen e' id' s \/ (e', id') = (e, id).
Proof.
  intros (h & c & Hi & Hc) E. pose proof (remove_rows _ _ _ _ E) as Hrows.
  destruct (remove_Ok s h c e id s' Hc E) as (c' & s1 & Hc' & Hlt & Hd & Hr & Ho & ->).
  destruct (local_op_live s h c s1 c' (mkOp (encodeHlc (clock_state c') (clock_device c)) e
              id Delete None (clock_device c))) as [Hl Hs]; [done..|].
  by split_and!.
Qed.

(** ** The sync queue *)

Lemma mark_synced_lookup stamps s k :
  oplog (markSynced stamps s) !! k =
  (fun lop => if decide (k ∈ stamps) then mkLocalOp (lop_op lop) true else lop) <$> (oplog s !! k).
Proof.
  unfold markSynced. revert s. induction stamps as [|stamp stamps IH]; intros s; cbn [fold_left].
  - destruct (oplog s !! k); [|done]. cbn [fmap option_fmap option_map].
    by f_equal.
  - rewrite IH. unfold mark_one. cbn [oplog set_oplog]. destruct (decide (stamp = k)) as [->|Hne].
    + rewrite lookup_alter_eq. destruct (oplog s !! k); [|done]. cbn [fmap option_fmap option_map]. f_equal.
      destruct (decide (k ∈ k :: stamps)); [by case_decide | set_solver].
    + rewrite lookup_alter_ne; [|done]. destruct (oplog s !! k); [|done]. cbn [fmap option_fmap option_map]. f_equal.
      destruct (decide (k ∈ stamps)), (decide (k ∈ stamp :: stamps)); set_solver.
Qed.

Lemma elem_of_oplog_sorted lop s : lop ∈ oplog_sorted s <-> exists k, oplog s !! k = Some lop.
Proof.
  unfold oplog_sorted. rewrite list_elem_of_fmap. split.
  - intros ([k l] & -> & Hin). rewrite elem_of_js_sort elem_of_map_to_list in Hin. by exists k.
  - intros (k & Hk). exists (k, lop). by rewrite elem_of_js_sort elem_of_map_to_list.
Qed.

(** * Properties *)

(** strong eventual consistency: two devices that have authored or been handed
    the same set of operations hold the same tables, whatever the order the
    operations arrived in, however they were batched or repeated. *)
Theorem devices_converge s1 h1 s2 h2 :
  device_history s1 h1 -> device_history s2 h2 -> unique_stamps (h1 ++ h2) ->
  (forall op, op ∈ h1 <-> op ∈ h2) -> rows s1 = rows s2.
Proof.
  intros H1 H2 Hu Heq.
  assert (unique_stamps h1 /\ unique_stamps h2) as [Hu1 Hu2]
    by (split; (eapply unique_stamps_sub; [|exact Hu]; set_solver)).
  destruct (device_inv s1 h1 H1 Hu1) as (c1 & Hi1 & _), (device_inv s2 h2 H2 Hu2) as (c2 & Hi2 & _).
  apply (lww_rows_unique h1 h2); [done|by apply inv_lww..].
Qed.

(** C8: the tables refine the last-writer-wins register map: after any history of
    edits, deletions and received batches, a row is present with value [v] exactly
    when the greatest-stamped operation of its key is a put of [v]; a deletion
    with the greatest stamp is never undone by an older put arriving later. *)
Theorem device_refines_lww s h :
  device_history s h -> unique_stamps h -> lww_rows h (rows s).
Proof. intros H Hu. destruct (device_inv s h H Hu) as (c & Hi & _). by apply inv_lww. Qed.

(** a pull that overlaps what the device has seen is a no-op: merging
    operations already seen applies none and changes no row and no log entry. *)
Theorem merge_idempotent s h ops :
  device_history s h -> unique_stamps h -> (forall op, op ∈ ops -> op ∈ h) ->
  exists s', merge ops s = (Ok 0, s') /\ rows s' = rows s /\ oplog s' = oplog s.
Proof.
  intros H Hu Hsub. destruct (device_inv s h H Hu) as (c & Hi & Hc).
  unfold merge. destruct ops as [|o ops]; [by exists s|].
  unfold mbind, M_bind, requireClock, stepM. rewrite (ci_clock _ _ _ Hc).
  rewrite (merge_loop_seen _ s h); [|done..|].
  - exists (persistClock s). by destruct (persistClock_same s) as (? & ? & _).
  - intros op. rewrite elem_of_js_sort. apply Hsub.
Qed.

(** a local write that returns is durable and newest: the row holds the value
    under its new stamp, no other row changes, the log gains exactly that
    operation, unsynced, the persisted clock is the clock that stamped it, and its
    stamp is above every operation the device has seen. *)
Theorem put_records_the_write s h e v v' s' :
  device_history s h -> unique_stamps h -> put e v s = (Ok v', s') ->
  v' = set_updatedAt (entity_updatedAt v') v
  /\ rows s' = <[(e, entity_id v) := v']> (rows s)
  /\ (exists dev, oplog s' = <[entity_updatedAt v' :=
        mkLocalOp (mkOp (entity_updatedAt v') e (entity_id v) Put (Some v') dev) false]> (oplog s))
  /\ meta_clock s' = snapshot <$> clock s'
  /\ Forall (fun op => compareHlc (op_hlc op) (entity_updatedAt v') < 0) h.
Proof.
  intros H Hu E. destruct (device_inv s h H Hu) as (c & Hi & Hc).
  destruct (put_Ok s h c e v v' s' Hc E) as (c' & s1 & Hc' & Hlt & Hd & Hv & Hr & Ho & ->).
  assert (entity_updatedAt v' = encodeHlc (clock_state c') (clock_device c)) as Hst
    by by rewrite Hv entity_updatedAt_set.
  assert (entity_id v' = entity_id v) as Hid by by rewrite Hv entity_id_set_updatedAt.
  rewrite Hst -Hid. destruct (persistClock_same (apply_op false (mkOp (encodeHlc (clock_state c') (clock_device c)) e
              (entity_id v') Put (Some v') (clock_device c)) s1)) as (-> & -> & -> & _).
  split_and!; [done| | | |].
  - by rewrite -Hr.
  - exists (clock_device c). by rewrite -Ho.
  - unfold persistClock. cbn. by rewrite (ci_clock _ _ _ Hc').
  - apply Forall_forall. intros op Hop. apply (ci_covered _ _ _ Hc op Hop); [apply (ci_ok _ _ _ Hc') | done].
Qed.

(** a write that throws (no clock yet, or the counter overflowed) leaves every
    row, the log and the clock as they were. *)
Theorem failed_write_changes_nothing s e v id x s' :
  put e v s = (Throw x, s') \/ remove e id s = (Throw x, s') ->
  rows s' = rows s /\ oplog s' = oplog s /\ clock s' = clock s /\ meta_clock s' = meta_clock s
  /\ (x = JsError "HLC counter overflow"
      \/ x = JsError "LedgerService.initialise() has not been called").
Proof.
  intros H.
  assert (requireClock s = (Throw x, s') \/ on_clock tick s = (Throw x, s')) as [E|E].
  { destruct H as [[E|(c & s1 & E1 & E)]%M_bind_Throw_inv|[E|(c & s1 & E1 & E)]%M_bind_Throw_inv]; try by left.
    all: rewrite (requireClock_Ok _ _ _ E1) in E;
      apply M_bind_Throw_inv in E as [E|(hlc & s2 & _ & E)]; [by right | done]. }
  - unfold requireClock in E. destruct (clock s) eqn:Hc; [done|]. injection E as <- <-. by split_and!; [..|right].
  - pose proof (on_clock_tick_throw s x s' E) as Hx.
    destruct (on_clock_throw tick s x s' tick_throw E) as [->| ->]; by split_and!.
Qed.

(** [hasHistory] remembers deletions: it holds exactly of the keys that some
    operation ever seen, deletions included, was about. *)
Theorem hasHistory_remembers s h e id :
  device_history s h -> unique_stamps h ->
  hasHistory e id s = true <-> exists op, op ∈ h /\ same_key e id op.
Proof. intros H Hu. destruct (device_inv s h H Hu) as (c & Hi & _). by apply hasHistory_iff. Qed.

(** [markSynced] takes exactly the given stamps off the sync queue: with no
    limit reached, an operation is pending afterwards iff it was before and its
    stamp is not listed. *)
Theorem markSynced_clears_queue s stamps limit lop :
  (length (oplog_sorted (markSynced stamps s)) <= limit)%nat ->
  (length (oplog_sorted s) <= limit)%nat ->
  (forall k l, oplog s !! k = Some l -> op_hlc (lop_op l) = k) ->
  lop ∈ pendingOperations limit (markSynced stamps s)
  <-> lop ∈ pendingOperations limit s /\ op_hlc (lop_op lop) ∉ stamps.
Proof.
  intros H1 H2 Hkey. unfold pendingOperations.
  assert (forall l, (length (List.filter (fun lop => negb (lop_synced lop)) l) <= length l)%nat) as Hlen.
  { induction l as [|x l IH]; simpl; [done|]. destruct (lop_synced x); simpl; lia. }
  rewrite !take_ge; [|etrans; [apply Hlen | done]..].
  rewrite !list_elem_of_In !filter_In -!list_elem_of_In !elem_of_oplog_sorted.
  setoid_rewrite mark_synced_lookup. split.
  - intros [(k & Hk) Hs]. destruct (oplog s !! k) as [l|] eqn:E; [|done]. cbn in Hk.
    case_decide; injection Hk as <-; [done|]. rewrite (Hkey k l E). by split; [split; [exists k|]|].
  - intros [[(k & Hk) Hs] Hn]. split; [|done]. exists k. rewrite Hk. cbn.
    rewrite (Hkey k lop Hk) in Hn. by rewrite ->decide_False.
Qed.

(** * Witnesses *)

(** Two devices: [demoA] creates a category and deletes another key; [demoB] is
    handed both operations in one batch, the later one first. *)
Definition demo_device (id : string) : App :=
  set_clock (Some (newClock id None)) (emptyApp (fun _ => 1000) (fun _ => "u")).
Definition demo_category : AnyEntity :=
  ACategory (mkCategory "c1" "Food" CExpense None "#fff" "tag" false 5 "").
Definition demoA1 : App := snd (put ECategories demo_category (demo_device "a")).
Definition demoA : App := snd (remove EAccounts "x" demoA1).
Definition demo_value : AnyEntity := set_updatedAt (encodeHlc (mkHlcState 1000 0) "a") demo_category.
Definition demo_op1 : Operation :=
  mkOp (encodeHlc (mkHlcState 1000 0) "a") ECategories "c1" Put (Some demo_value) "a".
Definition demo_op2 : Operation :=
  mkOp (encodeHlc (mkHlcState 1000 1) "a") EAccounts "x" Delete None "a".
Definition demoB1 : App := snd (observeStamps [op_hlc demo_op2] (demo_device "b")).
Definition demoB : App := snd (merge [demo_op2; demo_op1] demoB1).

Lemma NoDup_unique_stamps ops : NoDup (map op_hlc ops) -> unique_stamps ops.
Proof.
  intros Hnd a b Ha Hb Heq. apply list_elem_of_lookup in Ha as [i Hi], Hb as [j Hj].
  assert (i = j) as ->; [|by assert (a = b) as -> by congruence]. eapply NoDup_lookup; [exact Hnd| |].
  - by rewrite list_lookup_fmap Hi.
  - by rewrite list_lookup_fmap Hj Heq.
Qed.

Lemma demo_device_history d : no_dash d = true -> device_history (demo_device d) [].
Proof.
  intros Hd. apply dh_init with (newClock d None); try done; try (unfold hlc_ok; simpl; lia).
Qed.

Lemma demo_unique ops : bool_decide (NoDup (map op_hlc ops)) = true -> unique_stamps ops.
Proof. intros H. by apply NoDup_unique_stamps, (bool_decide_eq_true_1 _ H). Qed.

Lemma demoA1_history : device_history demoA1 [demo_op1].
Proof.
  refine (dh_put (demo_device "a") [] ECategories demo_category demo_value demoA1
            (demo_device_history "a" eq_refl) _). by vm_compute.
Qed.

Lemma demoA_history : device_history demoA [demo_op2; demo_op1].
Proof. refine (dh_remove demoA1 _ EAccounts "x" demoA demoA1_history _). by vm_compute. Qed.

Lemma demoB_history : device_history demoB [demo_op2; demo_op1].
Proof.
  refine (dh_receive (demo_device "b") [] [op_hlc demo_op2] [demo_op2; demo_op1] demoB1 demoB 2
            (demo_device_history "b" eq_refl) _ _ _ _ _); [by vm_compute..| | |].
  - repeat constructor; [exists (mkHlcState 1000 1), "a"|exists (mkHlcState 1000 0), "a"|by exists demo_value];
      by split_and!; try (unfold hlc_ok; simpl; lia).
  - repeat constructor. exists (mkHlcState 1000 1), "a". by split_and!; try (unfold hlc_ok; simpl; lia).
  - repeat constructor; exists (op_hlc demo_op2); (split; [constructor | by vm_compute]).
Qed.

Lemma devices_converge_witness : rows demoA = rows demoB /\ rows demoB !! (ECategories, "c1") = Some demo_value.
Proof.
  split; [|by vm_compute].
  apply (devices_converge demoA [demo_op2; demo_op1] demoB [demo_op2; demo_op1]);
    [apply demoA_history | apply demoB_history | | done].
  intros a b [->|[->|[->|[->|[]%not_elem_of_nil]%elem_of_cons]%elem_of_cons]%elem_of_cons]%elem_of_cons
    [->|[->|[->|[->|[]%not_elem_of_nil]%elem_of_cons]%elem_of_cons]%elem_of_cons]%elem_of_cons; done.
Defined.

Lemma device_refines_lww_witness : lww_rows [demo_op2; demo_op1] (rows demoB).
Proof. apply device_refines_lww; [apply demoB_history | by apply demo_unique]. Defined.

Lemma merge_idempotent_witness :
  exists s', merge [demo_op1] demoB = (Ok 0, s') /\ rows s' = rows demoB /\ oplog s' = oplog demoB.
Proof.
  apply (merge_idempotent demoB [demo_op2; demo_op1]); [apply demoB_history | by apply demo_unique | set_solver].
Defined.

Lemma put_records_the_write_witness :
  Forall (fun op => compareHlc (op_hlc op) (encodeHlc (mkHlcState 1000 3) "b") < 0) [demo_op2; demo_op1].
Proof.
  refine (proj2 (proj2 (proj2 (proj2
    (put_records_the_write demoB [demo_op2; demo_op1] ECategories demo_category
       (set_updatedAt (encodeHlc (mkHlcState 1000 3) "b") demo_category) _ _ _ _))))).
  - apply demoB_history.
  - by apply demo_unique.
  - by vm_compute.
Defined.

Lemma failed_write_changes_nothing_witness :
  rows (emptyApp (fun _ => 0) (fun _ => "")) = ∅ /\ clock (emptyApp (fun _ => 0) (fun _ => "")) = None.
Proof.
  destruct (failed_write_changes_nothing (emptyApp (fun _ => 0) (fun _ => "")) ECategories demo_category "x"
    (JsError "LedgerService.initialise() has not been called") _ (or_introl eq_refl)) as (H1 & _ & H2 & _).
  by split.
Defined.

Lemma hasHistory_remembers_witness : hasHistory EAccounts "x" demoB = true.
Proof.
  apply (hasHistory_remembers demoB [demo_op2; demo_op1]); [apply demoB_history | by apply demo_unique|].
  exists demo_op2. by split; [constructor|].
Defined.

Lemma markSynced_clears_queue_witness :
  ~ mkLocalOp demo_op1 false ∈ pendingOperations 10 (markSynced [op_hlc demo_op1] demoA1).
Proof.
  rewrite (markSynced_clears_queue demoA1 [op_hlc demo_op1] 10); [|by vm_compute; lia..|].
  - intros [_ H]. apply H. constructor.
  - intros k l Hl. destruct (device_inv _ _ demoA1_history) as (c & Hi & _); [by apply demo_unique|].
    by destruct (inv_log _ _ Hi k l Hl).
Defined.
