(* ===== verification/Fleet.v ===== *)
(** Several devices that replicate one ledger.  Each runs the ledger service of
    [Ledger]; what one of them wrote reaches another through some destination, in any
    grouping and any number of times.  No device is told the truth by the model: that
    stamps identify writes across devices is proved, from the distinct device ids. *)
From S2P Require Export Ledger.
#[local] Open Scope string_scope.
#[local] Open Scope Z_scope.

(** * Definitions *)

(** What a device does without writing or learning: observe stamps, restart, or
    touch neither its rows, its operations nor its clock. *)
Definition quiet (s s' : App) : Prop :=
  (exists heads r, observeStamps heads s = (r, s'))
  \/ initialise (device_of s) s = (Ok tt, s')
  \/ (rows s' = rows s /\ lop_op <$> oplog s' = lop_op <$> oplog s /\ clock s' = clock s
      /\ meta_clock s' = meta_clock s /\ nows s' = nows s).

(** A fresh installation of device [d]. *)
Definition fresh_device (d : string) (s : App) : Prop :=
  rows s = ∅ /\ oplog s = ∅ /\ clock s = Some (newClock d None) /\ meta_clock s = None
  /\ (forall n, 0 <= nows s n <= MAX_SAFE_INTEGER).

(** [op] repeats a write of [g], possibly under another relaying device. *)
Definition from (g : list Operation) (op : Operation) : Prop :=
  exists o, o ∈ g /\ op_hlc op = op_hlc o /\ same_write op o.

Definition upd {A} (f : string -> A) (d : string) (a : A) : string -> A :=
  fun d' => if String.eqb d' d then a else f d'.

(** The reachable states: each device's application, the operations it has authored
    or been handed, and all operations authored anywhere. *)
Inductive fleet (devices : list string) :
  (string -> App) -> (string -> list Operation) -> list Operation -> Prop :=
| fl_init : forall f, (forall d, d ∈ devices -> fresh_device d (f d)) -> fleet devices f (fun _ => []) []
| fl_put : forall f k g d e v v' s', fleet devices f k g -> d ∈ devices -> put e v (f d) = (Ok v', s') ->
    let op := mkOp (entity_updatedAt v') e (entity_id v') Put (Some v') (device_of (f d)) in
    fleet devices (upd f d s') (upd k d (op :: k d)) (op :: g)
| fl_remove : forall f k g d e id s', fleet devices f k g -> d ∈ devices -> remove e id (f d) = (Ok tt, s') ->
    let op := mkOp match clock s' with Some c => encodeHlc (clock_state c) (clock_device c) | None => "" end
                e id Delete None (device_of (f d)) in
    fleet devices (upd f d s') (upd k d (op :: k d)) (op :: g)
| fl_receive : forall f k g d heads ops s1 s2 n, fleet devices f k g -> d ∈ devices ->
    Forall (from g) ops -> Forall (fun head => exists o, o ∈ g /\ head = op_hlc o) heads ->
    Forall (fun op => exists head, head ∈ heads /\ compareHlc (op_hlc op) head <= 0) ops ->
    observeStamps heads (f d) = (Ok tt, s1) -> merge ops s1 = (Ok n, s2) ->
    fleet devices (upd f d s2) (upd k d (ops ++ k d)%list) g
| fl_quiet : forall f k g d s', fleet devices f k g -> d ∈ devices -> quiet (f d) s' ->
    fleet devices (upd f d s') k g
| fl_ext : forall f k g f' k', fleet devices f k g -> (forall d, f' d = f d) -> (forall d, k' d = k d) ->
    fleet devices f' k' g.

(** The writes [h] include those of [g]: all, or those of one row. *)
Definition knows (h g : list Operation) : Prop := forall op, op ∈ g -> exists o, o ∈ h /\ op_hlc o = op_hlc op.
Definition knows_row (e : EntityName) (id : string) (h g : list Operation) : Prop :=
  forall op, op ∈ g -> same_key e id op -> exists o, o ∈ h /\ op_hlc o = op_hlc op.

(** * Lemmas *)

Lemma same_write_sym a b : same_write a b -> same_write b a.
Proof. intros (?&?&?&?). by split_and!. Qed.
Lemma same_write_trans a b c : same_write a b -> same_write b c -> same_write a c.
Proof. intros (H1&H2&H3&H4) (?&?&?&?). split_and!; congruence. Qed.

Lemma from_unique g ops : unique_stamps g -> (forall op, op ∈ ops -> from g op) -> unique_stamps ops.
Proof.
  intros Hg Hops a b Ha Hb Hab. destruct (Hops a Ha) as (oa & Hoa & Ea & Sa), (Hops b Hb) as (ob & Hob & Eb & Sb).
  eapply same_write_trans; [exact Sa|]. eapply same_write_trans; [|by apply same_write_sym].
  apply Hg; [done|done|congruence].
Qed.

Lemma from_cons g o op : from g op -> from (o :: g) op.
Proof. intros (x & Hx & H). exists x. split; [by constructor|done]. Qed.

Lemma from_self g op : op ∈ g -> from g op.
Proof. intros H. exists op. split; [done|]. by split. Qed.

(** Lists that repeat each other's writes of a row have the same last write of it. *)
Lemma lww_repeated ops ops' e id v :
  (forall op, op ∈ ops -> same_key e id op -> from ops' op) -> (forall op, op ∈ ops' -> same_key e id op -> from ops op) ->
  (exists op, lww ops e id op /\ op_state op = Some v) -> exists op, lww ops' e id op /\ op_state op = Some v.
Proof.
  intros H1 H2 (op & (Hin & [He Hid] & Hmax) & Hst).
  destruct (H1 op Hin) as (o & Ho & Eh & (Se & Si & Sk & Sv)); [by split|]. exists o.
  split; [split_and!; [done|split; congruence|]|unfold op_state in *; by rewrite -Sk -Sv].
  intros o' Ho' Hk'. destruct (H2 o' Ho' Hk') as (x & Hx & Ex & (Te & Ti & _)).
  rewrite Ex -Eh. apply Hmax; [done|]. destruct Hk'. split; congruence.
Qed.

Lemma lww_rows_repeated ops ops' r :
  (forall op, op ∈ ops' -> from ops op) -> (forall op, op ∈ ops -> from ops' op) ->
  lww_rows ops r -> lww_rows ops' r.
Proof. intros H1 H2 Hr e id v. rewrite (Hr e id v). split; apply lww_repeated; auto. Qed.

(** The row is determined by its writes. *)
Lemma lww_row_determined ops ops' r r' e id :
  (forall op, op ∈ ops -> same_key e id op -> from ops' op) -> (forall op, op ∈ ops' -> same_key e id op -> from ops op) ->
  lww_rows ops r -> lww_rows ops' r' -> r !! (e, id) = r' !! (e, id).
Proof.
  intros H1 H2 Hr Hr'. apply option_eq. intros v. rewrite (Hr e id v) (Hr' e id v). split; by apply lww_repeated.
Qed.

(** ** The invariant of a fleet *)

Record fleet_inv (devices : list string) (f : string -> App) (k : string -> list Operation) (g : list Operation)
  : Prop := {
  fi_device : forall d, d ∈ devices -> device_history (f d) (k d) /\ exists c, clock (f d) = Some c /\ clock_device c = d;
  fi_known : forall d op, d ∈ devices -> op ∈ k d -> from g op;
  fi_author : forall op, op ∈ g -> exists d r, d ∈ devices /\ hlc_ok r /\ op_hlc op = encodeHlc r d /\ op ∈ k d;
  fi_stamped : forall op v, op ∈ g -> op_op op = Put -> op_value op = Some v -> entity_updatedAt v = op_hlc op;
  fi_unique : unique_stamps g }.

Section Invariant.
Context (devices : list string) (Hdash : forall d, d ∈ devices -> no_dash d = true).

Lemma upd_eq {A} (f : string -> A) d a : upd f d a d = a.
Proof. unfold upd. by rewrite String.eqb_refl. Qed.
Lemma upd_ne {A} (f : string -> A) d a d' : d' <> d -> upd f d a d' = f d'.
Proof. unfold upd. by intros H%String.eqb_neq; rewrite H. Qed.

Lemma encode_inj r d r' d' :
  hlc_ok r -> hlc_ok r' -> d ∈ devices -> d' ∈ devices -> encodeHlc r d = encodeHlc r' d' -> r = r' /\ d = d'.
Proof.
  intros Hr Hr' Hd Hd' E. pose proof (hlc_decode_encode r d Hr (Hdash d Hd)) as H.
  rewrite E hlc_decode_encode in H; [|done|by apply Hdash]. by injection H.
Qed.

(** A device's new operation joins the fleet's. *)
Lemma fleet_inv_local f k g d s' op r :
  fleet_inv devices f k g -> d ∈ devices ->
  device_history s' (op :: k d) -> (exists c, clock s' = Some c /\ clock_device c = d) ->
  hlc_ok r -> op_hlc op = encodeHlc r d ->
  (forall v, op_op op = Put -> op_value op = Some v -> entity_updatedAt v = op_hlc op) ->
  (forall o, o ∈ k d -> compareHlc (op_hlc o) (op_hlc op) < 0) ->
  fleet_inv devices (upd f d s') (upd k d (op :: k d)) (op :: g).
Proof.
  intros [Hdev Hkn Hau Hst Hun] Hd Hh Hc Hr Hs Hsv Hnew. split.
  - intros d' Hd'. destruct (decide (d' = d)) as [->|Hne]; [by rewrite !upd_eq|]. rewrite !upd_ne //. by apply Hdev.
  - intros d' o Hd' Ho. destruct (decide (d' = d)) as [->|Hne].
    + rewrite upd_eq in Ho. apply elem_of_cons in Ho as [->|Ho]; [by apply from_self; constructor|].
      by apply from_cons, (Hkn d).
    + rewrite upd_ne // in Ho. by apply from_cons, (Hkn d').
  - intros o [->|Ho]%elem_of_cons.
    + exists d, r. rewrite upd_eq. split_and!; [done..|constructor].
    + destruct (Hau o Ho) as (d' & r' & Hd' & Hr' & E & Hin). exists d', r'. split_and!; [done..|].
      destruct (decide (d' = d)) as [->|Hne]; [rewrite upd_eq; by constructor|by rewrite upd_ne].
  - intros o v [->|Ho]%elem_of_cons; [by apply Hsv | by apply Hst].
  - assert (forall o, o ∈ g -> op_hlc o <> op_hlc op) as Hdiff.
    { intros o Ho E. destruct (Hau o Ho) as (d' & r' & Hd' & Hr' & Eo & Hin).
      assert (d' = d) as ->.
      { rewrite Eo Hs in E. by apply encode_inj in E as [_ ->]. }
      specialize (Hnew o Hin). rewrite E in Hnew. by apply (cmp_lt_irrefl (op_hlc op)). }
    intros a b [->|Ha]%elem_of_cons [->|Hb]%elem_of_cons Hab; [done| | |by apply Hun].
    + by destruct (Hdiff b Hb).
    + by destruct (Hdiff a Ha).
Qed.

Lemma fleet_inv_known f k g d : fleet_inv devices f k g -> d ∈ devices -> unique_stamps (k d).
Proof. intros [_ Hkn _ _ Hun] Hd. apply (from_unique g); [done|]. intros op. by apply Hkn. Qed.

(** A device that wrote nothing new. *)
Lemma fleet_inv_learn f k g d s' ops :
  fleet_inv devices f k g -> d ∈ devices -> device_history s' (ops ++ k d)%list ->
  (exists c, clock s' = Some c /\ clock_device c = d) -> Forall (from g) ops ->
  fleet_inv devices (upd f d s') (upd k d (ops ++ k d)%list) g.
Proof.
  intros [Hdev Hkn Hau Hst Hun] Hd Hh Hc Hops. split; [| | |done|done].
  - intros d' Hd'. destruct (decide (d' = d)) as [->|Hne]; [by rewrite !upd_eq|]. rewrite !upd_ne //. by apply Hdev.
  - intros d' o Hd'. destruct (decide (d' = d)) as [->|Hne].
    + rewrite upd_eq. rewrite ->Forall_forall in Hops. intros [Ho|Ho]%elem_of_app; [by apply Hops|by apply (Hkn d)].
    + rewrite upd_ne //. by apply Hkn.
  - intros o Ho. destruct (Hau o Ho) as (d' & r' & Hd' & Hr' & E & Hin). exists d', r'. split_and!; [done..|].
    destruct (decide (d' = d)) as [->|Hne]; [rewrite upd_eq; set_solver|by rewrite upd_ne].
Qed.

Lemma fleet_inv_ext f f' k k' g :
  (forall d, f' d = f d) -> (forall d, k' d = k d) -> fleet_inv devices f k g -> fleet_inv devices f' k' g.
Proof.
  intros Hf Hk [Hdev Hkn Hau Hun]. split; [intros d; rewrite Hf Hk; apply Hdev|intros d op; rewrite Hk; apply Hkn| |done|done].
  intros op Hop. destruct (Hau op Hop) as (d & r & ?). exists d, r. by rewrite Hk.
Qed.

Lemma fleet_invariant f k g : fleet devices f k g -> fleet_inv devices f k g.
Proof.
  induction 1 as [f Hf|f k g d e v v' s' _ IH Hd E op|f k g d e id s' _ IH Hd E op
    |f k g d heads ops s1 s2 n _ IH Hd Hops Hheads Hbound E1 E2|f k g d s' _ IH Hd Hq|f k g f' k' _ IH Ef Ek];
    [..|by apply (fleet_inv_ext f f' k k')].
  - split; [|set_solver|set_solver|set_solver|intros a b ?; set_solver]. intros d Hd. destruct (Hf d Hd) as (Hr & Ho & Hc & Hm & Hn).
    split; [|by eexists]. eapply dh_init; [done|done|exact Hc|done|unfold hlc_ok, MAX_SAFE_INTEGER, MAX_COUNTER; cbn; lia|by apply Hdash|done].
  - pose proof (fleet_inv_known _ _ _ _ IH Hd) as Hu. destruct (fi_device _ _ _ _ IH d Hd) as [Hh (c0 & Hc0 & Hdc)].
    destruct (device_inv _ _ Hh Hu) as (c & Hi & Hc).
    destruct (put_Ok _ _ _ _ _ _ _ Hc E) as (c' & s1 & Hc' & Hlt & Hdd & Hv & Hr & Ho & Hs').
    assert (c = c0) as <- by (pose proof (ci_clock _ _ _ Hc); congruence).
    assert (op_hlc op = encodeHlc (clock_state c') d) as Hst.
    { unfold op. cbn. by rewrite Hv entity_updatedAt_set Hdc. }
    apply (fleet_inv_local f k g d s' op (clock_state c')); [done|done|by eapply dh_put| |apply (ci_ok _ _ _ Hc')|done|by intros w _ [= <-]|].
    + exists c'. rewrite Hs'. destruct (persistClock_same (apply_op false (mkOp (encodeHlc (clock_state c') (clock_device c)) e
              (entity_id v') Put (Some v') (clock_device c)) s1)) as (_ & _ & -> & _).
      rewrite (proj1 (clock_apply_op _ _ _)) (ci_clock _ _ _ Hc') Hdd. by subst.
    + intros o Hin. rewrite Hst -Hdc. apply (ci_covered _ _ _ Hc o Hin); [apply (ci_ok _ _ _ Hc')|done].
  - pose proof (fleet_inv_known _ _ _ _ IH Hd) as Hu. destruct (fi_device _ _ _ _ IH d Hd) as [Hh (c0 & Hc0 & Hdc)].
    destruct (device_inv _ _ Hh Hu) as (c & Hi & Hc).
    destruct (remove_Ok _ _ _ _ _ _ Hc E) as (c' & s1 & Hc' & Hlt & Hdd & Hr & Ho & Hs').
    assert (c = c0) as <- by (pose proof (ci_clock _ _ _ Hc); congruence).
    assert (clock s' = Some c') as Hcs'.
    { rewrite Hs'. destruct (persistClock_same (apply_op false
        (mkOp (encodeHlc (clock_state c') (clock_device c)) e id Delete None (clock_device c)) s1)) as (_ & _ & -> & _).
      by rewrite (proj1 (clock_apply_op _ _ _)) (ci_clock _ _ _ Hc'). }
    assert (op_hlc op = encodeHlc (clock_state c') d) as Hst.
    { unfold op. cbn. rewrite Hcs'. by rewrite Hdd Hdc. }
    apply (fleet_inv_local f k g d s' op (clock_state c')); [done|done|by eapply dh_remove| |apply (ci_ok _ _ _ Hc')|done|done|].
    + exists c'. split; [done|]. by rewrite Hdd.
    + intros o Hin. rewrite Hst -Hdc. apply (ci_covered _ _ _ Hc o Hin); [apply (ci_ok _ _ _ Hc')|done].
  - destruct (fi_device _ _ _ _ IH d Hd) as [Hh (c & Hc & Hdc)].
    assert (forall o, o ∈ g -> op_wf o /\ exists r d, hlc_ok r /\ no_dash d = true /\ op_hlc o = encodeHlc r d) as Hwf.
    { intros o Ho. destruct (fi_author _ _ _ _ IH o Ho) as (d' & r & Hd' & Hr & Eh & Hin).
      pose proof (fleet_inv_known _ _ _ _ IH Hd') as Hu. destruct (fi_device _ _ _ _ IH d' Hd') as [Hh' _].
      destruct (device_inv _ _ Hh' Hu) as (c' & [Hw _ _ _] & _). rewrite ->Forall_forall in Hw.
      split; [by apply Hw|]. exists r, d'. by split_and!; [|apply Hdash|]. }
    apply fleet_inv_learn; [done|done| | |done].
    + eapply dh_receive; [exact Hh|exact E1|exact E2| | |done].
      * eapply Forall_impl; [exact Hops|]. intros op (o & Ho & Eh & (Se & Si & Sk & Sv)).
        destruct (Hwf o Ho) as [[Hst Hst'] _]. split; [by rewrite Eh|]. by rewrite Sk Sv Si.
      * eapply Forall_impl; [exact Hheads|]. intros hd (o & Ho & ->). by apply Hwf.
    + destruct (merge_clock _ _ _ _ E2) as [-> _].
      pose proof (fleet_inv_known _ _ _ _ IH Hd) as Hu. destruct (device_inv _ _ Hh Hu) as (c1 & _ & Hci).
      destruct (observe_any _ _ _ _ _ _ Hci E1) as (c2 & Hc2 & Hd2 & _ & _). exists c2.
      split; [apply (ci_clock _ _ _ Hc2)|]. pose proof (ci_clock _ _ _ Hci). congruence.
  - destruct (fi_device _ _ _ _ IH d Hd) as [Hh (c & Hc & Hdc)].
    assert (forall d', k d' = upd k d ([] ++ k d)%list d') as Hsame
      by (intros d'; unfold upd; by destruct (String.eqb_spec d' d) as [->|]).
    apply (fleet_inv_ext (upd f d s') _ (upd k d ([] ++ k d)%list)); [done|exact Hsame|].
    apply fleet_inv_learn; [done|done| | |done].
    + cbn [app]. destruct Hq as [(heads & r & Eq)|[Eq|(Q1 & Q2 & Q3 & Q4 & Q5)]];
        [by eapply dh_observe|by eapply dh_restart|by eapply dh_idle].
    + pose proof (fleet_inv_known _ _ _ _ IH Hd) as Hu. destruct (device_inv _ _ Hh Hu) as (c1 & _ & Hci).
      destruct Hq as [(heads & r & Eq)|[Eq|(Q1 & Q2 & Q3 & Q4 & Q5)]].
      * destruct (observe_any _ _ _ _ _ _ Hci Eq) as (c2 & Hc2 & Hd2 & _ & _). exists c2.
        split; [apply (ci_clock _ _ _ Hc2)|]. pose proof (ci_clock _ _ _ Hci). congruence.
      * unfold initialise in Eq. injection Eq as <-. eexists. split; [done|]. unfold device_of. by rewrite Hc.
      * exists c. by rewrite Q3.
Qed.

(** The tables of a device are the last writes of what it has heard. *)
Lemma device_lww f k g d : fleet devices f k g -> d ∈ devices -> lww_rows (k d) (rows (f d)).
Proof.
  intros Hinv%fleet_invariant Hd. pose proof (fleet_inv_known f k g d Hinv Hd) as Hu.
  destruct (fi_device _ _ _ _ Hinv d Hd) as [Hh _]. destruct (device_inv _ _ Hh Hu) as (c & Hi & _). by apply inv_lww.
Qed.

(** What two devices heard under one stamp is one write. *)
Lemma fleet_repeats f k g d1 d2 op : fleet devices f k g -> d1 ∈ devices -> d2 ∈ devices -> op ∈ k d1 ->
  (exists o, o ∈ k d2 /\ op_hlc o = op_hlc op) -> from (k d2) op.
Proof.
  intros Hinv%fleet_invariant Hd1 Hd2 Hop (o & Ho & E). exists o. split_and!; [done..|].
  destruct (fi_known _ _ _ _ Hinv d1 op Hd1 Hop) as (x & Hx & Ex & Sx), (fi_known _ _ _ _ Hinv d2 o Hd2 Ho) as (y & Hy & Ey & Sy).
  eapply same_write_trans; [exact Sx|]. eapply same_write_trans; [|by apply same_write_sym].
  apply (fi_unique _ _ _ _ Hinv); [done|done|congruence].
Qed.
End Invariant.

(** * Properties *)

(** C9: Stamps never collide across a fleet: with distinct device ids free of dashes, in
    every reachable state two operations with the same stamp are the same write, and
    every device's tables are the last writes of what it has heard. *)
Theorem fleet_stamps_unique devices f k g :
  (forall d, d ∈ devices -> no_dash d = true) -> fleet devices f k g ->
  unique_stamps g /\ forall d, d ∈ devices -> lww_rows (k d) (rows (f d)).
Proof.
  intros Hdash Hf. pose proof (fleet_invariant devices Hdash f k g Hf) as Hinv. split; [by destruct Hinv|].
  intros d Hd. by eapply device_lww.
Qed.

(** C4: A fleet converges row by row.  Two devices that have heard of the same writes of a
    row, in whatever order, grouping and repetition, hold the same in it; devices that have
    heard of the same operations therefore hold the same ledger, and once these are all the
    operations of the fleet, it is the last write of every row. *)
Theorem fleet_converges devices f k g d1 d2 :
  (forall d, d ∈ devices -> no_dash d = true) -> fleet devices f k g -> d1 ∈ devices -> d2 ∈ devices ->
  (forall e id, knows_row e id (k d1) (k d2) -> knows_row e id (k d2) (k d1) -> rows (f d1) !! (e, id) = rows (f d2) !! (e, id))
  /\ (knows (k d1) (k d2) -> knows (k d2) (k d1) -> rows (f d1) = rows (f d2) /\ lww_rows (k d2) (rows (f d1)))
  /\ (knows (k d1) g -> lww_rows g (rows (f d1))).
Proof.
  intros Hdash Hf Hd1 Hd2. pose proof (fleet_invariant devices Hdash f k g Hf) as Hinv.
  assert (forall e id, knows_row e id (k d1) (k d2) -> knows_row e id (k d2) (k d1) -> rows (f d1) !! (e, id) = rows (f d2) !! (e, id)) as H.
  { intros e id K1 K2. eapply (lww_row_determined (k d1) (k d2)); [| |by eapply device_lww..].
    - intros op Hop Hk. by eapply (fleet_repeats devices Hdash f k g d1 d2); [..|by apply K2].
    - intros op Hop Hk. by eapply (fleet_repeats devices Hdash f k g d2 d1); [..|by apply K1]. }
  split_and!; [exact H| |].
  - intros K1 K2. assert (rows (f d1) = rows (f d2)) as E.
    { apply map_eq. intros [e id]. apply H; intros op Hop _; [by apply K1|by apply K2]. }
    split; [done|]. rewrite E. by eapply device_lww.
  - intros K1. apply (lww_rows_repeated (k d1)); [|intros op; by apply (fi_known _ _ _ _ Hinv)|by eapply device_lww].
    intros op Hop. destruct (K1 op Hop) as (o & Ho & E). exists o. split_and!; [done..|].
    destruct (fi_known _ _ _ _ Hinv d1 o Hd1 Ho) as (x & Hx & Ex & Sx).
    eapply same_write_trans; [|by apply same_write_sym]. apply (fi_unique _ _ _ _ Hinv); [done|done|congruence].
Qed.

(** * Witnesses *)

(** Device "a" writes twice, device "b" receives both operations in one batch. *)
Definition demo_ids : list string := ["a"; "b"].
Definition demo_f : string -> App :=
  upd (upd (upd demo_device "a" demoA1) "a" demoA) "b" demoB.
Definition demo_k : string -> list Operation :=
  upd (upd (upd (fun _ => []) "a" [demo_op1]) "a" [demo_op2; demo_op1]) "b" [demo_op2; demo_op1].

Lemma demo_ids_dash d : d ∈ demo_ids -> no_dash d = true.
Proof. unfold demo_ids. rewrite !elem_of_cons. intros [->|[->|H]]; [done|done|set_solver]. Qed.

Definition demo_category3 : AnyEntity := ACategory (mkCategory "c3" "Rent" CExpense None "#000" "home" false 6 "").
Definition demoA3 : App := snd (put ECategories demo_category3 demoA).
Definition demo_value3 : AnyEntity := match fst (put ECategories demo_category3 demoA) with Ok v => v | Throw _ => demo_category3 end.
Definition demo_op3 : Operation := mkOp (entity_updatedAt demo_value3) ECategories "c3" Put (Some demo_value3) "a".

Lemma demo_fleet : fleet demo_ids demo_f demo_k [demo_op2; demo_op1].
Proof.
  assert (fleet demo_ids demo_device (fun _ => []) []) as H0.
  { apply fl_init. intros d _. split_and!; try done. }
  assert (fleet demo_ids (upd demo_device "a" demoA1) (upd (fun _ => []) "a" [demo_op1]) [demo_op1]) as H1.
  { refine (fl_put _ _ _ _ "a" ECategories demo_category demo_value demoA1 H0 _ _); [set_solver|by vm_compute]. }
  assert (fleet demo_ids (upd (upd demo_device "a" demoA1) "a" demoA)
            (upd (upd (fun _ => []) "a" [demo_op1]) "a" [demo_op2; demo_op1]) [demo_op2; demo_op1]) as H2.
  { refine (fl_remove _ _ _ _ "a" EAccounts "x" demoA H1 _ _); [set_solver|by vm_compute]. }
  refine (fl_receive _ _ _ _ "b" [op_hlc demo_op2] [demo_op2; demo_op1] demoB1 demoB 2 H2 _ _ _ _ _ _);
    [set_solver| | | |by vm_compute|by vm_compute].
  - repeat constructor; apply from_self; set_solver.
  - repeat constructor. exists demo_op2. split; [set_solver|done].
  - repeat constructor; exists (op_hlc demo_op2); (split; [constructor | by vm_compute]).
Qed.

Lemma fleet_stamps_unique_witness : unique_stamps [demo_op2; demo_op1].
Proof. exact (proj1 (fleet_stamps_unique demo_ids demo_f demo_k _ demo_ids_dash demo_fleet)). Defined.

(** Device "a" then writes once more, of which "b" has not heard: they still agree on what
    both have heard of. *)
Definition demo_ahead : list Operation := demo_op3 :: [demo_op2; demo_op1].
Definition demo_f3 : string -> App := upd demo_f "a" demoA3.
Definition demo_k3 : string -> list Operation := upd demo_k "a" demo_ahead.

Lemma demo_fleet3 : fleet demo_ids demo_f3 demo_k3 demo_ahead.
Proof. refine (fl_put _ _ _ _ "a" ECategories demo_category3 demo_value3 demoA3 demo_fleet _ _); [set_solver|by vm_compute]. Qed.

Lemma fleet_converges_witness :
  rows (demo_f3 "a") !! (ECategories, "c1") = rows (demo_f3 "b") !! (ECategories, "c1") /\ rows (demo_f "a") = rows (demo_f "b").
Proof.
  split.
  - apply (proj1 (fleet_converges demo_ids demo_f3 demo_k3 demo_ahead "a" "b" demo_ids_dash demo_fleet3 ltac:(set_solver) ltac:(set_solver))).
    + intros op Hop _. exists op. split; [|done]. change (op ∈ demo_ahead). right. exact Hop.
    + intros op Hop [_ Hid]. change (op ∈ demo_ahead) in Hop. apply elem_of_cons in Hop as [->|Hop]; [discriminate Hid|].
      by exists op.
  - apply (proj1 (proj2 (fleet_converges demo_ids demo_f demo_k [demo_op2; demo_op1] "a" "b" demo_ids_dash demo_fleet
      ltac:(set_solver) ltac:(set_solver)))); intros op Hop; by exists op.
Defined.
