(* ===== verification/Sealing.v ===== *)
(** What the sync engine asks of the cryptography
    ([CryptoService.sealJson] and [openJson], [app/src/app/core/crypto/crypto.service.ts]):
    the interface their theorems are proved against. *)
From S2P Require Export Domain.
#[local] Open Scope string_scope.
#[local] Open Scope Z_scope.

(** * Definitions *)

(** Metadata a destination may see (the fields [v], [d], [h], [t]). *)
Record EnvelopeHeader : Type := mkHeader { hdr_v : string; hdr_d : string; hdr_h : string; hdr_t : string }.

(** The values the engine seals, and any other value an opened object may hold. *)
Inductive Payload : Type :=
| PBatch (batch : OperationBatch)
| PSnapshot (snapshot : LedgerSnapshot)
| POther (text : string).

(** [sealJson] draws a fresh initialisation vector, here the [n]th of the host's
    random source; what it sealed, [openJson] returns under the same key. *)
Class Sealing (Key Bytes : Type) : Type := {
  sealJson : Key -> nat -> EnvelopeHeader -> Payload -> result Bytes;
  openJson : Key -> Bytes -> result (EnvelopeHeader * Payload);
  openJson_sealJson : forall k n h v b, sealJson k n h v = Ok b -> openJson k b = Ok (h, v) }.

(** What the engine reads of the vault service. *)
Record VaultSession (Key : Type) : Type := mkSession {
  vs_unlocked : bool; vs_key : option Key; vs_vaultId : option string; vs_deviceId : option string }.
Arguments vs_unlocked {Key}.
Arguments vs_key {Key}.
Arguments vs_vaultId {Key}.
Arguments vs_deviceId {Key}.
Arguments mkSession {Key}.

Definition requireKey {Key} (vault : VaultSession Key) : result Key :=
  match vs_key vault with Some key => Ok key | None => Throw VaultLockedError end.
Definition requireVaultId {Key} (vault : VaultSession Key) : result string :=
  match vs_vaultId vault with
  | Some id => if truthy id then Ok id else Throw (JsError "No vault on this device")
  | None => Throw (JsError "No vault on this device")
  end.
Definition requireDeviceId {Key} (vault : VaultSession Key) : result string :=
  match vs_deviceId vault with
  | Some id => if truthy id then Ok id else Throw (JsError "Device identity not initialised")
  | None => Throw (JsError "Device identity not initialised")
  end.

(** An unsealed exchange, the least implementation of the interface. *)
#[program] Definition plain_sealing : Sealing unit (EnvelopeHeader * Payload) :=
  {| sealJson _ _ h v := Ok (h, v); openJson _ b := Ok b |}.
Next Obligation. by intros ? ? ? ? ? [= <-]. Qed.
