(* ===== verification/Envelope.v ===== *)
(** The container of every sealed object ([app/src/app/core/crypto/envelope.ts]), with
    the text codecs under it: UTF-8 and base64.  A byte is an integer below 256. *)
From S2P Require Export Json Sealing.
#[local] Open Scope string_scope.
#[local] Open Scope Z_scope.

(** * Definitions *)

Notation bytes := (list Z).
Definition is_byte (b : Z) : bool := (0 <=? b) && (b <? 256).
Definition all_bytes (l : bytes) : Prop := Forall (fun b => is_byte b = true) l.

(** ** TextEncoder and TextDecoder *)

(** UTF-8 of a string of code units below 256: one byte, or two from 128 on. *)
Definition utf8_char (c : ascii) : bytes :=
  if code c <? 128 then [code c] else [192 + code c / 64; 128 + code c mod 64].
Fixpoint encode_text (s : string) : bytes :=
  match s with "" => [] | String c s' => (utf8_char c ++ encode_text s')%list end.

Fixpoint decode_text (l : bytes) : result string :=
  match l with
  | [] => Ok ""
  | b :: rest =>
      if b <? 128 then s ← decode_text rest; mret (String (chr b) s)
      else match rest with
           | b2 :: rest' =>
               if (194 <=? b) && (b <? 196) && (128 <=? b2) && (b2 <? 192)
               then s ← decode_text rest'; mret (String (chr ((b - 192) * 64 + (b2 - 128))) s)
               else Throw (OutsideModel "a code point past 255")
           | [] => Throw (OutsideModel "a code point past 255")
           end
  end.

(** ** Base64, as [btoa] and [atob] have it *)

Definition base64_alphabet : string := "ABCDEFGHIJKLMNOPQRSTUVWXYZabcdefghijklmnopqrstuvwxyz0123456789+/".
Definition sextet_char (n : Z) : ascii := default "A"%char (char_at base64_alphabet (Z.to_nat n)).
Definition char_sextet (c : ascii) : option Z :=
  let n := code c in
  if is_upper c then Some (n - 65) else if is_lower c then Some (n - 71) else if is_digit c then Some (n + 4)
  else if Ascii.eqb c "+" then Some 62 else if Ascii.eqb c "/" then Some 63 else None.

Fixpoint toBase64 (l : bytes) : string :=
  match l with
  | [] => ""
  | [a] => String (sextet_char (a / 4)) (String (sextet_char (a mod 4 * 16)) "==")
  | [a; b] =>
      String (sextet_char (a / 4)) (String (sextet_char (a mod 4 * 16 + b / 16)) (String (sextet_char (b mod 16 * 4)) "="))
  | a :: b :: c :: rest =>
      String (sextet_char (a / 4)) (String (sextet_char (a mod 4 * 16 + b / 16))
        (String (sextet_char (b mod 16 * 4 + c / 64)) (String (sextet_char (c mod 64)) (toBase64 rest))))
  end.

Definition bad_base64 {A} : result A := Throw (JsError "The string to be decoded is not correctly encoded.").

(** Groups of four characters, the last one shortened by its padding. *)
Fixpoint decode_groups (s : string) : result bytes :=
  match s with
  | "" => Ok []
  | String a (String b "") =>
      match char_sextet a, char_sextet b with
      | Some x, Some y => Ok [x * 4 + y / 16]
      | _, _ => bad_base64
      end
  | String a (String b (String c "")) =>
      match char_sextet a, char_sextet b, char_sextet c with
      | Some x, Some y, Some z => Ok [x * 4 + y / 16; y mod 16 * 16 + z / 4]
      | _, _, _ => bad_base64
      end
  | String a (String b (String c (String d rest))) =>
      match char_sextet a, char_sextet b, char_sextet c, char_sextet d with
      | Some x, Some y, Some z, Some w =>
          more ← decode_groups rest;
          mret (x * 4 + y / 16 :: y mod 16 * 16 + z / 4 :: z mod 4 * 64 + w :: more)
      | _, _, _, _ => bad_base64
      end
  | _ => bad_base64
  end.

(** [atob] drops white space, then up to two padding signs of a text whose length is a multiple of four. *)
Definition is_atob_ws (c : ascii) : bool :=
  Ascii.eqb c " " || Ascii.eqb c "009" || Ascii.eqb c "010" || Ascii.eqb c "012" || Ascii.eqb c "013".
Definition drop_equals (s : string) : string :=
  match s with String c rest => if Ascii.eqb c "=" then rest else s | "" => "" end.
Definition strip_padding (s : string) : string :=
  if (String.length s mod 4 =? 0)%nat then str_rev (drop_equals (drop_equals (str_rev s ""))) "" else s.
Definition fromBase64 (value : string) : result bytes :=
  decode_groups (strip_padding (str_filter (fun c => negb (is_atob_ws c)) value)).

(** ** envelope.ts *)

Definition ENVELOPE_MAGIC : bytes := [69; 68; 67; 75].
Definition ENVELOPE_VERSION : Z := 1.
Definition ALG_AES_256_GCM : Z := 1.
Definition IV_LENGTH : nat := 12.
Definition HEADER_OFFSET : nat := 20.

(** A header as the object literals of the callers build it. *)
Definition header_json (h : EnvelopeHeader) : json :=
  JObj [("v", JStr (hdr_v h)); ("d", JStr (hdr_d h)); ("h", JStr (hdr_h h)); ("t", JStr (hdr_t h))].

(** What the parser hands out: the header is whatever JSON the bytes hold. *)
Record ParsedEnvelope : Type := mkParsed { pe_header : json; pe_iv : bytes; pe_payload : bytes; pe_aad : bytes }.

(** [setUint16] and [getUint16], big-endian. *)
Definition uint16 (n : Z) : bytes := [n / 256 mod 256; n mod 256].
Definition byte_at (l : bytes) (i : nat) : Z := nth i l 0.
Definition getUint16 (l : bytes) (i : nat) : Z := byte_at l i * 256 + byte_at l (S i).

Definition serialiseEnvelope (header : json) (iv payload : bytes) : result bytes :=
  if negb (length iv =? IV_LENGTH)%nat then
    Throw (EnvelopeFormatError ("IV must be 12 bytes, got " ++ num_to_string (Z.of_nat (length iv))))
  else
    text ← stringify header;
    let headerBytes := encode_text text in
    if 65535 <? Z.of_nat (length headerBytes) then Throw (EnvelopeFormatError "Envelope header exceeds 64 KiB")
    else Ok (ENVELOPE_MAGIC ++ [ENVELOPE_VERSION; ALG_AES_256_GCM] ++ uint16 (Z.of_nat (length headerBytes)) ++ iv
               ++ headerBytes ++ payload)%list.

Definition slice {A} (l : list A) (from upto : nat) : list A := take (upto - from) (drop from l).

Definition parseEnvelope (bs : bytes) : result ParsedEnvelope :=
  if (length bs <? HEADER_OFFSET)%nat then Throw (EnvelopeFormatError "Envelope truncated before header")
  else if negb (bool_decide (take (length ENVELOPE_MAGIC) bs = ENVELOPE_MAGIC)) then
    Throw (EnvelopeFormatError "Not an Easy Docket envelope")
  else if negb (byte_at bs 4 =? ENVELOPE_VERSION) then
    Throw (EnvelopeFormatError ("Unsupported envelope version " ++ num_to_string (byte_at bs 4)))
  else if negb (byte_at bs 5 =? ALG_AES_256_GCM) then
    Throw (EnvelopeFormatError ("Unsupported algorithm " ++ num_to_string (byte_at bs 5)))
  else
    let payloadStart := (HEADER_OFFSET + Z.to_nat (getUint16 bs 6))%nat in
    if (length bs <? payloadStart)%nat then Throw (EnvelopeFormatError "Envelope truncated inside header")
    else
      let iv := slice bs 8 (8 + IV_LENGTH) in
      let aad := slice bs HEADER_OFFSET payloadStart in
      match (text ← decode_text aad; parse text) with
      | Ok header => Ok (mkParsed header iv (drop payloadStart bs) aad)
      | Throw (OutsideModel why) => Throw (OutsideModel why)
      | Throw _ => Throw (EnvelopeFormatError "Envelope header is not valid JSON")
      end.

(** * Lemmas *)

(** ** Text *)

Lemma code_range c : 0 <= code c < 256.
Proof. unfold code. pose proof (N_ascii_bounded c). lia. Qed.

Lemma utf8_char_decode c l : decode_text (utf8_char c ++ l) = (s ← decode_text l; mret (String c s)).
Proof.
  pose proof (code_range c) as Hc. unfold utf8_char. destruct (Z.ltb_spec (code c) 128) as [Hlt|Hge].
  - cbn. by rewrite (proj2 (Z.ltb_lt _ _) Hlt) chr_code.
  - assert (2 <= code c / 64 <= 3) by div_lia. pose proof (Z.mod_pos_bound (code c) 64 ltac:(done)).
    cbn [app decode_text]. rewrite (proj2 (Z.ltb_ge _ _)); [|lia].
    assert ((194 <=? 192 + code c / 64) && (192 + code c / 64 <? 196) && (128 <=? 128 + code c mod 64) && (128 + code c mod 64 <? 192) = true)
      as -> by lia.
    replace ((192 + code c / 64 - 192) * 64 + (128 + code c mod 64 - 128)) with (code c) by div_lia. by rewrite chr_code.
Qed.

Lemma decode_encode_text s : decode_text (encode_text s) = Ok s.
Proof. induction s as [|c s IH]; [done|]. cbn [encode_text]. by rewrite utf8_char_decode IH. Qed.

Lemma encode_text_bytes s : all_bytes (encode_text s).
Proof.
  induction s as [|c s IH]; [constructor|]. apply Forall_app. split; [|done]. pose proof (code_range c). unfold utf8_char, is_byte.
  assert (0 <= code c / 64 <= 3) by div_lia. pose proof (Z.mod_pos_bound (code c) 64 ltac:(done)).
  destruct (Z.ltb_spec (code c) 128); repeat constructor; lia.
Qed.

(** ** Base64 *)

Definition plain_char (c : ascii) : bool := negb (Ascii.eqb c "=") && negb (is_ws c).

Lemma not_ws_atob c : is_ws c = false -> is_atob_ws c = false.
Proof. destruct c as [[] [] [] [] [] [] [] []]; first [done|by vm_compute]. Qed.

Lemma sextet_spec n : 0 <= n < 64 -> char_sextet (sextet_char n) = Some n /\ plain_char (sextet_char n) = true.
Proof.
  intros Hn. assert (forallb (fun n => bool_decide (char_sextet (sextet_char n) = Some n) && plain_char (sextet_char n)) (seqZ 0 64) = true)
    as H by (vm_compute; reflexivity).
  assert (n ∈ seqZ 0 64) as Hin by (apply elem_of_seqZ; lia).
  rewrite ->forallb_forall in H. apply list_elem_of_In, H in Hin. clear H. rename Hin into H. apply andb_prop in H as [H%bool_decide_eq_true_1 H']. by split.
Qed.

(** The text without its padding. *)
Fixpoint unpadded (l : bytes) : string :=
  match l with
  | [] => ""
  | [a] => String (sextet_char (a / 4)) (String (sextet_char (a mod 4 * 16)) "")
  | [a; b] =>
      String (sextet_char (a / 4)) (String (sextet_char (a mod 4 * 16 + b / 16)) (String (sextet_char (b mod 16 * 4)) ""))
  | a :: b :: c :: rest =>
      String (sextet_char (a / 4)) (String (sextet_char (a mod 4 * 16 + b / 16))
        (String (sextet_char (b mod 16 * 4 + c / 64)) (String (sextet_char (c mod 64)) (unpadded rest))))
  end.

Fixpoint padding (l : bytes) : string :=
  match l with [] => "" | [_] => "==" | [_; _] => "=" | _ :: _ :: _ :: rest => padding rest end.

Section By_three.
Context (P : bytes -> Prop) (H0 : P []) (H1 : forall a, P [a]) (H2 : forall a b, P [a; b]).
Context (H3 : forall a b c rest, P rest -> P (a :: b :: c :: rest)).
Fixpoint by_three (l : bytes) : P l :=
  match l with [] => H0 | [a] => H1 a | [a; b] => H2 a b | a :: b :: c :: rest => H3 a b c rest (by_three rest) end.
End By_three.

Ltac sextets := repeat match goal with
  | |- context [char_sextet (sextet_char ?n)] => rewrite (proj1 (sextet_spec n ltac:(div_lia)))
  | |- context [plain_char (sextet_char ?n)] => rewrite (proj2 (sextet_spec n ltac:(div_lia)))
  end.
Ltac byte_hyps := repeat match goal with H : Forall _ (_ :: _) |- _ => apply Forall_cons in H as [?%andb_prop H] end;
  rewrite ->?Z.leb_le, ?Z.ltb_lt in *.

Lemma toBase64_unpadded l : toBase64 l = unpadded l ++ padding l.
Proof. induction l as [| | |a b c l IH] using by_three; [done..|]. cbn [toBase64 unpadded padding append]. by rewrite IH. Qed.

Lemma decode_unpadded l : all_bytes l -> decode_groups (unpadded l) = Ok l.
Proof.
  unfold all_bytes, is_byte. induction l as [|a|a b|a b c l IH] using by_three; intros H; [done|..]; byte_hyps;
    cbn [unpadded decode_groups]; sextets; [repeat f_equal; div_lia..|].
  destruct (unpadded l) eqn:E; rewrite IH //; cbn; repeat f_equal; div_lia.
Qed.

Lemma plain_unpadded l : all_bytes l -> str_forall plain_char (unpadded l) = true.
Proof.
  unfold all_bytes, is_byte. induction l as [|a|a b|a b c l IH] using by_three; intros H; [done|..]; byte_hyps;
    cbn [unpadded str_forall]; sextets; [done..|]. by rewrite IH.
Qed.

Lemma length_toBase64 l : (String.length (toBase64 l) mod 4 = 0)%nat.
Proof.
  induction l as [|a|a b|a b c l IH] using by_three; [done..|]. cbn [toBase64 String.length].
  replace (S (S (S (S (String.length (toBase64 l)))))) with (String.length (toBase64 l) + 1 * 4)%nat by lia.
  by rewrite Nat.Div0.mod_add.
Qed.

Lemma padding_cases l : padding l = "" \/ padding l = "=" \/ padding l = "==".
Proof. induction l as [|a|a b|a b c l IH] using by_three; [auto..|exact IH]. Qed.

Lemma drop_equals_none s : str_forall plain_char s = true -> drop_equals s = s.
Proof.
  destruct s as [|c s]; [done|]. cbn. intros [[Hc _]%andb_prop _]%andb_prop. apply negb_true_iff in Hc. by rewrite Hc.
Qed.

Lemma strip_padding_spec u p :
  str_forall plain_char u = true -> p = "" \/ p = "=" \/ p = "==" -> (String.length (u ++ p) mod 4 = 0)%nat -> strip_padding (u ++ p) = u.
Proof.
  intros Hu Hp Hl. unfold strip_padding. rewrite Hl Nat.eqb_refl str_rev_app.
  assert (str_forall plain_char (str_rev u "") = true) as Hr by by rewrite str_forall_rev.
  assert (forall r, drop_equals (String "=" r) = r) as Heq by done.
  destruct Hp as [->|[->| ->]]; cbn [str_rev append]; rewrite ?Heq ?(drop_equals_none (str_rev u "")) //; apply str_rev_involutive.
Qed.

(** [atob] of [btoa]. *)
Lemma fromBase64_toBase64 l : all_bytes l -> fromBase64 (toBase64 l) = Ok l.
Proof.
  intros Hl. unfold fromBase64. pose proof (plain_unpadded l Hl) as Hp. pose proof (length_toBase64 l) as Hlen.
  rewrite toBase64_unpadded in Hlen |- *. rewrite str_filter_all.
  - rewrite strip_padding_spec //; [by apply decode_unpadded|apply padding_cases].
  - rewrite str_forall_app. apply andb_true_iff. split; [|by destruct (padding_cases l) as [->|[->| ->]]].
    eapply str_forall_impl; [|exact Hp]. intros c [_ H%negb_true_iff]%andb_prop. by rewrite not_ws_atob.
Qed.

Lemma char_sextet_range c n : char_sextet c = Some n -> 0 <= n < 64.
Proof. destruct c as [[] [] [] [] [] [] [] []]; vm_compute; first [discriminate|intros [= <-]; split; [discriminate|reflexivity]]. Qed.

(** Whatever decodes, decodes to bytes. *)
Lemma decode_groups_bytes s : forall l, decode_groups s = Ok l -> all_bytes l.
Proof.
  remember (String.length s) as n eqn:Hn. revert s Hn. induction n as [n IH] using lt_wf_ind. intros s -> l.
  destruct s as [|a [|b [|c [|d s]]]]; cbn [decode_groups]; [by intros [= <-]; constructor|done|..];
    destruct (char_sextet a) as [x|] eqn:Ea; try done; destruct (char_sextet b) as [y|] eqn:Eb; try done;
    [|destruct (char_sextet c) as [z|] eqn:Ec; [|done]
     |destruct (char_sextet c) as [z|] eqn:Ec; [|done]; destruct (char_sextet d) as [w|] eqn:Ed; [|done]];
    repeat match goal with H : char_sextet _ = Some _ |- _ => apply char_sextet_range in H end.
  - intros [= <-]. repeat constructor. unfold is_byte. div_lia.
  - intros [= <-]. repeat constructor; unfold is_byte; div_lia.
  - intros (more & Hm & [= <-])%bind_Ok_inv. assert (all_bytes more) as Hmore by (eapply (IH (String.length s)); [cbn; lia|done..]).
    repeat constructor; [unfold is_byte; div_lia..|done].
Qed.

Lemma fromBase64_bytes s l : fromBase64 s = Ok l -> all_bytes l.
Proof. apply decode_groups_bytes. Qed.

(** A text field trimmed keeps its base64. *)
Lemma trim_toBase64 l : all_bytes l -> trim (toBase64 l) = toBase64 l.
Proof.
  intros Hl. apply trim_none. rewrite toBase64_unpadded str_forall_app. apply andb_true_iff. split.
  - eapply str_forall_impl; [|by apply plain_unpadded]. by intros c [_ H]%andb_prop.
  - by destruct (padding_cases l) as [->|[->| ->]].
Qed.

(** ** The container *)

Lemma uint16_spec n : 0 <= n <= 65535 -> n / 256 mod 256 * 256 + n mod 256 = n.
Proof. intros Hn. div_lia. Qed.

(** The bytes of a container. *)
Definition envelope_bytes (iv aad payload : bytes) : bytes :=
  (ENVELOPE_MAGIC ++ [ENVELOPE_VERSION; ALG_AES_256_GCM] ++ uint16 (Z.of_nat (length aad)) ++ iv ++ aad ++ payload)%list.

Lemma parse_envelope_bytes iv aad payload header :
  length iv = IV_LENGTH -> Z.of_nat (length aad) <= 65535 -> (text ← decode_text aad; parse text) = Ok header ->
  parseEnvelope (envelope_bytes iv aad payload) = Ok (mkParsed header iv payload aad).
Proof.
  intros Hiv Ha Hh. unfold parseEnvelope. pose proof (uint16_spec (Z.of_nat (length aad)) ltac:(lia)) as Hu.
  assert (length (envelope_bytes iv aad payload) = HEADER_OFFSET + length aad + length payload)%nat as Hl.
  { unfold envelope_bytes. rewrite !length_app Hiv. cbn. lia. }
  rewrite Hl. rewrite (proj2 (Nat.ltb_ge _ _)); [|lia].
  change (take (length ENVELOPE_MAGIC) (envelope_bytes iv aad payload)) with ENVELOPE_MAGIC.
  rewrite bool_decide_eq_true_2 //. cbn [negb].
  change (byte_at (envelope_bytes iv aad payload) 4) with ENVELOPE_VERSION.
  change (byte_at (envelope_bytes iv aad payload) 5) with ALG_AES_256_GCM. rewrite !Z.eqb_refl. cbn [negb].
  change (getUint16 (envelope_bytes iv aad payload) 6)
    with (Z.of_nat (length aad) / 256 mod 256 * 256 + Z.of_nat (length aad) mod 256).
  rewrite Hu Nat2Z.id. rewrite (proj2 (Nat.ltb_ge _ _)); [|lia].
  assert (slice (envelope_bytes iv aad payload) HEADER_OFFSET (HEADER_OFFSET + length aad) = aad) as ->.
  { unfold slice. replace (HEADER_OFFSET + length aad - HEADER_OFFSET)%nat with (length aad) by lia.
    change (drop HEADER_OFFSET (envelope_bytes iv aad payload)) with (drop IV_LENGTH (iv ++ aad ++ payload)).
    rewrite drop_app_length' //. by rewrite take_app_length. }
  rewrite Hh. do 2 f_equal.
  - change (slice (envelope_bytes iv aad payload) 8 (8 + IV_LENGTH)) with (take IV_LENGTH (iv ++ aad ++ payload)).
    by rewrite take_app_length'.
  - change (drop (HEADER_OFFSET + length aad) (envelope_bytes iv aad payload))
      with (drop (IV_LENGTH + length aad) (iv ++ aad ++ payload)).
    rewrite -drop_drop drop_app_length' //. by rewrite drop_app_length.
Qed.

Lemma serialise_Ok header iv payload b :
  serialiseEnvelope header iv payload = Ok b ->
  exists text, stringify header = Ok text /\ length iv = IV_LENGTH /\ Z.of_nat (length (encode_text text)) <= 65535
    /\ b = envelope_bytes iv (encode_text text) payload.
Proof.
  unfold serialiseEnvelope. destruct (Nat.eqb_spec (length iv) IV_LENGTH) as [Hiv|]; [|done]. cbn [negb].
  intros (text & E & H)%bind_Ok_inv. destruct (Z.ltb_spec 65535 (Z.of_nat (length (encode_text text)))) as [|Hl]; [done|].
  injection H as <-. by exists text.
Qed.

(** The first bytes of anything the parser accepts. *)
Lemma accepted_prefix bs :
  all_bytes bs -> (HEADER_OFFSET <= length bs)%nat -> take (length ENVELOPE_MAGIC) bs = ENVELOPE_MAGIC ->
  byte_at bs 4 = ENVELOPE_VERSION -> byte_at bs 5 = ALG_AES_256_GCM ->
  bs = (ENVELOPE_MAGIC ++ [ENVELOPE_VERSION; ALG_AES_256_GCM] ++ uint16 (getUint16 bs 6) ++ drop 8 bs)%list
  /\ 0 <= getUint16 bs 6 <= 65535.
Proof.
  intros Hb Hl Hm H4 H5. unfold HEADER_OFFSET in Hl.
  destruct bs as [|b0 [|b1 [|b2 [|b3 [|b4 [|b5 [|b6 [|b7 bs]]]]]]]]; cbn in Hl; try lia.
  unfold getUint16, byte_at in *. cbn in Hm, H4, H5 |- *. injection Hm as -> -> -> ->. subst b4 b5.
  unfold all_bytes, is_byte in Hb. do 8 (apply Forall_cons in Hb as [?%andb_prop Hb]). rewrite ->!Z.leb_le, !Z.ltb_lt in *.
  split; [|lia]. unfold uint16. replace ((b6 * 256 + b7) / 256 mod 256) with b6 by div_lia.
  by replace ((b6 * 256 + b7) mod 256) with b7 by div_lia.
Qed.

Lemma parse_Ok bs e :
  all_bytes bs -> parseEnvelope bs = Ok e ->
  bs = envelope_bytes (pe_iv e) (pe_aad e) (pe_payload e) /\ length (pe_iv e) = IV_LENGTH
  /\ Z.of_nat (length (pe_aad e)) <= 65535 /\ (text ← decode_text (pe_aad e); parse text) = Ok (pe_header e).
Proof.
  intros Hb. unfold parseEnvelope. destruct (Nat.ltb_spec (length bs) HEADER_OFFSET) as [|Hl]; [done|].
  destruct (bool_decide _) eqn:Em; [|done]. apply bool_decide_eq_true_1 in Em. cbn [negb].
  destruct (Z.eqb_spec (byte_at bs 4) ENVELOPE_VERSION) as [E4|]; [|done]. cbn [negb].
  destruct (Z.eqb_spec (byte_at bs 5) ALG_AES_256_GCM) as [E5|]; [|done]. cbn [negb].
  destruct (accepted_prefix bs Hb Hl Em E4 E5) as [Eb Hu]. set (n := Z.to_nat (getUint16 bs 6)) in *.
  destruct (Nat.ltb_spec (length bs) (HEADER_OFFSET + n)) as [|Hn]; [done|].
  set (aad := slice bs HEADER_OFFSET (HEADER_OFFSET + n)).
  destruct (text ← decode_text aad; parse text) as [header|[]] eqn:Eh; intros [= <-]. cbn [pe_iv pe_aad pe_payload pe_header].
  assert (length aad = n) as Ha.
  { unfold aad, slice. rewrite length_take length_drop. lia. }
  assert (length (slice bs 8 (8 + IV_LENGTH)) = IV_LENGTH) as Hiv.
  { unfold slice, IV_LENGTH, HEADER_OFFSET in *. rewrite length_take length_drop. lia. }
  assert (drop 8 bs = slice bs 8 (8 + IV_LENGTH) ++ aad ++ drop (HEADER_OFFSET + n) bs)%list as E8.
  { change (slice bs 8 (8 + IV_LENGTH)) with (take IV_LENGTH (drop 8 bs)).
    assert (drop HEADER_OFFSET bs = drop IV_LENGTH (drop 8 bs)) as E20 by by rewrite drop_drop.
    unfold aad, slice. replace (HEADER_OFFSET + n - HEADER_OFFSET)%nat with n by lia.
    rewrite -(drop_drop bs n HEADER_OFFSET) take_drop E20. by rewrite take_drop. }
  split_and!; [|done|lia|done]. unfold envelope_bytes. rewrite Ha -E8. replace (Z.of_nat n) with (getUint16 bs 6) by lia. exact Eb.
Qed.

(** * Properties *)

(** a container read back gives the header, the nonce and the payload that were put
    in it, and the header bytes it authenticates are the ones written. *)
Theorem envelope_roundtrip header iv payload b :
  json_ok header = true -> serialiseEnvelope header iv payload = Ok b ->
  exists text, stringify header = Ok text /\ parseEnvelope b = Ok (mkParsed header iv payload (encode_text text)).
Proof.
  intros Hok (text & E & Hiv & Hl & ->)%serialise_Ok. exists text. split; [done|].
  apply parse_envelope_bytes; [done..|]. rewrite decode_encode_text bind_Ok. by apply parse_stringify.
Qed.

(** C15: what the parser accepts, it accounts for to the last byte: the accepted byte
    strings are exactly the containers of a twelve-byte nonce, header bytes that decode to
    JSON, and a payload, and the parts handed out are those. *)
Theorem parse_accepts_exactly_containers bs e :
  all_bytes bs ->
  parseEnvelope bs = Ok e
  <-> bs = envelope_bytes (pe_iv e) (pe_aad e) (pe_payload e) /\ length (pe_iv e) = IV_LENGTH
      /\ Z.of_nat (length (pe_aad e)) <= 65535 /\ (text ← decode_text (pe_aad e); parse text) = Ok (pe_header e).
Proof.
  intros Hb. split; [by apply parse_Ok|]. intros (-> & Hiv & Ha & Hh). rewrite (parse_envelope_bytes _ _ _ (pe_header e)) //.
  by destruct e.
Qed.

(** A refusal is always one the callers know: a format error, unless the header strays
    outside this model. *)
Lemma parse_refuses_cleanly bs e :
  parseEnvelope bs = Throw e -> exists m, e = EnvelopeFormatError m \/ e = OutsideModel m.
Proof.
  unfold parseEnvelope. destruct (_ <? _)%nat; [intros [= <-]; eauto|]. do 3 (destruct (negb _); [intros [= <-]; eauto|]).
  destruct (_ <? _)%nat; [intros [= <-]; eauto|]. destruct (text ← decode_text _; parse text) as [|[]]; intros [= <-]; eauto.
Qed.

(** * Witnesses *)

Definition demo_header : EnvelopeHeader := mkHeader "vault" "dev" "2024" "ops".
Definition demo_iv : bytes := seqZ 0 12.
Definition demo_envelope : bytes :=
  match serialiseEnvelope (header_json demo_header) demo_iv [1; 2; 255] with Ok b => b | Throw _ => [] end.

Lemma envelope_roundtrip_witness :
  parseEnvelope demo_envelope = Ok (mkParsed (header_json demo_header) demo_iv [1; 2; 255] (slice demo_envelope 20 64)).
Proof.
  destruct (envelope_roundtrip (header_json demo_header) demo_iv [1; 2; 255] demo_envelope) as (text & E & H);
    [vm_compute; reflexivity|vm_compute; reflexivity|].
  rewrite H. injection E as <-. vm_compute. reflexivity.
Defined.

(** The same container with a byte more: the byte is part of the payload. *)
Lemma parse_accepts_exactly_containers_witness :
  parseEnvelope (demo_envelope ++ [7]) = Ok (mkParsed (header_json demo_header) demo_iv [1; 2; 255; 7] (slice demo_envelope 20 64)).
Proof.
  refine (proj2 (parse_accepts_exactly_containers _ _ _) _).
  - unfold all_bytes. apply List.Forall_forall. intros x Hx. revert x Hx. apply (proj1 (List.Forall_forall _ _)). vm_compute.
    repeat constructor.
  - split_and!; vm_compute; first [reflexivity|discriminate].
Defined.
