(* ===== verification/Crypto.v ===== *)
(** Encryption ([app/src/app/core/crypto/crypto.service.ts]): sealing and opening of
    envelopes, and the wrapping of the master key under a passphrase. *)
From S2P Require Export Envelope Trees.
#[local] Open Scope string_scope.
#[local] Open Scope Z_scope.

(** * Definitions *)

(** The platform's WebCrypto, which the service calls and never looks inside: AES-GCM,
    PBKDF2, the key handles and the random source (the [n]th draw of [len] bytes). *)
Class WebCrypto (Key : Type) : Type := {
  encrypt : Key -> bytes -> bytes -> bytes -> bytes;
  decrypt : Key -> bytes -> bytes -> bytes -> option bytes;
  deriveKey : bytes -> bytes -> Z -> option Key;
  importKey : bytes -> Key;
  exportKey : Key -> bytes;
  getRandomValues : nat -> nat -> bytes }.

(** What the service relies on: decryption inverts encryption and accepts nothing else
    (AES-GCM recomputes the tag of what it deciphers), a key survives export and import,
    and key derivation fails only on a nonsensical iteration count. *)
Class WebCryptoLaws (Key : Type) `{!WebCrypto Key} : Prop := {
  decrypt_encrypt : forall k iv aad pt, decrypt k iv aad (encrypt k iv aad pt) = Some pt;
  decrypt_only : forall k iv aad ct pt, decrypt k iv aad ct = Some pt -> ct = encrypt k iv aad pt;
  encrypt_bytes : forall k iv aad pt, all_bytes pt -> all_bytes (encrypt k iv aad pt);
  importKey_exportKey : forall k, importKey (exportKey k) = k;
  exportKey_shape : forall k, length (exportKey k) = 32%nat /\ all_bytes (exportKey k);
  deriveKey_ok : forall p salt it, 0 < it < 2 ^ 32 -> is_Some (deriveKey p salt it);
  random_shape : forall n len, length (getRandomValues n len) = len /\ all_bytes (getRandomValues n len) }.

Definition PBKDF2_ITERATIONS : Z := 650000.
Definition SALT_LENGTH : nat := 16.
Definition MASTER_KEY_BITS : Z := 256.
Definition WRAP_AAD : bytes := encode_text "easy-docket/wrap/v1".

Record WrappedMasterKey : Type := mkWrapped {
  wk_version : Z; wk_kdf : string; wk_iterations : Z; wk_salt : string; wk_iv : string; wk_key : string }.

(** [passphrase.normalize('NFKC')]: ASCII text is its own normal form; the tables for
    the rest are outside this model. *)
Definition normalize (s : string) : result string :=
  if str_forall (fun c => code c <? 128) s then Ok s else Throw (OutsideModel "NFKC of text that is not ASCII").

Section Service.
Context {Key : Type} `{!WebCrypto Key}.

Definition randomBytes (n len : nat) : bytes := getRandomValues n len.

Definition importMasterKey (raw : bytes) : result Key :=
  if negb (Z.of_nat (length raw) =? MASTER_KEY_BITS / 8) then Throw (JsError "Master key must be 32 bytes")
  else Ok (importKey raw).

Definition generateMasterKey (n : nat) : Key := importKey (getRandomValues n 32).
Definition exportMasterKey (key : Key) : bytes := exportKey key.

Definition deriveKek (passphrase : string) (salt : bytes) (iterations : Z) : result Key :=
  normal ← normalize passphrase;
  match deriveKey (encode_text normal) salt iterations with
  | Some kek => Ok kek
  | None => Throw (JsError "OperationError")
  end.

(** Draws twice: the salt, then the nonce. *)
Definition wrapMasterKey (n : nat) (masterKey : Key) (passphrase : string) (iterations : Z) : result WrappedMasterKey :=
  let salt := randomBytes n SALT_LENGTH in
  let iv := randomBytes (S n) IV_LENGTH in
  kek ← deriveKek passphrase salt iterations;
  let wrapped := encrypt kek iv WRAP_AAD (exportMasterKey masterKey) in
  mret (mkWrapped 1 "PBKDF2-SHA256" iterations (toBase64 salt) (toBase64 iv) (toBase64 wrapped)).

Definition unwrapMasterKey (wrapped : WrappedMasterKey) (passphrase : string) : result Key :=
  if negb (wk_version wrapped =? 1) || negb (String.eqb (wk_kdf wrapped) "PBKDF2-SHA256") then
    Throw (JsError "Unsupported wrapped-key format")
  else
    salt ← fromBase64 (wk_salt wrapped);
    kek ← deriveKek passphrase salt (wk_iterations wrapped);
    match (iv ← fromBase64 (wk_iv wrapped); key ← fromBase64 (wk_key wrapped); mret (decrypt kek iv WRAP_AAD key)) with
    | Ok (Some raw) => importMasterKey raw
    | _ => Throw (DecryptionError "Incorrect passphrase")
    end.

Definition seal (n : nat) (key : Key) (header : json) (plaintext : bytes) : result bytes :=
  let iv := randomBytes n IV_LENGTH in
  text ← stringify header;
  serialiseEnvelope header iv (encrypt key iv (encode_text text) plaintext).

Definition seal_json (n : nat) (key : Key) (header value : json) : result bytes :=
  text ← stringify value;
  seal n key header (encode_text text).

Definition open (key : Key) (bs : bytes) : result (json * bytes) :=
  envelope ← parseEnvelope bs;
  match decrypt key (pe_iv envelope) (pe_aad envelope) (pe_payload envelope) with
  | Some plaintext => Ok (pe_header envelope, plaintext)
  | None => Throw (DecryptionError "Unable to decrypt: wrong key or corrupted data")
  end.

Definition open_json (key : Key) (bs : bytes) : result (json * json) :=
  '(header, plaintext) ← open key bs;
  text ← decode_text plaintext;
  value ← parse text;
  mret (header, value).
End Service.

(** ** The values the sync engine seals *)

Definition tree_snapshot (s : LedgerSnapshot) : json :=
  obj [("vaultId", str (snap_vaultId s)); ("device", str (snap_device s)); ("watermark", str (snap_watermark s));
       ("entities", Some (JObj (map (fun kv => (entity_name kv.1, JArr (map tree_entity kv.2))) (snap_entities s))));
       ("operationCount", int (snap_operationCount s))].

Definition read_section (kv : string * json) : option (EntityName * list AnyEntity) :=
  e ← as_entity_name (JStr kv.1); rows ← as_list (read_entity e) kv.2; mret (e, rows).
Definition as_sections (v : json) : option (list (EntityName * list AnyEntity)) :=
  match v with JObj fields => mapM read_section fields | _ => None end.

Definition read_snapshot (v : json) : option LedgerSnapshot :=
  vaultId ← get "vaultId" as_str v; device ← get "device" as_str v; watermark ← get "watermark" as_str v;
  entities ← get "entities" as_sections v; operationCount ← get "operationCount" as_int v;
  mret (mkSnapshot vaultId device watermark entities operationCount).

(** A value filed in the table of its type, as TypeScript has it. *)
Definition op_typed_b (o : Operation) : bool :=
  match op_value o with Some v => bool_decide (entity_table v = op_entity o) | None => true end.
Definition section_typed_b (kv : EntityName * list AnyEntity) : bool :=
  forallb (fun v => bool_decide (entity_table v = kv.1)) kv.2.

Definition tree_payload (v : Payload) : option json :=
  match v with
  | PBatch b => if forallb op_typed_b (batch_ops b) then Some (tree_batch b) else None
  | PSnapshot s =>
      if bool_decide (NoDup (map fst (snap_entities s))) && forallb section_typed_b (snap_entities s)
      then Some (tree_snapshot s) else None
  | POther _ => None
  end.
(** The two are told apart by their fields. *)
Definition read_payload (v : json) : Payload :=
  match read_batch v, read_snapshot v with
  | Some b, _ => PBatch b
  | None, Some s => PSnapshot s
  | None, None => POther "neither a batch nor a snapshot"
  end.

Definition read_header (v : json) : option EnvelopeHeader :=
  vault ← get "v" as_str v; d ← get "d" as_str v; h ← get "h" as_str v; t ← get "t" as_str v; mret (mkHeader vault d h t).

(** * Lemmas *)

Lemma header_json_ok h : json_ok (header_json h) = true.
Proof. by destruct h. Qed.

Lemma read_header_json h : read_header (header_json h) = Some h.
Proof. by destruct h. Qed.

Lemma op_typed_spec o : op_typed_b o = true -> op_typed o.
Proof. unfold op_typed_b, op_typed. destruct (op_value o); [|done]. by intros H%bool_decide_eq_true_1 ? [= <-]. Qed.

Lemma forallb_Forall {A} (p : A -> bool) (P : A -> Prop) l : (forall x, p x = true -> P x) -> forallb p l = true -> Forall P l.
Proof. intros H. induction l as [|x l IH]; cbn; [constructor|]. intros [Hx Hl]%andb_prop. constructor; auto. Qed.

#[export] Instance entity_name_inj : Inj (=) (=) entity_name.
Proof. by intros [] []. Qed.

Lemma as_entity_name_spec e : as_entity_name (JStr (entity_name e)) = Some e.
Proof. by destruct e. Qed.

Lemma read_one_section e rows :
  section_typed_b (e, rows) = true -> read_section (entity_name e, JArr (map tree_entity rows)) = Some (e, rows).
Proof.
  intros Hr. unfold read_section. cbn [fst snd]. rewrite as_entity_name_spec. cbn [mbind option_bind].
  rewrite (as_list_spec tree_entity) //.
  eapply forallb_Forall; [|exact Hr]. intros v Hv%bool_decide_eq_true_1. cbn in Hv. rewrite -Hv. apply read_tree_entity.
Qed.

Lemma read_sections l :
  forallb section_typed_b l = true ->
  mapM read_section (map (fun kv => (entity_name kv.1, JArr (map tree_entity kv.2))) l) = Some l.
Proof.
  induction l as [|[e rows] l IH]; [done|]. cbn [forallb]. intros [Hr Hl]%andb_prop. cbn -[read_section].
  by rewrite read_one_section //= IH.
Qed.

Lemma read_tree_payload v tree : tree_payload v = Some tree -> read_payload tree = v /\ json_ok tree = true.
Proof.
  unfold read_payload. destruct v as [b|s|]; cbn [tree_payload]; [| |done].
  - destruct (forallb _ _) eqn:H; [|done]. intros [= <-]. rewrite read_tree_batch.
    + split; [done|apply tree_batch_ok].
    + eapply forallb_Forall; [|exact H]. apply op_typed_spec.
  - destruct (bool_decide _) eqn:Hnd; [|done]. destruct (forallb _ _) eqn:H; [|done]. cbn [andb]. intros [= <-].
    apply bool_decide_eq_true_1 in Hnd. destruct s as [v d w es n]. cbn [snap_entities] in *. split.
    + assert (read_batch (tree_snapshot (mkSnapshot v d w es n)) = None) as -> by done.
      unfold read_snapshot. cbn -[as_sections]. unfold as_sections. by rewrite read_sections.
    + apply obj_ok; [by vm_compute|]. cbn -[entity_name]. rewrite !andb_true_r. apply andb_true_iff. split.
      * apply bool_decide_eq_true_2. rewrite map_map. cbn [fst].
        rewrite -(map_map fst entity_name). by apply (NoDup_fmap_2 entity_name).
      * clear. induction es as [|[e rows] es IH]; [done|]. cbn. rewrite IH forallb_map_ok //. apply tree_entity_ok.
Qed.

Section Laws.
Context {Key : Type} `{!WebCrypto Key} `{!WebCryptoLaws Key}.
Implicit Types (k : Key) (bs : bytes).

Lemma random_length n len : length (randomBytes n len) = len.
Proof. apply random_shape. Qed.

(** What [seal] writes. *)
Lemma seal_Ok n k header pt b :
  seal n k header pt = Ok b ->
  exists text, stringify header = Ok text
    /\ serialiseEnvelope header (randomBytes n IV_LENGTH) (encrypt k (randomBytes n IV_LENGTH) (encode_text text) pt) = Ok b.
Proof. intros (text & E & H)%bind_Ok_inv. by exists text. Qed.

Lemma open_seal n k header pt b : json_ok header = true -> seal n k header pt = Ok b -> open k b = Ok (header, pt).
Proof.
  intros Hok (text & E & (text' & E' & Hiv & Hl & ->)%serialise_Ok)%seal_Ok. rewrite E in E'. injection E' as <-.
  unfold open. rewrite (parse_envelope_bytes _ _ _ header) //; [|by rewrite decode_encode_text bind_Ok; apply parse_stringify].
  rewrite bind_Ok. cbn [pe_iv pe_aad pe_payload pe_header]. by rewrite decrypt_encrypt.
Qed.

(** The bytes of a sealed value: the header in the clear, the value as ciphertext. *)
Definition sealed_bytes (n : nat) (k : Key) (head body : string) : bytes :=
  let iv := randomBytes (Key := Key) n IV_LENGTH in
  envelope_bytes iv (encode_text head) (encrypt k iv (encode_text head) (encode_text body)).

Lemma seal_json_Ok n k header value b : seal_json n k header value = Ok b ->
  exists head body, stringify header = Ok head /\ stringify value = Ok body /\ Z.of_nat (length (encode_text head)) <= 65535
    /\ b = sealed_bytes n k head body.
Proof.
  intros (body & E & (head & Eh & (text & Et & _ & Hl & ->)%serialise_Ok)%seal_Ok)%bind_Ok_inv. rewrite Eh in Et.
  injection Et as <-. by exists head, body.
Qed.

(** A key that the ciphertext does not open under is told so. *)
Lemma open_json_refused n k k' header head body :
  json_ok header = true -> stringify header = Ok head -> Z.of_nat (length (encode_text head)) <= 65535 ->
  (forall pt, encrypt k' (randomBytes (Key := Key) n IV_LENGTH) (encode_text head) pt
              <> encrypt k (randomBytes (Key := Key) n IV_LENGTH) (encode_text head) (encode_text body)) ->
  open_json k' (sealed_bytes n k head body) = Throw (DecryptionError "Unable to decrypt: wrong key or corrupted data").
Proof.
  intros Hok E Hl Hne. unfold open_json, open, sealed_bytes.
  rewrite (parse_envelope_bytes _ _ _ header) //; [|apply random_length|by rewrite decode_encode_text bind_Ok; apply parse_stringify].
  rewrite bind_Ok. cbn [pe_iv pe_aad pe_payload pe_header]. destruct (decrypt _ _ _ _) as [pt|] eqn:Ed; [|done].
  apply decrypt_only in Ed. by destruct (Hne pt).
Qed.

Lemma open_seal_json n k header value b :
  json_ok header = true -> json_ok value = true -> seal_json n k header value = Ok b -> open_json k b = Ok (header, value).
Proof.
  intros Hh Hv (text & E & Hs)%bind_Ok_inv. unfold open_json. rewrite (open_seal _ _ _ _ _ Hh Hs) bind_Ok decode_encode_text bind_Ok.
  by rewrite (parse_stringify _ _ Hv E).
Qed.

Lemma seal_json_bytes n k header value b : seal_json n k header value = Ok b -> all_bytes b.
Proof.
  intros (text & _ & (ht & _ & (ht' & _ & _ & Hl & ->)%serialise_Ok)%seal_Ok)%bind_Ok_inv.
  destruct (random_shape (Key := Key) n IV_LENGTH) as [_ Hi].
  unfold envelope_bytes, all_bytes. rewrite !Forall_app. split_and!; [by repeat constructor..| |done|apply encode_text_bytes|].
  - unfold uint16. repeat constructor; unfold is_byte; pose proof (Z.mod_pos_bound (Z.of_nat (length (encode_text ht')) / 256) 256 ltac:(done));
      pose proof (Z.mod_pos_bound (Z.of_nat (length (encode_text ht'))) 256 ltac:(done)); lia.
  - apply encrypt_bytes. apply encode_text_bytes.
Qed.

Lemma derived p salt it kek : deriveKek p salt it = Ok kek -> deriveKey (encode_text p) salt it = Some kek.
Proof.
  unfold deriveKek, normalize. destruct (str_forall _ p); [|done]. cbn. destruct (deriveKey _ _ _) as [key|]; [|done]. by intros [= ->].
Qed.

Lemma unwrap_wrap n k p it w : wrapMasterKey n k p it = Ok w -> unwrapMasterKey w p = Ok k.
Proof.
  intros (kek & E & [= <-])%bind_Ok_inv. unfold unwrapMasterKey. cbn [wk_version wk_kdf wk_salt wk_iv wk_key wk_iterations].
  change (negb (1 =? 1) || negb (String.eqb "PBKDF2-SHA256" "PBKDF2-SHA256")) with false. cbn iota.
  destruct (random_shape (Key := Key) n SALT_LENGTH) as [_ Hs], (random_shape (Key := Key) (S n) IV_LENGTH) as [_ Hi],
    (exportKey_shape k) as [Hl He].
  unfold randomBytes in *. rewrite (fromBase64_toBase64 _ Hs) bind_Ok E bind_Ok (fromBase64_toBase64 _ Hi) bind_Ok.
  rewrite fromBase64_toBase64; [|by apply encrypt_bytes]. rewrite bind_Ok decrypt_encrypt. unfold importMasterKey, exportMasterKey. 
  cbn [mret result_ret]. rewrite Hl. cbn. by rewrite importKey_exportKey.
Qed.

(** Sealing as the sync engine asks for it. *)
#[program] Definition crypto_sealing : Sealing Key bytes := {|
  sealJson key n header value :=
    match tree_payload value with
    | Some tree => seal_json n key (header_json header) tree
    | None => Throw (OutsideModel "a payload that is neither a batch nor a snapshot of typed rows")
    end;
  openJson key bs :=
    '(header, value) ← open_json key bs;
    match read_header header with
    | Some h => Ok (h, read_payload value)
    | None => Throw (OutsideModel "a header that is not one of the program's")
    end |}.
Next Obligation.
  intros k n h v b. cbn. destruct (tree_payload v) as [tree|] eqn:Et; [|done]. intros Hs.
  apply read_tree_payload in Et as [Hr Hok]. rewrite (open_seal_json _ _ _ _ _ (header_json_ok h) Hok Hs) bind_Ok.
  by rewrite read_header_json Hr.
Qed.
End Laws.

(** * Properties *)

(** what is sealed under a key opens under it, to the same header and the same value. *)
Theorem sealed_opens {Key} `{!WebCrypto Key} `{!WebCryptoLaws Key} n (k : Key) header value b :
  json_ok value = true -> seal_json n k (header_json header) value = Ok b ->
  all_bytes b /\ open_json k b = Ok (header_json header, value) /\ read_header (header_json header) = Some header.
Proof.
  intros Hv H. split_and!; [by eapply seal_json_bytes|by eapply open_seal_json; [apply header_json_ok| |]|apply read_header_json].
Qed.

(** opening authenticates: bytes that open under a key are, to the last one, the
    container of the encryption under that key of the plaintext returned, with the header
    bytes bound in; and a wrapped key, bound to its own domain, is never such a container. *)
Theorem open_authenticates {Key} `{!WebCrypto Key} `{!WebCryptoLaws Key} (k : Key) bs header pt :
  all_bytes bs -> open k bs = Ok (header, pt) ->
  exists iv aad, bs = envelope_bytes iv aad (encrypt k iv aad pt) /\ length iv = IV_LENGTH
    /\ (text ← decode_text aad; parse text) = Ok header /\ aad <> WRAP_AAD.
Proof.
  intros Hb (e & He & Hd)%bind_Ok_inv. apply parse_Ok in He as (E & Hiv & _ & Hh); [|done].
  destruct (decrypt _ _ _ _) as [pt'|] eqn:Edec; [|done]. injection Hd as <- <-. apply decrypt_only in Edec.
  exists (pe_iv e), (pe_aad e). rewrite -Edec. split_and!; [done..|]. intros Ha. rewrite Ha in Hh. vm_compute in Hh. discriminate.
Qed.

(** a key wrapped under a passphrase comes back under the same passphrase, and what
    is stored is text: three base64 fields and the parameters of the derivation. *)
Theorem wrapped_key_unwraps {Key} `{!WebCrypto Key} `{!WebCryptoLaws Key} n (k : Key) passphrase iterations :
  str_forall (fun c => code c <? 128) passphrase = true -> 0 < iterations < 2 ^ 32 ->
  exists w, wrapMasterKey n k passphrase iterations = Ok w /\ unwrapMasterKey w passphrase = Ok k
    /\ wk_iterations w = iterations.
Proof.
  intros Hp Hi. destruct (wrapMasterKey n k passphrase iterations) as [w|] eqn:E.
  - exists w. split_and!; [done|by eapply unwrap_wrap|]. by apply bind_Ok_inv in E as (kek & _ & [= <-]).
  - exfalso. unfold wrapMasterKey, deriveKek, normalize in E. rewrite Hp bind_Ok in E.
    destruct (deriveKey_ok (encode_text passphrase) (randomBytes (Key := Key) n SALT_LENGTH) iterations Hi) as [kek Ek].
    by rewrite Ek in E.
Qed.

(** * Witnesses *)

(** A toy cipher with the laws: one byte of tag over the key, the nonce and the header. *)
Definition toy_tag (k : bool) (iv aad : bytes) : Z := (Z.of_nat (list_sum (map Z.to_nat (iv ++ aad))) + (if k then 1 else 0)) mod 256.
#[export] Instance toy_crypto : WebCrypto bool := {|
  encrypt k iv aad pt := toy_tag k iv aad :: pt;
  decrypt k iv aad ct := match ct with t :: pt => if Z.eqb t (toy_tag k iv aad) then Some pt else None | [] => None end;
  deriveKey p salt it := if 0 <? it then Some (Nat.even (list_sum (map Z.to_nat p))) else None;
  importKey raw := Z.eqb (nth 0 raw 0) 1;
  exportKey k := repeat (if k then 1 else 0) 32;
  getRandomValues n len := repeat (Z.of_nat n mod 256) len |}.

Lemma repeat_bytes n len : 0 <= n < 256 -> all_bytes (repeat n len).
Proof. intros Hn. apply Forall_forall. intros x Hx%list_elem_of_In%repeat_spec. subst. unfold is_byte. lia. Qed.

#[export] Instance toy_laws : WebCryptoLaws bool.
Proof.
  split; cbn.
  - intros. by rewrite Z.eqb_refl.
  - intros k iv aad [|t ct] pt; [done|]. destruct (Z.eqb_spec t (toy_tag k iv aad)) as [->|]; [|done]. by intros [= ->].
  - intros k iv aad pt Hpt. constructor; [|done]. unfold is_byte, toy_tag.
    match goal with |- context [?a mod 256] => pose proof (Z.mod_pos_bound a 256 ltac:(done)) end. lia.
  - by intros [].
  - intros []; (split; [done|]); repeat constructor.
  - intros p salt it Hit. rewrite (proj2 (Z.ltb_lt 0 it)); [by eexists|lia].
  - intros n len. rewrite repeat_length. split; [done|]. apply repeat_bytes. by apply Z.mod_pos_bound.
Qed.

Definition demo_value : json := JObj [("format", JNum 1); ("names", JArr [JStr "Rent, 2024"; JNull; JBool true])].
Definition demo_sealed : bytes :=
  match seal_json 3 true (header_json demo_header) demo_value with Ok b => b | Throw _ => [] end.

Lemma demo_sealed_run : seal_json 3 true (header_json demo_header) demo_value = Ok demo_sealed.
Proof. vm_compute. reflexivity. Qed.

Lemma demo_opens : open true demo_sealed = Ok (header_json demo_header, drop 65 demo_sealed).
Proof. vm_compute. reflexivity. Qed.

Lemma demo_sealed_bytes : all_bytes demo_sealed.
Proof.
  assert (forallb is_byte demo_sealed = true) as H by (vm_compute; reflexivity). revert H. apply forallb_Forall. done.
Qed.

Lemma sealed_opens_witness : open_json true demo_sealed = Ok (header_json demo_header, demo_value).
Proof. exact (proj1 (proj2 (sealed_opens 3 true demo_header demo_value demo_sealed eq_refl demo_sealed_run))). Defined.

Lemma open_authenticates_witness :
  exists iv aad, demo_sealed = envelope_bytes iv aad (encrypt true iv aad (drop 65 demo_sealed)) /\ aad <> WRAP_AAD.
Proof.
  destruct (open_authenticates true demo_sealed _ _ demo_sealed_bytes demo_opens) as (iv & aad & E & _ & _ & Ha).
  exists iv, aad. exact (conj E Ha).
Defined.

Lemma wrapped_key_unwraps_witness :
  exists w, wrapMasterKey 5 true "correct horse" 1000 = Ok w /\ unwrapMasterKey w "correct horse" = Ok true.
Proof.
  destruct (wrapped_key_unwraps 5 true "correct horse" 1000) as (w & E & U & _); [reflexivity|lia|].
  exists w. exact (conj E U).
Defined.
