(* ===== verification/Vault.v ===== *)
(** The vault ([app/src/app/core/keys]): the life of the master key ([vault.service.ts]),
    the stores it is kept in ([secure-store.ts], [biometric.service.ts]) and the route
    guards ([vault.guard.ts]). *)
From S2P Require Export Crypto.
#[local] Open Scope string_scope.
#[local] Open Scope Z_scope.

(** * Definitions *)

Definition KEY_VAULT_ID : string := "docket.vaultId".
Definition KEY_DEVICE_ID : string := "docket.deviceId".
Definition KEY_WRAPPED : string := "docket.wrappedMasterKey".
Definition SECURE_MASTER_KEY : string := "docket.masterKey".
Definition ENABLED_KEY : string := "docket.biometricLock".

Inductive VaultState : Type := Uninitialised | Locked | Unlocked.
#[export] Instance VaultState_eq_dec : EqDecision VaultState.
Proof. solve_decision. Defined.

(** The service's fields, [Preferences], the secure store and the host's random source
    ([uuid n] is the [n]th [crypto.randomUUID()]).  [v_accepts] : whether the keystore of the
    platform takes writes and removals now, or refuses them. *)
Record Vault (Key : Type) : Type := mkVault {
  v_masterKey : option Key; v_state : VaultState; v_vaultId : option string; v_deviceId : option string;
  v_prefs : gmap string string; v_secure : gmap string string; v_durable : bool; v_accepts : bool;
  v_uuid : nat -> string; v_uuids : nat; v_draws : nat }.
Arguments mkVault {Key}.
Arguments v_masterKey {Key}.
Arguments v_state {Key}.
Arguments v_vaultId {Key}.
Arguments v_deviceId {Key}.
Arguments v_prefs {Key}.
Arguments v_secure {Key}.
Arguments v_durable {Key}.
Arguments v_accepts {Key}.
Arguments v_uuid {Key}.
Arguments v_uuids {Key}.
Arguments v_draws {Key}.

(** ** The wrapped key as the text in [Preferences] *)

Definition wrapped_json (w : WrappedMasterKey) : json :=
  JObj [("version", JNum (wk_version w)); ("kdf", JStr (wk_kdf w)); ("iterations", JNum (wk_iterations w));
        ("salt", JStr (wk_salt w)); ("iv", JStr (wk_iv w)); ("key", JStr (wk_key w))].
Definition read_wrapped (v : json) : option WrappedMasterKey :=
  version ← get "version" as_int v; kdf ← get "kdf" as_str v; iterations ← get "iterations" as_int v;
  salt ← get "salt" as_str v; iv ← get "iv" as_str v; key ← get "key" as_str v;
  mret (mkWrapped version kdf iterations salt iv key).
Definition parse_wrapped (raw : string) : result WrappedMasterKey :=
  v ← parse raw;
  match read_wrapped v with Some w => Ok w | None => Throw (OutsideModel "text that holds no wrapped key") end.

Section Service.
Context {Key : Type} `{!WebCrypto Key}.
Implicit Types v : Vault Key.

Definition set_key (k : option Key) v : Vault Key :=
  mkVault k (v_state v) (v_vaultId v) (v_deviceId v) (v_prefs v) (v_secure v) (v_durable v) (v_accepts v) (v_uuid v) (v_uuids v) (v_draws v).
Definition set_state (s : VaultState) v : Vault Key :=
  mkVault (v_masterKey v) s (v_vaultId v) (v_deviceId v) (v_prefs v) (v_secure v) (v_durable v) (v_accepts v) (v_uuid v) (v_uuids v) (v_draws v).
Definition set_vaultId (i : option string) v : Vault Key :=
  mkVault (v_masterKey v) (v_state v) i (v_deviceId v) (v_prefs v) (v_secure v) (v_durable v) (v_accepts v) (v_uuid v) (v_uuids v) (v_draws v).
Definition set_deviceId (i : option string) v : Vault Key :=
  mkVault (v_masterKey v) (v_state v) (v_vaultId v) i (v_prefs v) (v_secure v) (v_durable v) (v_accepts v) (v_uuid v) (v_uuids v) (v_draws v).
Definition set_prefs (f : gmap string string -> gmap string string) v : Vault Key :=
  mkVault (v_masterKey v) (v_state v) (v_vaultId v) (v_deviceId v) (f (v_prefs v)) (v_secure v) (v_durable v) (v_accepts v) (v_uuid v) (v_uuids v)
    (v_draws v).
Definition set_secure (f : gmap string string -> gmap string string) v : Vault Key :=
  mkVault (v_masterKey v) (v_state v) (v_vaultId v) (v_deviceId v) (v_prefs v) (f (v_secure v)) (v_durable v) (v_accepts v) (v_uuid v) (v_uuids v)
    (v_draws v).

Definition set_accepts (b : bool) v : Vault Key :=
  mkVault (v_masterKey v) (v_state v) (v_vaultId v) (v_deviceId v) (v_prefs v) (v_secure v) (v_durable v) b (v_uuid v) (v_uuids v)
    (v_draws v).

(** [n] draws from the random source, and a fresh identifier. *)
Definition take_draws (n : nat) : M (Vault Key) nat := fun v =>
  (Ok (v_draws v), mkVault (v_masterKey v) (v_state v) (v_vaultId v) (v_deviceId v) (v_prefs v) (v_secure v) (v_durable v)
                     (v_accepts v) (v_uuid v) (v_uuids v) (v_draws v + n)).
Definition randomUUID : M (Vault Key) string := fun v =>
  (Ok (v_uuid v (v_uuids v)), mkVault (v_masterKey v) (v_state v) (v_vaultId v) (v_deviceId v) (v_prefs v) (v_secure v) (v_durable v)
                     (v_accepts v) (v_uuid v) (S (v_uuids v)) (v_draws v)).

Definition write (key value : string) : M (Vault Key) unit := modifyS (set_prefs <[key := value]>).

(** JavaScript's falsy: absent or empty. *)
Definition falsy (o : option string) : bool := negb (truthy (default "" o)).

Definition keyIsDurable v : bool := v_durable v.
Definition isUnlocked v : bool := bool_decide (v_state v = Unlocked).

Definition assertPassphrase (passphrase : string) : result unit :=
  normal ← normalize passphrase;
  if (String.length normal <? 8)%nat then Throw (JsError "Passphrase must be at least 8 characters") else Ok tt.

Definition is_alphanumeric (c : ascii) : bool := is_lower c || is_upper c || is_digit c.
Definition mintDeviceId : M (Vault Key) string :=
  n ← take_draws 1;
  let id := js_slice (str_filter is_alphanumeric (toBase64 (randomBytes n 6))) 0 8 in
  _ ← write KEY_DEVICE_ID id;
  mret id.

(** [secureStore.set], which rejects when the keystore refuses, and [secureStore.remove],
    which takes a refusal for a key already absent. *)
Definition stash (value : string) : M (Vault Key) unit :=
  v ← getS;
  if v_accepts v then modifyS (set_secure <[SECURE_MASTER_KEY := value]>) else throwM (JsError "The keystore refused the key").
Definition unstash v : Vault Key := if v_accepts v then set_secure (delete SECURE_MASTER_KEY) v else v.

Definition adopt (masterKey : Key) : M (Vault Key) unit :=
  _ ← modifyS (set_key (Some masterKey));
  v ← getS;
  _ ← (if v_durable v then stash (toBase64 (exportMasterKey masterKey)) else mret tt);
  modifyS (set_state Unlocked).

(** [BiometricService.isEnabled] and [verify]: off the installed app it answers no;
    there, [confirms] is what the person does. *)
Definition biometric_enabled v : bool := bool_decide (v_prefs v !! ENABLED_KEY = Some "true").
Definition biometric_verify (confirms : bool) v : bool := v_durable v && confirms.
Definition setEnabled (enabled : bool) : M (Vault Key) unit := write ENABLED_KEY (if enabled then "true" else "false").

Definition initialise_vault (confirms : bool) : M (Vault Key) VaultState :=
  v ← getS;
  let vaultId := v_prefs v !! KEY_VAULT_ID in
  let wrapped := v_prefs v !! KEY_WRAPPED in
  _ ← modifyS (set_vaultId vaultId);
  deviceId ← match v_prefs v !! KEY_DEVICE_ID with Some id => mret id | None => mintDeviceId end;
  _ ← modifyS (set_deviceId (Some deviceId));
  if falsy vaultId || falsy wrapped then _ ← modifyS (set_state Uninitialised); mret Uninitialised
  else
    v ← getS;
    match v_secure v !! SECURE_MASTER_KEY with
    | Some stashed =>
        if negb (truthy stashed) then _ ← modifyS (set_state Locked); mret Locked
        else if biometric_enabled v && negb (biometric_verify confirms v) then _ ← modifyS (set_state Locked); mret Locked
        else
          raw ← liftR (fromBase64 stashed);
          key ← liftR (importMasterKey raw);
          _ ← modifyS (set_key (Some key));
          _ ← modifyS (set_state Unlocked);
          mret Unlocked
    | None => _ ← modifyS (set_state Locked); mret Locked
    end.

(** [create] up to [adopt] : the key, with the vault written to [Preferences]. *)
Definition prepare (passphrase : string) : M (Vault Key) Key :=
  _ ← liftR (assertPassphrase passphrase);
  n ← take_draws 1;
  let masterKey := generateMasterKey n in
  m ← take_draws 2;
  wrapped ← liftR (wrapMasterKey m masterKey passphrase PBKDF2_ITERATIONS);
  vaultId ← randomUUID;
  text ← liftR (stringify (wrapped_json wrapped));
  _ ← write KEY_VAULT_ID vaultId;
  _ ← write KEY_WRAPPED text;
  _ ← modifyS (set_vaultId (Some vaultId));
  mret masterKey.

Definition create (passphrase : string) : M (Vault Key) unit := masterKey ← prepare passphrase; adopt masterKey.

(** [restore] up to [adopt]. *)
Definition rejoin (vaultId : string) (wrapped : WrappedMasterKey) (passphrase : string) : M (Vault Key) Key :=
  masterKey ← liftR (unwrapMasterKey wrapped passphrase);
  text ← liftR (stringify (wrapped_json wrapped));
  _ ← write KEY_VAULT_ID vaultId;
  _ ← write KEY_WRAPPED text;
  _ ← modifyS (set_vaultId (Some vaultId));
  mret masterKey.

Definition restore (vaultId : string) (wrapped : WrappedMasterKey) (passphrase : string) : M (Vault Key) unit :=
  masterKey ← rejoin vaultId wrapped passphrase; adopt masterKey.

(** [const raw = await read(KEY_WRAPPED); if (!raw) throw ...; JSON.parse(raw)]. *)
Definition stored_wrapped : M (Vault Key) WrappedMasterKey :=
  v ← getS;
  match v_prefs v !! KEY_WRAPPED with
  | Some raw => if truthy raw then liftR (parse_wrapped raw) else throwM (JsError "No vault on this device")
  | None => throwM (JsError "No vault on this device")
  end.

(** [unlock] up to [adopt]. *)
Definition opened (passphrase : string) : M (Vault Key) Key :=
  wrapped ← stored_wrapped;
  liftR (unwrapMasterKey wrapped passphrase).

Definition unlock (passphrase : string) : M (Vault Key) unit := masterKey ← opened passphrase; adopt masterKey.

Definition lock : M (Vault Key) unit :=
  _ ← modifyS (set_key None);
  _ ← modifyS unstash;
  v ← getS;
  modifyS (set_state (if falsy (v_vaultId v) then Uninitialised else Locked)).

Definition changePassphrase (current next : string) : M (Vault Key) unit :=
  _ ← liftR (assertPassphrase next);
  wrapped ← stored_wrapped;
  masterKey ← liftR (unwrapMasterKey wrapped current);
  m ← take_draws 2;
  rewrapped ← liftR (wrapMasterKey m masterKey next PBKDF2_ITERATIONS);
  text ← liftR (stringify (wrapped_json rewrapped));
  write KEY_WRAPPED text.

Definition exportWrappedKey : M (Vault Key) (option (string * WrappedMasterKey)) :=
  v ← getS;
  match v_prefs v !! KEY_VAULT_ID, v_prefs v !! KEY_WRAPPED with
  | Some vaultId, Some raw =>
      if negb (truthy vaultId) || negb (truthy raw) then mret None
      else wrapped ← liftR (parse_wrapped raw); mret (Some (vaultId, wrapped))
  | _, _ => mret None
  end.

Definition destroy : M (Vault Key) unit :=
  _ ← lock;
  _ ← modifyS (set_prefs (delete KEY_VAULT_ID));
  _ ← modifyS (set_prefs (delete KEY_WRAPPED));
  _ ← modifyS (set_vaultId None);
  modifyS (set_state Uninitialised).

(** What the rest of the program sees of the vault. *)
Definition session v : VaultSession Key := mkSession (isUnlocked v) (v_masterKey v) (v_vaultId v) (v_deviceId v).

(** The page is closed and opened again: the fields start over, and so does a store
    that is not durable. *)
Definition restart v : Vault Key :=
  mkVault None Uninitialised None None (v_prefs v) (if v_durable v then v_secure v else ∅) (v_durable v) (v_accepts v) (v_uuid v) (v_uuids v)
    (v_draws v).

(** ** vault.guard.ts *)

(** [None] lets the navigation through; [Some url] redirects it. *)
Definition vaultGuard v : option string := if isUnlocked v then None else Some "/vault".
Definition unlockedRedirectGuard v : option string := if isUnlocked v then Some "/tabs/dashboard" else None.
End Service.

(** * Specification *)

(** What the vault is to the person: nothing yet, or a passphrase and the key it opens. *)
Definition Owned (Key : Type) : Type := option (string * Key).

Section Run.
Context {Key : Type} `{!WebCrypto Key}.

Definition fresh_install (v : Vault Key) : Prop :=
  v_masterKey v = None /\ v_state v = Uninitialised /\ v_vaultId v = None /\ v_prefs v = ∅ /\ v_secure v = ∅
  /\ v_accepts v = true /\ forall n, truthy (v_uuid v n) = true.

(** The calls that take a passphrase, up to the moment the key is adopted. *)
Inductive attempt : forall A, M (Vault Key) A -> Prop :=
| at_create p : attempt Key (prepare p)
| at_restore i w p : attempt Key (rejoin i w p)
| at_unlock p : attempt Key (opened p)
| at_change p q : attempt unit (changePassphrase p q).

(** The life of a vault on one device; with [refusals] the keystore may begin and cease to
    refuse at any time.  A passphrase that opens is the vault's own (a wrong one is refused,
    save for a collision of the cipher); a call that fails before the key is adopted leaves
    what is owned as it was, and adopting may itself fail; [boot] is a restart of the
    application. *)
Inductive vault_run (refusals : bool) : Vault Key -> Owned Key -> Prop :=
| vr_fresh v : fresh_install v -> vault_run refusals v None
| vr_platform v o b : refusals = true -> vault_run refusals v o -> vault_run refusals (set_accepts b v) o
| vr_create v o p k v1 r v' : vault_run refusals v o -> prepare p v = (Ok k, v1) -> adopt k v1 = (r, v') ->
    vault_run refusals v' (Some (p, k))
| vr_restore v o i w p k v1 r v' : vault_run refusals v o -> truthy i = true -> rejoin i w p v = (Ok k, v1) -> adopt k v1 = (r, v') ->
    vault_run refusals v' (Some (p, k))
| vr_unlock v p k r v' : vault_run refusals v (Some (p, k)) -> unlock p v = (r, v') -> vault_run refusals v' (Some (p, k))
| vr_change v p k q v' : vault_run refusals v (Some (p, k)) -> changePassphrase p q v = (Ok tt, v') ->
    vault_run refusals v' (Some (q, k))
| vr_failed v o A act e v' : vault_run refusals v o -> attempt A act -> act v = (Throw e, v') -> vault_run refusals v' o
| vr_lock v o v' : vault_run refusals v o -> lock v = (Ok tt, v') -> vault_run refusals v' o
| vr_biometric v o b v' : vault_run refusals v o -> setEnabled b v = (Ok tt, v') -> vault_run refusals v' o
| vr_boot v o confirms s v' : vault_run refusals v o -> initialise_vault confirms (restart v) = (Ok s, v') ->
    vault_run refusals v' o
| vr_destroy v o v' : vault_run refusals v o -> destroy v = (Ok tt, v') -> vault_run refusals v' None.

(** Whether a key can be adopted: there is no keystore, or it takes writes. *)
Definition takes_keys (v : Vault Key) : bool := negb (v_durable v) || v_accepts v.

(** The text in [Preferences] opens under the passphrase to the key. *)
Definition recoverable (v : Vault Key) (p : string) (k : Key) : Prop :=
  exists raw w, v_prefs v !! KEY_WRAPPED = Some raw /\ stringify (wrapped_json w) = Ok raw /\ unwrapMasterKey w p = Ok k.

(** Where the bare key may be: nowhere, or in a store the platform protects. *)
Definition stash_ok (v : Vault Key) (k : Key) : Prop :=
  v_secure v = ∅ \/ (v_durable v = true /\ v_secure v = {[SECURE_MASTER_KEY := toBase64 (exportKey k)]}).

(** What is kept whatever the keystore refuses: a copy of some key, there or nowhere. *)
Definition store_ok (refusals : bool) (v : Vault Key) : Prop :=
  (forall n, truthy (v_uuid v n) = true) /\ dom (v_prefs v) ⊆ {[KEY_VAULT_ID; KEY_DEVICE_ID; KEY_WRAPPED; ENABLED_KEY]}
  /\ (v_secure v = ∅ \/ (v_durable v = true /\ exists k, v_secure v = {[SECURE_MASTER_KEY := toBase64 (exportKey k)]}))
  /\ (refusals = false -> v_accepts v = true).

(** The vault [p] and [k] own is in [Preferences]. *)
Definition installed (v : Vault Key) (p : string) (k : Key) : Prop :=
  v_vaultId v = v_prefs v !! KEY_VAULT_ID /\ falsy (v_vaultId v) = false /\ recoverable v p k.

Definition vault_inv (refusals : bool) (v : Vault Key) (o : Owned Key) : Prop :=
  store_ok refusals v
  /\ match o with
     | None => v_vaultId v = v_prefs v !! KEY_VAULT_ID /\ v_state v = Uninitialised /\ v_masterKey v = None /\ v_vaultId v = None
               /\ (refusals = false -> v_secure v = ∅)
     | Some (p, k) =>
         installed v p k /\ (v_state v = Unlocked -> is_Some (v_masterKey v))
         /\ (refusals = false ->
             ((v_state v = Unlocked /\ v_masterKey v = Some k) \/ (v_state v = Locked /\ v_masterKey v = None)) /\ stash_ok v k)
     end.
End Run.

(** * Lemmas *)

Section Proofs.
Context {Key : Type} `{!WebCrypto Key} `{!WebCryptoLaws Key}.
Implicit Types v : Vault Key.

Lemma wrapped_text w text : stringify (wrapped_json w) = Ok text -> parse_wrapped text = Ok w /\ truthy text = true.
Proof.
  intros E. split.
  - unfold parse_wrapped. rewrite (parse_stringify (wrapped_json w)) //. by destruct w.
  - apply text_head in E as (c & t & -> & _). done.
Qed.

Lemma unwrap_stashed (k : Key) : (raw ← fromBase64 (toBase64 (exportKey k)); importMasterKey raw) = Ok k.
Proof.
  destruct (exportKey_shape k) as [Hl Hb]. rewrite fromBase64_toBase64 // bind_Ok. unfold importMasterKey. rewrite Hl. cbn.
  by rewrite importKey_exportKey.
Qed.

(** [adopt] succeeds if the key can be stored; else it fails with the key in memory. *)
Lemma adopt_run (k : Key) v : takes_keys v = true ->
  exists v', adopt k v = (Ok tt, v') /\ v_masterKey v' = Some k /\ v_state v' = Unlocked /\ v_vaultId v' = v_vaultId v
    /\ v_deviceId v' = v_deviceId v /\ v_prefs v' = v_prefs v /\ v_uuid v' = v_uuid v /\ v_durable v' = v_durable v
    /\ v_accepts v' = v_accepts v
    /\ v_secure v' = if v_durable v then <[SECURE_MASTER_KEY := toBase64 (exportKey k)]> (v_secure v) else v_secure v.
Proof. destruct v as [? ? ? ? ? ? [] []]; cbn; try done; intros _; eexists; by split_and!. Qed.

Lemma adopt_refused (k : Key) v : takes_keys v = false -> exists e, adopt k v = (Throw e, set_key (Some k) v).
Proof. destruct v as [? ? ? ? ? ? [] []]; cbn; try done; intros _; by eexists. Qed.

(** A key adopted by a vault it is installed in. *)
Lemma adopt_inv refusals v p (k : Key) r v' :
  store_ok refusals v -> installed v p k -> adopt k v = (r, v') ->
  vault_inv refusals v' (Some (p, k)) /\ v_masterKey v' = Some k /\ v_prefs v' = v_prefs v /\ v_deviceId v' = v_deviceId v
  /\ if takes_keys v then r = Ok tt /\ v_state v' = Unlocked else (exists e, r = Throw e) /\ v_state v' = v_state v.
Proof.
  intros (Hu & Hdom & Hsec & Hacc) (Hid & Hf & Hr) E. destruct (takes_keys v) eqn:Et.
  - destruct (adopt_run k v Et) as (v1 & E1 & Hk & Hst & Hi1 & Hd1 & Hp1 & Hu1 & Hdu1 & Ha1 & Hs1). rewrite E1 in E. injection E as <- <-.
    assert (v_secure v1 = ∅ \/ (v_durable v1 = true /\ v_secure v1 = {[SECURE_MASTER_KEY := toBase64 (exportKey k)]})) as Hsec1.
    { rewrite Hs1 Hdu1. destruct (v_durable v); [right|left; by destruct Hsec as [?|[? _]]]. split; [done|].
      destruct Hsec as [->|(_ & x & ->)]; [done|by rewrite insert_singleton_eq]. }
    split; [|by split_and!]. unfold vault_inv, store_ok, installed, recoverable. rewrite Hu1 Hp1 Ha1 Hi1 Hk Hst. split_and!; try done; eauto.
    destruct Hsec1 as [?|[? ?]]; [by left|right; eauto].
  - destruct (adopt_refused k v Et) as [e E1]. rewrite E1 in E. injection E as <- <-. unfold takes_keys in Et. apply orb_false_iff in Et as [_ Et].
    split; [|by split_and!; [..|eexists|]]. unfold vault_inv, store_ok, installed. cbn. split_and!; try done; eauto.
    intros Hn. specialize (Hacc Hn). congruence.
Qed.

(** ** Calls that leave the vault alone *)

(** Equal but for the random draws. *)
Definition alike v v' : Prop :=
  v_masterKey v' = v_masterKey v /\ v_state v' = v_state v /\ v_vaultId v' = v_vaultId v /\ v_deviceId v' = v_deviceId v
  /\ v_prefs v' = v_prefs v /\ v_secure v' = v_secure v /\ v_durable v' = v_durable v /\ v_accepts v' = v_accepts v
  /\ v_uuid v' = v_uuid v.

Lemma alike_refl v : alike v v.
Proof. by split_and!. Qed.
Lemma alike_trans v1 v2 v3 : alike v1 v2 -> alike v2 v3 -> alike v1 v3.
Proof. intros (?&?&?&?&?&?&?&?&?) (?&?&?&?&?&?&?&?&?). by split_and!; etrans. Qed.

Lemma store_alike refusals v v' : alike v v' -> store_ok refusals v -> store_ok refusals v'.
Proof. intros (_ & _ & _ & _ & Hp & Hc & Hd & Ha & Hu). unfold store_ok. by rewrite Hp Hc Hd Ha Hu. Qed.

Lemma inv_alike refusals v v' o : alike v v' -> vault_inv refusals v o -> vault_inv refusals v' o.
Proof.
  intros Hal [Hs Ho]. split; [by eapply store_alike|]. revert Ho. destruct Hal as (Hk & Hst & Hi & _ & Hp & Hc & Hd & _).
  unfold installed, recoverable, stash_ok. by rewrite Hk Hst Hi Hp Hc Hd.
Qed.

Definition quiet {A} (m : M (Vault Key) A) : Prop := forall v r v', m v = (r, v') -> alike v v'.
Definition total {A} (m : M (Vault Key) A) : Prop := forall v e v', m v <> (Throw e, v').
Definition fails_quietly {A} (m : M (Vault Key) A) : Prop := forall v e v', m v = (Throw e, v') -> alike v v'.

Lemma quiet_liftR {A} (r : result A) : quiet (liftR r).
Proof. intros v x v' [= <- <-]. apply alike_refl. Qed.
Lemma quiet_draws n : quiet (take_draws n).
Proof. by intros [] r v' [= <- <-]. Qed.
Lemma quiet_uuid : quiet randomUUID.
Proof. by intros [] r v' [= <- <-]. Qed.
Lemma quiet_stored : quiet stored_wrapped.
Proof.
  intros v r v'. unfold stored_wrapped, mbind, M_bind, getS. destruct (v_prefs v !! KEY_WRAPPED); [destruct (truthy _)|];
    intros [= <- <-]; apply alike_refl.
Qed.

Lemma fails_bind {A B} (m : M (Vault Key) A) (f : A -> M (Vault Key) B) :
  quiet m -> (forall x, fails_quietly (f x)) -> fails_quietly (mbind f m).
Proof.
  intros Hm Hf v e v' [H|(x & v1 & H1 & H2)]%M_bind_Throw_inv; [by eapply Hm|].
  eapply alike_trans; [by eapply Hm|by eapply Hf].
Qed.
Lemma fails_total {A} (m : M (Vault Key) A) : total m -> fails_quietly m.
Proof. intros Hm v e v' H. by apply Hm in H. Qed.
Lemma total_bind {A B} (m : M (Vault Key) A) (f : A -> M (Vault Key) B) : total m -> (forall x, total (f x)) -> total (mbind f m).
Proof. intros Hm Hf v e v' [H|(x & v1 & _ & H2)]%M_bind_Throw_inv; [by eapply Hm|by eapply Hf]. Qed.
Lemma total_modify (f : Vault Key -> Vault Key) : total (modifyS f).
Proof. by intros v e v'. Qed.
Lemma total_write key value : total (write (Key := Key) key value).
Proof. apply total_modify. Qed.

#[local] Hint Resolve total_write quiet_liftR quiet_draws quiet_uuid quiet_stored total_modify : vault.

Lemma total_ret {A} (a : A) : total (mret a).
Proof. by intros v e v'. Qed.
Lemma fails_liftR {A} (r : result A) : fails_quietly (liftR r).
Proof. intros v e v' [= _ <-]. apply alike_refl. Qed.
#[local] Hint Resolve @total_ret fails_liftR : vault.

Lemma attempt_fails A (act : M (Vault Key) A) : attempt A act -> fails_quietly act.
Proof.
  destruct 1; unfold prepare, rejoin, opened, changePassphrase;
    repeat (apply fails_bind; [by auto with vault|intros ?]); auto with vault;
    apply fails_total; repeat first [solve [auto with vault] | apply total_bind; [by auto with vault|intros ?]].
Qed.

(** ** Each call keeps the invariant *)

(** The writes of [create] and of [restore] : a new identity and a wrapped key. *)
Lemma install_run refusals i w text p (k k' : Key) v v1 :
  store_ok refusals v -> truthy i = true -> stringify (wrapped_json w) = Ok text -> unwrapMasterKey w p = Ok k ->
  (_ ← write KEY_VAULT_ID i; _ ← write KEY_WRAPPED text; _ ← modifyS (set_vaultId (Some i)); mret k) v = (Ok k', v1) ->
  k' = k /\ store_ok refusals v1 /\ installed v1 p k.
Proof.
  intros (Hu & Hdom & Hsec & Hacc) Hi Hw' Hw [= <- <-]. split; [done|]. split; [split_and!; try done|split_and!].
  - cbn. rewrite !dom_insert_L. set_solver.
  - cbn. rewrite lookup_insert_ne // lookup_insert_eq. done.
  - unfold falsy. cbn. by rewrite Hi.
  - exists text, w. cbn. rewrite lookup_insert_eq. by split_and!.
Qed.

Lemma prepare_installs refusals p k v v1 :
  store_ok refusals v -> prepare p v = (Ok k, v1) -> store_ok refusals v1 /\ installed v1 p k.
Proof.
  intros Hv H. unfold prepare in H.
  apply M_bind_Ok_inv in H as ([] & v0 & [= _ <-] & H). apply M_bind_Ok_inv in H as (n & va & H1%quiet_draws & H).
  apply M_bind_Ok_inv in H as (m & vb & H2%quiet_draws & H). apply M_bind_Ok_inv in H as (w & vc & [= Ew <-] & H).
  apply M_bind_Ok_inv in H as (i & vc & H3 & H). apply M_bind_Ok_inv in H as (text & vd & [= Et <-] & H).
  pose proof (quiet_uuid _ _ _ H3) as H3'.
  assert (store_ok refusals vc) as Hvc by exact (store_alike _ _ _ (alike_trans _ _ _ H1 (alike_trans _ _ _ H2 H3')) Hv).
  eapply install_run in H as (-> & Hs & Hi); [done|exact Hvc| |exact Et|by eapply unwrap_wrap].
  injection H3 as <- _. pose proof (store_alike _ _ _ (alike_trans _ _ _ H1 H2) Hv) as (Hu & _). apply Hu.
Qed.

Lemma rejoin_installs refusals i w p k v v1 :
  store_ok refusals v -> truthy i = true -> rejoin i w p v = (Ok k, v1) -> store_ok refusals v1 /\ installed v1 p k.
Proof.
  intros Hv Hi H. unfold rejoin in H. apply M_bind_Ok_inv in H as (k' & v0 & [= Ek <-] & H).
  apply M_bind_Ok_inv in H as (text & v2 & [= Et <-] & H).
  eapply install_run in H as (-> & ? & ?); [done|exact Hv|exact Hi|exact Et|exact Ek].
Qed.

(** The stored wrapped key of a vault with an owner. *)
Lemma stored_run v p k :
  recoverable v p k -> exists w, stored_wrapped v = (Ok w, v) /\ unwrapMasterKey w p = Ok k.
Proof.
  intros (raw & w & E & [Hp Ht]%wrapped_text & Hw). exists w. split; [|done]. unfold stored_wrapped, mbind, M_bind, getS.
  by rewrite E Ht /liftR Hp.
Qed.

Lemma opened_run v p k : recoverable v p k -> opened p v = (Ok k, v).
Proof. intros (w & Es & Ew)%stored_run. unfold opened, mbind, M_bind. by rewrite Es /liftR Ew. Qed.

(** Unlocking a vault with its passphrase. *)
Lemma unlock_run refusals v p k :
  vault_inv refusals v (Some (p, k)) ->
  exists r v', unlock p v = (r, v') /\ vault_inv refusals v' (Some (p, k)) /\ v_masterKey v' = Some k
    /\ v_prefs v' = v_prefs v /\ v_deviceId v' = v_deviceId v
    /\ if takes_keys v then r = Ok tt /\ v_state v' = Unlocked else (exists e, r = Throw e) /\ v_state v' = v_state v.
Proof.
  intros (Hs & Hi & _). pose proof (opened_run v p k (proj2 (proj2 Hi))) as Eo. destruct (adopt k v) as [r v'] eqn:E.
  exists r, v'. split; [unfold unlock, mbind, M_bind; by rewrite Eo|]. by eapply adopt_inv.
Qed.

Lemma unlock_clean v p k :
  vault_inv false v (Some (p, k)) ->
  exists v', unlock p v = (Ok tt, v') /\ vault_inv false v' (Some (p, k)) /\ v_masterKey v' = Some k /\ v_state v' = Unlocked.
Proof.
  intros H. destruct (unlock_run false v p k H) as (r & v' & E & Hv' & Hk & _ & _ & Hr). destruct H as ((_ & _ & _ & Ha) & _).
  unfold takes_keys in Hr. rewrite Ha // orb_true_r in Hr. destruct Hr as [-> Hst]. by exists v'.
Qed.

Lemma change_inv refusals v p k q v' :
  vault_inv refusals v (Some (p, k)) -> changePassphrase p q v = (Ok tt, v') -> vault_inv refusals v' (Some (q, k)).
Proof.
  intros ((Hu & Hd & Hsec & Ha) & (Hi & Hf & Hr) & Hst) H. unfold changePassphrase in H.
  apply M_bind_Ok_inv in H as ([] & v0 & [= _ <-] & H). apply M_bind_Ok_inv in H as (w & v1 & H1 & H).
  destruct (stored_run v p k Hr) as (w' & Es & Ew). rewrite Es in H1. injection H1 as <- <-.
  apply M_bind_Ok_inv in H as (k' & v1 & H1 & H). unfold liftR in H1. rewrite Ew in H1. injection H1 as <- <-.
  apply M_bind_Ok_inv in H as (m & v1 & (Hk1 & Hs1 & Hi1 & _ & Hp1 & Hc1 & Hd1 & Ha1 & Hu1)%quiet_draws & H).
  apply M_bind_Ok_inv in H as (w2 & v2 & [= Ew2 <-] & H). apply M_bind_Ok_inv in H as (text & v2 & [= Et <-] & H).
  injection H as <-. unfold vault_inv, store_ok, installed, stash_ok in *. cbn. rewrite Hi1 Hp1 Hu1 Hk1 Hs1 Hc1 Hd1 Ha1.
  split_and!; try done; try apply Hst.
  - rewrite dom_insert_L. set_solver.
  - by rewrite lookup_insert_ne.
  - exists text, w2. cbn. rewrite lookup_insert_eq. split_and!; [done..|]. by eapply unwrap_wrap.
Qed.

Lemma secure_delete v : store_ok true v -> delete SECURE_MASTER_KEY (v_secure v) = ∅.
Proof. intros (_ & _ & [->|(_ & k & ->)] & _); [apply delete_empty|by rewrite delete_singleton_eq]. Qed.

Lemma store_ok_any refusals v : store_ok refusals v -> store_ok true v.
Proof. intros (? & ? & ? & _). by split_and!. Qed.

(** After locking no key is in memory, and none at rest unless the keystore refused. *)
Lemma lock_inv refusals v o v' : vault_inv refusals v o -> lock v = (Ok tt, v') ->
  vault_inv refusals v' o /\ v_masterKey v' = None /\ v_state v' <> Unlocked
  /\ v_secure v' = if takes_keys v then ∅ else v_secure v.
Proof.
  intros [Hs Ho] [= <-]. pose proof (secure_delete v (store_ok_any _ _ Hs)) as Hdel. destruct Hs as (Hu & Hd & Hsec & Ha).
  assert (v_secure (unstash (set_key None v)) = if takes_keys v then ∅ else v_secure v) as Hc.
  { unfold unstash, takes_keys. cbn. destruct (v_accepts v); [by rewrite orb_true_r|]. rewrite orb_false_r.
    destruct (v_durable v); [done|]. by destruct Hsec as [?|[? _]]. }
  assert (forall A (f : Vault Key -> A), (forall g u, f (set_secure g u) = f u) -> (forall k u, f (set_key k u) = f u) ->
    f (unstash (set_key None v)) = f v) as Hrest.
  { intros A f H1 H2. unfold unstash. destruct (v_accepts _); by rewrite ?H1 H2. }
  assert (v_masterKey (unstash (set_key None v)) = None) as Hk by by unfold unstash; destruct (v_accepts _).
  set (v1 := unstash (set_key None v)) in *.
  pose proof (Hrest _ v_vaultId ltac:(done) ltac:(done)) as Hi1. pose proof (Hrest _ v_prefs ltac:(done) ltac:(done)) as Hp1.
  pose proof (Hrest _ v_uuid ltac:(done) ltac:(done)) as Hu1. pose proof (Hrest _ v_durable ltac:(done) ltac:(done)) as Hd1.
  pose proof (Hrest _ v_accepts ltac:(done) ltac:(done)) as Ha1. clearbody v1.
  split_and!; cbn; [|done|by destruct (falsy _)|done]. unfold vault_inv, store_ok, installed, recoverable, stash_ok. cbn.
  rewrite Hi1 Hp1 Hu1 Hd1 Ha1 Hk Hc. split_and!; try done.
  - destruct (takes_keys v); [by left|done].
  - destruct o as [[p k]|].
    + destruct Ho as ((Hi & Hf & Hr) & _ & Hst). rewrite Hf. split_and!; try done. intros Hn. specialize (Ha Hn). split; [by right|].
      left. unfold takes_keys. by rewrite Ha orb_true_r.
    + destruct Ho as (Hi & _ & _ & Hid & Hn). rewrite -Hi Hid. cbn. split_and!; [done..|]. intros Hf. destruct (takes_keys v); [done|by apply Hn].
Qed.

Lemma device_step v :
  exists id v', (match v_prefs v !! KEY_DEVICE_ID with Some id => mret id | None => mintDeviceId end : M (Vault Key) string) v = (Ok id, v')
    /\ v_masterKey v' = v_masterKey v /\ v_state v' = v_state v /\ v_vaultId v' = v_vaultId v /\ v_secure v' = v_secure v
    /\ v_durable v' = v_durable v /\ v_accepts v' = v_accepts v /\ v_uuid v' = v_uuid v
    /\ (forall key, key <> KEY_DEVICE_ID -> v_prefs v' !! key = v_prefs v !! key)
    /\ dom (v_prefs v') ⊆ dom (v_prefs v) ∪ {[KEY_DEVICE_ID]}.
Proof.
  destruct (v_prefs v !! KEY_DEVICE_ID) as [id|].
  - exists id, v. split_and!; try done. set_solver.
  - unfold mintDeviceId, mbind, M_bind. cbn. eexists _, _. split; [reflexivity|]. cbn. split_and!; try done.
    + intros key Hne. by rewrite lookup_insert_ne.
    + rewrite dom_insert_L. set_solver.
Qed.

Lemma same_stash (k k' : Key) : toBase64 (exportKey k) = toBase64 (exportKey k') -> k = k'.
Proof.
  intros E. pose proof (unwrap_stashed k) as H1. rewrite E unwrap_stashed in H1. by injection H1.
Qed.

(** Starting the application again: it never fails, and what is owned is still owned. *)
Lemma boot_run refusals confirms v o :
  vault_inv refusals v o -> exists s v', initialise_vault confirms (restart v) = (Ok s, v') /\ vault_inv refusals v' o /\ v_state v' = s
    /\ (v_secure (restart v) = ∅ -> s <> Unlocked).
Proof.
  intros [(Hu & Hd & Hsec & Ha) Ho]. unfold initialise_vault, mbind, M_bind, getS, modifyS.
  set (v1 := set_vaultId (v_prefs (restart v) !! KEY_VAULT_ID) (restart v)). cbn iota beta.
  change (v_prefs (restart v)) with (v_prefs v1) at 1.
  destruct (device_step v1) as (id & v2 & E & Hk & Hs & Hid & Hse & Hdu & Ha2 & Huu & Hpr & Hdom). rewrite E. clear E.
  change (v_prefs (restart v)) with (v_prefs v) in *. change (v_prefs v1) with (v_prefs v) in *.
  assert (store_ok refusals v2) as Hok.
  { unfold store_ok. rewrite Huu Hse Hdu Ha2. split_and!; [done|set_solver| |done]. cbn. destruct (v_durable v); [|by left].
    destruct Hsec as [?|[_ ?]]; [by left|by right]. }
  assert (v_vaultId v2 = v_prefs v2 !! KEY_VAULT_ID) as Hid2 by by rewrite Hid Hpr.
  destruct o as [[p k]|]; cycle 1.
  { destruct Ho as (Hi & _ & _ & Hn & Hc). rewrite Hn in Hi. rewrite -Hi. cbn. eexists _, _. split; [reflexivity|].
    split; [|done]. split; [exact Hok|]. cbn. split_and!; try done.
    - by rewrite Hid2 Hpr // -Hi.
    - intros Hf. rewrite Hse. cbn. rewrite (Hc Hf). by destruct (v_durable v). }
  destruct Ho as ((Hi & Hf & (raw & w & Hraw & Hp & Hw)) & _ & Hst).
  destruct (wrapped_text w raw Hp) as [_ Ht]. rewrite -Hi Hf Hraw. change (falsy (Some raw)) with (negb (truthy raw)).
  rewrite Ht. cbn [negb orb].
  assert (installed v2 p k) as Hin.
  { split; [done|]. split; [by rewrite Hid2 Hpr // -Hi|]. exists raw, w. rewrite Hpr //. }
  assert (forall (st : VaultState) (key : option Key), (st = Unlocked -> is_Some key) ->
    (refusals = false -> ((st = Unlocked /\ key = Some k) \/ (st = Locked /\ key = None)) /\ stash_ok v2 k) ->
    vault_inv refusals (set_state st (set_key key (set_deviceId (Some id) v2))) (Some (p, k))) as Hfin.
  { intros st key Hc Hcl. split; [exact Hok|]. split; [exact Hin|]. split; [exact Hc|exact Hcl]. }
  assert (refusals = false -> stash_ok v2 k) as Hst2.
  { intros Hn. destruct (Hst Hn) as [_ Hs2]. unfold stash_ok. rewrite Hse Hdu. cbn. destruct (v_durable v); [|by left].
    by destruct Hs2 as [?|[_ ?]]; [left|right]. }
  assert (vault_inv refusals (set_state Locked (set_deviceId (Some id) v2)) (Some (p, k))) as Hlocked.
  { specialize (Hfin Locked None ltac:(done) (fun Hn => conj (or_intror (conj eq_refl eq_refl)) (Hst2 Hn))).
    unfold set_key, set_state, set_deviceId in *. cbn in *. by rewrite Hk. }
  change (v_secure (set_deviceId (Some id) v2)) with (v_secure v2). destruct (v_secure v2 !! SECURE_MASTER_KEY) as [stashed|] eqn:Es; cycle 1.
  { eexists _, _. by split. }
  assert (exists k0, stashed = toBase64 (exportKey k0) /\ (refusals = false -> k0 = k)) as (k0 & -> & Hk0).
  { destruct Hok as (_ & _ & [Hn|(_ & k0 & Hn)] & _); [by rewrite Hn in Es|]. exists k0. split.
    - rewrite Hn lookup_singleton_eq in Es. by injection Es as <-.
    - intros Hf2. apply same_stash. destruct (Hst2 Hf2) as [Hn2|[_ Hn2]]; rewrite Hn in Hn2;
        apply (f_equal (lookup SECURE_MASTER_KEY)) in Hn2; rewrite lookup_singleton_eq ?lookup_empty ?lookup_singleton_eq in Hn2;
        [discriminate Hn2|by injection Hn2]. }
  destruct (negb (truthy _)); [eexists _, _; by split|]. destruct (_ && _); [eexists _, _; by split|].
  pose proof (unwrap_stashed k0) as Hun. apply bind_Ok_inv in Hun as (raw2 & E1 & E2). unfold liftR. rewrite E1 E2.
  eexists _, _. split; [reflexivity|]. split; [|split; [done|]].
  - apply Hfin; [by eexists|]. intros Hn. split; [left; by rewrite (Hk0 Hn)|by apply Hst2].
  - intros Hn. rewrite -Hse in Hn. by rewrite Hn in Es.
Qed.

Lemma destroy_inv refusals v o v' : vault_inv refusals v o -> destroy v = (Ok tt, v') -> vault_inv refusals v' None.
Proof.
  intros Hv H. unfold destroy in H. apply M_bind_Ok_inv in H as ([] & v1 & H1 & H).
  destruct (lock_inv refusals v o v1 Hv H1) as (((Hu & Hd & Hsec & Ha) & _) & Hk & _ & Hc). injection H as <-.
  split; [split_and!; try done|split_and!; try done].
  - cbn. rewrite !dom_delete_L. set_solver.
  - cbn. by rewrite lookup_delete_ne // lookup_delete_eq.
  - intros Hn. cbn. rewrite Hc. destruct Hv as ((_ & _ & _ & Hav) & _). unfold takes_keys. by rewrite (Hav Hn) orb_true_r.
Qed.

Lemma biometric_inv refusals v o b v' : vault_inv refusals v o -> setEnabled b v = (Ok tt, v') -> vault_inv refusals v' o.
Proof.
  intros [(Hu & Hd & Hsec & Ha) Ho] [= <-]. split; [split_and!; try done|].
  - cbn. rewrite dom_insert_L. set_solver.
  - cbn. destruct o as [[p k]|].
    + destruct Ho as ((Hi & Hf & (raw & w & Hr & Hw)) & Hst & Hcl). split; [|split; [exact Hst|exact Hcl]].
      split; [cbn; by rewrite lookup_insert_ne|]. split; [exact Hf|]. exists raw, w. cbn. by rewrite lookup_insert_ne.
    + by rewrite lookup_insert_ne.
Qed.

Lemma run_inv refusals v o : vault_run refusals v o -> vault_inv refusals v o.
Proof.
  induction 1 as [v (Hk & Hs & Hi & Hp & Hc & Ha & Hu)|v o b Hr _ IH|v o p k v1 r v' _ IH H E|v o i w p k v1 r v' _ IH Hi H E
    |v p k r v' _ IH H|v p k q v' _ IH H|v o A act e v' _ IH Ha H|v o v' _ IH H|v o b v' _ IH H|v o c s v' _ IH H|v o v' _ IH H].
  - unfold vault_inv, store_ok. rewrite Hp Hi Hc Hs Hk. split_and!; try done. by left.
  - destruct IH as [(? & ? & ? & _) Ho]. split; [|exact Ho]. split_and!; try done. congruence.
  - destruct (prepare_installs _ _ _ _ _ (proj1 IH) H) as [H1 H2]. by destruct (adopt_inv _ _ _ _ _ _ H1 H2 E).
  - destruct (rejoin_installs _ _ _ _ _ _ _ (proj1 IH) Hi H) as [H1 H2]. by destruct (adopt_inv _ _ _ _ _ _ H1 H2 E).
  - destruct (unlock_run _ v p k IH) as (r1 & v1 & E & Hv1 & _). rewrite E in H. by injection H as _ <-.
  - by eapply change_inv.
  - eapply inv_alike; [by eapply attempt_fails|done].
  - by apply (lock_inv refusals v o v').
  - by eapply biometric_inv.
  - destruct (boot_run refusals c v o IH) as (s' & v1 & E & Hv1 & _). rewrite E in H. by injection H as _ <-.
  - by eapply destroy_inv.
Qed.
End Proofs.

(** * Properties *)

(** C11: A vault opens to its own key.  On any device, after any history of creating,
    restoring, locking, passphrase changes, restarts and failed calls, the keystore of the
    platform refusing or not, giving the current passphrase brings the key into memory
    under the same vault identity; if the keystore takes keys, or there is none, that
    unlocks the screen, and if it refuses, the call fails and the screen stays as it was.
    An unlocked screen always has a key; and in a history without refusals it has that of
    the vault, and a locked one has none. *)
Theorem vault_always_opens {Key} `{!WebCrypto Key} `{!WebCryptoLaws Key} refusals (v : Vault Key) p k :
  vault_run refusals v (Some (p, k)) ->
  (exists r v' i, unlock p v = (r, v') /\ requireKey (session v') = Ok k
     /\ requireVaultId (session v) = Ok i /\ requireVaultId (session v') = Ok i
     /\ if takes_keys v then r = Ok tt /\ isUnlocked v' = true else (exists e, r = Throw e) /\ isUnlocked v' = isUnlocked v)
  /\ (isUnlocked v = true -> exists k', requireKey (session v) = Ok k')
  /\ (refusals = false -> takes_keys v = true /\ requireKey (session v) = if isUnlocked v then Ok k else Throw VaultLockedError).
Proof.
  intros H%run_inv. split_and!.
  - destruct (unlock_run refusals v p k H) as (r & v' & E & H' & Hk & Hp & _ & Hr).
    destruct H as (_ & (Hi & Hf & _) & _). destruct H' as (_ & (Hi' & _) & _). exists r, v'.
    unfold requireVaultId, requireKey, isUnlocked. cbn. rewrite Hk Hi' Hp -Hi. unfold falsy in Hf. apply negb_false_iff in Hf.
    destruct (v_vaultId v) as [i|]; [|done]. cbn in Hf. exists i. rewrite Hf. split_and!; try done.
    destruct (takes_keys v); destruct Hr as [Hr ->]; [by split|by split].
  - destruct H as (_ & _ & Hst & _). unfold isUnlocked, requireKey. cbn. rewrite bool_decide_eq_true.
    intros [k' ->]%Hst. by exists k'.
  - intros Hn. destruct H as ((_ & _ & _ & Ha) & _ & _ & Hst). destruct (Hst Hn) as [Hst' _]. split.
    + unfold takes_keys. by rewrite (Ha Hn) orb_true_r.
    + unfold requireKey, isUnlocked. cbn. by destruct Hst' as [[-> ->]|[-> ->]].
Qed.

(** C12: the bare key is never at rest in the open: [Preferences] holds four entries, of
    which only the wrapped key has to do with the key, as its encryption under a key
    derived from the passphrase; a copy of the key itself is kept only in a store that
    the platform protects.  Refusals of that store change nothing of this. *)
Theorem key_never_at_rest_in_the_open {Key} `{!WebCrypto Key} `{!WebCryptoLaws Key} refusals (v : Vault Key) p k :
  vault_run refusals v (Some (p, k)) ->
  dom (v_prefs v) ⊆ {[KEY_VAULT_ID; KEY_DEVICE_ID; KEY_WRAPPED; ENABLED_KEY]}
  /\ (exists raw w salt kek iv secret, v_prefs v !! KEY_WRAPPED = Some raw /\ parse_wrapped raw = Ok w
        /\ fromBase64 (wk_salt w) = Ok salt /\ deriveKek p salt (wk_iterations w) = Ok kek
        /\ fromBase64 (wk_key w) = Ok (encrypt kek iv WRAP_AAD secret) /\ importKey secret = k)
  /\ (v_durable v = false -> v_secure v = ∅).
Proof.
  intros ((_ & Hd & Hs & _) & (_ & _ & (raw & w & Hraw & Hw & Hu)) & _)%run_inv. split_and!; [done| |].
  - apply wrapped_text in Hw as [Hw _]. unfold unwrapMasterKey in Hu. destruct (_ || _) in Hu; [done|].
    apply bind_Ok_inv in Hu as (salt & Hsalt & (kek & Hkek & Hu)%bind_Ok_inv).
    destruct (fromBase64 (wk_iv w)) as [iv|]; [|done]. rewrite bind_Ok in Hu. destruct (fromBase64 (wk_key w)) as [ct|] eqn:Ek; [|done].
    rewrite bind_Ok in Hu. cbn [mret result_ret] in Hu. destruct (decrypt kek iv WRAP_AAD ct) as [secret|] eqn:Ed; [|done].
    apply decrypt_only in Ed. exists raw, w, salt, kek, iv, secret. split_and!; [done..|by rewrite Ek Ed|].
    unfold importMasterKey in Hu. destruct (negb _); [done|]. by injection Hu as <-.
  - intros Hdur. destruct Hs as [?|[? _]]; congruence.
Qed.

(** C17: Locking forgets the key.  Afterwards none is in memory and every screen behind the
    guard sends the user to the unlock screen.  If the keystore took the removal, or there
    is none, nothing at rest holds it either and no restart opens the vault by itself,
    whatever is confirmed on it; if the keystore refused, the copy it held stays there. *)
Theorem lock_forgets_the_key {Key} `{!WebCrypto Key} `{!WebCryptoLaws Key} refusals (v : Vault Key) o v' :
  vault_run refusals v o -> lock v = (Ok tt, v') ->
  requireKey (session v') = Throw VaultLockedError /\ vaultGuard v' = Some "/vault" /\ unlockedRedirectGuard v' = None
  /\ if takes_keys v then
       v_secure v' = ∅
       /\ forall confirms, exists s v'', initialise_vault confirms (restart v') = (Ok s, v'') /\ s <> Unlocked
            /\ vaultGuard v'' = Some "/vault"
     else v_secure v' = v_secure v.
Proof.
  intros Hv%run_inv E. destruct (lock_inv refusals v o v' Hv E) as (Hv' & Hk & Hs & Hc).
  unfold vaultGuard, unlockedRedirectGuard, isUnlocked, requireKey. cbn. rewrite Hk bool_decide_eq_false_2 //. split_and!; [done..|].
  destruct (takes_keys v); [|exact Hc]. split; [exact Hc|]. intros confirms.
  destruct (boot_run refusals confirms v' o Hv') as (s & v'' & Eb & _ & Hst'' & Hno). exists s, v''. split; [done|].
  assert (s <> Unlocked) as Hns by (apply Hno; cbn; rewrite Hc; by destruct (v_durable v')). split; [done|].
  rewrite bool_decide_eq_false_2 //. by rewrite Hst''.
Qed.

(** a second device joins with the recovery bundle and the passphrase: it comes to
    hold the same key under the same vault identity, so what either seals the other opens. *)
Theorem restored_device_reads_the_vault {Key} `{!WebCrypto Key} `{!WebCryptoLaws Key} refusals (va vb : Vault Key) p k ob :
  vault_run refusals va (Some (p, k)) -> vault_run false vb ob ->
  exists i w vb', exportWrappedKey va = (Ok (Some (i, w)), va) /\ restore i w p vb = (Ok tt, vb')
    /\ requireVaultId (session va) = Ok i /\ requireVaultId (session vb') = Ok i
    /\ requireKey (session vb') = Ok k
    /\ forall n header value b, json_ok value = true -> seal_json n k (header_json header) value = Ok b ->
         open_json k b = Ok (header_json header, value).
Proof.
  intros (_ & (Hi & Hf & (raw & w & Hraw & Hw & Hu)) & _)%run_inv ((_ & _ & _ & Hacc) & _)%run_inv.
  destruct (wrapped_text w raw Hw) as [Hp Ht].
  destruct (v_vaultId va) as [i|] eqn:Ei; [|done]. unfold falsy in Hf. cbn in Hf. apply negb_false_iff in Hf.
  set (v3 := set_vaultId (Some i) (set_prefs <[KEY_WRAPPED := raw]> (set_prefs <[KEY_VAULT_ID := i]> vb))).
  destruct (adopt_run k v3) as (vb' & E & Hk & Hs & Hid & _).
  { unfold takes_keys. cbn. by rewrite (Hacc eq_refl) orb_true_r. }
  exists i, w, vb'.
  assert (restore i w p vb = (Ok tt, vb')) as Hr.
  { unfold restore, rejoin, mbind, M_bind, liftR. rewrite Hu Hw. exact E. }
  split_and!; [|done|..].
  - unfold exportWrappedKey, mbind, M_bind, getS. rewrite -Hi Hraw Hf Ht. cbn [negb orb]. unfold liftR. by rewrite Hp.
  - unfold requireVaultId. cbn. by rewrite Ei Hf.
  - unfold requireVaultId. cbn. rewrite Hid. cbn. by rewrite Hf.
  - unfold requireKey. cbn. by rewrite Hk.
  - intros n header value b Hok Hseal. eapply open_seal_json; [apply header_json_ok|done|exact Hseal].
Qed.

(** * Witnesses *)

(** Two phones with nothing on them, and a vault created on the first. *)
Definition new_phone (uuid : string) : Vault bool :=
  mkVault None Uninitialised None None ∅ ∅ true true (fun _ => uuid) 0 0.
Definition phone_a : Vault bool := snd (create "correct horse" (new_phone "vault-1")).

Lemma new_phone_run uuid : truthy uuid = true -> vault_run false (new_phone uuid) None.
Proof. intros H. apply vr_fresh. by split_and!. Qed.

Lemma phone_a_run : vault_run false phone_a (Some ("correct horse", false)).
Proof.
  eapply (vr_create false (new_phone "vault-1")); [by apply new_phone_run|vm_compute; reflexivity|].
  vm_compute. reflexivity.
Qed.

Lemma vault_always_opens_witness :
  (exists r v' i, unlock "correct horse" phone_a = (r, v') /\ requireKey (session v') = Ok false
     /\ requireVaultId (session phone_a) = Ok i /\ requireVaultId (session v') = Ok i
     /\ r = Ok tt /\ isUnlocked v' = true)
  /\ requireKey (session phone_a) = Ok false.
Proof.
  destruct (vault_always_opens false phone_a "correct horse" false phone_a_run) as (H1 & _ & H2).
  split; [exact H1|exact (proj2 (H2 eq_refl))].
Defined.

Lemma key_never_at_rest_in_the_open_witness :
  dom (v_prefs phone_a) ⊆ {[KEY_VAULT_ID; KEY_DEVICE_ID; KEY_WRAPPED; ENABLED_KEY]}.
Proof. exact (proj1 (key_never_at_rest_in_the_open false phone_a "correct horse" false phone_a_run)). Defined.

Lemma lock_forgets_the_key_witness :
  requireKey (session (snd (lock phone_a))) = Throw VaultLockedError /\ v_secure (snd (lock phone_a)) = ∅.
Proof.
  destruct (lock_forgets_the_key false phone_a _ (snd (lock phone_a)) phone_a_run eq_refl) as (H1 & _ & _ & H2 & _).
  exact (conj H1 H2).
Defined.

Lemma restored_device_reads_the_vault_witness :
  exists i w vb', exportWrappedKey phone_a = (Ok (Some (i, w)), phone_a)
    /\ restore i w "correct horse" (new_phone "unused") = (Ok tt, vb') /\ requireKey (session vb') = Ok false.
Proof.
  destruct (restored_device_reads_the_vault false phone_a (new_phone "unused") "correct horse" false None phone_a_run
    (new_phone_run "unused" eq_refl)) as (i & w & vb' & E1 & E2 & _ & _ & E3 & _).
  exists i, w, vb'. exact (conj E1 (conj E2 E3)).
Defined.

(** * Behaviours that are not meant *)

(** The keystore refuses a removal: the vault says it is locked, and the next start opens
    it without the passphrase. *)
Lemma a_refused_removal_reopens_the_vault :
  let locked := snd (lock (set_accepts false phone_a)) in
  isUnlocked locked = false /\ fst (initialise_vault true (restart locked)) = Ok Unlocked.
Proof. split; vm_compute; reflexivity. Qed.

(** The keystore refuses a key: unlocking fails and the screen stays locked, with the key
    in memory for whoever asks the service. *)
Lemma a_refused_key_is_held_behind_a_locked_screen :
  let locked := snd (lock phone_a) in
  let refused := unlock "correct horse" (set_accepts false locked) in
  fst refused <> Ok tt /\ isUnlocked (snd refused) = false /\ requireKey (session (snd refused)) = Ok false.
Proof. vm_compute. by split_and!. Qed.
