(* ===== verification/Device.v ===== *)
(** The device under the vault: the secret store of the installed app and of the browser
    ([core/keys/secure-store.ts]) and what can be asked of the person
    ([core/keys/biometric.service.ts]).  [Vault] keeps its secrets in a map; here the store
    of the installed app is shown to be one, over the plugin as a parameter. *)
From S2P Require Export Vault.
#[local] Open Scope string_scope.
#[local] Open Scope Z_scope.

(** * Definitions *)

(** ** secure-store.ts *)

(** The operations the rest of the program uses, and what they answer. *)
Class SecureStore (Store : Type) := mkSecureStore {
  store_durable : bool;
  store_get : string -> Store -> option string;
  store_set : string -> string -> Store -> result unit * Store;
  store_remove : string -> Store -> Store }.

(** [MemorySecureStore] *)
#[export] Instance MemorySecureStore : SecureStore (gmap string string) := {|
  store_durable := false;
  store_get key secrets := secrets !! key;
  store_set key value secrets := (Ok tt, <[key := value]> secrets);
  store_remove key secrets := delete key secrets |}.

Section Native.
(** The keystore plugin of the platform: it throws for a missing key. *)
Context {Plugin : Type} (plugin_get : string -> Plugin -> result string)
  (plugin_set : string -> string -> Plugin -> result unit * Plugin) (plugin_remove : string -> Plugin -> result unit * Plugin).

Definition native_get (key : string) (p : Plugin) : option string :=
  match plugin_get key p with Ok value => Some value | Throw _ => None end.
Definition native_set (key value : string) (p : Plugin) : result unit * Plugin := plugin_set key value p.

(** Whatever the plugin throws is taken for a key already absent. *)
Definition native_remove (key : string) (p : Plugin) : Plugin := snd (plugin_remove key p).

Definition NativeSecureStore : SecureStore Plugin := {|
  store_durable := true; store_get := native_get; store_set := native_set; store_remove := native_remove |}.
End Native.

(** ** biometric.service.ts *)

Inductive BiometricAvailability : Type := Available (kind : string) | Unavailable (reason : string).

Definition describe (type : Z) : string :=
  match type with
  | 1 => "Touch ID" | 2 => "Face ID" | 3 => "Fingerprint" | 4 => "Face unlock" | 5 => "Iris" | 7 => "Device PIN"
  | _ => "Biometrics"
  end.

(** [asked] is what the plugin says: whether it can check, and how. *)
Definition availability (native : bool) (asked : result (bool * Z)) : BiometricAvailability :=
  if negb native then Unavailable "Only on the installed app"
  else match asked with
       | Ok (true, type) => Available (describe type)
       | Ok (false, _) => Unavailable "No fingerprint, face or screen lock is set up"
       | Throw _ => Unavailable "This device cannot check"
       end.

(** * Specification *)

Inductive StoreOp : Type := GetOp (key : string) | SetOp (key value : string) | RemoveOp (key : string).

(** What a client sees of a store over a list of calls. *)
Section Observe.
Context {Store : Type} (S : SecureStore Store).
Fixpoint observe_store (ops : list StoreOp) (s : Store) : list (option string) * Store :=
  match ops with
  | [] => ([], s)
  | GetOp key :: rest => let '(seen, s') := observe_store rest s in (store_get key s :: seen, s')
  | SetOp key value :: rest => observe_store rest (snd (store_set key value s))
  | RemoveOp key :: rest => observe_store rest (store_remove key s)
  end.
End Observe.

(** What the plugin documents, over the secrets it holds. *)
Record plugin_laws {Plugin : Type} (plugin_get : string -> Plugin -> result string)
    (plugin_set : string -> string -> Plugin -> result unit * Plugin) (plugin_remove : string -> Plugin -> result unit * Plugin)
    (secrets : Plugin -> gmap string string) : Prop := mkPluginLaws {
  pl_get : forall key p, match secrets p !! key with
                         | Some value => plugin_get key p = Ok value
                         | None => exists e, plugin_get key p = Throw e
                         end;
  pl_set : forall key value p, secrets (snd (plugin_set key value p)) = <[key := value]> (secrets p);
  pl_remove : forall key p, is_Some (secrets p !! key) -> secrets (snd (plugin_remove key p)) = delete key (secrets p);
  pl_absent : forall key p, secrets p !! key = None -> secrets (snd (plugin_remove key p)) = secrets p }.

(** * Properties *)

(** The store of the installed app is the map the vault takes it for: over a plugin that
    keeps what it is given and throws for what it does not hold, every list of calls sees
    what the store in memory shows, and leaves the secrets that one holds. *)
Theorem native_store_is_a_map {Plugin : Type} plugin_get plugin_set plugin_remove (secrets : Plugin -> gmap string string) ops p :
  plugin_laws plugin_get plugin_set plugin_remove secrets ->
  let native := observe_store (NativeSecureStore plugin_get plugin_set plugin_remove) ops p in
  let memory := observe_store MemorySecureStore ops (secrets p) in
  fst native = fst memory /\ secrets (snd native) = snd memory.
Proof.
  intros L. revert p. induction ops as [|[key|key value|key] ops IH]; intros p; cbn; [done| | |].
  - specialize (IH p). destruct (observe_store _ ops p) as [seen p'], (observe_store MemorySecureStore ops (secrets p)) as [seen' s'].
    cbn in *. destruct IH as [-> ->]. split; [|done]. f_equal. unfold native_get. pose proof (pl_get _ _ _ _ L key p) as H.
    destruct (secrets p !! key); [by rewrite H|by destruct H as [e ->]].
  - rewrite -(pl_set _ _ _ _ L). apply IH.
  - assert (secrets (native_remove plugin_remove key p) = delete key (secrets p)) as <-; [|apply IH].
    unfold native_remove. destruct (secrets p !! key) eqn:E; [by apply (pl_remove _ _ _ _ L)|].
    by rewrite (pl_absent _ _ _ _ L key p E) delete_id.
Qed.

(** * Witnesses *)

Definition demo_plugin_get (key : string) (p : gmap string string) : result string :=
  match p !! key with Some v => Ok v | None => Throw (JsError "Item with given key does not exist") end.
Definition demo_plugin_set (key value : string) (p : gmap string string) : result unit * gmap string string := (Ok tt, <[key := value]> p).
Definition demo_plugin_remove (key : string) (p : gmap string string) : result unit * gmap string string :=
  match p !! key with
  | Some _ => (Ok tt, delete key p)
  | None => (Throw (JsError "Item with given key does not exist"), p)
  end.

Lemma demo_plugin_laws : plugin_laws demo_plugin_get demo_plugin_set demo_plugin_remove id.
Proof.
  split; unfold demo_plugin_get, demo_plugin_remove, id; intros.
  - destruct (p !! key); [done|by eexists].
  - done.
  - destruct H as [v ->]. done.
  - by rewrite H.
Qed.

Lemma native_store_is_a_map_witness :
  fst (observe_store (NativeSecureStore demo_plugin_get demo_plugin_set demo_plugin_remove)
         [SetOp "k" "secret"; GetOp "k"; RemoveOp "k"; RemoveOp "k"; GetOp "k"] ∅) = [Some "secret"; None].
Proof.
  rewrite (proj1 (native_store_is_a_map _ _ _ id [SetOp "k" "secret"; GetOp "k"; RemoveOp "k"; RemoveOp "k"; GetOp "k"] ∅ demo_plugin_laws)).
  vm_compute. reflexivity.
Defined.

(** * Behaviours that are not meant *)

(** A removal the platform refuses passes for one of a key already absent: the caller goes
    on, and the key is still there for the next start. *)
Lemma a_refused_removal_goes_unnoticed :
  let refusing (key : string) (p : gmap string string) := (Throw (JsError "keystore busy"), p) in
  let native := NativeSecureStore demo_plugin_get demo_plugin_set refusing in
  fst (observe_store native [SetOp SECURE_MASTER_KEY "key"; RemoveOp SECURE_MASTER_KEY; GetOp SECURE_MASTER_KEY] ∅) = [Some "key"].
Proof. vm_compute. reflexivity. Qed.
