(* ===== verification/Routes.v ===== *)
(** The table of routes ([app/app.routes.ts]) with the guards of [core/keys/vault.guard.ts].
    The router of Angular matches an address against it and runs the guards of every route
    on the way to a page; what it can reach is a branch of the table. *)
From S2P Require Export Vault.
#[local] Open Scope string_scope.

(** * Definitions *)

Inductive Page : Type :=
| VaultPage | TabsPage | DashboardPage | TransactionsPage | AccountsPage | SettingsPage | BudgetsPage | AccountGroupsPage
| RulesPage | DataPage | RatesPage | ReportsPage | SyncSettingsPage | CategoriesPage | TotalsSettingsPage | SecurityPage.
#[export] Instance Page_eq_dec : EqDecision Page.
Proof. solve_decision. Defined.

Inductive Guard : Type := VaultGuard | UnlockedRedirectGuard.
#[export] Instance Guard_eq_dec : EqDecision Guard.
Proof. solve_decision. Defined.

Inductive Route : Type :=
| Screen (path : string) (canActivate : list Guard) (component : Page) (children : list Route)
| RedirectTo (path to : string) (pathMatch_full : bool).

Definition routes : list Route :=
  [ Screen "vault" [UnlockedRedirectGuard] VaultPage [];
    Screen "tabs" [VaultGuard] TabsPage
      [ Screen "dashboard" [] DashboardPage [];
        Screen "transactions" [] TransactionsPage [];
        Screen "accounts" [] AccountsPage [];
        Screen "settings" [] SettingsPage [];
        RedirectTo "" "dashboard" true ];
    Screen "budgets" [VaultGuard] BudgetsPage [];
    Screen "account-groups" [VaultGuard] AccountGroupsPage [];
    Screen "recurring" [VaultGuard] RulesPage [];
    Screen "data" [VaultGuard] DataPage [];
    Screen "rates" [VaultGuard] RatesPage [];
    Screen "reports" [VaultGuard] ReportsPage [];
    Screen "settings/sync" [VaultGuard] SyncSettingsPage [];
    Screen "settings/categories/:kind" [VaultGuard] CategoriesPage [];
    Screen "settings/totals" [VaultGuard] TotalsSettingsPage [];
    Screen "settings/security" [VaultGuard] SecurityPage [];
    RedirectTo "" "tabs/dashboard" true;
    RedirectTo "**" "tabs/dashboard" false ].

(** A branch: its address, the guards on the way and the pages it shows, one in another. *)
Record Branch : Type := mkBranch { br_path : string; br_guards : list Guard; br_pages : list Page }.

Fixpoint branches (r : Route) : list Branch :=
  match r with
  | Screen path guards page children =>
      mkBranch ("/" ++ path) guards [page]
      :: map (fun b => mkBranch ("/" ++ path ++ br_path b) (app guards (br_guards b)) (page :: br_pages b))
           (flat_map branches children)
  | RedirectTo _ _ _ => []
  end.
Definition all_branches : list Branch := flat_map branches routes.

Section Guards.
Context {Key : Type}.

Definition run_guard (g : Guard) (v : Vault Key) : option string :=
  match g with VaultGuard => vaultGuard v | UnlockedRedirectGuard => unlockedRedirectGuard v end.

(** [None] shows the branch; [Some url] sends the person there instead. *)
Fixpoint activate_guards (guards : list Guard) (v : Vault Key) : option string :=
  match guards with
  | [] => None
  | g :: rest => match run_guard g v with Some url => Some url | None => activate_guards rest v end
  end.
Definition activate (b : Branch) (v : Vault Key) : option string := activate_guards (br_guards b) v.
End Guards.

(** * Lemmas *)

#[export] Instance Branch_eq_dec : EqDecision Branch.
Proof. solve_decision. Defined.

Lemma every_branch_is_guarded : Forall (fun b => br_guards b = if bool_decide (br_pages b = [VaultPage]) then [UnlockedRedirectGuard] else [VaultGuard]) all_branches.
Proof. apply (bool_decide_unpack _). vm_compute. exact I. Qed.

(** * Properties *)

(** Nothing of the ledger is shown without the key: whatever address is followed, a page
    other than the unlock screen is shown only if the vault is unlocked, and the unlock
    screen only if it is not; who is turned away is sent to an address of the table that
    lets them in, so no chain of redirections goes round. *)
Theorem only_the_unlock_screen_without_the_key {Key : Type} (v : Vault Key) b :
  b ∈ all_branches ->
  (activate b v = None <-> (isUnlocked v = false <-> br_pages b = [VaultPage]))
  /\ forall url, activate b v = Some url ->
       exists b', b' ∈ all_branches /\ br_path b' = url /\ activate b' v = None
                  /\ br_pages b' = if isUnlocked v then [TabsPage; DashboardPage] else [VaultPage].
Proof.
  intros Hb. pose proof (proj1 (Forall_forall _ _) every_branch_is_guarded b Hb) as Hg. cbn beta in Hg.
  unfold activate. rewrite Hg.
  assert (exists b1 b2, b1 ∈ all_branches /\ b2 ∈ all_branches /\ b1 = mkBranch "/vault" [UnlockedRedirectGuard] [VaultPage]
    /\ b2 = mkBranch "/tabs/dashboard" [VaultGuard] [TabsPage; DashboardPage]) as (b1 & b2 & H1 & H2 & E1 & E2).
  { eexists _, _. split_and!; [| |reflexivity|reflexivity]; vm_compute; repeat first [left; fail|constructor]. }
  case_bool_decide as E; cbn; unfold run_guard, vaultGuard, unlockedRedirectGuard; destruct (isUnlocked v) eqn:Eu; cbn.
  all: split; [naive_solver|]; intros url [= <-]; 
    first [exists b1; subst b1; split_and!; [done|done| |done]|exists b2; subst b2; split_and!; [done|done| |done]];
    cbn; unfold run_guard, vaultGuard, unlockedRedirectGuard; by rewrite Eu.
Qed.

(** * Witnesses *)

Definition demo_locked : Vault string := mkVault None Locked (Some "v") (Some "d") ∅ ∅ true true (fun _ => "") 0 0.
Definition data_branch : Branch := mkBranch "/data" [VaultGuard] [DataPage].

Lemma only_the_unlock_screen_without_the_key_witness :
  data_branch ∈ all_branches /\ activate data_branch demo_locked = Some "/vault"
  /\ exists b', b' ∈ all_branches /\ br_path b' = "/vault" /\ br_pages b' = [VaultPage].
Proof.
  assert (data_branch ∈ all_branches) as Hin by (apply (bool_decide_unpack _); vm_compute; exact I). split; [exact Hin|]. split; [reflexivity|].
  destruct (proj2 (only_the_unlock_screen_without_the_key demo_locked data_branch Hin) "/vault" eq_refl) as (b' & H1 & H2 & _ & H3).
  by exists b'.
Defined.
