(* ===== verification/Backup.v ===== *)
(** Backups ([app/src/app/core/backup]): the file and its checks ([backup.ts]), writing,
    inspecting and restoring it ([backup.service.ts]). *)
From S2P Require Export Vault Ledger.
#[local] Open Scope string_scope.
#[local] Open Scope Z_scope.

(** * Definitions *)

(** ** backup.ts *)

Definition BACKUP_FORMAT : Z := 1.

(** [entities] as the object it is: a section of rows by entity name. *)
Record BackupPayload : Type := mkBackup {
  bk_format : Z; bk_takenAt : Z; bk_vaultId : string; bk_entities : list (string * json) }.

(** [rows?.length ?? 0]. *)
Definition row_count (v : json) : nat := match v with JArr l => length l | JStr s => String.length s | _ => 0 end.
Definition countRows (payload : BackupPayload) : nat := list_sum (map (fun kv => row_count kv.2) (bk_entities payload)).

(** A value inside a template string. *)
Definition template (v : json) : result string :=
  match v with
  | JNull => Ok "null" | JBool true => Ok "true" | JBool false => Ok "false" | JNum n => Ok (num_to_string n) | JStr s => Ok s
  | JObj _ => Ok "[object Object]"
  | JReal _ | JArr _ => Throw (OutsideModel "the text of a number or an array in a message")
  end.

(** [Object.entries] of an object or an array; [None] for what is neither. *)
Definition object_entries (v : json) : option (list (string * json)) :=
  match v with
  | JObj fields => Some fields
  | JArr l => Some (imap (fun i x => (num_to_string (Z.of_nat i), x)) l)
  | _ => None
  end.

Fixpoint check_sections (entries : list (string * json)) : result unit :=
  match entries with
  | [] => Ok tt
  | (name, rows) :: rest =>
      match as_entity_name (JStr name), rows with
      | None, _ => Throw (BackupFormatError ("The backup contains unknown data (" ++ dquote ++ name ++ dquote ++ ")"))
      | Some _, JArr _ => check_sections rest
      | Some _, _ => Throw (BackupFormatError ("The backup's " ++ dquote ++ name ++ dquote ++ " section is malformed"))
      end
  end.

Definition validateBackup (value : json) : result BackupPayload :=
  match object_entries value with
  | None => Throw (BackupFormatError "That file does not contain a backup")
  | Some _ =>
      match field "format" value with
      | None => Throw (BackupFormatError "That file does not contain a backup")
      | Some format =>
          if negb (match format with JNum n => n =? BACKUP_FORMAT | _ => false end) then
            text ← template format;
            Throw (BackupFormatError ("This backup was written by a newer version of Easy Docket (format " ++ text ++ ")"))
          else
            match field "vaultId" value with
            | Some (JStr vaultId) =>
                if String.eqb vaultId "" then Throw (BackupFormatError "The backup does not say which vault it came from")
                else
                  match field "entities" value ≫= object_entries with
                  | None => Throw (BackupFormatError "The backup contains no entities")
                  | Some entries =>
                      _ ← check_sections entries;
                      takenAt ← match field "takenAt" value with
                                | Some (JNum n) => Ok n
                                | Some (JReal _) => Throw (OutsideModel "a time that is no integer")
                                | _ => Ok 0
                                end;
                      mret (mkBackup BACKUP_FORMAT takenAt vaultId entries)
                  end
            | _ => Throw (BackupFormatError "The backup does not say which vault it came from")
            end
      end
  end.

Definition payload_json (p : BackupPayload) : json :=
  JObj [("format", JNum (bk_format p)); ("takenAt", JNum (bk_takenAt p)); ("vaultId", JStr (bk_vaultId p));
        ("entities", JObj (bk_entities p))].

(** ** backup.service.ts *)

Record RestoreResult : Type := mkRestored { restored : nat; skipped : nat }.

Section Service.
Context {Key : Type} `{!WebCrypto Key}.
Context (vault : VaultSession Key).

Definition table_json (s : App) (name : EntityName) : string * json :=
  (entity_name name, JArr (map tree_entity (table_rows name s))).

Definition build : M App BackupPayload :=
  s ← getS;
  takenAt ← Date_now;
  vaultId ← liftR (requireVaultId vault);
  mret (mkBackup BACKUP_FORMAT takenAt vaultId (map (table_json s) ENTITY_NAMES)).

(** The contents of the file handed to the user, and the rows in it; [n] is the draw of
    the random source the seal uses. *)
Definition export (n : nat) : M App (string * nat) :=
  payload ← build;
  key ← liftR (requireKey vault);
  device ← liftR (requireDeviceId vault);
  sealed ← liftR (seal_json n key (header_json (mkHeader (bk_vaultId payload) device "" "backup")) (payload_json payload));
  mret (toBase64 sealed, countRows payload).

Definition not_ours {A} : result A :=
  Throw (BackupFormatError "That file is not an Easy Docket backup, or it was made by a different vault").

Definition inspect (contents : string) : result BackupPayload :=
  match (sealed ← fromBase64 (trim contents); key ← requireKey vault; open_json key sealed) with
  | Throw (OutsideModel why) => Throw (OutsideModel why)
  | Throw _ => not_ours
  | Ok (_, value) =>
      payload ← validateBackup value;
      vaultId ← requireVaultId vault;
      if negb (String.eqb (bk_vaultId payload) vaultId) then Throw (BackupFormatError "That backup belongs to a different vault")
      else Ok payload
  end.
End Service.

(** *** Rows as restoring finds and leaves them

    Restoring does not look at what a row holds: one that is not of the type of its table is
    stored and sent like any other.  The tables of the model hold rows of their type, so such
    strays are kept apart, with the operations that carry them.  Nothing else in the model
    reads them. *)
Record StrayOp : Type := mkStrayOp { so_entity : EntityName; so_entityId : string; so_value : json; so_device : string }.
Record Shelf : Type := mkShelf { sh_app : App; sh_strays : gmap (EntityName * string) json; sh_strayOps : gmap string StrayOp }.

Inductive Row : Type := Typed (v : AnyEntity) | Stray (row : json).
Definition row_stamp (w : Row) : string :=
  match w with
  | Typed v => entity_updatedAt v
  | Stray row => match field "updatedAt" row with Some (JStr stamp) => stamp | _ => "" end
  end.
Definition row_at (place : EntityName * string) (sh : Shelf) : option Row :=
  match sh_strays sh !! place with Some row => Some (Stray row) | None => Typed <$> rows (sh_app sh) !! place end.

Definition on_typed {A} (m : M App A) : M Shelf A := fun sh =>
  let '(r, s) := m (sh_app sh) in (r, mkShelf s (sh_strays sh) (sh_strayOps sh)).

(** [{ ...row, updatedAt: stamp }]. *)
Fixpoint set_field (key : string) (v : json) (fields : list (string * json)) : list (string * json) :=
  match fields with
  | [] => [(key, v)]
  | (k, x) :: rest => if String.eqb k key then (k, v) :: rest else (k, x) :: set_field key v rest
  end.
Definition restamp (stamp : string) (row : json) : json :=
  match row with JObj fields => JObj (set_field "updatedAt" (JStr stamp) fields) | _ => row end.

(** [ledger.put(name, row)] of a row that is not of its type. *)
Definition put_stray (name : EntityName) (id : string) (row : json) : M Shelf unit :=
  c ← on_typed requireClock;
  hlc ← on_typed (on_clock tick);
  modifyS (fun sh =>
    mkShelf (persistClock (table_delete name id (sh_app sh))) (<[(name, id) := restamp hlc row]> (sh_strays sh))
      (<[hlc := mkStrayOp name id (restamp hlc row) (clock_device c)]> (sh_strayOps sh))).

(** [ledger.put(name, row as never)]. *)
Definition put_row (name : EntityName) (id : string) (row : json) : M Shelf unit :=
  match read_entity name (restamp "" row) with
  | Some value =>
      _ ← on_typed (put name value);
      modifyS (fun sh => mkShelf (sh_app sh) (delete (name, id) (sh_strays sh)) (sh_strayOps sh))
  | None => put_stray name id row
  end.

(** [existing > stamp]: texts are compared as texts, and with a number, a truth value or
    nothing as numbers, which a stamp of the clock is not. *)
Definition is_greater (existing : string) (stamp : option json) : result bool :=
  match stamp with
  | Some (JStr stamp) => Ok (String.ltb stamp existing)
  | None => Ok false
  | Some (JObj fields) =>
      if existsb (fun kv => String.eqb kv.1 "toString") fields then Throw (JsError "Cannot convert object to primitive value")
      else Ok (String.ltb "[object Object]" existing)
  | Some (JArr _) => Throw (OutsideModel "the text of an array")
  | Some (JNull | JBool _ | JNum _ | JReal _) =>
      match decodeHlc existing with Ok _ => Ok false | Throw _ => Throw (OutsideModel "the number of a text that is no stamp") end
  end.

Definition isNewerLocally (name : EntityName) (id : string) (row : json) : M Shelf bool :=
  sh ← getS;
  match row_at (name, id) sh with
  | None => mret false
  | Some existing => liftR (is_greater (row_stamp existing) (field "updatedAt" row))
  end.

Definition restore_row (name : EntityName) (acc : RestoreResult) (row : json) : M Shelf RestoreResult :=
  match field "id" row with
  | Some (JStr id) =>
      newer ← isNewerLocally name id row;
      if (newer : bool) then mret (mkRestored (restored acc) (S (skipped acc)))
      else _ ← put_row name id row; mret (mkRestored (S (restored acc)) (skipped acc))
  | _ => mret (mkRestored (restored acc) (S (skipped acc)))
  end.

Definition section_rows (name : EntityName) (payload : BackupPayload) : list json :=
  match lookup_field (entity_name name) (bk_entities payload) with Some (JArr l) => l | _ => [] end.

Definition restore_payload (payload : BackupPayload) : M Shelf RestoreResult :=
  foldM (fun acc name => foldM (restore_row name) acc (section_rows name payload)) (mkRestored 0 0) ENTITY_NAMES.

(** Restoring where the rest of the program can follow it: no stray comes in. *)
Definition restore_typed (payload : BackupPayload) : M App RestoreResult := fun s =>
  let '(r, sh) := restore_payload payload (mkShelf s ∅ ∅) in
  if decide (sh_strayOps sh = ∅) then (r, sh_app sh) else (Throw (OutsideModel "a row that is not of its type"), s).

(** * Specification *)

(** Every row of the ledger is in the table of its type, under its own id. *)
Definition filed (s : App) : Prop := forall e id v, rows s !! (e, id) = Some v -> entity_table v = e /\ entity_id v = id.

(** What restoring a row [v] does to its place in the ledger: a newer row stays, anything
    else gives way to [v], stamped anew. *)
Definition row_restored (s s' : Shelf) (v : AnyEntity) : Prop :=
  let place := (entity_table v, entity_id v) in
  (exists w, row_at place s = Some w /\ String.ltb (entity_updatedAt v) (row_stamp w) = true /\ row_at place s' = Some w)
  \/ ((forall w, row_at place s = Some w -> String.ltb (entity_updatedAt v) (row_stamp w) = false)
      /\ exists stamp, row_at place s' = Some (Typed (set_updatedAt stamp v))).

(** The file is the base64 of an envelope that carries [value] under the key. *)
Definition sealed_for {Key} `{!WebCrypto Key} (key : Key) (contents : string) (value : json) : Prop :=
  exists iv aad header plain, fromBase64 (trim contents) = Ok (envelope_bytes iv aad (encrypt key iv aad plain))
    /\ length iv = IV_LENGTH /\ Z.of_nat (length aad) <= 65535
    /\ (text ← decode_text aad; parse text) = Ok header /\ (text ← decode_text plain; parse text) = Ok value.

(** The file is a backup of this vault: sealed under its key, well formed, of its identity. *)
Definition backup_of {Key} `{!WebCrypto Key} (vault : VaultSession Key) (contents : string) (p : BackupPayload) : Prop :=
  exists key value, requireKey vault = Ok key /\ sealed_for key contents value /\ validateBackup value = Ok p
    /\ requireVaultId vault = Ok (bk_vaultId p).

(** * Lemmas *)

Lemma field_id v : field "id" (tree_entity v) = Some (JStr (entity_id v)).
Proof. by destruct v as [[]|[]|[]|[]|[]|[]|[]|[]]. Qed.

Lemma field_updatedAt v : field "updatedAt" (tree_entity v) = Some (JStr (entity_updatedAt v)).
Proof.
  destruct v as [[]|[? ? ? ? ? ? ? ? [] [] [] [] []]|[? ? ? []]|[? ? ? ? ? [] [] ? ? ? ? ? [] []]|[]
    |[? ? ? ? ? ? [] [] ? ? ? ? ? ? [] []]|[]|[? []]]; reflexivity.
Qed.

Lemma restamp_entity stamp v : restamp stamp (tree_entity v) = tree_entity (set_updatedAt stamp v).
Proof.
  destruct v as [[]|[? ? ? ? ? ? ? ? [] [] [] [] []]|[? ? ? []]|[? ? ? ? ? [] [] ? ? ? ? ? [] []]|[]
    |[? ? ? ? ? ? [] [] ? ? ? ? ? ? [] []]|[]|[? []]]; reflexivity.
Qed.

Lemma set_updatedAt_again a b v : set_updatedAt a (set_updatedAt b v) = set_updatedAt a v.
Proof. by destruct v as [[]|[]|[]|[]|[]|[]|[]|[]]. Qed.

(** Putting a row of its type is putting the record, and sweeps a stray away. *)
Lemma put_row_typed v sh x sh' :
  put_row (entity_table v) (entity_id v) (tree_entity v) sh = (Ok x, sh') ->
  exists v' s', put (entity_table v) (set_updatedAt "" v) (sh_app sh) = (Ok v', s')
    /\ sh' = mkShelf s' (delete (entity_table v, entity_id v) (sh_strays sh)) (sh_strayOps sh).
Proof.
  unfold put_row. rewrite restamp_entity. rewrite -{1}(entity_table_set_updatedAt "" v) read_tree_entity.
  intros (v' & sh1 & H1 & [= _ <-])%M_bind_Ok_inv. unfold on_typed in H1. destruct (put _ _ _) as [r s'] eqn:E.
  injection H1 as -> <-. by exists v', s'.
Qed.

Lemma restore_row_run v acc s r s' :
  restore_row (entity_table v) acc (tree_entity v) s = (Ok r, s') ->
  row_restored s s' v /\ (restored r + skipped r = S (restored acc + skipped acc))%nat
  /\ forall place, place <> (entity_table v, entity_id v) -> row_at place s' = row_at place s.
Proof.
  unfold restore_row. rewrite field_id. intros (newer & s1 & Hn & H)%M_bind_Ok_inv.
  assert (s1 = s /\ newer = match row_at (entity_table v, entity_id v) s with
      Some w => String.ltb (entity_updatedAt v) (row_stamp w) | None => false end) as [-> Hnew].
  { unfold isNewerLocally, mbind, M_bind, getS in Hn. rewrite field_updatedAt in Hn.
    destruct (row_at _ _); injection Hn as <- <-; done. }
  unfold row_restored. destruct newer.
  - injection H as <- <-. destruct (row_at _ s) as [w|] eqn:Ew; [|done]. split_and!; [left; by exists w|cbn; lia|done].
  - apply M_bind_Ok_inv in H as (x & s2 & (v' & s3 & [Hv Hr]%put_rows & ->)%put_row_typed & [= <- <-]).
    rewrite entity_id_set_updatedAt in Hr. rewrite set_updatedAt_again in Hv.
    split_and!; [right|cbn; lia|].
    + split; [intros w Hw; by rewrite Hw in Hnew|]. exists (entity_updatedAt v'). unfold row_at. cbn.
      rewrite lookup_delete_eq Hr lookup_insert_eq. cbn. by rewrite -Hv.
    + intros place Hne. unfold row_at. cbn. by rewrite lookup_delete_ne // Hr lookup_insert_ne.
Qed.

Lemma restore_rows_run e l : forall acc s r s',
  Forall (fun v => entity_table v = e) l -> NoDup (map entity_id l) ->
  foldM (restore_row e) acc (map tree_entity l) s = (Ok r, s') ->
  Forall (row_restored s s') l /\ (restored r + skipped r = restored acc + skipped acc + length l)%nat
  /\ forall place, (forall v, v ∈ l -> place <> (e, entity_id v)) -> row_at place s' = row_at place s.
Proof.
  induction l as [|v l IH]; intros acc s r s' He Hnd.
  - intros [= <- <-]. split_and!; [constructor|cbn; lia|done].
  - apply Forall_cons in He as [Hv He]. cbn [map] in Hnd. apply NoDup_cons in Hnd as [Hv' Hnd]. cbn [map foldM].
    intros (acc1 & s1 & H1 & H)%M_bind_Ok_inv. rewrite -Hv in H1. apply restore_row_run in H1 as (Hr & Hc & Hk). rewrite Hv in Hk.
    destruct (IH _ _ _ _ He Hnd H) as (Hrs & Hcs & Hks). split_and!.
    + constructor.
      * unfold row_restored in *. rewrite Hv in Hr |- *. rewrite (Hks (e, entity_id v)); [done|].
        intros w Hw [= Hid]. apply Hv'. apply list_elem_of_fmap. by exists w.
      * apply Forall_forall. intros w Hw. rewrite ->Forall_forall in He, Hrs. specialize (Hrs w Hw). rename Hrs into Hwr.
        unfold row_restored in *. rewrite (He w Hw) in Hwr |- *. rewrite Hk in Hwr; [done|]. intros [= Hid]. apply Hv'. apply list_elem_of_fmap. by exists w.
    + cbn. lia.
    + intros place Hp. rewrite Hks; [|intros w Hw; apply Hp; by constructor]. apply Hk. apply Hp. by constructor.
Qed.

(** A payload whose sections are rows of their tables, each once. *)
Definition holds (payload : BackupPayload) (saved : EntityName -> list AnyEntity) : Prop :=
  forall e, section_rows e payload = map tree_entity (saved e) /\ Forall (fun v => entity_table v = e) (saved e)
            /\ NoDup (map entity_id (saved e)).

Lemma restore_tables payload saved es : forall acc s r s',
  holds payload saved -> NoDup es ->
  foldM (fun acc name => foldM (restore_row name) acc (section_rows name payload)) acc es s = (Ok r, s') ->
  (forall e, e ∈ es -> Forall (row_restored s s') (saved e))
  /\ (restored r + skipped r = restored acc + skipped acc + list_sum (map (fun e => length (saved e)) es))%nat
  /\ forall e id, (e ∈ es -> forall v, v ∈ saved e -> entity_id v <> id) -> row_at (e, id) s' = row_at (e, id) s.
Proof.
  induction es as [|e es IH]; intros acc s r s' Hp Hnd.
  - intros [= <- <-]. split_and!; [intros e He; by apply not_elem_of_nil in He|cbn; lia|done].
  - apply NoDup_cons in Hnd as [He Hnd]. cbn [foldM]. intros (acc1 & s1 & H1 & H)%M_bind_Ok_inv.
    destruct (Hp e) as (Es & Ht & Hid). rewrite Es in H1. apply restore_rows_run in H1 as (Hr & Hc & Hk); [|done..].
    destruct (IH _ _ _ _ Hp Hnd H) as (Hrs & Hcs & Hks). rewrite ->Forall_forall in Ht, Hr. split_and!.
    + intros e' [->|He']%elem_of_cons.
      * apply Forall_forall. intros v Hv. specialize (Hr v Hv). unfold row_restored in *. rewrite (Ht v Hv) in Hr |- *.
        by rewrite (Hks e); [|intros ?].
      * apply Forall_forall. intros v Hv. specialize (Hrs e' He'). rewrite ->Forall_forall in Hrs. specialize (Hrs v Hv).
        destruct (Hp e') as (_ & Ht' & _). rewrite ->Forall_forall in Ht'. unfold row_restored in *. rewrite (Ht' v Hv) in Hrs |- *.
        rewrite (Hk (e', entity_id v)) in Hrs; [done|]. intros w Hw [= -> _]. done.
    + unfold list_sum in *. cbn [map foldr] in *. lia.
    + intros e' id Hn. rewrite Hks; [|intros He'; apply Hn; by constructor]. apply Hk. intros v Hv [= -> ->].
      by apply (Hn ltac:(constructor) v Hv).
Qed.

Lemma ENTITY_NAMES_NoDup : NoDup ENTITY_NAMES.
Proof. apply (bool_decide_eq_true_1 _). vm_compute. reflexivity. Qed.

(** The sections [build] writes. *)
Lemma lookup_section s e : lookup_field (entity_name e) (map (table_json s) ENTITY_NAMES) = Some (JArr (map tree_entity (table_rows e s))).
Proof. by destruct e. Qed.

Lemma table_rows_NoDup e s : filed s -> NoDup (map entity_id (table_rows e s)).
Proof.
  intros Hf. unfold table_rows. rewrite map_map.
  set (l := omap _ (map_to_list (rows s))).
  assert (NoDup (map fst l) /\ Forall (fun kv => entity_id kv.2 = kv.1) l) as [Hnd Hid].
  { unfold l. clear l. assert (forall m : list ((EntityName * string) * AnyEntity), NoDup (map fst m) ->
      Forall (fun kv => entity_table kv.2 = kv.1.1 /\ entity_id kv.2 = kv.1.2) m ->
      NoDup (map fst (omap (fun kv : (EntityName * string) * AnyEntity => if decide (kv.1.1 = e) then Some (kv.1.2, kv.2) else None) m))
      /\ Forall (fun kv => entity_id kv.2 = kv.1)
           (omap (fun kv : (EntityName * string) * AnyEntity => if decide (kv.1.1 = e) then Some (kv.1.2, kv.2) else None) m)) as H.
    { induction m as [|[[e' id] v] m IH]; intros Hnd Hall; [by split; constructor|]. cbn [map] in Hnd. apply NoDup_cons in Hnd as [Hn Hnd].
      apply Forall_cons in Hall as [[_ Hv] Hall]. destruct (IH Hnd Hall) as [IH1 IH2]. cbn. case_decide as He; [|done]. subst e'.
      cbn [map fst]. split; constructor; [|done|done|done]. intros ([id' v'] & -> & Hin)%list_elem_of_fmap.
      apply list_elem_of_omap in Hin as ([[e' id2] w] & Hin & E). cbn in E. case_decide; [|done]. subst e'. injection E as -> ->.
      apply Hn. apply list_elem_of_fmap. by exists (e, id', v'). }
    apply H; [apply NoDup_fst_map_to_list|]. apply Forall_forall. intros [[e' id] v] Hin%elem_of_map_to_list. cbn. by apply Hf. }
  rewrite js_sort_perm. assert (map (fun x => entity_id x.2) l = map fst l) as ->; [|done].
  clear -Hid. induction Hid as [|[id v] l Hv _ IH]; [done|]. cbn in *. by rewrite Hv IH.
Qed.

Lemma built_holds vaultId t s : filed s -> holds (mkBackup BACKUP_FORMAT t vaultId (map (table_json s) ENTITY_NAMES)) (fun e => table_rows e s).
Proof.
  intros Hf e. split_and!; [|apply Forall_forall; intros v (id & Hv)%elem_of_table_rows; by apply Hf in Hv as [-> _]|by apply table_rows_NoDup].
  unfold section_rows. cbn [bk_entities]. by rewrite lookup_section.
Qed.

(** ** The file *)

Lemma check_sections_built s : check_sections (map (table_json s) ENTITY_NAMES) = Ok tt.
Proof. reflexivity. Qed.

Lemma validate_payload p :
  bk_format p = BACKUP_FORMAT -> truthy (bk_vaultId p) = true -> check_sections (bk_entities p) = Ok tt ->
  validateBackup (payload_json p) = Ok p.
Proof.
  intros Hf Hv Hc. destruct p as [f t v es]. cbn in *. subst f. unfold validateBackup. cbn -[check_sections].
  unfold truthy in Hv. apply negb_true_iff in Hv. rewrite Hv Hc. done.
Qed.

Lemma validate_Ok value p : validateBackup value = Ok p -> bk_format p = BACKUP_FORMAT /\ check_sections (bk_entities p) = Ok tt.
Proof.
  unfold validateBackup. destruct (object_entries value); [|done]. destruct (field "format" value) as [f|]; [|done].
  destruct (negb _); [by destruct (template f)|]. destruct (field "vaultId" value) as [[]|]; try done.
  destruct (String.eqb _ _); [done|]. destruct (_ ≫= _) as [entries|]; [|done].
  intros ([] & Hc & (t & _ & [= <-])%bind_Ok_inv)%bind_Ok_inv. done.
Qed.

Lemma payload_ok t vaultId s : json_ok (payload_json (mkBackup BACKUP_FORMAT t vaultId (map (table_json s) ENTITY_NAMES))) = true.
Proof.
  cbn -[table_json ENTITY_NAMES map]. apply andb_true_iff. split; [by vm_compute|]. rewrite andb_true_r. apply andb_true_iff. split.
  - by vm_compute.
  - cbn -[tree_entity table_rows]. rewrite !forallb_map_ok //; intros; apply tree_entity_ok.
Qed.

Lemma build_run {Key} (vault : VaultSession Key) s p s' :
  build vault s = (Ok p, s') ->
  exists vaultId, requireVaultId vault = Ok vaultId /\ p = mkBackup BACKUP_FORMAT (nows s (reads s)) vaultId (map (table_json s) ENTITY_NAMES)
    /\ s' = set_reads (S (reads s)) s.
Proof.
  unfold build, mbind, M_bind, getS, Date_now, liftR. destruct (requireVaultId vault) as [i|]; [|done].
  intros [= <- <-]. by exists i.
Qed.

Lemma requireVaultId_truthy {Key} (vault : VaultSession Key) i : requireVaultId vault = Ok i -> truthy i = true.
Proof. unfold requireVaultId. destruct (vs_vaultId vault) as [j|]; [|done]. destruct (truthy j) eqn:E; [|done]. by intros [= <-]. Qed.

Lemma length_rows_json s : countRows (mkBackup 1 0 "" (map (table_json s) ENTITY_NAMES)) = list_sum (map (fun e => table_count e s) ENTITY_NAMES).
Proof. unfold countRows. cbn [bk_entities]. rewrite !map_map. cbn [snd table_json row_count]. f_equal. apply map_ext. intros e. by rewrite length_map. Qed.

Section File.
Context {Key : Type} `{!WebCrypto Key} `{!WebCryptoLaws Key}.

Lemma export_run (vault : VaultSession Key) n s contents count s' :
  export vault n s = (Ok (contents, count), s') ->
  exists vaultId, let p := mkBackup BACKUP_FORMAT (nows s (reads s)) vaultId (map (table_json s) ENTITY_NAMES) in
    requireVaultId vault = Ok vaultId /\ count = list_sum (map (fun e => table_count e s) ENTITY_NAMES)
    /\ s' = set_reads (S (reads s)) s
    /\ forall other : VaultSession Key, requireKey other = requireKey vault -> requireVaultId other = requireVaultId vault ->
         inspect other contents = Ok p.
Proof.
  unfold export. intros (p & s1 & (vaultId & Hid & -> & ->)%build_run & H)%M_bind_Ok_inv. exists vaultId.
  set (p := mkBackup _ _ _ _) in *. cbn zeta.
  apply M_bind_Ok_inv in H as (key & s1 & [= Hkey <-] & H). apply M_bind_Ok_inv in H as (device & s1 & [= Hdev <-] & H).
  apply M_bind_Ok_inv in H as (sealed & s1 & [= Hs <-] & [= <- <- <-]). split_and!; [done|apply length_rows_json|done|].
  intros other Hk Hi. pose proof (payload_ok (nows s (reads s)) vaultId s) as Hok. fold p in Hok, Hs.
  pose proof (seal_json_bytes _ _ _ _ _ Hs) as Hb.
  unfold inspect. rewrite trim_toBase64 // fromBase64_toBase64 // bind_Ok Hk Hkey bind_Ok.
  rewrite (open_seal_json _ _ _ _ _ (header_json_ok _) Hok Hs). rewrite validate_payload //; [|by eapply requireVaultId_truthy].
  rewrite bind_Ok Hi Hid bind_Ok. cbn [bk_vaultId p]. by rewrite String.eqb_refl.
Qed.
End File.

(** ** What a file contains *)

Section Contents.
Context {Key : Type} `{!WebCrypto Key} `{!WebCryptoLaws Key}.

Lemma open_json_sealed (key : Key) contents bs header value :
  all_bytes bs -> fromBase64 (trim contents) = Ok bs -> open_json key bs = Ok (header, value) -> sealed_for key contents value.
Proof.
  intros Hb Eb ([h plain] & (e & Ee & Hd)%bind_Ok_inv & (text & Et & (v & Ev & [= <- <-])%bind_Ok_inv)%bind_Ok_inv)%bind_Ok_inv.
  apply parse_Ok in Ee as (E & Hiv & Hl & Hh); [|done].
  destruct (decrypt _ _ _ _) as [plain'|] eqn:Edec; [|done]. injection Hd as _ ->. apply decrypt_only in Edec.
  exists (pe_iv e), (pe_aad e), (pe_header e), plain. rewrite -Edec -E. split_and!; [done..|]. by rewrite Et bind_Ok.
Qed.

Lemma check_sections_throw l e : check_sections l = Throw e -> exists why, e = BackupFormatError why.
Proof.
  induction l as [|[name v] l IH]; [done|]. cbn [check_sections]. destruct (as_entity_name _); [|intros [= <-]; by eexists].
  destruct v; try (intros [= <-]; by eexists). exact IH.
Qed.

(** Why a file is refused. *)
Lemma validate_throw value e :
  validateBackup value = Throw e -> (exists why, e = BackupFormatError why) \/ exists why, e = OutsideModel why.
Proof.
  unfold validateBackup. destruct (object_entries value); [|intros [= <-]; eauto].
  destruct (field "format" value) as [f|]; [|intros [= <-]; eauto]. destruct (negb _).
  { destruct (template f) as [t|x] eqn:Et; [intros [= <-]; eauto|]. intros [= <-].
    destruct f as [|[]| | | | |]; try done; injection Et as <-; eauto. }
  destruct (field "vaultId" value) as [[]|]; try (intros [= <-]; eauto). destruct (String.eqb _ _); [intros [= <-]; eauto|].
  destruct (_ ≫= _) as [entries|]; [|intros [= <-]; eauto].
  destruct (check_sections entries) as [[]|x] eqn:Ec; [|intros [= <-]; left; by eapply check_sections_throw].
  destruct (field "takenAt" value) as [[]|]; try done. intros [= <-]. eauto.
Qed.

Lemma inspect_throw (vault : VaultSession Key) contents e :
  inspect vault contents = Throw e ->
  (exists why, e = BackupFormatError why) \/ (exists why, e = OutsideModel why) \/ requireVaultId vault = Throw e.
Proof.
  unfold inspect. match goal with |- match ?m with _ => _ end = _ -> _ => destruct m as [[header value]|x] end.
  - destruct (validateBackup value) as [payload|x] eqn:Ev.
    + rewrite bind_Ok. destruct (requireVaultId vault) as [i|x] eqn:Ei.
      * rewrite bind_Ok. destruct (negb _); [|done]. intros [= <-]. left. by eexists.
      * intros [= <-]. right. by right.
    + intros [= <-]. apply validate_throw in Ev as [?|?]; [by left|right; by left].
  - destruct x; intros [= <-]; first [left; by eexists|right; left; by eexists].
Qed.
End Contents.

(** * Properties *)

(** C13: a backup brings the ledger back: the file written on one device, inspected on
    any device that holds the vault's key, and restored there, puts every row that was
    backed up in its table again, newly stamped, unless the device has a newer version,
    which stays; rows that were not backed up are untouched, and every row is counted. *)
Theorem backup_restores_the_ledger {Key} `{!WebCrypto Key} `{!WebCryptoLaws Key} (vault other : VaultSession Key)
    n s0 contents count s0' :
  filed s0 -> export vault n s0 = (Ok (contents, count), s0') ->
  requireKey other = requireKey vault -> requireVaultId other = requireVaultId vault ->
  exists payload, inspect other contents = Ok payload
    /\ forall s r s', restore_payload payload s = (Ok r, s') ->
         (forall e id v, rows s0 !! (e, id) = Some v -> row_restored s s' v)
         /\ (forall e id, rows s0 !! (e, id) = None -> row_at (e, id) s' = row_at (e, id) s)
         /\ (restored r + skipped r = count)%nat.
Proof.
  intros Hf (vaultId & Hid & -> & _ & Hin)%export_run Hk Hi. eexists. split; [by apply Hin|]. intros s r s' H.
  destruct (restore_tables _ _ _ _ _ _ _ (built_holds vaultId (nows s0 (reads s0)) s0 Hf) ENTITY_NAMES_NoDup H) as (Hr & Hc & Hkeep).
  split_and!; [|intros e id Hn; apply Hkeep; intros _ v (i & Hv)%elem_of_table_rows Hid'|exact Hc].
  - intros e id v Hv. specialize (Hr e (ENTITY_NAMES_all e)). rewrite ->Forall_forall in Hr. apply Hr, elem_of_table_rows. by exists id.
  - destruct (Hf _ _ _ Hv) as [_ Hv']. congruence.
Qed.

(** inspecting accepts exactly the backups of this vault. *)
Theorem inspect_accepts_exactly {Key} `{!WebCrypto Key} `{!WebCryptoLaws Key} (vault : VaultSession Key) contents p :
  inspect vault contents = Ok p <-> backup_of vault contents p.
Proof.
  unfold inspect, backup_of. split.
  - destruct (fromBase64 (trim contents)) as [bs|[]] eqn:Eb; try done. rewrite bind_Ok.
    destruct (requireKey vault) as [key|[]] eqn:Ek; try done. rewrite bind_Ok.
    destruct (open_json key bs) as [[header value]|[]] eqn:Eo; try done.
    intros (payload & Hv & (vaultId & Hid & H)%bind_Ok_inv)%bind_Ok_inv.
    destruct (String.eqb_spec (bk_vaultId payload) vaultId) as [<-|]; [|done]. injection H as ->.
    exists key, value. split_and!; [done| |done|done]. eapply open_json_sealed; [by eapply fromBase64_bytes|exact Eb|exact Eo].
  - intros (key & value & Hk & (iv & aad & header & plain & Eb & Hiv & Hl & Hh & Hp) & Hv & Hid).
    rewrite Eb bind_Ok Hk bind_Ok. unfold open_json, open. rewrite (parse_envelope_bytes _ _ _ header) // bind_Ok.
    cbn [pe_iv pe_aad pe_payload pe_header]. rewrite decrypt_encrypt bind_Ok.
    apply bind_Ok_inv in Hp as (text & -> & Hp). rewrite bind_Ok Hp bind_Ok. cbn. rewrite Hv bind_Ok Hid bind_Ok.
    by rewrite String.eqb_refl.
Qed.

(** A deletion made after the backup was taken does not count as newer: no row is left
    to carry its stamp, so restoring brings the deleted row back, and the copy's new
    stamp outlives the deletion on every other device. *)
Lemma restore_brings_a_deletion_back :
  rows (snd (remove ECategories "c1" demoA1)) !! (ECategories, "c1") = None
  /\ rows (snd (restore_typed (mkBackup 1 0 "v" (map (table_json demoA1) ENTITY_NAMES)) (snd (remove ECategories "c1" demoA1))))
       !! (ECategories, "c1") <> None.
Proof. split; vm_compute; [reflexivity|discriminate]. Qed.

(** Nothing checks what a row holds: a category of which the file says no more than its id
    takes the place of the one there is, and goes out to the other devices. *)
Lemma restore_stores_what_is_no_category :
  let row := JObj [("id", JStr "c1"); ("updatedAt", JStr "9")] in
  let m := restore_payload (mkBackup 1 0 "v" [("categories", JArr [row])]) (mkShelf demoA1 ∅ ∅) in
  fst m = Ok (mkRestored 1 0)
  /\ exists stamp, row_at (ECategories, "c1") (snd m) = Some (Stray (restamp stamp row))
     /\ sh_strayOps (snd m) !! stamp = Some (mkStrayOp ECategories "c1" (restamp stamp row) "a").
Proof. split; [by vm_compute|]. eexists. split; vm_compute; reflexivity. Qed.

(** * Witnesses *)

Definition demo_vault : VaultSession bool := mkSession true (Some true) (Some "vault-1") (Some "phone").
Definition demo_export : result (string * nat) * App := export demo_vault 3 demoA1.
Definition demo_contents : string := match demo_export with (Ok (c, _), _) => c | _ => "" end.

Lemma demo_export_run : export demo_vault 3 demoA1 = (Ok (demo_contents, 1%nat), snd demo_export).
Proof. vm_compute. reflexivity. Qed.

Lemma demoA1_filed : filed demoA1.
Proof.
  assert (rows demoA1 = {[(ECategories, "c1") := Ledger.demo_value]}) as E by (vm_compute; reflexivity).
  intros e id v. rewrite E. intros [[= <- <-] <-]%lookup_singleton_Some. done.
Qed.

Lemma backup_restores_the_ledger_witness : exists payload, inspect demo_vault demo_contents = Ok payload.
Proof.
  destruct (backup_restores_the_ledger demo_vault demo_vault 3 demoA1 demo_contents 1 _ demoA1_filed demo_export_run eq_refl eq_refl)
    as (payload & E & _).
  exists payload. exact E.
Defined.

Definition demo_payload : BackupPayload := mkBackup 1 1000 "vault-1" (map (table_json demoA1) ENTITY_NAMES).

Lemma demo_inspect_run : inspect demo_vault demo_contents = Ok demo_payload.
Proof. vm_compute. reflexivity. Qed.
