(* ===== verification/SyncTarget.v ===== *)
(** Destinations ([app/src/app/core/sync/sync-target.ts]) and the contract every one of
    them honours ([sync-adapter.ts]), with the in-memory destination
    ([core/testing/in-memory-adapter.ts]) as an implementation of it. *)
From S2P Require Export JsString Ledger.
#[local] Open Scope string_scope.
#[local] Open Scope Z_scope.

(** * Definitions *)

(** ** Configuration *)

Inductive SyncTarget : Type :=
| NoneTarget (label : string)
| ServerTarget (label endpoint token : string)
| S3Target (label bucket region endpoint accessKeyId secretAccessKey : string) (forcePathStyle : bool) (prefix : string)
| GitTarget (label repoUrl branch token username corsProxy authorName authorEmail : string).

Record SyncSettings : Type := mkSyncSettings {
  ss_target : SyncTarget; ss_intervalMinutes : Z; ss_syncOnReconnect : bool; ss_wifiOnly : bool }.

Definition DEFAULT_SYNC_SETTINGS : SyncSettings := mkSyncSettings (NoneTarget "Not configured") 15 true false.

Definition opsPrefix (vaultId : string) : string := "vaults/" ++ vaultId ++ "/ops/".
Definition opsObjectName (vaultId head : string) : string := opsPrefix vaultId ++ head ++ ".edk".
Definition snapshotPrefix (vaultId : string) : string := "vaults/" ++ vaultId ++ "/snapshots/".
Definition snapshotObjectName (vaultId watermark : string) : string := snapshotPrefix vaultId ++ watermark ++ ".edk".

Definition is_hex (c : ascii) : bool := is_digit c || ((97 <=? code c) && (code c <=? 102)).
Definition is_alnum (c : ascii) : bool := is_digit c || is_lower c || is_upper c.

(** [[0-9]{19}-[0-9a-f]{4}-[A-Za-z0-9]+] *)
Definition is_stamp (s : string) : bool :=
  match split_on "-" s with
  | [p; c; d] =>
      (String.length p =? 19)%nat && str_forall is_digit p && (String.length c =? 4)%nat && str_forall is_hex c
      && negb (String.eqb d "") && str_forall is_alnum d
  | _ => false
  end.

(** The text after the last slash, when there is one. *)
Definition after_slash (name : string) : option string :=
  match rev (split_on "/" name) with
  | last :: _ :: _ => Some last
  | _ => None
  end.

(** [/\/([0-9]{19}-[0-9a-f]{4}-[A-Za-z0-9]+)\.edk$/] : no stamp holds a slash. *)
Definition stampFromObjectName (name : string) : option string :=
  match after_slash name with
  | Some file =>
      let n := String.length file in
      if endsWith file ".edk" && is_stamp (js_slice file 0 (n - 4)) then Some (js_slice file 0 (n - 4)) else None
  | None => None
  end.

Definition mask (secret : string) : string :=
  if truthy secret then str_repeat "*" 8 ++ js_slice_from secret (String.length secret - 4) else "".

(** The fields of the redacted record, in order. *)
Definition redactTarget (target : SyncTarget) : list (string * string) :=
  match target with
  | ServerTarget _ endpoint token => [("kind", "server"); ("endpoint", endpoint); ("token", mask token)]
  | S3Target _ bucket region endpoint accessKeyId secretAccessKey _ _ =>
      [("kind", "s3"); ("bucket", bucket); ("region", region); ("endpoint", endpoint);
       ("accessKeyId", mask accessKeyId); ("secretAccessKey", mask secretAccessKey)]
  | GitTarget _ repoUrl branch token _ _ _ _ =>
      [("kind", "git"); ("repoUrl", repoUrl); ("branch", branch); ("token", mask token)]
  | NoneTarget _ => [("kind", "none")]
  end.

(** ** interface SyncAdapter *)

(** [R] is the state of the destination, as seen through this adapter.  Object sizes
    are not modelled: nothing reads them. *)
Class SyncAdapter (R Bytes : Type) : Type := {
  adapter_list : string -> M R (list string);
  adapter_get : string -> M R Bytes;
  adapter_put : string -> Bytes -> M R unit;
  adapter_remove : string -> M R unit;
  adapter_flush : M R unit }.

(** What the interface's comments promise, over the objects a destination holds.  An
    operation that throws may have taken effect or not. *)
Class AdapterLaws (R Bytes : Type) `{!SyncAdapter R Bytes} : Type := {
  contents : R -> gmap string Bytes;
  list_contents : forall p r x r', adapter_list p r = (x, r') -> contents r' = contents r;
  list_complete : forall p r names r' n, adapter_list p r = (Ok names, r') ->
    n ∈ names <-> startsWith n p = true /\ is_Some (contents r !! n);
  list_sorted : forall p r names r', adapter_list p r = (Ok names, r') ->
    StronglySorted (fun a b => String.ltb a b = true) names;
  get_contents : forall n r x r', adapter_get n r = (x, r') -> contents r' = contents r;
  get_returns : forall n r b r', adapter_get n r = (Ok b, r') -> contents r !! n = Some b;
  put_contents : forall n b r x r', adapter_put n b r = (x, r') ->
    contents r' = contents r \/ contents r' = <[n := b]> (contents r);
  put_stores : forall n b r r', adapter_put n b r = (Ok tt, r') -> contents r' = <[n := b]> (contents r);
  remove_contents : forall n r x r', adapter_remove n r = (x, r') ->
    contents r' = contents r \/ contents r' = delete n (contents r);
  flush_contents : forall r x r', adapter_flush r = (x, r') -> contents r' = contents r }.

(** ** class InMemoryAdapter *)

Record Calls : Type := mkCalls { c_list : Z; c_get : Z; c_put : Z; c_remove : Z; c_flush : Z; c_probe : Z }.

Record InMemoryAdapter (Bytes : Type) : Type := mkMemory {
  objects : gmap string Bytes; calls : Calls; failNext : option exn; failOnRemove : bool }.
Arguments mkMemory {Bytes}.
Arguments objects {Bytes}.
Arguments calls {Bytes}.
Arguments failNext {Bytes}.
Arguments failOnRemove {Bytes}.

Definition count_call {Bytes} (f : Calls -> Calls) : M (InMemoryAdapter Bytes) unit := fun r =>
  (Ok tt, mkMemory (objects r) (f (calls r)) (failNext r) (failOnRemove r)).
Definition set_objects {Bytes} (f : gmap string Bytes -> gmap string Bytes) : M (InMemoryAdapter Bytes) unit := fun r =>
  (Ok tt, mkMemory (f (objects r)) (calls r) (failNext r) (failOnRemove r)).

Definition maybeFail {Bytes} : M (InMemoryAdapter Bytes) unit := fun r =>
  match failNext r with
  | Some failure => (Throw failure, mkMemory (objects r) (calls r) None (failOnRemove r))
  | None => (Ok tt, r)
  end.

Definition memory_list {Bytes} (prefix : string) : M (InMemoryAdapter Bytes) (list string) :=
  _ ← count_call (fun c => mkCalls (c_list c + 1) (c_get c) (c_put c) (c_remove c) (c_flush c) (c_probe c));
  _ ← maybeFail;
  r ← getS;
  mret (js_sort (fun a b => if String.ltb a b then -1 else 1)
          (List.filter (fun name => startsWith name prefix) (map fst (map_to_list (objects r))))).

Definition memory_get {Bytes} (name : string) : M (InMemoryAdapter Bytes) Bytes :=
  _ ← count_call (fun c => mkCalls (c_list c) (c_get c + 1) (c_put c) (c_remove c) (c_flush c) (c_probe c));
  _ ← maybeFail;
  r ← getS;
  match objects r !! name with
  | None => throwM (SyncTransportError ("No such object: " ++ name) false)
  | Some bytes => mret bytes
  end.

Definition memory_put {Bytes} (name : string) (bytes : Bytes) : M (InMemoryAdapter Bytes) unit :=
  _ ← count_call (fun c => mkCalls (c_list c) (c_get c) (c_put c + 1) (c_remove c) (c_flush c) (c_probe c));
  _ ← maybeFail;
  set_objects <[name := bytes]>.

Definition memory_remove {Bytes} (name : string) : M (InMemoryAdapter Bytes) unit :=
  _ ← count_call (fun c => mkCalls (c_list c) (c_get c) (c_put c) (c_remove c + 1) (c_flush c) (c_probe c));
  _ ← maybeFail;
  r ← getS;
  if failOnRemove r then throwM (SyncTransportError "This destination does not allow deletes" false)
  else set_objects (delete name).

Definition memory_flush {Bytes} : M (InMemoryAdapter Bytes) unit :=
  count_call (fun c => mkCalls (c_list c) (c_get c) (c_put c) (c_remove c) (c_flush c + 1) (c_probe c)).

Definition memory_probe {Bytes} : M (InMemoryAdapter Bytes) unit :=
  _ ← count_call (fun c => mkCalls (c_list c) (c_get c) (c_put c) (c_remove c) (c_flush c) (c_probe c + 1));
  maybeFail.

#[export] Instance memory_adapter {Bytes} : SyncAdapter (InMemoryAdapter Bytes) Bytes := {|
  adapter_list := memory_list; adapter_get := memory_get; adapter_put := memory_put;
  adapter_remove := memory_remove; adapter_flush := memory_flush |}.

(** * Lemmas *)

Lemma js_insert_ext {A} (cmp cmp' : A -> A -> Z) x l :
  (forall y, y ∈ l -> (cmp x y <=? 0) = (cmp' x y <=? 0)) -> js_insert cmp x l = js_insert cmp' x l.
Proof.
  induction l as [|y l IH]; intros H; [done|]. cbn [js_insert]. rw H; [|constructor].
  destruct (_ <=? 0); [done|]. f_equal. apply IH. intros z Hz. apply H. by constructor.
Qed.

Lemma js_sort_ext {A} (cmp cmp' : A -> A -> Z) l :
  NoDup l -> (forall x y, x <> y -> (cmp x y <=? 0) = (cmp' x y <=? 0)) -> js_sort cmp l = js_sort cmp' l.
Proof.
  intros Hnd H. induction l as [|x l IH]; [done|]. apply NoDup_cons in Hnd as [Hx Hnd]. cbn [js_sort].
  rw IH; [|done]. apply js_insert_ext. intros y Hy. apply H. intros ->. by rw elem_of_js_sort in Hy.
Qed.

(** The order the adapters list in, for names that differ. *)
Lemma sort_names_strict l :
  NoDup l ->
  let sorted := js_sort (fun a b => if String.ltb a b then -1 else 1) l in
  sorted ≡ₚ l /\ StronglySorted (fun a b => String.ltb a b = true) sorted.
Proof.
  intros Hnd sorted. assert (sorted = js_sort cmp_string l) as ->.
  { apply js_sort_ext; [done|]. intros x y Hne. rw ltb_cmp_string.
    assert (cmp_string x y <> 0) by by rw cmp_string_eq.
    destruct (Z.ltb_spec (cmp_string x y) 0); cbn; lia. }
  split; [apply js_sort_perm|]. pose proof (js_sort_sorted cmp_string l) as Hs.
  assert (NoDup (js_sort cmp_string l)) as Hnd' by by rw js_sort_perm.
  induction Hs as [|x k Hk IH Hx]; [constructor|]. apply NoDup_cons in Hnd' as [Hn Hnd'].
  constructor; [by apply IH|]. rewrite ->Forall_forall in Hx |- *. intros y Hy. specialize (Hx y Hy).
  rw ltb_cmp_string. assert (cmp_string x y <> 0) by (rw cmp_string_eq; congruence). lia.
Qed.

#[export] Instance memory_laws {Bytes} : AdapterLaws (InMemoryAdapter Bytes) Bytes.
Proof.
  refine {| contents := objects |}; unfold adapter_list, adapter_get, adapter_put, adapter_remove, adapter_flush; cbn.
  - intros p r x r'. unfold memory_list, maybeFail, mbind, M_bind, count_call, getS, mret, M_ret.
    by destruct (failNext r); intros [= _ <-].
  - intros p r names r' n. unfold memory_list, maybeFail, mbind, M_bind, count_call, getS, mret, M_ret. cbn.
    destruct (failNext r); [done|]. intros [= <- _]. rw elem_of_js_sort elem_of_filter_b list_elem_of_fmap.
    split.
    + intros [([n' b] & -> & Hin%elem_of_map_to_list) Hp]. by split.
    + intros [Hp [b Hb]]. split; [|done]. exists (n, b). by rw elem_of_map_to_list.
  - intros p r names r'. unfold memory_list, maybeFail, mbind, M_bind, count_call, getS, mret, M_ret. cbn.
    destruct (failNext r); [done|]. intros [= <- _]. apply sort_names_strict.
    pose proof (NoDup_fst_map_to_list (objects r)) as Hnd. revert Hnd.
    generalize (map_to_list (objects r)) as l. induction l as [|[n b] l IH]; [constructor|]. cbn [map fst].
    intros [Hn Hnd]%NoDup_cons. cbn [List.filter]. destruct (startsWith n p); [|by apply IH].
    apply NoDup_cons. split; [|by apply IH]. by rw elem_of_filter_b; intros [? _].
  - intros n r x r'. unfold memory_get, maybeFail, mbind, M_bind, count_call, getS, mret, M_ret, throwM. cbn.
    destruct (failNext r); [by intros [= _ <-]|]. cbn. by destruct (objects r !! n); intros [= _ <-].
  - intros n r b r'. unfold memory_get, maybeFail, mbind, M_bind, count_call, getS, mret, M_ret, throwM. cbn.
    destruct (failNext r); [done|]. cbn. destruct (objects r !! n); [by intros [= <- _]|done].
  - intros n b r x r'. unfold memory_put, maybeFail, mbind, M_bind, count_call, set_objects. cbn.
    destruct (failNext r); intros [= _ <-]; [by left|by right].
  - intros n b r r'. unfold memory_put, maybeFail, mbind, M_bind, count_call, set_objects. cbn.
    destruct (failNext r); [done|]. by intros [= <-].
  - intros n r x r'. unfold memory_remove, maybeFail, mbind, M_bind, count_call, getS, throwM, set_objects. cbn.
    destruct (failNext r); [intros [= _ <-]; by left|]. cbn.
    destruct (failOnRemove r); intros [= _ <-]; [by left|by right].
  - intros r x r'. unfold memory_flush, count_call. by intros [= _ <-].
Defined.

(** ** Object names *)

Lemma split_on_app_gen c s t : split_on c (s ++ String c t) = (split_on c s ++ split_on c t)%list.
Proof.
  induction s as [|d s IH]; cbn [append split_on].
  - by rw Ascii.eqb_refl.
  - rw IH. destruct (Ascii.eqb c d); [done|]. pose proof (split_on_nonempty c s) as Hne.
    by destruct (split_on c s).
Qed.

Lemma prefix_app s t : String.prefix s (s ++ t) = true.
Proof. induction s as [|c s IH]; cbn; [by destruct t|]. by destruct (ascii_dec c c). Qed.

Lemma endsWith_app s t : endsWith (s ++ t) t = true.
Proof. unfold endsWith. rw str_rev_app. apply prefix_app. Qed.

Lemma stamp_shape st dev :
  hlc_ok st -> dev <> "" -> str_forall is_alnum dev = true -> is_stamp (encodeHlc st dev) = true.
Proof.
  intros Hok Hne Hdev. rw encodeHlc_fixed; [|done]. destruct Hok as [Hp Hc].
  rw (fixed_app 10 19) (fixed_app 16 4). unfold is_stamp. change ("-" ++ ?s) with (String "-" s).
  rw split_on_app; [|by apply (no_dash_fixed 10); [lia|]].
  rw split_on_app; [|by apply (no_dash_fixed 16); [lia|]].
  rw split_on_none.
  2:{ eapply str_forall_impl; [|exact Hdev]. intros c Hc'. destruct (Ascii.eqb_spec "-" c) as [<-|]; done. }
  rw !length_fixed. cbn [String.length Nat.add Nat.eqb andb].
  rw (str_forall_fixed 10 ltac:(lia) is_digit).
  2:{ intros d Hd. unfold is_digit. rw code_digit_char; [|lia]. destruct (Z.ltb_spec d 10); [|lia]. apply andb_true_intro. lia. }
  2:{ done. }
  rw (str_forall_fixed 16 ltac:(lia) is_hex).
  2:{ intros d Hd. unfold is_hex, is_digit. rw code_digit_char; [|lia].
      destruct (Z.ltb_spec d 10); apply orb_true_iff; [left|right]; apply andb_true_intro; lia. }
  2:{ done. }
  cbn [andb]. rw Hdev andb_true_r. by apply negb_true_iff, String.eqb_neq.
Qed.

Lemma stampFrom_name prefix st dev :
  hlc_ok st -> dev <> "" -> str_forall is_alnum dev = true ->
  stampFromObjectName (prefix ++ "/" ++ encodeHlc st dev ++ ".edk") = Some (encodeHlc st dev).
Proof.
  intros Hok Hne Hdev. pose proof (stamp_shape st dev Hok Hne Hdev) as Hs. set (stamp := encodeHlc st dev) in *.
  assert (str_forall (fun d => negb (Ascii.eqb "/" d)) stamp = true) as Hns.
  { unfold stamp. rw encodeHlc_fixed; [|done].
    assert (forall c, is_hex c = true -> negb (Ascii.eqb "/" c) = true) as Hhex.
    { intros c Hc. destruct (Ascii.eqb_spec "/" c) as [<-|]; done. }
    apply (str_forall_fixed 10 ltac:(lia)).
    - intros d Hd. apply Hhex. unfold is_hex, is_digit. rw code_digit_char; [|lia].
      destruct (Z.ltb_spec d 10); [|lia]. apply orb_true_iff. left. apply andb_true_intro. lia.
    - cbn [str_forall append]. apply (str_forall_fixed 16 ltac:(lia)).
      + intros d Hd. apply Hhex. unfold is_hex, is_digit. rw code_digit_char; [|lia].
        destruct (Z.ltb_spec d 10); apply orb_true_iff; [left|right]; apply andb_true_intro; lia.
      + cbn [str_forall append]. eapply str_forall_impl; [|exact Hdev]. intros c Hc.
        destruct (Ascii.eqb_spec "/" c) as [<-|]; done. }
  unfold stampFromObjectName, after_slash. change ("/" ++ ?x) with (String "/" x).
  rw split_on_app_gen. rw (split_on_none "/" (stamp ++ ".edk")); [|by rw str_forall_app Hns].
  rw rev_app_distr. cbn [rev app]. pose proof (split_on_nonempty "/" prefix) as Hsp.
  destruct (rev (split_on "/" prefix)) as [|x l] eqn:E.
  { apply (f_equal (@rev _)) in E. by rw rev_involutive in E. }
  rw endsWith_app length_str_app. change (String.length ".edk") with 4%nat.
  replace (String.length stamp + 4 - 4)%nat with (String.length stamp) by lia. rw slice_app_l Hs. done.
Qed.

Lemma encodeHlc_extend st dev x : encodeHlc st dev ++ x = encodeHlc st (dev ++ x).
Proof. unfold encodeHlc. by rw !str_app_assoc. Qed.

Lemma length_substring n m s : String.length (String.substring n m s) = Nat.min m (String.length s - n).
Proof.
  revert n m. induction s as [|c s IH]; intros [|n] [|m]; cbn [String.substring String.length]; rewrite ?IH; lia.
Qed.

(** * Properties *)

(** An object's name gives back the stamp it was written under, for batches and
    snapshots alike, and names sort as the clock does. *)
Theorem object_names_carry_stamps vaultId a b dev dev' :
  hlc_ok a -> hlc_ok b -> dev <> "" -> str_forall is_alnum dev = true ->
  stampFromObjectName (opsObjectName vaultId (encodeHlc a dev)) = Some (encodeHlc a dev)
  /\ stampFromObjectName (snapshotObjectName vaultId (encodeHlc a dev)) = Some (encodeHlc a dev)
  /\ (hlc_lt a b -> String.ltb (opsObjectName vaultId (encodeHlc a dev)) (opsObjectName vaultId (encodeHlc b dev')) = true).
Proof.
  intros Ha Hb Hne Hdev. split_and!.
  - rewrite <-(stampFrom_name ("vaults/" ++ vaultId ++ "/ops") a dev) by done.
    unfold opsObjectName, opsPrefix. by rw !str_app_assoc.
  - rewrite <-(stampFrom_name ("vaults/" ++ vaultId ++ "/snapshots") a dev) by done.
    unfold snapshotObjectName, snapshotPrefix. by rw !str_app_assoc.
  - intros Hlt. unfold opsObjectName, String.ltb. rw (compare_app (opsPrefix vaultId)) !encodeHlc_extend.
    rw compare_encodeHlc; [|done..]. destruct Hlt as [Hp|[-> Hc]].
    + by rewrite ->(proj2 (Z.compare_lt_iff _ _) Hp).
    + rw Z.compare_refl. by rewrite ->(proj2 (Z.compare_lt_iff _ _) Hc).
Qed.

(** What is shown of a destination in logs holds no credential: every field is one
    of the public fields, or a credential masked down to at most its last four
    characters. *)
Theorem redaction_masks_credentials target key value :
  (key, value) ∈ redactTarget target ->
  (key ∈ ["token"; "accessKeyId"; "secretAccessKey"] /\
     exists secret, value = mask secret /\ (String.length value <= 12)%nat
       /\ forall c, char_at value 7 = Some c -> c = "*"%char)
  \/ key ∈ ["kind"; "endpoint"; "bucket"; "region"; "repoUrl"; "branch"].
Proof.
  assert (forall x, (String.length (mask x) <= 12)%nat /\ forall c, char_at (mask x) 7 = Some c -> c = "*"%char) as Hm.
  { intros x. unfold mask. destruct (truthy x); [|split; [cbn; lia|done]].
    rw length_str_app. unfold js_slice_from. rw length_substring. split; [cbn; lia|]. by intros c [= <-]. }
  destruct target; cbn [redactTarget]; intros H; rw !elem_of_cons elem_of_nil in H; destruct_or! H; try done;
    injection H as -> ->;
    try solve [right; elem_of_closed].
  all: left; split; [elem_of_closed|]; (eexists; split; [done | apply Hm]).
Qed.

(** * Witnesses *)

Lemma object_names_carry_stamps_witness :
  stampFromObjectName "vaults/v/ops/0000000000000001000-0002-abc.edk" = Some "0000000000000001000-0002-abc".
Proof.
  apply (object_names_carry_stamps "v" (mkHlcState 1000 2) (mkHlcState 1000 3) "abc" "d");
    first [done | unfold hlc_ok, MAX_SAFE_INTEGER, MAX_COUNTER; cbn; lia].
Defined.

Lemma redaction_masks_credentials_witness :
  ("token" ∈ ["token"; "accessKeyId"; "secretAccessKey"] /\
     exists secret, "********mnop" = mask secret /\ (String.length "********mnop" <= 12)%nat
       /\ forall c, char_at "********mnop" 7 = Some c -> c = "*"%char)
  \/ "token" ∈ ["kind"; "endpoint"; "bucket"; "region"; "repoUrl"; "branch"].
Proof. apply (redaction_masks_credentials (ServerTarget "nas" "https://x" "abcdmnop")). set_solver. Defined.

(** A credential of at most four characters is shown whole after the asterisks. *)
Lemma short_credential_is_shown s :
  truthy s = true -> (String.length s <= 4)%nat -> mask s = "********" ++ s.
Proof.
  intros Ht Hl. unfold mask. rw Ht. replace (String.length s - 4)%nat with 0%nat by lia.
  by rw (slice_app_r "" s : js_slice_from s 0 = s).
Qed.
