(* ===== verification/Settings.v ===== *)
(** Sync settings at rest ([app/src/app/core/sync/sync-settings.service.ts]): sealed
    under the master key, like the ledger, because they hold credentials. *)
From S2P Require Export Vault SyncTarget.
#[local] Open Scope string_scope.
#[local] Open Scope Z_scope.

(** * Definitions *)

#[local] Notation get := Trees.get.

Definition tree_target (t : SyncTarget) : json :=
  match t with
  | NoneTarget label => obj [("kind", str "none"); ("label", str label)]
  | ServerTarget label endpoint token =>
      obj [("kind", str "server"); ("label", str label); ("endpoint", str endpoint); ("token", str token)]
  | S3Target label bucket region endpoint accessKeyId secretAccessKey forcePathStyle prefix =>
      obj [("kind", str "s3"); ("label", str label); ("bucket", str bucket); ("region", str region); ("endpoint", str endpoint);
           ("accessKeyId", str accessKeyId); ("secretAccessKey", str secretAccessKey);
           ("forcePathStyle", flag forcePathStyle); ("prefix", str prefix)]
  | GitTarget label repoUrl branch token username corsProxy authorName authorEmail =>
      obj [("kind", str "git"); ("label", str label); ("repoUrl", str repoUrl); ("branch", str branch); ("token", str token);
           ("username", str username); ("corsProxy", str corsProxy); ("authorName", str authorName);
           ("authorEmail", str authorEmail)]
  end.

Definition read_target (v : json) : option SyncTarget :=
  kind ← get "kind" as_str v; label ← get "label" as_str v;
  if String.eqb kind "none" then mret (NoneTarget label)
  else if String.eqb kind "server" then
    endpoint ← get "endpoint" as_str v; token ← get "token" as_str v; mret (ServerTarget label endpoint token)
  else if String.eqb kind "s3" then
    bucket ← get "bucket" as_str v; region ← get "region" as_str v; endpoint ← get "endpoint" as_str v;
    accessKeyId ← get "accessKeyId" as_str v; secretAccessKey ← get "secretAccessKey" as_str v;
    forcePathStyle ← get "forcePathStyle" as_flag v; prefix ← get "prefix" as_str v;
    mret (S3Target label bucket region endpoint accessKeyId secretAccessKey forcePathStyle prefix)
  else if String.eqb kind "git" then
    repoUrl ← get "repoUrl" as_str v; branch ← get "branch" as_str v; token ← get "token" as_str v;
    username ← get "username" as_str v; corsProxy ← get "corsProxy" as_str v; authorName ← get "authorName" as_str v;
    authorEmail ← get "authorEmail" as_str v;
    mret (GitTarget label repoUrl branch token username corsProxy authorName authorEmail)
  else None.

Definition settings_json (s : SyncSettings) : json :=
  obj [("target", Some (tree_target (ss_target s))); ("intervalMinutes", int (ss_intervalMinutes s));
       ("syncOnReconnect", flag (ss_syncOnReconnect s)); ("wifiOnly", flag (ss_wifiOnly s))].

(** A field of [{ ...DEFAULT_SYNC_SETTINGS, ...value }]. *)
Definition merged {A} (key : string) (read : json -> option A) (default : A) (v : json) : result A :=
  match field key v with
  | None => Ok default
  | Some x => match read x with Some a => Ok a | None => Throw (OutsideModel "a setting that is not of its type") end
  end.
Definition merge_settings (v : json) : result SyncSettings :=
  target ← merged "target" read_target (ss_target DEFAULT_SYNC_SETTINGS) v;
  intervalMinutes ← merged "intervalMinutes" as_int (ss_intervalMinutes DEFAULT_SYNC_SETTINGS) v;
  syncOnReconnect ← merged "syncOnReconnect" as_flag (ss_syncOnReconnect DEFAULT_SYNC_SETTINGS) v;
  wifiOnly ← merged "wifiOnly" as_flag (ss_wifiOnly DEFAULT_SYNC_SETTINGS) v;
  mret (mkSyncSettings target intervalMinutes syncOnReconnect wifiOnly).

(** The row [sync.settings] of the meta table, and the signal the screens read. *)
Record SettingsStore : Type := mkSettingsStore { st_row : option string; st_current : SyncSettings }.

Section Service.
Context {Key : Type} `{!WebCrypto Key}.
Context (vault : VaultSession Key).

Definition load : M SettingsStore SyncSettings :=
  s ← getS;
  match st_row s with
  | None =>
      _ ← modifyS (fun s => mkSettingsStore (st_row s) DEFAULT_SYNC_SETTINGS); mret DEFAULT_SYNC_SETTINGS
  | Some text =>
      key ← liftR (requireKey vault);
      sealed ← liftR (fromBase64 text);
      opened ← liftR (open_json key sealed);
      settings ← liftR (merge_settings opened.2);
      _ ← modifyS (fun s => mkSettingsStore (st_row s) settings);
      mret settings
  end.

Definition save (n : nat) (settings : SyncSettings) : M SettingsStore unit :=
  key ← liftR (requireKey vault);
  vaultId ← liftR (requireVaultId vault);
  device ← liftR (requireDeviceId vault);
  sealed ← liftR (seal_json n key (header_json (mkHeader vaultId device "" "settings")) (settings_json settings));
  _ ← modifyS (fun s => mkSettingsStore (Some (toBase64 sealed)) (st_current s));
  modifyS (fun s => mkSettingsStore (st_row s) settings).

Definition clear : M SettingsStore unit :=
  _ ← modifyS (fun s => mkSettingsStore None (st_current s));
  modifyS (fun s => mkSettingsStore (st_row s) DEFAULT_SYNC_SETTINGS).
End Service.

(** * Lemmas *)

Lemma read_tree_target t : read_target (tree_target t) = Some t.
Proof. by destruct t. Qed.

Lemma merge_settings_json s : merge_settings (settings_json s) = Ok s.
Proof. destruct s as [t i r w]. unfold merge_settings, merged. cbn -[tree_target read_target]. by rewrite read_tree_target. Qed.

Lemma settings_json_ok s : json_ok (settings_json s) = true.
Proof. by destruct s as [[] i r w]. Qed.

(** * Properties *)

(** C14: settings survive, and are at rest only as ciphertext.  The row written is the base64
    of an envelope whose clear part is a nonce and a header that names the vault and the
    device and nothing of the settings, and whose payload is their encryption under the
    vault's key.  After any restart a vault unlocked with that key loads the very settings
    that were saved; a locked one loads nothing; and so does one with another key, save for
    a collision of the cipher. *)
Theorem settings_survive_sealed {Key} `{!WebCrypto Key} `{!WebCryptoLaws Key} (vault : VaultSession Key) n settings s s' :
  save vault n settings s = (Ok tt, s') ->
  exists key vaultId device head body,
    requireKey vault = Ok key /\ requireVaultId vault = Ok vaultId /\ requireDeviceId vault = Ok device
    /\ stringify (header_json (mkHeader vaultId device "" "settings")) = Ok head /\ stringify (settings_json settings) = Ok body
    /\ st_current s' = settings
    /\ let iv := randomBytes (Key := Key) n IV_LENGTH in
       let ciphertext := encrypt key iv (encode_text head) (encode_text body) in
       st_row s' = Some (toBase64 (envelope_bytes iv (encode_text head) ciphertext))
       /\ forall (other : VaultSession Key) current,
            (vs_key other = Some key -> load other (mkSettingsStore (st_row s') current) = (Ok settings, mkSettingsStore (st_row s') settings))
            /\ (vs_key other = None ->
                 load other (mkSettingsStore (st_row s') current) = (Throw VaultLockedError, mkSettingsStore (st_row s') current))
            /\ (forall key', vs_key other = Some key' -> (forall pt, encrypt key' iv (encode_text head) pt <> ciphertext) ->
                 load other (mkSettingsStore (st_row s') current)
                 = (Throw (DecryptionError "Unable to decrypt: wrong key or corrupted data"), mkSettingsStore (st_row s') current)).
Proof.
  unfold save. intros (key & s1 & [= Hk <-] & H)%M_bind_Ok_inv. apply M_bind_Ok_inv in H as (i & s1 & [= Hi <-] & H).
  apply M_bind_Ok_inv in H as (d & s1 & [= Hd <-] & H). apply M_bind_Ok_inv in H as (sealed & s1 & [= Hs <-] & [= <-]).
  pose proof (seal_json_bytes _ _ _ _ _ Hs) as Hb.
  pose proof (open_seal_json _ _ _ _ _ (header_json_ok _) (settings_json_ok settings) Hs) as Ho. cbn [st_row st_current].
  apply seal_json_Ok in Hs as (head & body & Eh & Ebody & Hl & ->).
  exists key, i, d, head, body. do 6 (split; [done|]). cbn zeta. split; [done|]. intros other current.
  unfold load, mbind, M_bind, getS, requireKey, liftR. cbn [st_row].
  split_and!; [intros ->|by intros ->|intros key' -> Hne]; rewrite fromBase64_toBase64 //.
  - by rewrite Ho merge_settings_json.
  - by rewrite (open_json_refused _ _ _ _ _ _ (header_json_ok _) Eh Hl Hne).
Qed.

(** * Witnesses *)

Definition demo_settings : SyncSettings := mkSyncSettings (ServerTarget "NAS" "https://nas" "s3cret") 30 true false.
Definition demo_session : VaultSession bool := mkSession true (Some true) (Some "vault-1") (Some "phone").
Definition demo_saved : SettingsStore := snd (save demo_session 2 demo_settings (mkSettingsStore None DEFAULT_SYNC_SETTINGS)).

Lemma demo_saved_run : save demo_session 2 demo_settings (mkSettingsStore None DEFAULT_SYNC_SETTINGS) = (Ok tt, demo_saved).
Proof. vm_compute. reflexivity. Qed.

Definition demo_locked : VaultSession bool := mkSession false None (Some "vault-1") (Some "phone").
Definition demo_stranger : VaultSession bool := mkSession true (Some false) (Some "vault-1") (Some "phone").

Lemma settings_survive_sealed_witness :
  fst (load demo_session (mkSettingsStore (st_row demo_saved) DEFAULT_SYNC_SETTINGS)) = Ok demo_settings
  /\ fst (load demo_locked (mkSettingsStore (st_row demo_saved) DEFAULT_SYNC_SETTINGS)) = Throw VaultLockedError
  /\ exists why, fst (load demo_stranger (mkSettingsStore (st_row demo_saved) DEFAULT_SYNC_SETTINGS)) = Throw (DecryptionError why).
Proof.
  destruct (settings_survive_sealed demo_session 2 demo_settings _ _ demo_saved_run) as (key & i & d & head & body & Hk & Hi & Hd & Eh & _ & _ & _ & H).
  injection Hk as <-. split_and!.
  - by rewrite (proj1 (H demo_session DEFAULT_SYNC_SETTINGS) eq_refl).
  - by rewrite (proj1 (proj2 (H demo_locked DEFAULT_SYNC_SETTINGS)) eq_refl).
  - eexists. rewrite (proj2 (proj2 (H demo_stranger DEFAULT_SYNC_SETTINGS)) false eq_refl); [reflexivity|].
    injection Hi as <-. injection Hd as <-. assert (exists t, stringify (header_json (mkHeader "vault-1" "phone" "" "settings")) = Ok t
      /\ toy_tag false (randomBytes (Key := bool) 2 IV_LENGTH) (encode_text t) <> toy_tag true (randomBytes (Key := bool) 2 IV_LENGTH) (encode_text t))
      as (t & Et & Hne) by (eexists; split; [vm_compute; reflexivity|vm_compute; discriminate]).
    assert (Ok (A := string) t = Ok head) as Etm by (rewrite -Et; exact Eh). injection Etm as ->. intros pt [= E]. by apply Hne.
Defined.
