(* ===== verification/Sync.v ===== *)
(** The sync engine ([app/src/app/core/sync/sync.service.ts], with the choice of a
    destination of [adapter-factory.ts]): pull, merge, push, snapshot and prune, over any
    destination that honours [SyncAdapter] and any cryptography that honours [Sealing]. *)
From S2P Require Export Fleet Sealing SyncTarget.
#[local] Open Scope string_scope.
#[local] Open Scope Z_scope.

(** * Definitions *)

Definition MAX_OPS_PER_BATCH : nat := 500.
Definition SNAPSHOT_AFTER_OPERATIONS : nat := 200.
Definition PENDING_LIMIT : nat := Z.to_nat 5000.

Inductive SyncState : Type := Idle | Syncing | SyncError.

Record SyncStatus : Type := mkSyncStatus {
  st_state : SyncState; st_lastSyncAt : option Z; st_lastError : option string; st_retryable : bool;
  st_pending : nat; st_pulled : Z; st_pushed : Z }.

Definition INITIAL_STATUS : SyncStatus := mkSyncStatus Idle None None false 0 0 0.

(** Whether an object named after a clock stamp falls at or below a watermark. *)
Definition coveredBy (name watermark : string) : bool :=
  match stampFromObjectName name with Some stamp => String.leb stamp watermark | None => false end.

(** [error.message] *)
Definition exn_message (e : exn) : string :=
  match e with
  | JsError m => m
  | ClockDriftError drift => "Remote clock is " ++ num_to_string ((drift + 500) / 1000) ++ "s ahead of this device"
  | BackupFormatError m => m
  | NoSyncTargetError => "No sync destination is configured"
  | SyncTransportError m _ => m
  | VaultLockedError => "The vault is locked"
  | DecryptionError m => m
  | EnvelopeFormatError m => m
  | OutsideModel why => why
  end.

(** [value.ops] and [value.entities] of a decrypted value. *)
Definition payload_ops (v : Payload) : result (list Operation) :=
  match v with
  | PBatch batch => Ok (batch_ops batch)
  | PSnapshot _ => Throw (JsError "value.ops is not iterable")
  | POther _ => Throw (OutsideModel "an object that holds no batch")
  end.
Definition payload_snapshot (v : Payload) : result LedgerSnapshot :=
  match v with
  | PSnapshot snapshot => Ok snapshot
  | PBatch _ => Throw (JsError "Cannot read properties of undefined")
  | POther _ => Throw (OutsideModel "an object that holds no snapshot")
  end.

(** [AdapterFactory.create] : the adapters themselves stand behind [SyncAdapter]. *)
Definition create_adapter (target : SyncTarget) : result unit :=
  match target with NoneTarget _ => Throw NoSyncTargetError | _ => Ok tt end.

(** The running engine: the application, the destination, the random source and the
    status it shows. *)
Record Engine (R : Type) : Type := mkEngine { app : App; remote : R; draws : nat; status : SyncStatus }.
Arguments mkEngine {R}.
Arguments app {R}.
Arguments remote {R}.
Arguments draws {R}.
Arguments status {R}.

Definition onApp {R A} (m : M App A) : M (Engine R) A := fun st =>
  let '(r, s') := m (app st) in (r, mkEngine s' (remote st) (draws st) (status st)).
Definition onRemote {R A} (m : M R A) : M (Engine R) A := fun st =>
  let '(r, x) := m (remote st) in (r, mkEngine (app st) x (draws st) (status st)).
Definition draw {R} : M (Engine R) nat := fun st =>
  (Ok (draws st), mkEngine (app st) (remote st) (S (draws st)) (status st)).
Definition patch {R} (f : SyncStatus -> SyncStatus) : M (Engine R) unit := fun st =>
  (Ok tt, mkEngine (app st) (remote st) (draws st) (f (status st))).

(** [try { m } catch (error) { handler }] *)
Definition catchM {S A} (m : M S A) (handler : exn -> M S A) : M S A := fun s =>
  match m s with (Throw e, s') => handler e s' | r => r end.

(** [Promise.all] of two calls: both are made, the first failure wins. *)
Definition both {S A B} (m : M S A) (n : M S B) : M S (A * B) := fun s =>
  let '(ra, s1) := m s in
  let '(rb, s2) := n s1 in
  (match ra, rb with Ok a, Ok b => Ok (a, b) | Throw e, _ => Throw e | _, Throw e => Throw e end, s2).

(** [db.remoteObjects.put] and [bulkPut] with the time of day. *)
Definition record_applied {R} (names : list string) : M (Engine R) unit :=
  forM_ names (fun name =>
    onApp (now ← Date_now; modifyS (set_remoteObjects <[name := now]>))).

Fixpoint chunks {A} (fuel n : nat) (l : list A) : list (list A) :=
  match fuel, l with
  | S f, _ :: _ => take n l :: chunks f n (drop n l)
  | _, _ => []
  end.

Definition countPending (s : App) : nat :=
  length (List.filter (fun lop => negb (lop_synced lop)) (oplog_sorted s)).

(** The operations a snapshot stands for. *)
Definition snapshot_ops (snap : LedgerSnapshot) : list Operation :=
  flat_map (fun name =>
      map (fun row => mkOp (entity_updatedAt row) name (entity_id row) Put (Some row) (snap_device snap))
        (default [] (jmap_get name (snap_entities snap))))
    ENTITY_NAMES.

Section Sync.
Context {R Bytes Key : Type} `{!SyncAdapter R Bytes} `{!Sealing Key Bytes}.

(** One object of the download loop: operations, names applied, head stamps. *)
Definition pull_object (vault : VaultSession Key) (key : Key) (vaultId : string)
    (acc : list Operation * list string * list string) (name : string)
  : M (Engine R) (list Operation * list string * list string) :=
  let '(ops, applied, heads) := acc in
  bytes ← onRemote (adapter_get name);
  opened ← liftR (openJson key bytes);
  let '(header, value) := opened in
  if negb (String.eqb (hdr_v header) vaultId) then mret acc
  else
    device ← liftR (requireDeviceId vault);
    if String.eqb (hdr_d header) device then mret (ops, (applied ++ [name])%list, heads)
    else
      more ← liftR (payload_ops value);
      mret ((ops ++ more)%list, (applied ++ [name])%list, (heads ++ [hdr_h header])%list).

Definition applySnapshot (key : Key) (vaultId : string) (seen : list string)
  : M (Engine R) (option string * list string) :=
  snapshots ← onRemote (adapter_list (snapshotPrefix vaultId));
  match last snapshots with
  | None => mret (None, seen)
  | Some newest =>
      if bool_decide (newest ∈ seen) then mret (None, seen)
      else
        bytes ← onRemote (adapter_get newest);
        opened ← liftR (openJson key bytes);
        let '(header, value) := opened in
        if negb (String.eqb (hdr_v header) vaultId) then mret (None, seen)
        else
          snap ← liftR (payload_snapshot value);
          _ ← onApp (observeStamps [snap_watermark snap]);
          _ ← onApp (merge (snapshot_ops snap));
          _ ← record_applied [newest];
          _ ← onApp (modifyS (set_lastSnapshot (Some (snap_watermark snap))));
          mret (Some (snap_watermark snap), jset_add seen newest)
  end.

Definition pull (vault : VaultSession Key) (key : Key) (vaultId : string) : M (Engine R) Z :=
  st ← getS;
  result ← applySnapshot key vaultId (map fst (map_to_list (remoteObjects (app st))));
  let '(watermark, seen) := result in
  remote ← onRemote (adapter_list (opsPrefix vaultId));
  let unseen := List.filter (fun name => negb (bool_decide (name ∈ seen))) remote in
  let is_covered name := match watermark with Some w => coveredBy name w | None => false end in
  let covered := List.filter is_covered unseen in
  let fresh := List.filter (fun name => negb (is_covered name)) unseen in
  _ ← record_applied covered;
  match fresh with
  | [] => mret 0
  | _ =>
      got ← foldM (pull_object vault key vaultId) ([], [], []) fresh;
      let '(ops, applied, heads) := got in
      _ ← onApp (observeStamps heads);
      count ← onApp (merge ops);
      _ ← record_applied applied;
      mret count
  end.

(** One batch of the upload loop. *)
Definition push_batch (key : Key) (vaultId device : string) (pushed : Z) (slice : list LocalOperation)
  : M (Engine R) Z :=
  let ops := map lop_op slice in
  let head := default "" (op_hlc ∘ lop_op <$> last slice) in
  n ← draw;
  sealed ← liftR (sealJson key n (mkHeader vaultId device head "ops") (PBatch (mkBatch vaultId device head ops)));
  let name := opsObjectName vaultId head in
  _ ← onRemote (adapter_put name sealed);
  _ ← record_applied [name];
  _ ← onApp (modifyS (markSynced (map (op_hlc ∘ lop_op) slice)));
  mret (pushed + Z.of_nat (length ops)).

Definition push (vault : VaultSession Key) (key : Key) (vaultId : string) : M (Engine R) Z :=
  st ← getS;
  let pending := pendingOperations PENDING_LIMIT (app st) in
  match pending with
  | [] => mret 0
  | _ =>
      device ← liftR (requireDeviceId vault);
      foldM (push_batch key vaultId device) 0 (chunks (length pending) MAX_OPS_PER_BATCH pending)
  end.

Definition prune (vaultId watermark : string) : M (Engine R) unit :=
  catchM
    (listed ← both (onRemote (adapter_list (opsPrefix vaultId))) (onRemote (adapter_list (snapshotPrefix vaultId)));
     let '(ops, snapshots) := listed in
     let superseded :=
       (List.filter (fun name => coveredBy name watermark) ops
        ++ List.filter (fun name => match stampFromObjectName name with
                                    | Some stamp => String.ltb stamp watermark | None => false end) snapshots)%list in
     forM_ superseded (fun name =>
       _ ← onRemote (adapter_remove name);
       onApp (modifyS (set_remoteObjects (delete name)))))
    (fun _ => mret tt).

Definition maybeSnapshot (vault : VaultSession Key) (key : Key) (vaultId : string) : M (Engine R) unit :=
  st ← getS;
  let s := app st in
  let last_snapshot := default "" (meta_lastSnapshot s) in
  let since := length (List.filter (fun lop => String.ltb last_snapshot (op_hlc (lop_op lop))) (oplog_sorted s)) in
  if (since <? SNAPSHOT_AFTER_OPERATIONS)%nat then mret tt
  else
    let operations := oplog_sorted s in
    match op_hlc ∘ lop_op <$> last operations with
    | None => mret tt
    | Some watermark =>
        if negb (truthy watermark) then mret tt
        else
          device ← liftR (requireDeviceId vault);
          let snapshot := mkSnapshot vaultId device watermark (map (fun name => (name, table_rows name s)) ENTITY_NAMES)
                            (Z.of_nat (length operations)) in
          let name := snapshotObjectName vaultId watermark in
          n ← draw;
          sealed ← liftR (sealJson key n (mkHeader vaultId device watermark "snapshot") (PSnapshot snapshot));
          _ ← onRemote (adapter_put name sealed);
          _ ← record_applied [name];
          _ ← onApp (modifyS (set_lastSnapshot (Some watermark)));
          prune vaultId watermark
    end.

Definition cycle (vault : VaultSession Key) (target : SyncTarget) (override : bool) : M (Engine R) unit :=
  _ ← liftR (if override then Ok tt else create_adapter target);
  key ← liftR (requireKey vault);
  vaultId ← liftR (requireVaultId vault);
  pulled ← pull vault key vaultId;
  pushed ← push vault key vaultId;
  _ ← maybeSnapshot vault key vaultId;
  _ ← onRemote adapter_flush;
  now ← onApp Date_now;
  _ ← onApp (modifyS (set_lastSyncAt (Some now)));
  st ← getS;
  patch (fun _ => mkSyncStatus Idle (Some now) None false (countPending (app st)) pulled pushed).

Definition cycle_failed (error : exn) : M (Engine R) unit :=
  match error with
  | NoSyncTargetError =>
      patch (fun s => mkSyncStatus Idle (st_lastSyncAt s) None (st_retryable s) (st_pending s) (st_pulled s) (st_pushed s))
  | _ =>
      st ← getS;
      patch (fun s => mkSyncStatus SyncError (st_lastSyncAt s) (Some (exn_message error))
               (match error with SyncTransportError _ retryable => retryable | _ => false end)
               (countPending (app st)) (st_pulled s) (st_pushed s))
  end.

Definition runCycle (vault : VaultSession Key) (target : SyncTarget) (override : bool) : M (Engine R) SyncStatus :=
  if negb (vs_unlocked vault) then
    _ ← patch (fun s => mkSyncStatus Idle (st_lastSyncAt s) None (st_retryable s) (st_pending s) (st_pulled s) (st_pushed s));
    st ← getS; mret (status st)
  else
    _ ← patch (fun s => mkSyncStatus Syncing (st_lastSyncAt s) None (st_retryable s) (st_pending s) 0 0);
    _ ← catchM (cycle vault target override) cycle_failed;
    st ← getS; mret (status st).

Definition initialise_sync : M (Engine R) unit :=
  st ← getS;
  patch (fun s => mkSyncStatus (st_state s) (meta_lastSyncAt (app st)) (st_lastError s) (st_retryable s)
           (countPending (app st)) (st_pulled s) (st_pushed s)).
End Sync.

(** * Specification *)

(** What the devices of a fleet leave at a destination: every object of the vault that
    opens under its key holds writes of the fleet [g], none newer than its stamp. *)
Section Honest.
Context {Bytes Key : Type} `{!Sealing Key Bytes} (g : list Operation) (key : Key) (vaultId : string).

Definition honest_batch (head : string) (ops : list Operation) : Prop :=
  (exists o, o ∈ g /\ head = op_hlc o) /\ Forall (from g) ops
  /\ Forall (fun op => compareHlc (op_hlc op) head <= 0) ops.

Definition honest_object (name : string) (b : Bytes) : Prop :=
  forall h v, openJson key b = Ok (h, v) -> hdr_v h = vaultId ->
    (startsWith name (opsPrefix vaultId) = true ->
       exists batch, v = PBatch batch /\ honest_batch (hdr_h h) (batch_ops batch))
    /\ (startsWith name (snapshotPrefix vaultId) = true ->
       exists snap, v = PSnapshot snap /\ honest_batch (snap_watermark snap) (snapshot_ops snap)).

Definition honest (c : gmap string Bytes) : Prop := forall name b, c !! name = Some b -> honest_object name b.
End Honest.

(** A fleet that shares one destination: the devices edit, restart, fail, and synchronise
    in any order; a cycle may succeed or fail at any point.  [g] collects what was authored. *)
Inductive shared {R Bytes Key : Type} `{!SyncAdapter R Bytes} `{!AdapterLaws R Bytes} `{!Sealing Key Bytes}
    (devices : list string) (key : Key) (vaultId : string)
  : (string -> App) -> list Operation -> R -> Prop :=
| sh_init : forall f r, (forall d, d ∈ devices -> fresh_device d (f d)) -> contents r = ∅ ->
    shared devices key vaultId f [] r
| sh_put : forall f g r d e v v' s', shared devices key vaultId f g r -> d ∈ devices ->
    put e v (f d) = (Ok v', s') ->
    shared devices key vaultId (upd f d s')
      (mkOp (entity_updatedAt v') e (entity_id v') Put (Some v') (device_of (f d)) :: g) r
| sh_remove : forall f g r d e id s', shared devices key vaultId f g r -> d ∈ devices ->
    remove e id (f d) = (Ok tt, s') ->
    shared devices key vaultId (upd f d s')
      (mkOp match clock s' with Some c => encodeHlc (clock_state c) (clock_device c) | None => "" end
         e id Delete None (device_of (f d)) :: g) r
| sh_sync : forall f g d vault target override st x st', shared devices key vaultId f g (remote st) ->
    d ∈ devices -> app st = f d -> vs_key vault = Some key -> vs_vaultId vault = Some vaultId ->
    runCycle vault target override st = (x, st') ->
    shared devices key vaultId (upd f d (app st')) g (remote st')
| sh_quiet : forall f g r d s', shared devices key vaultId f g r -> d ∈ devices -> quiet (f d) s' ->
    shared devices key vaultId (upd f d s') g r
| sh_ext : forall f f' g r, shared devices key vaultId f g r -> (forall d, f' d = f d) -> shared devices key vaultId f' g r.
