(* ===== verification/SyncSafety.v ===== *)
(** What the sync engine guarantees: the devices of one vault and their destination are a
    run of the [Fleet], uploads mark only what was uploaded and drain the queue, downloads
    learn every batch they had not seen, and a cycle always settles. *)
From S2P Require Export Sync.
#[local] Open Scope string_scope.
#[local] Open Scope Z_scope.

(** * Lemmas *)

Lemma from_mono g o op : from g op -> from (o :: g) op.
Proof. apply from_cons. Qed.

Lemma quiet_refl s : quiet s s.
Proof. right. right. by split_and!. Qed.

Lemma quiet_bookkeeping (f : App -> App) s :
  rows (f s) = rows s -> lop_op <$> oplog (f s) = lop_op <$> oplog s -> clock (f s) = clock s ->
  meta_clock (f s) = meta_clock s -> nows (f s) = nows s -> quiet s (f s).
Proof. intros. right. right. by split_and!. Qed.

Lemma markSynced_ops stamps s : lop_op <$> oplog (markSynced stamps s) = lop_op <$> oplog s.
Proof.
  apply map_eq. intros k. rewrite !lookup_fmap mark_synced_lookup. destruct (oplog s !! k) as [lop|]; [|done].
  cbn. by case_decide.
Qed.

Lemma markSynced_rest stamps s :
  rows (markSynced stamps s) = rows s /\ clock (markSynced stamps s) = clock s
  /\ meta_clock (markSynced stamps s) = meta_clock s /\ nows (markSynced stamps s) = nows s.
Proof.
  unfold markSynced. revert s. induction stamps as [|h l IH]; intros s; [done|]. cbn [fold_left].
  destruct (IH (mark_one s h)) as (-> & -> & -> & ->). done.
Qed.

Lemma merge_throw ops s x s' : merge ops s = (Throw x, s') -> s' = s.
Proof.
  unfold merge. destruct ops; [done|]. unfold mbind, M_bind, requireClock, stepM.
  destruct (clock s); [|congruence]. by destruct (merge_loop _ _).
Qed.

Lemma oplog_sorted_spec s h :
  ledger_inv s h ->
  StronglySorted (fun a b => String.leb (op_hlc (lop_op a)) (op_hlc (lop_op b)) = true) (oplog_sorted s).
Proof.
  intros Hi. unfold oplog_sorted.
  assert (forall k lop, (k, lop) ∈ js_sort (fun a b : string * LocalOperation => cmp_string a.1 b.1) (map_to_list (oplog s)) ->
    op_hlc (lop_op lop) = k) as Hk.
  { intros k lop Hin. rewrite elem_of_js_sort elem_of_map_to_list in Hin. by destruct (inv_log _ _ Hi _ _ Hin). }
  pose proof (js_sort_sorted (fun a b : string * LocalOperation => cmp_string a.1 b.1) (map_to_list (oplog s))) as Hs.
  revert Hk Hs. generalize (js_sort (fun a b : string * LocalOperation => cmp_string a.1 b.1) (map_to_list (oplog s))) as l.
  intros l Hk Hs. induction Hs as [|[k lop] l Hl IH Hx]; [constructor|]. cbn [map snd]. constructor.
  - apply IH. intros k' lop' Hin. apply Hk. by constructor.
  - apply Forall_forall. intros lop' ([k' lop''] & -> & Hin)%list_elem_of_fmap. rewrite ->Forall_forall in Hx.
    specialize (Hx _ Hin). cbn in Hx |- *. rewrite (Hk k lop); [|constructor]. rewrite (Hk k' lop''); [|by constructor].
    rewrite leb_cmp_string. lia.
Qed.

Lemma sorted_last {A} (le : A -> A -> Prop) l x :
  (forall y, le y y) -> StronglySorted le l -> last l = Some x -> Forall (fun y => le y x) l.
Proof.
  intros Hrefl Hs. induction Hs as [|y l Hl IH Hy]; [done|]. destruct l as [|z l].
  - intros [= <-]. by repeat constructor.
  - intros Hx. constructor; [|by apply IH]. rewrite ->Forall_forall in Hy. apply Hy.
    apply last_Some_elem_of. exact Hx.
Qed.

Lemma StronglySorted_take_drop {A} (le : A -> A -> Prop) n l :
  StronglySorted le l -> StronglySorted le (take n l) /\ StronglySorted le (drop n l).
Proof. rewrite -{1}(take_drop n l). intros (_ & ? & ?)%StronglySorted_app. done. Qed.

Lemma chunks_spec {A} fuel n (l : list A) c :
  c ∈ chunks fuel n l -> exists i, c = take n (drop i l) /\ drop i l <> [].
Proof.
  revert l. induction fuel as [|f IH]; intros l; cbn [chunks]; [set_solver|].
  destruct l as [|x l]; [set_solver|]. intros [->|Hc]%elem_of_cons; [by exists 0%nat|].
  destruct (IH _ Hc) as (i & -> & Hi). exists (n + i)%nat. by rewrite -drop_drop.
Qed.

Lemma chunks_concat {A} fuel n (l : list A) :
  (1 <= n)%nat -> (length l <= fuel)%nat -> concat (chunks fuel n l) = l.
Proof.
  intros Hn. revert l. induction fuel as [|f IH]; intros l Hl; [by destruct l; cbn in Hl; [|lia]|].
  destruct l as [|x l]; [done|]. cbn [chunks concat]. rewrite IH; [apply take_drop|].
  rewrite length_drop. cbn [length] in *. lia.
Qed.

Lemma honest_mono {Bytes Key : Type} `{!Sealing Key Bytes} o g (key : Key) vaultId (c : gmap string Bytes) :
  honest g key vaultId c -> honest (o :: g) key vaultId c.
Proof.
  assert (forall head ops, honest_batch g head ops -> honest_batch (o :: g) head ops) as Hb.
  { intros head ops ((x & Hx & Ex) & Hops & Hle). split_and!; [|by eapply Forall_impl; [exact Hops|intros; by apply from_cons]|done].
    exists x. split; [by constructor|done]. }
  intros H name b Hn h v Hopen Hv. destruct (H name b Hn h v Hopen Hv) as [H1 H2]. split.
  - intros Hp. destruct (H1 Hp) as (batch & -> & Hh). exists batch. auto.
  - intros Hp. destruct (H2 Hp) as (snap & -> & Hh). exists snap. auto.
Qed.

(** ** What a step of the engine keeps *)

Section Safety.
Context {R Bytes Key : Type} `{!SyncAdapter R Bytes} `{!AdapterLaws R Bytes} `{!Sealing Key Bytes}.
Context (devices : list string) (Hdash : forall d, d ∈ devices -> no_dash d = true).
Context (f0 : string -> App) (k0 : string -> list Operation) (g : list Operation) (d : string) (Hd : d ∈ devices).
Context (key : Key) (vaultId : string).

(** Device [d] is in state [s], having heard of [k]; the others are as in [f0]. *)
Definition at_state (s : App) (k : list Operation) : Prop := fleet devices (upd f0 d s) (upd k0 d k) g.

Definition kept (st : Engine R) : Prop :=
  (exists k, at_state (app st) k) /\ honest g key vaultId (contents (remote st)).

(** A step that keeps the fleet and the destination sound, whatever its outcome, and
    whose results satisfy [post]. *)
Definition safe {A} (m : M (Engine R) A) (post : A -> Prop) : Prop :=
  forall st r st', kept st -> m st = (r, st') -> kept st' /\ forall a, r = Ok a -> post a.

Lemma at_state_inv s k :
  at_state s k -> device_history s k /\ (forall op, op ∈ k -> from g op)
    /\ exists c, ledger_inv s k /\ clock_inv s k c.
Proof.
  intros Hf. pose proof (fleet_invariant devices Hdash _ _ _ Hf) as Hinv.
  destruct (fi_device _ _ _ _ Hinv d Hd) as [Hh _]. rewrite !upd_eq in Hh.
  pose proof (fleet_inv_known _ _ _ _ _ Hinv Hd) as Hu. rewrite upd_eq in Hu.
  split_and!; [done| |by apply device_inv]. intros op Hop. apply (fi_known _ _ _ _ Hinv d); [done|by rewrite upd_eq].
Qed.

Lemma at_state_quiet s s' k : at_state s k -> quiet s s' -> at_state s' k.
Proof.
  intros Hf Hq. eapply fl_ext.
  - apply (fl_quiet _ (upd f0 d s) (upd k0 d k) g d s'); [exact Hf|done|]. by rewrite upd_eq.
  - intros d'. unfold upd. by destruct (String.eqb d' d).
  - done.
Qed.

Lemma at_state_receive s k heads ops s1 s2 n :
  at_state s k -> Forall (from g) ops -> Forall (fun head => exists o, o ∈ g /\ head = op_hlc o) heads ->
  Forall (fun op => exists head, head ∈ heads /\ compareHlc (op_hlc op) head <= 0) ops ->
  observeStamps heads s = (Ok tt, s1) -> merge ops s1 = (Ok n, s2) -> at_state s2 (ops ++ k)%list.
Proof.
  intros Hf Hops Hheads Hb E1 E2. eapply fl_ext.
  - eapply (fl_receive _ (upd f0 d s) (upd k0 d k) g d heads ops s1 s2 n); [exact Hf|done..| |exact E2]. by rewrite upd_eq.
  - intros d'. unfold upd. by destruct (String.eqb d' d).
  - intros d'. unfold upd. destruct (String.eqb_spec d' d) as [->|]; [by rewrite String.eqb_refl|done].
Qed.

Lemma safe_weaken {A} (m : M (Engine R) A) (P Q : A -> Prop) : safe m P -> (forall a, P a -> Q a) -> safe m Q.
Proof. intros H HPQ st r st' Hk E. destruct (H st r st' Hk E) as [? Hp]. split; [done|]. intros a Ha. by apply HPQ, Hp. Qed.

Lemma safe_ret {A} (a : A) (P : A -> Prop) : P a -> safe (mret a) P.
Proof. intros HP st r st' Hk [= <- <-]. split; [done|]. by intros ? [= <-]. Qed.

Lemma safe_liftR {A} (x : result A) (P : A -> Prop) : (forall a, x = Ok a -> P a) -> safe (liftR x) P.
Proof. intros HP st r st' Hk [= <- <-]. by split. Qed.

Lemma safe_bind {A B} (m : M (Engine R) A) (f : A -> M (Engine R) B) (P : A -> Prop) (Q : B -> Prop) :
  safe m P -> (forall a, P a -> safe (f a) Q) -> safe (mbind f m) Q.
Proof.
  intros Hm Hf st r st' Hk. unfold mbind, M_bind. destruct (m st) as [[a|e] s1] eqn:E.
  - destruct (Hm st _ s1 Hk E) as [Hk1 HP]. intros E'. by eapply (Hf a); [apply HP|exact Hk1|exact E'].
  - intros [= <- <-]. destruct (Hm st _ s1 Hk E) as [Hk1 _]. by split.
Qed.

Lemma safe_getS {A} (f : Engine R -> M (Engine R) A) (P : A -> Prop) :
  (forall st, kept st -> safe (f st) P) -> safe (mbind f getS) P.
Proof. intros Hf st r st' Hk E. by eapply (Hf st). Qed.

Lemma safe_catch {A} (m : M (Engine R) A) handler (P : A -> Prop) :
  safe m P -> (forall e, safe (handler e) P) -> safe (catchM m handler) P.
Proof.
  intros Hm Hh st r st' Hk. unfold catchM. destruct (m st) as [[a|e] s1] eqn:E.
  - intros [= <- <-]. by eapply Hm.
  - destruct (Hm st _ s1 Hk E) as [Hk1 _]. intros E'. by eapply Hh.
Qed.

Lemma safe_both {A B} (m : M (Engine R) A) (n : M (Engine R) B) P Q :
  safe m P -> safe n Q -> safe (both m n) (fun ab => P ab.1 /\ Q ab.2).
Proof.
  intros Hm Hn st r st' Hk. unfold both. destruct (m st) as [ra s1] eqn:E1. destruct (n s1) as [rb s2] eqn:E2.
  intros [= <- <-]. destruct (Hm _ _ _ Hk E1) as [Hk1 H1], (Hn _ _ _ (proj1 (Hm _ _ _ Hk E1)) E2) as [Hk2 H2].
  split; [done|]. intros [a b] E. destruct ra, rb; simplify_eq. split; [by apply H1|by apply H2].
Qed.

Lemma safe_forM {A} (xs : list A) (f : A -> M (Engine R) unit) :
  (forall x, x ∈ xs -> safe (f x) (fun _ => True)) -> safe (forM_ xs f) (fun _ => True).
Proof.
  induction xs as [|x xs IH]; intros Hf; [by apply safe_ret|]. cbn [forM_].
  eapply safe_bind; [apply Hf; constructor|]. intros _ _. apply IH. intros y Hy. apply Hf. by constructor.
Qed.

Lemma safe_foldM {A B} (xs : list A) (f : B -> A -> M (Engine R) B) (P : B -> Prop) :
  (forall b x, x ∈ xs -> P b -> safe (f b x) P) -> forall b, P b -> safe (foldM f b xs) P.
Proof.
  induction xs as [|x xs IH]; intros Hf b Hb; [by apply safe_ret|]. cbn [foldM].
  eapply safe_bind; [apply Hf; [constructor|done]|]. intros b' Hb'. apply IH; [|done].
  intros c y Hy. apply Hf. by constructor.
Qed.

Lemma safe_app_quiet {A} (m : M App A) :
  (forall s r s', m s = (r, s') -> quiet s s') -> safe (onApp m) (fun _ => True).
Proof.
  intros Hm st r st' [(k & Hk) Hr]. unfold onApp. destruct (m (app st)) as [r0 s'] eqn:E. intros [= <- <-].
  split; [|done]. split; [|done]. exists k. by eapply at_state_quiet; [|eapply Hm].
Qed.

Lemma safe_same_world {A} (m : M (Engine R) A) :
  (forall st r st', m st = (r, st') -> app st' = app st /\ remote st' = remote st) -> safe m (fun _ => True).
Proof. intros Hm st r st' [Hk Hr] E. destruct (Hm _ _ _ E) as [Ea Er]. split; [|done]. unfold kept. by rewrite Ea Er. Qed.

Lemma safe_patch f : safe (patch (R := R) f) (fun _ => True).
Proof. apply safe_same_world. by intros st r st' [= _ <-]. Qed.

Lemma safe_draw : safe (draw (R := R)) (fun _ => True).
Proof. apply safe_same_world. by intros st r st' [= _ <-]. Qed.

Lemma quiet_modify (f : App -> App) s r s' :
  (forall s, rows (f s) = rows s /\ oplog (f s) = oplog s /\ clock (f s) = clock s
             /\ meta_clock (f s) = meta_clock s /\ nows (f s) = nows s) ->
  modifyS f s = (r, s') -> quiet s s'.
Proof.
  intros Hf [= _ <-]. destruct (Hf s) as (Er & Eo & Ec & Em & En). apply quiet_bookkeeping; [done|by rewrite Eo|done..].
Qed.

Lemma safe_record names : safe (record_applied (R := R) names) (fun _ => True).
Proof.
  apply safe_forM. intros name _. apply safe_app_quiet. intros s r s' [= _ <-].
  right. right. by split_and!.
Qed.

Lemma safe_lastSnapshot w : safe (onApp (R := R) (modifyS (set_lastSnapshot w))) (fun _ => True).
Proof. apply safe_app_quiet. intros s r s'. by apply quiet_modify. Qed.

Lemma safe_markSynced stamps : safe (onApp (R := R) (modifyS (markSynced stamps))) (fun _ => True).
Proof.
  apply safe_app_quiet. intros s r s' [= _ <-]. destruct (markSynced_rest stamps s) as (? & ? & ? & ?).
  apply quiet_bookkeeping; [done|apply markSynced_ops|done..].
Qed.

(** ** Steps at the destination *)

Lemma safe_remote {A} (m : M R A) (P : A -> Prop) :
  (forall r x r', honest g key vaultId (contents r) -> m r = (x, r') ->
     honest g key vaultId (contents r') /\ forall a, x = Ok a -> P a) ->
  safe (onRemote m) P.
Proof.
  intros Hm st r st' [Hk Hr]. unfold onRemote. destruct (m (remote st)) as [x r'] eqn:E. intros [= <- <-].
  destruct (Hm _ _ _ Hr E) as [Hr' HP]. by split.
Qed.

Lemma safe_list p : safe (onRemote (adapter_list p)) (fun names => Forall (fun n => startsWith n p = true) names).
Proof.
  apply safe_remote. intros r x r' Hr E. rewrite (list_contents _ _ _ _ E). split; [done|].
  intros names ->. apply Forall_forall. intros n Hn. by apply (list_complete _ _ _ _ n E) in Hn as [? _].
Qed.

Lemma safe_get name : safe (onRemote (adapter_get name)) (fun b => honest_object g key vaultId name b).
Proof.
  apply safe_remote. intros r x r' Hr E. rewrite (get_contents _ _ _ _ E). split; [done|].
  intros b ->. apply Hr. by eapply get_returns.
Qed.

Lemma safe_put name b : honest_object g key vaultId name b -> safe (onRemote (adapter_put name b)) (fun _ => True).
Proof.
  intros Hb. apply safe_remote. intros r x r' Hr E. split; [|done].
  destruct (put_contents _ _ _ _ _ E) as [->| ->]; [done|].
  intros n c [[<- <-]|[_ Hc]]%lookup_insert_Some; [done|by apply Hr].
Qed.

Lemma safe_remove_object name : safe (onRemote (adapter_remove name)) (fun _ => True).
Proof.
  apply safe_remote. intros r x r' Hr E. split; [|done].
  destruct (remove_contents _ _ _ _ E) as [->| ->]; [done|].
  intros n c [_ Hc]%lookup_delete_Some. by apply Hr.
Qed.

Lemma safe_flush : safe (onRemote adapter_flush) (fun _ => True).
Proof. apply safe_remote. intros r x r' Hr E. by rewrite (flush_contents _ _ _ E). Qed.

(** ** Receiving *)

Lemma safe_receive {A} heads ops (f : Z -> M (Engine R) A) P :
  Forall (from g) ops -> Forall (fun head => exists o, o ∈ g /\ head = op_hlc o) heads ->
  Forall (fun op => exists head, head ∈ heads /\ compareHlc (op_hlc op) head <= 0) ops ->
  (forall n, safe (f n) P) ->
  safe (_ ← onApp (observeStamps heads); n ← onApp (merge ops); f n) P.
Proof.
  intros Hops Hheads Hb Hf st r st' [(k & Hk) Hr]. unfold mbind, M_bind, onApp.
  destruct (observeStamps heads (app st)) as [[[]|e] s1] eqn:E1; cbn [app remote draws status].
  2:{ intros [= <- <-]. split; [|done]. split; [|done]. exists k. eapply at_state_quiet; [done|]. left. by exists heads, (Throw e). }
  destruct (merge ops s1) as [[n|e] s2] eqn:E2.
  - intros E. eapply Hf; [|exact E]. split; [|done]. exists (ops ++ k)%list. by eapply at_state_receive.
  - apply merge_throw in E2 as ->. intros [= <- <-]. split; [|done]. split; [|done]. exists k.
    eapply at_state_quiet; [done|]. left. by exists heads, (Ok tt).
Qed.

Lemma honest_batch_receive head ops :
  honest_batch g head ops ->
  Forall (from g) ops /\ Forall (fun h => exists o, o ∈ g /\ h = op_hlc o) [head]
  /\ Forall (fun op => exists h, h ∈ [head] /\ compareHlc (op_hlc op) h <= 0) ops.
Proof.
  intros (Hh & Hops & Hle). split_and!; [done|by repeat constructor|].
  eapply Forall_impl; [exact Hle|]. intros op Hop. exists head. split; [set_solver|done].
Qed.

Lemma safe_applySnapshot seen : safe (applySnapshot key vaultId seen) (fun _ => True).
Proof.
  unfold applySnapshot. eapply safe_bind; [apply safe_list|]. intros names Hnames.
  destruct (last names) as [newest|] eqn:El; [|by apply safe_ret]. case_bool_decide; [by apply safe_ret|].
  eapply safe_bind; [apply safe_get|]. intros b Hb.
  eapply safe_bind; [apply (safe_liftR _ (fun hv => openJson key b = Ok hv)); by intros ? ->|].
  intros [h v] Hopen. destruct (String.eqb_spec (hdr_v h) vaultId) as [Hv|]; cbn [negb]; [|by apply safe_ret].
  destruct (Hb h v Hopen Hv) as [_ Hsnap].
  destruct Hsnap as (snap & -> & Hs).
  { apply last_Some_elem_of in El. rewrite ->Forall_forall in Hnames. by apply Hnames. }
  eapply safe_bind; [apply (safe_liftR _ (fun s => s = snap)); by intros ? [= ->]|]. intros ? ->.
  destruct (honest_batch_receive _ _ Hs) as (H1 & H2 & H3). apply safe_receive; [done..|]. intros _.
  eapply safe_bind; [apply safe_record|]. intros _ _.
  eapply safe_bind; [apply safe_lastSnapshot|]. intros _ _. by apply safe_ret.
Qed.

(** What the download loop has gathered. *)
Definition gathered (acc : list Operation * list string * list string) : Prop :=
  let '(ops, _, heads) := acc in
  Forall (from g) ops /\ Forall (fun head => exists o, o ∈ g /\ head = op_hlc o) heads
  /\ Forall (fun op => exists head, head ∈ heads /\ compareHlc (op_hlc op) head <= 0) ops.

Lemma safe_pull_object vault acc name :
  startsWith name (opsPrefix vaultId) = true -> gathered acc ->
  safe (pull_object vault key vaultId acc name) gathered.
Proof.
  intros Hn Hacc. destruct acc as [[ops applied] heads]. unfold pull_object.
  eapply safe_bind; [apply safe_get|]. intros b Hb.
  eapply safe_bind; [apply (safe_liftR _ (fun hv => openJson key b = Ok hv)); by intros ? ->|].
  intros [h v] Hopen. destruct (String.eqb_spec (hdr_v h) vaultId) as [Hv|]; cbn [negb]; [|by apply safe_ret].
  eapply safe_bind; [by apply (safe_liftR _ (fun _ => True))|]. intros device _.
  destruct (String.eqb (hdr_d h) device); [by apply safe_ret|].
  destruct (Hb h v Hopen Hv) as [(batch & -> & Hh & Hops & Hle) _]; [done|].
  eapply safe_bind; [apply (safe_liftR _ (fun s => s = batch_ops batch)); by intros ? [= ->]|]. intros ? ->.
  apply safe_ret. destruct Hacc as (A1 & A2 & A3). split_and!.
  - by apply Forall_app.
  - apply Forall_app. split; [done|]. by repeat constructor.
  - apply Forall_app. split.
    + eapply Forall_impl; [exact A3|]. intros op (hd & Hin & ?). exists hd. split; [set_solver|done].
    + eapply Forall_impl; [exact Hle|]. intros op Hop. exists (hdr_h h). split; [set_solver|done].
Qed.

Lemma safe_pull vault : safe (pull vault key vaultId) (fun _ => True).
Proof.
  unfold pull. apply safe_getS. intros st _.
  eapply safe_bind; [apply safe_applySnapshot|]. intros [watermark seen] _.
  eapply safe_bind; [apply safe_list|]. intros names Hnames.
  eapply safe_bind; [apply safe_record|]. intros _ _.
  set (fresh := List.filter _ _).
  assert (forall n, n ∈ fresh -> startsWith n (opsPrefix vaultId) = true) as Hfresh.
  { intros n [[Hn _]%elem_of_filter_b _]%elem_of_filter_b. rewrite ->Forall_forall in Hnames. by apply Hnames. }
  destruct fresh as [|n0 fresh']; [by apply safe_ret|].
  eapply safe_bind.
  - apply (safe_foldM _ _ gathered); [|by split_and!; constructor].
    intros acc n Hn Hacc. apply safe_pull_object; [by apply Hfresh|done].
  - intros [[ops applied] heads] (A1 & A2 & A3). apply safe_receive; [done..|]. intros n.
    eapply safe_bind; [apply safe_record|]. intros _ _. by apply safe_ret.
Qed.

(** ** Sending *)

Lemma ops_not_snapshot v head : startsWith (opsObjectName v head) (snapshotPrefix v) = false.
Proof.
  unfold opsObjectName, opsPrefix, snapshotPrefix. rewrite !str_app_assoc.
  rewrite (startsWith_common "vaults/") (startsWith_common v). done.
Qed.

Lemma snapshot_not_ops v head : startsWith (snapshotObjectName v head) (opsPrefix v) = false.
Proof.
  unfold snapshotObjectName, opsPrefix, snapshotPrefix. rewrite !str_app_assoc.
  rewrite (startsWith_common "vaults/") (startsWith_common v). done.
Qed.

(** A stretch of the log, oldest first. *)
Definition log_slice (l : list LocalOperation) : Prop :=
  Forall (fun lop => from g (lop_op lop)) l
  /\ StronglySorted (fun a b => String.leb (op_hlc (lop_op a)) (op_hlc (lop_op b)) = true) l.

Lemma log_slice_sorted s k : at_state s k -> log_slice (oplog_sorted s).
Proof.
  intros (Hh & Hfrom & c & Hi & _)%at_state_inv. split; [|by eapply oplog_sorted_spec].
  apply Forall_forall. intros lop (key' & Hl)%elem_of_oplog_sorted. apply Hfrom.
  by destruct (inv_log _ _ Hi _ _ Hl).
Qed.

Lemma log_slice_filter p l : log_slice l -> log_slice (List.filter p l).
Proof.
  intros [H1 H2]. split; [|by apply StronglySorted_filter]. rewrite ->Forall_forall in H1 |- *.
  intros lop [Hl _]%elem_of_filter_b. by apply H1.
Qed.

Lemma log_slice_cut n i l : log_slice l -> log_slice (take n (drop i l)).
Proof.
  intros [H1 H2]. split; [by apply Forall_take, Forall_drop|].
  by apply StronglySorted_take_drop, StronglySorted_take_drop.
Qed.

(** A batch made of a stretch of the log is honest about its newest stamp. *)
Lemma log_slice_honest l lop :
  log_slice l -> last l = Some lop -> honest_batch g (op_hlc (lop_op lop)) (map lop_op l).
Proof.
  intros [H1 H2] Hlast. split_and!.
  - rewrite ->Forall_forall in H1. destruct (H1 lop (last_Some_elem_of _ _ Hlast)) as (o & Ho & E & _). by exists o.
  - by apply Forall_map.
  - apply Forall_map. eapply Forall_impl.
    + eapply (sorted_last _ l lop); [|exact H2|exact Hlast]. intros y. apply string_leb_refl.
    + intros y Hy. cbn in Hy |- *. rewrite compareHlc_cmp. rewrite leb_cmp_string in Hy. lia.
Qed.

Lemma safe_push_batch device pushed slice lop :
  log_slice slice -> last slice = Some lop -> safe (push_batch (R := R) key vaultId device pushed slice) (fun _ => True).
Proof.
  intros Hs Hlast. unfold push_batch. rewrite Hlast. cbn [fmap option_fmap option_map default].
  eapply safe_bind; [apply safe_draw|]. intros n _.
  eapply safe_bind; [apply safe_liftR; intros b Hb; exact Hb|]. intros sealed Hsealed. cbv beta in Hsealed.
  eapply safe_bind; [|intros _ _].
  { apply safe_put. intros h v Hopen Hv. rewrite (openJson_sealJson _ _ _ _ _ Hsealed) in Hopen.
    injection Hopen as <- <-. split.
    - intros _. eexists. split; [done|]. cbn. by apply log_slice_honest.
    - by rewrite ops_not_snapshot. }
  eapply safe_bind; [apply safe_record|]. intros _ _.
  eapply safe_bind; [apply safe_markSynced|]. intros _ _. by apply safe_ret.
Qed.

Lemma safe_push vault : safe (push (R := R) vault key vaultId) (fun _ => True).
Proof.
  unfold push. apply safe_getS. intros st [(k & Hk) _].
  pose proof (log_slice_sorted _ _ Hk) as Hlog.
  assert (log_slice (pendingOperations PENDING_LIMIT (app st))) as Hp.
  { unfold pendingOperations. rewrite <-(drop_0 (List.filter _ _)). by apply log_slice_cut, log_slice_filter. }
  destruct (pendingOperations PENDING_LIMIT (app st)) as [|p0 pending] eqn:E; [by apply safe_ret|].
  eapply safe_bind; [by apply (safe_liftR _ (fun _ => True))|]. intros device _.
  apply (safe_foldM _ _ (fun _ => True)); [|done]. intros pushed slice Hin _.
  apply chunks_spec in Hin as (i & -> & Hne).
  destruct (last (take MAX_OPS_PER_BATCH (drop i (p0 :: pending)))) as [lop|] eqn:El.
  - eapply safe_push_batch; [by apply log_slice_cut|exact El].
  - apply last_None in El. by destruct (drop i (p0 :: pending)).
Qed.

Lemma safe_prune watermark : safe (prune (R := R) vaultId watermark) (fun _ => True).
Proof.
  unfold prune. apply safe_catch; [|intros; by apply safe_ret].
  eapply safe_bind; [apply safe_both; apply safe_list|]. intros [ops snapshots] _.
  apply safe_forM. intros name _. eapply safe_bind; [apply safe_remove_object|]. intros _ _.
  apply safe_app_quiet. intros s r s'. by apply quiet_modify.
Qed.

(** A row is what the operation its stamp names wrote. *)
Lemma row_from s k e row w :
  at_state s k -> row ∈ table_rows e s -> op_hlc ∘ lop_op <$> last (oplog_sorted s) = Some w ->
  forall dev, let op := mkOp (entity_updatedAt row) e (entity_id row) Put (Some row) dev in
  from g op /\ compareHlc (op_hlc op) w <= 0.
Proof.
  intros Hk (id & Hrow)%elem_of_table_rows Hw dev.
  pose proof (log_slice_sorted _ _ Hk) as [Hl1 Hl2].
  pose proof (fleet_invariant devices Hdash _ _ _ Hk) as Hinv.
  apply at_state_inv in Hk as (Hh & Hfrom & c & Hi & Hc).
  rewrite (inv_rows _ _ Hi) in Hrow.
  pose proof (latestStampFor_spec e id s (inv_truthy s k Hi)) as Hl.
  destruct (latestStampFor e id s) as [m|]; [|done]. destruct Hl as [(lop & Hm & He & Hid) _].
  rewrite Hm in Hrow. destruct (inv_log _ _ Hi m lop Hm) as [Hhlc Hin].
  destruct (Hfrom _ Hin) as (o & Ho & Eh & (Se & Si & Sk & Sv)).
  unfold op_state in Hrow. destruct (op_op (lop_op lop)) eqn:Eop; [|done].
  pose proof (fi_stamped _ _ _ _ Hinv o row Ho ltac:(congruence) ltac:(congruence)) as Hst.
  pose proof (inv_wf _ _ Hi) as Hwf. rewrite ->Forall_forall in Hwf. destruct (Hwf _ Hin) as [_ Hput].
  rewrite Eop in Hput. destruct Hput as (v & Hv & Hvid). assert (v = row) as -> by congruence.
  split.
  - exists o. cbn. split_and!; [done|done|]. split_and!; cbn; congruence.
  - cbn. destruct (last (oplog_sorted s)) as [lw|] eqn:El; [|done]. cbn in Hw. injection Hw as <-.
    pose proof (sorted_last _ _ _ (fun y => string_leb_refl (op_hlc (lop_op y))) Hl2 El) as Hle.
    rewrite ->Forall_forall in Hle. specialize (Hle lop). rewrite Hst -Eh.
    rewrite compareHlc_cmp. rewrite leb_cmp_string in Hle.
    assert (lop ∈ oplog_sorted s) as Hmem by (apply elem_of_oplog_sorted; by exists m). specialize (Hle Hmem). lia.
Qed.

Lemma snapshot_rows e s : default [] (jmap_get e (map (fun name => (name, table_rows name s)) ENTITY_NAMES)) = table_rows e s.
Proof. by destruct e. Qed.

Lemma safe_maybeSnapshot vault : safe (maybeSnapshot (R := R) vault key vaultId) (fun _ => True).
Proof.
  unfold maybeSnapshot. apply safe_getS. intros st [(k & Hk) _].
  destruct (_ <? _)%nat; [by apply safe_ret|].
  destruct (op_hlc ∘ lop_op <$> last (oplog_sorted (app st))) as [w|] eqn:Ew; [|by apply safe_ret].
  destruct (negb (truthy w)); [by apply safe_ret|].
  eapply safe_bind; [by apply (safe_liftR _ (fun _ => True))|]. intros device _.
  eapply safe_bind; [apply safe_draw|]. intros n _.
  eapply safe_bind; [apply safe_liftR; intros b Hb; exact Hb|]. intros sealed Hsealed. cbv beta in Hsealed.
  eapply safe_bind; [|intros _ _].
  { apply safe_put. intros h v Hopen Hv. rewrite (openJson_sealJson _ _ _ _ _ Hsealed) in Hopen.
    injection Hopen as <- <-. split; [by rewrite snapshot_not_ops|]. intros _. eexists. split; [done|].
    cbn [snap_watermark]. assert (forall op, op ∈ snapshot_ops (mkSnapshot vaultId device w
        (map (fun name => (name, table_rows name (app st))) ENTITY_NAMES) (Z.of_nat (length (oplog_sorted (app st))))) ->
        from g op /\ compareHlc (op_hlc op) w <= 0) as Hops.
    { intros op. unfold snapshot_ops. rewrite list_elem_of_In in_flat_map. intros (e & _ & Hin).
      rewrite ->in_map_iff in Hin. destruct Hin as (row & <- & Hrow).
      cbn [snap_entities] in Hrow. rewrite snapshot_rows -list_elem_of_In in Hrow.
      by eapply row_from. }
    split_and!.
    - destruct (last (oplog_sorted (app st))) as [lw|] eqn:El; [|done]. injection Ew as <-.
      pose proof (log_slice_honest _ _ (log_slice_sorted _ _ Hk) El) as [? _]. done.
    - apply Forall_forall. intros op Hop. by apply Hops.
    - apply Forall_forall. intros op Hop. by apply Hops. }
  eapply safe_bind; [apply safe_record|]. intros _ _.
  eapply safe_bind; [apply safe_lastSnapshot|]. intros _ _. apply safe_prune.
Qed.

(** ** A cycle *)

Lemma safe_cycle vault target override :
  vs_key vault = Some key -> vs_vaultId vault = Some vaultId ->
  safe (cycle (R := R) vault target override) (fun _ => True).
Proof.
  intros Hkey Hv. unfold cycle.
  eapply safe_bind; [by apply (safe_liftR _ (fun _ => True))|]. intros _ _.
  eapply safe_bind; [apply (safe_liftR _ (fun k => k = key)); unfold requireKey; rewrite Hkey; congruence|]. intros ? ->.
  eapply safe_bind.
  { apply (safe_liftR _ (fun v => v = vaultId)). unfold requireVaultId. rewrite Hv. intros a. destruct (truthy vaultId); congruence. }
  intros ? ->.
  eapply safe_bind; [apply safe_pull|]. intros pulled _.
  eapply safe_bind; [apply safe_push|]. intros pushed _.
  eapply safe_bind; [apply safe_maybeSnapshot|]. intros _ _.
  eapply safe_bind; [apply safe_flush|]. intros _ _.
  eapply safe_bind; [apply safe_app_quiet; intros s r s' [= _ <-]; right; right; by split_and!|]. intros now _.
  eapply safe_bind; [apply safe_app_quiet; intros s r s'; by apply quiet_modify|]. intros _ _.
  apply safe_getS. intros st _. apply safe_patch.
Qed.

Lemma safe_cycle_failed e : safe (cycle_failed (R := R) e) (fun _ => True).
Proof. destruct e; cbn [cycle_failed]; first [apply safe_patch | apply safe_getS; intros st _; apply safe_patch]. Qed.

Lemma safe_runCycle vault target override :
  vs_key vault = Some key -> vs_vaultId vault = Some vaultId ->
  safe (runCycle (R := R) vault target override) (fun _ => True).
Proof.
  intros Hkey Hv. unfold runCycle. destruct (negb (vs_unlocked vault)).
  - eapply safe_bind; [apply safe_patch|]. intros _ _. apply safe_getS. intros st _. by apply safe_ret.
  - eapply safe_bind; [apply safe_patch|]. intros _ _.
    eapply safe_bind; [apply safe_catch; [by apply safe_cycle|apply safe_cycle_failed]|]. intros _ _.
    apply safe_getS. intros st _. by apply safe_ret.
Qed.
End Safety.

(** ** What an upload does *)

Lemma str_app_inj_l (p a b : string) : p ++ a = p ++ b -> a = b.
Proof. induction p as [|c p IH]; [done|]. cbn [append]. intros [= H]. auto. Qed.

Lemma str_app_inj_r (a b t : string) : a ++ t = b ++ t -> a = b.
Proof.
  intros E. assert (String.length a = String.length b) as Hl.
  { apply (f_equal String.length) in E. rewrite !length_str_app in E. lia. }
  rewrite -(slice_app_l a t) -(slice_app_l b t). by rewrite E Hl.
Qed.

Lemma opsObjectName_inj v a b : opsObjectName v a = opsObjectName v b -> a = b.
Proof. unfold opsObjectName. intros E%str_app_inj_l. by eapply str_app_inj_r. Qed.

Section Upload.
Context {R Bytes Key : Type} `{!SyncAdapter R Bytes} `{!AdapterLaws R Bytes} `{!Sealing Key Bytes}.
Context (key : Key) (vaultId : string) (s0 : App).

(** The destination holds the operation, in the object named after [head]. *)
Definition uploaded (c : gmap string Bytes) (op : Operation) (head : string) : Prop :=
  exists b h batch, c !! opsObjectName vaultId head = Some b /\ openJson key b = Ok (h, PBatch batch)
    /\ op ∈ batch_ops batch.

(** Since [s0], the engine has only taken uploaded operations off the queue. *)
Record only_uploaded (done : list string) (st : Engine R) : Prop := {
  ou_rows : rows (app st) = rows s0;
  ou_ops : lop_op <$> oplog (app st) = lop_op <$> oplog s0;
  ou_synced : forall k lop, oplog (app st) !! k = Some lop -> lop_synced lop = true ->
    oplog s0 !! k = Some lop \/ exists head, head ∈ done /\ uploaded (contents (remote st)) (lop_op lop) head }.

Lemma only_uploaded_same done st st' :
  rows (app st') = rows (app st) -> oplog (app st') = oplog (app st) ->
  contents (remote st') = contents (remote st) -> only_uploaded done st -> only_uploaded done st'.
Proof. intros Hr Ho Hc [H1 H2 H3]. split; rewrite ?Hr ?Ho ?Hc; done. Qed.

Lemma only_uploaded_insert done st st' head b :
  rows (app st') = rows (app st) -> oplog (app st') = oplog (app st) ->
  contents (remote st') = <[opsObjectName vaultId head := b]> (contents (remote st)) ->
  head ∉ done -> only_uploaded done st -> only_uploaded done st'.
Proof.
  intros Hr Ho Hc Hnew [H1 H2 H3]. split; rewrite ?Hr ?Ho; [done..|]. intros k lop Hk Hs.
  destruct (H3 k lop Hk Hs) as [H|(hd & Hin & b' & h & batch & Hb & Hopen & Hop)]; [by left|]. right.
  exists hd. split; [done|]. exists b', h, batch. rewrite Hc lookup_insert_ne; [done|].
  intros E%opsObjectName_inj. congruence.
Qed.

Lemma record_applied_same names (st : Engine R) :
  exists st', record_applied names st = (Ok tt, st') /\ rows (app st') = rows (app st)
    /\ oplog (app st') = oplog (app st) /\ remote st' = remote st.
Proof.
  unfold record_applied. revert st. induction names as [|n names IH]; intros st; cbn [forM_]; [by eexists|].
  unfold mbind at 1, M_bind at 1, onApp at 1. cbn.
  edestruct IH as (st' & E & Hr & Ho & Hm). exists st'. split; [exact E|]. by rewrite Hr Ho Hm.
Qed.

(** The log keeps what was off the queue already, and what is not in [sent]. *)
Definition spares (sent : list LocalOperation) (s s' : App) : Prop :=
  forall k l, oplog s !! k = Some l -> lop_synced l = true \/ (forall x, x ∈ sent -> op_hlc (lop_op x) <> k) -> oplog s' !! k = Some l.

Lemma push_batch_spec device pushed slice lop done st r st' :
  last slice = Some lop -> op_hlc (lop_op lop) ∉ done ->
  only_uploaded done st -> (forall x, x ∈ slice -> lop_op <$> oplog s0 !! op_hlc (lop_op x) = Some (lop_op x)) ->
  push_batch (R := R) key vaultId device pushed slice st = (r, st') ->
  only_uploaded (op_hlc (lop_op lop) :: done) st'
  /\ forall n, r = Ok n -> n = pushed + Z.of_nat (length slice)
     /\ (forall x, x ∈ slice -> exists l, oplog (app st') !! op_hlc (lop_op x) = Some l /\ lop_synced l = true)
     /\ spares slice (app st) (app st').
Proof.
  intros Hlast Hnew Hou Hslice. unfold push_batch. cbv zeta.
  assert (default "" (op_hlc ∘ lop_op <$> last slice) = op_hlc (lop_op lop)) as -> by by rewrite Hlast.
  set (head := op_hlc (lop_op lop)) in *.
  assert (forall st, only_uploaded done st -> only_uploaded (head :: done) st) as Hweak.
  { intros s [H1 H2 H3]. split; [done..|]. intros k l Hk Hs.
    destruct (H3 k l Hk Hs) as [H|(hd & Hin & Hu)]; [by left|right; exists hd; split; [by constructor|done]]. }
  unfold mbind at 1, M_bind at 1, draw. unfold mbind at 1, M_bind at 1, liftR.
  match goal with |- context [sealJson ?a ?b ?c ?d] => destruct (sealJson a b c d) as [sealed|e] eqn:Es end.
  2:{ intros [= <- <-]. split; [|done]. by apply Hweak, (only_uploaded_same done st). }
  unfold mbind at 1, M_bind at 1, onRemote. cbn [app remote draws status].
  destruct (adapter_put (opsObjectName vaultId head) sealed (remote st)) as [x r1] eqn:Ep.
  pose proof (put_contents _ _ _ _ _ Ep) as Hc.
  destruct x as [[]|e].
  2:{ intros [= <- <-]. split; [|done]. apply Hweak.
      destruct Hc as [Hc|Hc]; [by apply (only_uploaded_same done st)|by eapply (only_uploaded_insert done st)]. }
  pose proof (put_stores _ _ _ _ Ep) as Hstored.
  set (st1 := mkEngine (app st) r1 (S (draws st)) (status st)).
  assert (only_uploaded done st1) as Hou1 by by eapply (only_uploaded_insert done st).
  unfold mbind at 1, M_bind at 1.
  destruct (record_applied_same [opsObjectName vaultId head] st1) as (st2 & -> & Hr2 & Ho2 & Hm2).
  assert (only_uploaded done st2) as Hou2 by (apply (only_uploaded_same done st1); [done..|by rewrite Hm2|done]).
  unfold mbind, M_bind, onApp, modifyS, mret, M_ret. intros [= <- <-].
  destruct (markSynced_rest (map (op_hlc ∘ lop_op) slice) (app st2)) as (Hmr & _).
  split.
  - destruct Hou2 as [H1 H2 H3]. split; cbn [app remote]; [by rewrite Hmr|by rewrite markSynced_ops|].
    intros k l. rewrite mark_synced_lookup. destruct (oplog (app st2) !! k) as [l0|] eqn:El; [|done]. cbn. intros [= <-] Hs.
    case_decide as Hin; [|destruct (H3 k l0 El Hs) as [H|(hd & Hd & Hu)]; [by left|right; exists hd; split; [by constructor|done]]].
    right. exists head. split; [constructor|]. cbn [lop_op].
    eexists _, _, _. rewrite Hm2. cbn [remote st1]. rewrite Hstored lookup_insert_eq. split; [done|].
    split; [by eapply openJson_sealJson|]. cbn [batch_ops].
    apply list_elem_of_fmap in Hin as (x & Hxk & Hx). cbn in Hxk. pose proof (Hslice x Hx) as Hx0.
    assert (lop_op <$> oplog (app st2) !! k = lop_op <$> oplog s0 !! k) as E0 by by apply lookup_same_ops.
    rewrite El Hxk Hx0 in E0. injection E0 as ->. apply list_elem_of_fmap. by exists x.
  - intros n [= <-]. split_and!.
    + by rewrite length_map.
    + intros x Hx. cbn [app]. rewrite mark_synced_lookup.
      assert (lop_op <$> oplog (app st2) !! op_hlc (lop_op x) = lop_op <$> oplog s0 !! op_hlc (lop_op x)) as E0
        by (apply lookup_same_ops; by destruct Hou2).
      rewrite (Hslice x Hx) in E0. destruct (oplog (app st2) !! op_hlc (lop_op x)) as [l0|]; [|done].
      eexists. split; [done|]. rewrite decide_True; [done|]. apply list_elem_of_fmap. by exists x.
    + intros k l Hk Hs. cbn [app]. rewrite mark_synced_lookup Ho2. cbn [app st1]. rewrite Hk. cbn.
      case_decide as Hin; [|done]. destruct Hs as [Hs|Hs]; [by destruct l; cbn in *; subst|].
      apply list_elem_of_fmap in Hin as (x & -> & Hx). by destruct (Hs x Hx).
Qed.

Lemma foldM_push device slices : forall done pushed (st : Engine R) r st',
  NoDup (map (op_hlc ∘ lop_op) (concat slices)) -> (forall sl, sl ∈ slices -> sl <> []) ->
  (forall x, x ∈ concat slices -> op_hlc (lop_op x) ∉ done
     /\ lop_op <$> oplog s0 !! op_hlc (lop_op x) = Some (lop_op x)) ->
  only_uploaded done st ->
  foldM (push_batch (R := R) key vaultId device) pushed slices st = (r, st') ->
  exists done', only_uploaded done' st'
  /\ forall n, r = Ok n -> n = pushed + Z.of_nat (length (concat slices))
     /\ (forall x, x ∈ concat slices -> exists l, oplog (app st') !! op_hlc (lop_op x) = Some l /\ lop_synced l = true)
     /\ spares (concat slices) (app st) (app st').
Proof.
  induction slices as [|slice slices IH]; intros done pushed st r st' Hnd Hne Hx Hou; cbn [foldM concat].
  - intros [= <- <-]. exists done. split; [done|]. intros n [= <-]. split_and!; [cbn; lia|set_solver|by intros k l ? _].
  - cbn [concat] in Hnd, Hx. rewrite map_app in Hnd. apply NoDup_app in Hnd as (Hn1 & Hdis & Hn2).
    destruct (last slice) as [lop|] eqn:El; [|apply last_None in El; by destruct (Hne slice ltac:(constructor))].
    pose proof (last_Some_elem_of _ _ El) as Hin.
    unfold mbind, M_bind at 1. destruct (push_batch key vaultId device pushed slice st) as [x st1] eqn:E.
    destruct (push_batch_spec device pushed slice lop done st x st1 El) as [Hou1 Hok];
      [apply (Hx lop); set_solver|done|intros y Hy; apply (Hx y); set_solver|exact E|].
    destruct x as [pushed1|e]; [|intros [= <- <-]; by exists (op_hlc (lop_op lop) :: done)].
    intros E'. destruct (Hok pushed1 eq_refl) as (Hn & Hsync & Hmono).
    destruct (IH (op_hlc (lop_op lop) :: done) pushed1 st1 r st' Hn2) as (done' & Hou' & Hok'); [| |done|exact E'|].
    + intros sl Hsl. apply Hne. by constructor.
    + intros y Hy. destruct (Hx y) as [Hy1 Hy2]; [set_solver|]. split; [|done].
      apply not_elem_of_cons. split; [|done]. intros Heq. apply (Hdis (op_hlc (lop_op lop))).
      * apply list_elem_of_fmap. by exists lop.
      * apply list_elem_of_fmap. exists y. split; [by rewrite /= Heq|done].
    + exists done'. split; [done|]. intros n Hr. destruct (Hok' n Hr) as (-> & Hs' & Hm'). split_and!.
      * rewrite Hn length_app. lia.
      * intros y [Hy|Hy]%elem_of_app; [|by apply Hs']. destruct (Hsync y Hy) as (l & Hl & Hls). exists l.
        split; [apply Hm'; [done|by left]|done].
      * intros k l Hk Hl. apply Hm'; [apply Hmono; [done|]|].
        -- destruct Hl as [?|Hl]; [by left|right]. intros y Hy. apply (Hl y). set_solver.
        -- destruct Hl as [?|Hl]; [by left|right]. intros y Hy. apply (Hl y). set_solver.
Qed.
End Upload.

Lemma oplog_sorted_NoDup s h :
  ledger_inv s h -> NoDup (map (op_hlc ∘ lop_op) (oplog_sorted s)).
Proof.
  intros Hi. unfold oplog_sorted. rewrite map_map.
  set (l := js_sort _ _).
  assert (l ≡ₚ map_to_list (oplog s)) as Hp by apply js_sort_perm.
  assert (map (fun kv : string * LocalOperation => (op_hlc ∘ lop_op) kv.2) l = map fst l) as ->.
  { apply map_ext_in. intros [k lop] Hin%list_elem_of_In. rewrite Hp in Hin. apply elem_of_map_to_list in Hin.
    by destruct (inv_log _ _ Hi k lop Hin). }
  rewrite Hp. apply NoDup_fst_map_to_list.
Qed.

Lemma pending_elem limit s lop : lop ∈ pendingOperations limit s -> lop ∈ oplog_sorted s /\ lop_synced lop = false.
Proof.
  unfold pendingOperations. intros H.
  assert (lop ∈ List.filter (fun lop => negb (lop_synced lop)) (oplog_sorted s)) as [? ?%negb_true_iff]%elem_of_filter_b; [|done].
  rewrite -(take_drop limit (List.filter _ _)). set_solver.
Qed.

Lemma push_spec {R Bytes Key : Type} `{!SyncAdapter R Bytes} `{!AdapterLaws R Bytes} `{!Sealing Key Bytes}
    vault (key : Key) vaultId (st : Engine R) h r st' :
  ledger_inv (app st) h -> push vault key vaultId st = (r, st') ->
  exists done', only_uploaded key vaultId (app st) done' st'
  /\ forall n, r = Ok n ->
     n = Z.of_nat (length (pendingOperations PENDING_LIMIT (app st)))
     /\ (forall x, x ∈ pendingOperations PENDING_LIMIT (app st) ->
           exists l, oplog (app st') !! op_hlc (lop_op x) = Some l /\ lop_synced l = true)
     /\ spares (pendingOperations PENDING_LIMIT (app st)) (app st) (app st').
Proof.
  intros Hi. unfold push, mbind at 1, M_bind at 1, getS. set (pending := pendingOperations PENDING_LIMIT (app st)).
  assert (only_uploaded key vaultId (app st) [] st) as Hou by (split; [done..|by left]).
  assert (forall x, x ∈ pending -> lop_op <$> oplog (app st) !! op_hlc (lop_op x) = Some (lop_op x)) as Hlook.
  { intros x [(k & Hk)%elem_of_oplog_sorted _]%pending_elem.
    destruct (inv_log _ _ Hi k x Hk) as [-> _]. by rewrite Hk. }
  assert (NoDup (map (op_hlc ∘ lop_op) pending)) as Hnd.
  { assert (NoDup (map (op_hlc ∘ lop_op) (List.filter (fun lop => negb (lop_synced lop)) (oplog_sorted (app st))))) as H
      by (apply NoDup_map_filter; by eapply oplog_sorted_NoDup).
    unfold pending, pendingOperations. rewrite -(take_drop PENDING_LIMIT (List.filter _ _)) map_app in H.
    by apply NoDup_app in H as (? & _). }
  destruct pending as [|p0 rest] eqn:Ep.
  { intros [= <- <-]. exists []. split; [done|]. intros n [= <-]. split_and!; [done|set_solver|by intros k l ? _]. }
  rewrite -Ep in Hlook Hnd |- *. unfold mbind at 1, M_bind at 1, liftR.
  destruct (requireDeviceId vault) as [device|e]; [|intros [= <- <-]; by exists []].
  assert (concat (chunks (length pending) MAX_OPS_PER_BATCH pending) = pending) as Hcat
    by (apply chunks_concat; unfold MAX_OPS_PER_BATCH; lia).
  intros E. eapply (foldM_push key vaultId (app st)) in E as (done' & Hou' & Hok); [| | | |exact Hou].
  - exists done'. split; [done|]. intros n Hr. destruct (Hok n Hr) as (-> & H1 & H2). rewrite Hcat in H1 H2 |- *. by split_and!; [..|exact H2].
  - by rewrite Hcat.
  - intros sl (i & -> & Hne)%chunks_spec. by destruct (drop i pending).
  - intros x Hx. rewrite Hcat in Hx. split; [set_solver|by apply Hlook].
Qed.

(** The operations still to be sent, oldest first. *)
Definition waiting (s : App) : list LocalOperation := List.filter (fun lop => negb (lop_synced lop)) (oplog_sorted s).

Lemma elem_of_waiting x s : x ∈ waiting s <-> lop_synced x = false /\ exists k, oplog s !! k = Some x.
Proof. unfold waiting. rewrite elem_of_filter_b elem_of_oplog_sorted negb_true_iff. tauto. Qed.

Lemma waiting_NoDup s h : ledger_inv s h -> NoDup (map (op_hlc ∘ lop_op) (waiting s)).
Proof. intros Hi. apply NoDup_map_filter. by eapply oplog_sorted_NoDup. Qed.

(** If a prefix of what waits was taken off the queue and the rest spared, the rest waits. *)
Lemma spared_wait s s' h :
  ledger_inv s h -> rows s' = rows s -> lop_op <$> oplog s' = lop_op <$> oplog s ->
  (forall x, x ∈ pendingOperations PENDING_LIMIT s -> exists l, oplog s' !! op_hlc (lop_op x) = Some l /\ lop_synced l = true) ->
  spares (pendingOperations PENDING_LIMIT s) s s' -> waiting s' ≡ₚ drop PENDING_LIMIT (waiting s).
Proof.
  intros Hi Hrows Hops Hsent Hmono.
  pose proof (waiting_NoDup s h Hi) as Hnd. pose proof (waiting_NoDup s' h (inv_same_ops s s' h Hrows Hops Hi)) as Hnd'.
  change (pendingOperations PENDING_LIMIT s) with (take PENDING_LIMIT (waiting s)) in *.
  rewrite -(take_drop PENDING_LIMIT (waiting s)) map_app in Hnd. apply NoDup_app in Hnd as (_ & Hdis & Hnd).
  apply NoDup_Permutation; [by eapply NoDup_fmap_1|by eapply NoDup_fmap_1|]. intros x. split.
  - intros (Hs & k & Hk)%elem_of_waiting. pose proof (lookup_same_ops _ _ k Hops) as El. rewrite Hk in El.
    destruct (oplog s !! k) as [y|] eqn:Ey; [|done]. injection El as El. pose proof (proj1 (inv_log _ _ Hi k y Ey)) as Hkey.
    assert (lop_synced y = false) as Hys.
    { destruct (lop_synced y) eqn:Eys; [|done]. rewrite (Hmono k y Ey (or_introl Eys)) in Hk. congruence. }
    assert (y ∈ waiting s) as Hy by (apply elem_of_waiting; eauto).
    rewrite -(take_drop PENDING_LIMIT (waiting s)) in Hy. apply elem_of_app in Hy as [Hy|Hy].
    + destruct (Hsent y Hy) as (l & Hl & Hls). rewrite Hkey Hk in Hl. congruence.
    + destruct x, y; cbn in *; congruence.
  - intros Hx. assert (x ∈ waiting s) as (Hs & k & Hk)%elem_of_waiting.
    { rewrite -(take_drop PENDING_LIMIT (waiting s)). apply elem_of_app. by right. }
    apply elem_of_waiting. split; [done|]. exists k. apply Hmono; [done|]. right. intros y Hy Hyk.
    pose proof (proj1 (inv_log _ _ Hi k x Hk)) as Hkey. apply (Hdis k).
    + apply list_elem_of_fmap. by exists y.
    + apply list_elem_of_fmap. by exists x.
Qed.

(** ** What a download learns *)

Section Learn.
Context {R Bytes Key : Type} `{!SyncAdapter R Bytes} `{!AdapterLaws R Bytes} `{!Sealing Key Bytes}.
Context (vault : VaultSession Key) (key : Key) (vaultId device : string) (Hdev : requireDeviceId vault = Ok device).

(** An object another device of the vault wrote. *)
Definition foreign (c : gmap string Bytes) (name : string) (ops : list Operation) : Prop :=
  exists b h v, c !! name = Some b /\ openJson key b = Ok (h, v) /\ hdr_v h = vaultId /\ hdr_d h <> device
    /\ payload_ops v = Ok ops.

Lemma pull_object_learns acc name (st : Engine R) acc' st' :
  pull_object vault key vaultId acc name st = (Ok acc', st') ->
  app st' = app st /\ contents (remote st') = contents (remote st)
  /\ (exists more, acc'.1.1 = acc.1.1 ++ more)%list
  /\ forall ops, foreign (contents (remote st)) name ops -> forall op, op ∈ ops -> op ∈ acc'.1.1.
Proof.
  destruct acc as [[ops applied] heads]. unfold pull_object. cbn [fst].
  intros (b & st1 & Eg & E)%M_bind_Ok_inv. unfold onRemote in Eg.
  destruct (adapter_get name (remote st)) as [x r1] eqn:Eget. injection Eg as -> <-.
  pose proof (get_contents _ _ _ _ Eget) as Hc. pose proof (get_returns _ _ _ _ Eget) as Hb.
  apply M_bind_Ok_inv in E as ([h v] & st2 & Eo & E). unfold liftR in Eo. injection Eo as Eo <-.
  assert (forall ops0, foreign (contents (remote st)) name ops0 ->
    hdr_v h = vaultId /\ hdr_d h <> device /\ payload_ops v = Ok ops0) as Hf.
  { intros ops0 (b' & h' & v' & Hb' & Ho' & Hv & Hd & Hp). rewrite Hb in Hb'. injection Hb' as <-.
    rewrite Eo in Ho'. injection Ho' as <- <-. done. }
  destruct (String.eqb_spec (hdr_v h) vaultId) as [Hv|Hv]; cbn [negb] in E.
  2:{ injection E as <- <-. split_and!; [done|done|exists []; by rewrite app_nil_r|].
      intros ops0 Hfo. by destruct (Hf _ Hfo). }
  apply M_bind_Ok_inv in E as (dv & st3 & Ed & E). unfold liftR in Ed. rewrite Hdev in Ed. injection Ed as <- <-.
  destruct (String.eqb_spec (hdr_d h) device) as [Hd|Hd].
  - injection E as <- <-. split_and!; [done|done|exists []; by rewrite app_nil_r|].
    intros ops0 Hfo. by destruct (Hf _ Hfo) as (_ & ? & _).
  - apply M_bind_Ok_inv in E as (more & st4 & Em & E). unfold liftR in Em. injection Em as Em <-. injection E as <- <-.
    split_and!; [done|done|by exists more|]. intros ops0 Hfo op Hop. destruct (Hf _ Hfo) as (_ & _ & Hp).
    cbn [fst]. assert (ops0 = more) as -> by congruence. set_solver.
Qed.

Lemma foldM_pull_learns names : forall acc (st : Engine R) acc' st',
  foldM (pull_object vault key vaultId) acc names st = (Ok acc', st') ->
  app st' = app st /\ contents (remote st') = contents (remote st)
  /\ (exists more, acc'.1.1 = acc.1.1 ++ more)%list
  /\ forall name ops, name ∈ names -> foreign (contents (remote st)) name ops -> forall op, op ∈ ops -> op ∈ acc'.1.1.
Proof.
  induction names as [|name names IH]; intros acc st acc' st'; cbn [foldM].
  - intros [= <- <-]. split_and!; [done|done|exists []; by rewrite app_nil_r|set_solver].
  - intros (acc1 & st1 & E1 & E)%M_bind_Ok_inv.
    destruct (pull_object_learns _ _ _ _ _ E1) as (Ha1 & Hc1 & (m1 & Hm1) & Hl1).
    destruct (IH _ _ _ _ E) as (Ha & Hc & (m & Hm) & Hl). split_and!; [congruence|congruence| |].
    + exists (m1 ++ m)%list. rewrite Hm Hm1. by rewrite app_assoc.
    + intros n ops [->|Hn]%elem_of_cons Hf op Hop.
      * rewrite Hm. apply elem_of_app. left. by eapply Hl1.
      * eapply Hl; [exact Hn|by rewrite Hc1|done].
Qed.

Lemma record_applied_quiet names (st : Engine R) x st' :
  record_applied names st = (x, st') -> x = Ok tt /\ quiet (app st) (app st') /\ remote st' = remote st.
Proof.
  assert (forall l (s : Engine R) y s', forM_ l (fun name => onApp (now ← Date_now; modifyS (set_remoteObjects <[name := now]>))) s = (y, s') ->
    y = Ok tt /\ rows (app s') = rows (app s) /\ oplog (app s') = oplog (app s) /\ clock (app s') = clock (app s)
    /\ meta_clock (app s') = meta_clock (app s) /\ nows (app s') = nows (app s) /\ remote s' = remote s) as H.
  { induction l as [|n l IH]; intros s y s'; cbn [forM_]; [by intros [= <- <-]|].
    unfold mbind at 1, M_bind at 1, onApp at 1. cbn. intros E. apply IH in E as (-> & -> & -> & -> & -> & -> & ->). done. }
  intros E. apply H in E as (-> & Hr & Ho & Hc & Hm & Hn & Hx). split_and!; [done| |done].
  right. right. split_and!; try done. by rewrite Ho.
Qed.

(** Applying a snapshot either takes none, or takes one of the vault that is there. *)
Lemma applySnapshot_takes seen (st : Engine R) w seen' st' :
  applySnapshot key vaultId seen st = (Ok (w, seen'), st') ->
  contents (remote st') = contents (remote st)
  /\ ((w = None /\ seen' = seen /\ app st' = app st)
      \/ exists newest b h snap s1 s2 n, w = Some (snap_watermark snap) /\ seen' = jset_add seen newest
          /\ startsWith newest (snapshotPrefix vaultId) = true /\ contents (remote st) !! newest = Some b
          /\ openJson key b = Ok (h, PSnapshot snap) /\ hdr_v h = vaultId
          /\ observeStamps [snap_watermark snap] (app st) = (Ok tt, s1)
          /\ merge (snapshot_ops snap) s1 = (Ok n, s2) /\ exists s3, quiet s2 s3 /\ quiet s3 (app st')).
Proof.
  unfold applySnapshot. intros (names & st1 & El & E)%M_bind_Ok_inv. unfold onRemote in El.
  destruct (adapter_list (snapshotPrefix vaultId) (remote st)) as [y r1] eqn:Elist. injection El as -> <-.
  pose proof (list_contents _ _ _ _ Elist) as Hc.
  destruct (last names) as [newest|] eqn:Elast; [|injection E as <- <- <-; by split; [|left]].
  apply last_Some_elem_of in Elast. apply (list_complete _ _ _ _ newest Elist) in Elast as [Hp _].
  case_bool_decide; [injection E as <- <- <-; by split; [|left]|].
  apply M_bind_Ok_inv in E as (b & st2 & Eg & E). unfold onRemote in Eg. cbn [remote app draws status] in Eg.
  destruct (adapter_get newest r1) as [x r2] eqn:Eget. injection Eg as -> <-.
  pose proof (get_contents _ _ _ _ Eget) as Hc2. pose proof (get_returns _ _ _ _ Eget) as Hb. rewrite Hc in Hb.
  apply M_bind_Ok_inv in E as ([h v] & st3 & Eo & E). injection Eo as Eo <-.
  destruct (String.eqb_spec (hdr_v h) vaultId) as [Hv|]; cbn [negb] in E;
    [|injection E as <- <- <-; cbn [remote app]; split; [congruence|by left]].
  apply M_bind_Ok_inv in E as (snap & st4 & Es & E). injection Es as Es <-.
  apply M_bind_Ok_inv in E as ([] & st5 & E5 & E). apply M_bind_Ok_inv in E as (n & st6 & E6 & E).
  unfold onApp in E5, E6. cbn [app remote draws status] in E5.
  destruct (observeStamps [snap_watermark snap] (app st)) as [xo s1] eqn:Eobs. injection E5 as -> <-. cbn [app] in E6.
  destruct (merge (snapshot_ops snap) s1) as [xm s2] eqn:Em. injection E6 as -> <-.
  apply M_bind_Ok_inv in E as ([] & st7 & E7 & E). apply record_applied_quiet in E7 as (_ & Hq & Hr). cbn [remote] in Hr.
  apply M_bind_Ok_inv in E as ([] & st8 & E8 & E). injection E8 as <-. injection E as <- <- <-. cbn [remote app].
  split; [rewrite Hr; congruence|]. right.
  destruct v as [|snap'|]; [done|injection Es as ->|done]. exists newest, b, h, snap, s1, s2, n.
  split_and!; try done. exists (app st7). split; [exact Hq|]. right. right. by split_and!.
Qed.
End Learn.

(** The invariant of a fleet around one destination. *)
Lemma shared_sound {R Bytes Key : Type} `{!SyncAdapter R Bytes} `{!AdapterLaws R Bytes} `{!Sealing Key Bytes}
    devices (key : Key) vaultId f g (r : R) :
  (forall d, d ∈ devices -> no_dash d = true) -> shared devices key vaultId f g r ->
  (exists k, fleet devices f k g) /\ honest g key vaultId (contents r).
Proof.
  intros Hdash. induction 1 as [f r Hf Hr|f g r d e v v' s' _ [(k & IH) Hh] Hd E|f g r d e id s' _ [(k & IH) Hh] Hd E
    |f g d vault target override st x st' _ [(k & IH) Hh] Hd Happ Hkey Hv E|f g r d s' _ [(k & IH) Hh] Hd Hq
    |f f' g r _ [(k & IH) Hh] Ef].
  - split; [exists (fun _ => []); by apply fl_init|]. intros name b. by rewrite Hr lookup_empty.
  - split; [by eexists; eapply fl_put|]. by apply honest_mono.
  - split; [by eexists; eapply fl_remove|]. by apply honest_mono.
  - assert (kept devices f k g d key vaultId st) as Hkept.
    { split; [|done]. exists (k d). eapply fl_ext; [exact IH| |]; intros d'; unfold upd;
        destruct (String.eqb_spec d' d) as [->|]; done. }
    destruct (safe_runCycle devices Hdash f k g d Hd key vaultId vault target override Hkey Hv st x st' Hkept E) as [[(k' & Hk') Hh'] _].
    split; [by eexists|done].
  - split; [by eexists; eapply fl_quiet|done].
  - split; [exists k; by eapply fl_ext|done].
Qed.

(** * Properties *)

(** Whatever the devices of a fleet do, edits and sync cycles that succeed or fail
    halfway in any order, the shared destination never leads a device astray: the
    engine only ever takes the abstract steps of the replicated ledger, and every
    object of the vault holds writes some device made, none newer than its name. *)
Theorem sync_refines_the_fleet {R Bytes Key : Type} `{!SyncAdapter R Bytes} `{!AdapterLaws R Bytes} `{!Sealing Key Bytes}
    devices (key : Key) vaultId f g (r : R) :
  (forall d, d ∈ devices -> no_dash d = true) -> shared devices key vaultId f g r ->
  (exists k, fleet devices f k g) /\ honest g key vaultId (contents r).
Proof. apply shared_sound. Qed.

(** No write is lost on the way out: whatever happens during an upload, tables and
    log stay as they were, and an operation is taken off the sync queue only once an
    object that holds it, sealed under the vault's key, is at the destination. *)
Theorem push_marks_only_uploaded {R Bytes Key : Type} `{!SyncAdapter R Bytes} `{!AdapterLaws R Bytes} `{!Sealing Key Bytes}
    vault (key : Key) vaultId (st : Engine R) h x st' k lop :
  device_history (app st) h -> unique_stamps h -> push vault key vaultId st = (x, st') ->
  oplog (app st') !! k = Some lop -> lop_synced lop = true ->
  (rows (app st') = rows (app st) /\ lop_op <$> oplog (app st') = lop_op <$> oplog (app st))
  /\ (oplog (app st) !! k = Some lop \/ exists head, uploaded key vaultId (contents (remote st')) (lop_op lop) head).
Proof.
  intros Hh Hu E Hk Hs. destruct (device_inv _ _ Hh Hu) as (c & Hi & _).
  destruct (push_spec _ _ _ _ _ _ _ Hi E) as (done' & [H1 H2 H3] & _). split; [done|].
  destruct (H3 k lop Hk Hs) as [H|(head & _ & Hup)]; [by left|right; by exists head].
Qed.

(** C6: An upload that returns has sent the oldest operations that were waiting, up to the
    5000 read at a time: it reports their number, and what waits afterwards is exactly what
    waited behind them, so nothing at all if there were no more. *)
Theorem push_drains_the_queue {R Bytes Key : Type} `{!SyncAdapter R Bytes} `{!AdapterLaws R Bytes} `{!Sealing Key Bytes}
    vault (key : Key) vaultId (st : Engine R) h n st' :
  device_history (app st) h -> unique_stamps h -> push vault key vaultId st = (Ok n, st') ->
  n = Z.of_nat (countPending (app st) `min` PENDING_LIMIT)
  /\ waiting (app st') ≡ₚ drop PENDING_LIMIT (waiting (app st))
  /\ countPending (app st') = (countPending (app st) - PENDING_LIMIT)%nat.
Proof.
  intros Hh Hu E. destruct (device_inv _ _ Hh Hu) as (c & Hi & _).
  destruct (push_spec _ _ _ _ _ _ _ Hi E) as (done' & [H1 H2 _] & Hok). destruct (Hok n eq_refl) as (-> & Hsent & Hmono).
  assert (waiting (app st') ≡ₚ drop PENDING_LIMIT (waiting (app st))) as Hp by by eapply spared_wait.
  split; [|split; [exact Hp|]].
  - unfold pendingOperations. rewrite length_take. unfold countPending. lia.
  - unfold countPending. change (length (waiting (app st')) = (length (waiting (app st)) - PENDING_LIMIT)%nat).
    by rewrite Hp length_drop.
Qed.

Lemma filter_const {A} (b : bool) (l : list A) : List.filter (fun _ => b) l = if b then l else [].
Proof. induction l as [|x l IH]; cbn; [by destruct b|]. rewrite IH. by destruct b. Qed.

(** The shape of a download: a snapshot may be taken, then the batches it does not cover. *)
Lemma pull_shape {R Bytes Key : Type} `{!SyncAdapter R Bytes} `{!AdapterLaws R Bytes} `{!Sealing Key Bytes}
    vault (key : Key) vaultId (st : Engine R) n st' :
  pull vault key vaultId st = (Ok n, st') ->
  exists w seen st1 s1 names st2,
    applySnapshot key vaultId (map fst (map_to_list (remoteObjects (app st)))) st = (Ok (w, seen), st1)
  /\ quiet (app st1) s1 /\ app st2 = s1 /\ contents (remote st2) = contents (remote st1)
  /\ (forall name, startsWith name (opsPrefix vaultId) = true -> is_Some (contents (remote st1) !! name) ->
        name ∉ seen -> name ∈ names \/ exists watermark, w = Some watermark /\ coveredBy name watermark = true)
  /\ Forall (fun name => startsWith name (opsPrefix vaultId) = true) names
  /\ ((names = [] /\ app st' = s1)
      \/ exists got st3 s3 s4, foldM (pull_object vault key vaultId) ([], [], []) names st2 = (Ok got, st3)
           /\ observeStamps got.2 (app st3) = (Ok tt, s3) /\ merge got.1.1 s3 = (Ok n, s4) /\ quiet s4 (app st')).
Proof.
  unfold pull. intros (st0 & sa & [= <- <-] & E)%M_bind_Ok_inv.
  apply M_bind_Ok_inv in E as ([w seen] & st1 & E1 & E).
  apply M_bind_Ok_inv in E as (listed & st2 & E2 & E). unfold onRemote in E2.
  destruct (adapter_list (opsPrefix vaultId) (remote st1)) as [y r2] eqn:Elist. injection E2 as -> <-.
  cbv zeta in E. apply M_bind_Ok_inv in E as ([] & st3 & E3 & E).
  apply record_applied_quiet in E3 as (_ & Hq3 & Hr3). cbn [app remote] in Hq3, Hr3.
  set (covers := fun name => match w with Some w0 => coveredBy name w0 | None => false end) in E.
  set (names := List.filter _ (List.filter _ listed)) in E.
  exists w, seen, st1, (app st3), names, st3.
  rewrite Hr3 (list_contents _ _ _ _ Elist). split_and!; [done..| | |].
  - intros name Hp Hs Hnew. destruct (covers name) eqn:Ec.
    { right. unfold covers in Ec. destruct w as [w|]; [by exists w|done]. }
    left. apply elem_of_filter_b. split; [|by change (negb (covers name) = true); rewrite Ec]. apply elem_of_filter_b.
    rewrite bool_decide_eq_false_2; [|done]. split; [|done]. by apply (list_complete _ _ _ _ name Elist).
  - apply Forall_forall. intros name [[Hin _]%elem_of_filter_b _]%elem_of_filter_b.
    by apply (list_complete _ _ _ _ name Elist) in Hin as [? _].
  - destruct names as [|n0 rest]; [left; injection E as _ <-; done|right].
    apply M_bind_Ok_inv in E as ([[ops applied] heads] & st4 & E4 & E).
    apply M_bind_Ok_inv in E as ([] & st5 & E5 & E). apply M_bind_Ok_inv in E as (cnt & st6 & E6 & E).
    apply M_bind_Ok_inv in E as ([] & st7 & E7 & [= -> <-]).
    unfold onApp in E5, E6. destruct (observeStamps heads (app st4)) as [xo s3] eqn:Eo. injection E5 as -> <-.
    cbn [app] in E6. destruct (merge ops s3) as [xm s4] eqn:Em. injection E6 as -> <-.
    apply record_applied_quiet in E7 as (_ & Hq & _). by exists (ops, applied, heads), st4, s3, s4.
Qed.

Lemma prefixes_apart v name : startsWith name (opsPrefix v) = true -> startsWith name (snapshotPrefix v) = false.
Proof.
  intros (rest & ->)%prefix_split. unfold opsPrefix, snapshotPrefix. rewrite !str_app_assoc.
  by rewrite (startsWith_common "vaults/") (startsWith_common v).
Qed.

(** A snapshot of the vault that was at the destination and taken. *)
Definition taken {Bytes Key : Type} `{!Sealing Key Bytes} (key : Key) (vaultId : string) (c : gmap string Bytes)
    (known : list Operation) (watermark : string) : Prop :=
  exists name b h snap, startsWith name (snapshotPrefix vaultId) = true /\ c !! name = Some b
    /\ openJson key b = Ok (h, PSnapshot snap) /\ snap_watermark snap = watermark
    /\ forall op, op ∈ snapshot_ops snap -> op ∈ known.

(** What a download that returns has learned. *)
Lemma pull_learns {R Bytes Key : Type} `{!SyncAdapter R Bytes} `{!AdapterLaws R Bytes} `{!Sealing Key Bytes}
    devices f k g d vault (key : Key) vaultId device (st : Engine R) n st' :
  (forall d, d ∈ devices -> no_dash d = true) -> fleet devices f k g -> d ∈ devices -> app st = f d ->
  honest g key vaultId (contents (remote st)) -> requireDeviceId vault = Ok device ->
  pull vault key vaultId st = (Ok n, st') ->
  exists k', fleet devices (upd f d (app st')) (upd k d k') g
    /\ (forall op, op ∈ k d -> op ∈ k')
    /\ forall name ops op, startsWith name (opsPrefix vaultId) = true -> remoteObjects (app st) !! name = None ->
         foreign key vaultId device (contents (remote st)) name ops -> op ∈ ops ->
         op ∈ k' \/ exists watermark, taken key vaultId (contents (remote st)) k' watermark /\ coveredBy name watermark = true.
Proof.
  intros Hdash Hf Hd Happ Hh Hdev E.
  destruct (pull_shape _ _ _ _ _ _ E) as (w & seen & st1 & s1 & names & st2 & Esnap & Hq1 & Ha2 & Hc2 & Hall & Hpre & Hcase).
  assert (at_state devices f k g d (app st) (k d)) as Hat.
  { eapply fl_ext; [exact Hf| |]; intros d'; unfold upd; destruct (String.eqb_spec d' d) as [->|]; done. }
  apply applySnapshot_takes in Esnap as [Hc1 Hsnap].
  assert (exists k1, at_state devices f k g d s1 k1 /\ (forall op, op ∈ k d -> op ∈ k1)
    /\ (forall name, startsWith name (opsPrefix vaultId) = true -> remoteObjects (app st) !! name = None -> name ∉ seen)
    /\ forall watermark, w = Some watermark -> taken key vaultId (contents (remote st)) k1 watermark) as (k1 & Hat1 & Hk1 & Hseen & Htaken).
  { assert (forall name, remoteObjects (app st) !! name = None -> name ∉ map fst (map_to_list (remoteObjects (app st)))) as Hnew.
    { intros name Hn ([nm z] & -> & Hin)%list_elem_of_fmap. apply elem_of_map_to_list in Hin. cbn in Hn. congruence. }
    destruct Hsnap as [(-> & -> & Ha1)|(newest & b & h & snap & s2 & s3 & m & -> & -> & Hp & Hb & Hopen & Hv & Eo & Em & s4 & Hq2 & Hq3)].
    - exists (k d). split_and!; [|done|intros; by apply Hnew|done]. eapply at_state_quiet; [done|exact Hat|by rewrite -Ha1].
    - destruct (Hh newest b Hb h _ Hopen Hv) as [_ Hs]. destruct (Hs Hp) as (snap' & [= <-] & Hs').
      destruct (honest_batch_receive devices Hdash f k g d Hd _ _ Hs') as (G1 & G2 & G3).
      pose proof (at_state_receive devices f k g d Hd _ _ _ _ _ _ _ Hat G1 G2 G3 Eo Em) as Hat'.
      exists (snapshot_ops snap ++ k d)%list. split_and!; [|intros op Hin; apply elem_of_app; by right| |].
      + do 3 (eapply at_state_quiet; [done| |eassumption]). done.
      + intros name Hpn Hn [Hin| ->]%elem_of_jset_add; [by eapply Hnew|].
        by rewrite (prefixes_apart vaultId) in Hp.
      + intros watermark [= <-]. exists newest, b, h, snap. split_and!; [exact Hp|exact Hb|exact Hopen|reflexivity|].
        intros op Hin. apply elem_of_app. by left. }
  destruct Hcase as [[-> Ha']|(got & st3 & s3 & s4 & Efold & Eo & Em & Hq)].
  - exists k1. rewrite Ha'. split_and!; [exact Hat1|done|]. intros name ops op Hp Hnew (b & h & v & Hb & _) _. right.
    destruct (Hall name Hp) as [Hin|(watermark & -> & Hcov)]; [by rewrite Hc1; eexists|by apply Hseen|by apply elem_of_nil in Hin|].
    exists watermark. split; [by apply Htaken|done].
  - destruct (foldM_pull_learns vault key vaultId device Hdev _ _ _ _ _ Efold) as (Ha3 & Hc3 & _ & Hlearn).
    assert (kept devices f k g d key vaultId st2) as Hkept.
    { split; [exists k1; by rewrite Ha2|by rewrite Hc2 Hc1]. }
    assert (gathered g got) as Hgot.
    { refine (proj2 (safe_foldM devices f k g d key vaultId names _ (gathered g) _ ([], [], []) _ st2 _ st3 Hkept Efold) got eq_refl);
        [|by split_and!; constructor].
      intros acc nm Hnm Hacc. rewrite ->Forall_forall in Hpre. specialize (Hpre nm Hnm). by apply safe_pull_object. }
    destruct got as [[ops applied] heads]. destruct Hgot as (G1 & G2 & G3). cbn [fst snd] in *.
    rewrite Ha3 Ha2 in Eo.
    pose proof (at_state_receive devices f k g d Hd _ _ _ _ _ _ _ Hat1 G1 G2 G3 Eo Em) as Hat'.
    exists (ops ++ k1)%list. split; [by eapply at_state_quiet|].
    split; [intros op Hin; apply elem_of_app; right; by apply Hk1|].
    intros name ops0 op Hp Hnew Hfo Hop.
    destruct (Hall name Hp) as [Hin|(watermark & -> & Hcov)].
    + destruct Hfo as (b & h & v & Hb & _). rewrite Hc1. by eexists.
    + by apply Hseen.
    + left. apply elem_of_app. left. eapply (Hlearn name ops0); [done|by rewrite Hc2 Hc1|done].
    + right. exists watermark. split; [|done]. destruct (Htaken _ eq_refl) as (nm & b & h & snap & ? & ? & ? & ? & Hops).
      exists nm, b, h, snap. split_and!; [done..|]. intros x Hx. apply elem_of_app. right. by apply Hops.
Qed.

(** C5: A download that returns leaves nothing behind but what it takes for covered: every
    operation of every batch another device of the vault uploaded, and this device had not
    recorded, is among what the device has heard of, or the batch is named at or below the
    watermark of a snapshot it took whole. *)
Theorem pull_learns_all_but_the_covered {R Bytes Key : Type} `{!SyncAdapter R Bytes} `{!AdapterLaws R Bytes} `{!Sealing Key Bytes}
    devices f k g d vault (key : Key) vaultId device (st : Engine R) n st' :
  (forall d, d ∈ devices -> no_dash d = true) -> fleet devices f k g -> d ∈ devices -> app st = f d ->
  honest g key vaultId (contents (remote st)) -> requireDeviceId vault = Ok device ->
  pull vault key vaultId st = (Ok n, st') ->
  exists k', fleet devices (upd f d (app st')) (upd k d k') g
    /\ (forall op, op ∈ k d -> op ∈ k')
    /\ forall name ops op, startsWith name (opsPrefix vaultId) = true -> remoteObjects (app st) !! name = None ->
         foreign key vaultId device (contents (remote st)) name ops -> op ∈ ops ->
         op ∈ k' \/ exists watermark, taken key vaultId (contents (remote st)) k' watermark /\ coveredBy name watermark = true.
Proof. apply pull_learns. Qed.

(** A download that returns leaves nothing behind when no snapshot is at the destination:
    every operation of every batch another device of the vault uploaded, and this device
    had not recorded, is among what the device has heard of. *)
Theorem pull_learns_every_batch {R Bytes Key : Type} `{!SyncAdapter R Bytes} `{!AdapterLaws R Bytes} `{!Sealing Key Bytes}
    devices f k g d vault (key : Key) vaultId device (st : Engine R) n st' :
  (forall d, d ∈ devices -> no_dash d = true) -> fleet devices f k g -> d ∈ devices -> app st = f d ->
  honest g key vaultId (contents (remote st)) -> requireDeviceId vault = Ok device ->
  (forall n, startsWith n (snapshotPrefix vaultId) = true -> contents (remote st) !! n = None) ->
  pull vault key vaultId st = (Ok n, st') ->
  exists k', fleet devices (upd f d (app st')) (upd k d k') g
    /\ (forall op, op ∈ k d -> op ∈ k')
    /\ forall name ops op, startsWith name (opsPrefix vaultId) = true -> remoteObjects (app st) !! name = None ->
         foreign key vaultId device (contents (remote st)) name ops -> op ∈ ops -> op ∈ k'.
Proof.
  intros Hdash Hf Hd Happ Hh Hdev Hnone E.
  destruct (pull_learns devices f k g d vault key vaultId device st n st' Hdash Hf Hd Happ Hh Hdev E) as (k' & Hf' & Hk' & Hl).
  exists k'. split_and!; [done..|]. intros name ops op Hp Hnew Hfo Hop.
  destruct (Hl name ops op Hp Hnew Hfo Hop) as [|(w & (nm & b & h & snap & Hnm & Hb & _) & _)]; [done|].
  by rewrite (Hnone nm Hnm) in Hb.
Qed.

(** C18: A cycle never throws: it returns the status it shows, settled; a failure is
    kept in the status with the number of operations still waiting. *)
Theorem cycle_settles {R Bytes Key : Type} `{!SyncAdapter R Bytes} `{!Sealing Key Bytes}
    (vault : VaultSession Key) target override (st : Engine R) :
  exists st', runCycle vault target override st = (Ok (status st'), st')
  /\ (st_state (status st') = Idle /\ st_lastError (status st') = None
      \/ st_state (status st') = SyncError /\ is_Some (st_lastError (status st'))
         /\ st_pending (status st') = countPending (app st')).
Proof.
  unfold runCycle. destruct (vs_unlocked vault); cbn [negb]; [|by eexists; split; [done|left]].
  unfold mbind at 1, M_bind at 1, patch at 1. set (st1 := mkEngine _ _ _ _).
  unfold mbind at 1, M_bind at 1, catchM.
  destruct (cycle vault target override st1) as [[[]|e] st2] eqn:E.
  - unfold mbind, M_bind, getS, mret, M_ret. eexists. split; [done|]. left. revert E. unfold cycle.
    intros (a1 & b1 & _ & E)%M_bind_Ok_inv. do 8 apply M_bind_Ok_inv in E as (? & ? & _ & E).
    apply M_bind_Ok_inv in E as (s5 & b5 & E5 & E). unfold patch in E. by injection E as <-.
  - destruct (cycle_failed e st2) as [x st3] eqn:Ef.
    assert (x = Ok tt /\ (st_state (status st3) = Idle /\ st_lastError (status st3) = None
      \/ st_state (status st3) = SyncError /\ is_Some (st_lastError (status st3))
         /\ st_pending (status st3) = countPending (app st3))) as [-> Hst].
    { unfold cycle_failed in Ef. destruct e; unfold mbind, M_bind, getS, patch in Ef; injection Ef as <- <-;
        (split; [done|]); first [left; by split | right; by split_and!]. }
    unfold mbind, M_bind, getS, mret, M_ret. by exists st3.
Qed.
