(* ===== verification/SyncDemo.v ===== *)
(** Two devices of one vault on an in-memory destination: the theorems of [SyncSafety] at
    concrete runs, and what pruning does to a deletion another device has not seen. *)
From S2P Require Import SyncSafety.
#[local] Open Scope string_scope.
#[local] Open Scope Z_scope.

(** * Witnesses *)

(** Devices "a" and "b" of one vault, an in-memory destination and no encryption. *)
#[local] Existing Instance plain_sealing.

Definition demo_bytes : Type := EnvelopeHeader * Payload.
Definition demo_remote : InMemoryAdapter demo_bytes := mkMemory ∅ (mkCalls 0 0 0 0 0 0) None false.
Definition demo_vault (device : string) : VaultSession unit := mkSession true (Some tt) (Some "v") (Some device).
Definition demo_engine (s : App) (r : InMemoryAdapter demo_bytes) : Engine (InMemoryAdapter demo_bytes) :=
  mkEngine s r 0 INITIAL_STATUS.
Definition demo_cycle (device : string) (st : Engine (InMemoryAdapter demo_bytes)) :
  result SyncStatus * Engine (InMemoryAdapter demo_bytes) :=
  runCycle (demo_vault device) (NoneTarget "") true st.

(** "a" writes a category and synchronises; "b" then synchronises. *)
Definition demo_a1 : Engine (InMemoryAdapter demo_bytes) := snd (demo_cycle "a" (demo_engine demoA1 demo_remote)).
Definition demo_b1 : Engine (InMemoryAdapter demo_bytes) := snd (demo_cycle "b" (demo_engine (demo_device "b") (remote demo_a1))).

Lemma demo_engine_remote s r : remote (demo_engine s r) = r.
Proof. done. Qed.
Lemma demo_engine_app s r : app (demo_engine s r) = s.
Proof. done. Qed.

Lemma demo_cycles :
  fst (demo_cycle "a" (demo_engine demoA1 demo_remote)) = Ok (mkSyncStatus Idle (Some 1000) None false 0 0 1)
  /\ fst (demo_cycle "b" (demo_engine (demo_device "b") (remote demo_a1))) = Ok (mkSyncStatus Idle (Some 1000) None false 0 1 0)
  /\ rows (app demo_b1) = rows (app demo_a1).
Proof. split_and!; vm_compute; reflexivity. Qed.

Lemma demo_sync f g d s r :
  shared demo_ids tt "v" f g r -> d ∈ demo_ids -> s = f d ->
  shared demo_ids tt "v" (upd f d (app (snd (demo_cycle d (demo_engine s r))))) g (remote (snd (demo_cycle d (demo_engine s r)))).
Proof.
  intros H Hd Hs. destruct (demo_cycle d (demo_engine s r)) as [x st'] eqn:E.
  exact (sh_sync demo_ids tt "v" f g d (demo_vault d) (NoneTarget "") true (demo_engine s r) x st' H Hd Hs eq_refl eq_refl E).
Qed.

Lemma demo_shared_put : shared demo_ids tt "v" (upd demo_device "a" demoA1) [demo_op1] demo_remote.
Proof.
  assert (shared (R := InMemoryAdapter demo_bytes) demo_ids tt "v" demo_device [] demo_remote) as H0.
  { apply sh_init; [|done]. intros d _. split_and!; try done. }
  assert (put ECategories demo_category (demo_device "a") = (Ok demo_value, demoA1)) as E by by vm_compute.
  refine (sh_put demo_ids tt "v" demo_device [] demo_remote "a" ECategories demo_category demo_value demoA1 H0 _ E).
  elem_of_closed.
Qed.

Lemma demo_shared_a :
  shared demo_ids tt "v" (upd (upd demo_device "a" demoA1) "a" (app demo_a1)) [demo_op1] (remote demo_a1).
Proof. refine (demo_sync _ _ "a" demoA1 _ demo_shared_put _ eq_refl). elem_of_closed. Qed.

Lemma demo_shared :
  shared demo_ids tt "v" (upd (upd (upd demo_device "a" demoA1) "a" (app demo_a1)) "b" (app demo_b1)) [demo_op1]
    (remote demo_b1).
Proof. refine (demo_sync _ _ "b" (demo_device "b") _ demo_shared_a _ eq_refl). elem_of_closed. Qed.

Lemma sync_refines_the_fleet_witness : honest [demo_op1] tt "v" (contents (remote demo_b1)).
Proof. exact (proj2 (sync_refines_the_fleet demo_ids tt "v" _ [demo_op1] (remote demo_b1) demo_ids_dash demo_shared)). Defined.

Definition demo_pushed : Engine (InMemoryAdapter demo_bytes) := snd (push (demo_vault "a") tt "v" (demo_engine demoA1 demo_remote)).

Lemma demo_push : push (demo_vault "a") tt "v" (demo_engine demoA1 demo_remote) = (Ok 1, demo_pushed).
Proof. vm_compute. reflexivity. Qed.

Lemma push_drains_the_queue_witness : countPending (app demo_pushed) = 0%nat.
Proof.
  rewrite (proj2 (proj2 (push_drains_the_queue (demo_vault "a") tt "v" (demo_engine demoA1 demo_remote) [demo_op1] 1 demo_pushed
    demoA1_history (demo_unique [demo_op1] eq_refl) demo_push))). by vm_compute.
Defined.

Lemma demo_pushed_lop : oplog (app demo_pushed) !! op_hlc demo_op1 = Some (mkLocalOp demo_op1 true).
Proof. vm_compute. reflexivity. Qed.

Lemma push_marks_only_uploaded_witness :
  rows (app demo_pushed) = rows (app (demo_engine demoA1 demo_remote))
  /\ lop_op <$> oplog (app demo_pushed) = lop_op <$> oplog (app (demo_engine demoA1 demo_remote)).
Proof.
  pose proof (push_marks_only_uploaded (demo_vault "a") tt "v" (demo_engine demoA1 demo_remote) [demo_op1] (Ok 1) demo_pushed
    (op_hlc demo_op1) (mkLocalOp demo_op1 true) demoA1_history (demo_unique [demo_op1] eq_refl) demo_push demo_pushed_lop eq_refl) as [H _].
  exact H.
Defined.

Definition demo_pulled : Engine (InMemoryAdapter demo_bytes) :=
  snd (pull (demo_vault "b") tt "v" (demo_engine (demo_device "b") (remote demo_a1))).

Lemma demo_a1_contents : contents (remote demo_a1) =
  {[ opsObjectName "v" (op_hlc demo_op1) :=
       (mkHeader "v" "a" (op_hlc demo_op1) "ops", PBatch (mkBatch "v" "a" (op_hlc demo_op1) [demo_op1])) ]}.
Proof. vm_compute. reflexivity. Qed.

Lemma demo_no_snapshot n : startsWith n (snapshotPrefix "v") = true -> contents (remote demo_a1) !! n = None.
Proof.
  rewrite demo_a1_contents. intros Hp. apply lookup_singleton_None. intros <-. by rewrite ops_not_snapshot in Hp.
Qed.

Lemma demo_foreign : foreign tt "v" "b" (contents (remote demo_a1)) (opsObjectName "v" (op_hlc demo_op1)) [demo_op1].
Proof. rewrite demo_a1_contents. do 3 eexists. rewrite lookup_singleton_eq. by split_and!. Qed.

Lemma pull_learns_every_batch_witness :
  exists k', fleet demo_ids (upd (upd (upd demo_device "a" demoA1) "a" (app demo_a1)) "b" (app demo_pulled)) k' [demo_op1].
Proof.
  pose proof (shared_sound demo_ids tt "v" _ _ _ demo_ids_dash demo_shared_a) as [(k & Hf) Hh].
  destruct (pull_learns_every_batch demo_ids _ k [demo_op1] "b" (demo_vault "b") tt "v" "b"
    (demo_engine (demo_device "b") (remote demo_a1)) 1 demo_pulled demo_ids_dash Hf) as (k' & Hk' & _);
    [elem_of_closed|done|exact Hh|done|exact demo_no_snapshot|by vm_compute|].
  by eexists.
Defined.

Lemma pull_learns_all_but_the_covered_witness :
  exists k', fleet demo_ids (upd (upd (upd demo_device "a" demoA1) "a" (app demo_a1)) "b" (app demo_pulled)) k' [demo_op1]
  /\ (demo_op1 ∈ k' "b" \/ exists w, taken tt "v" (contents (remote demo_a1)) (k' "b") w
                                  /\ coveredBy (opsObjectName "v" (op_hlc demo_op1)) w = true).
Proof.
  pose proof (shared_sound demo_ids tt "v" _ _ _ demo_ids_dash demo_shared_a) as [(k & Hf) Hh].
  destruct (pull_learns_all_but_the_covered demo_ids _ k [demo_op1] "b" (demo_vault "b") tt "v" "b"
    (demo_engine (demo_device "b") (remote demo_a1)) 1 demo_pulled demo_ids_dash Hf) as (k' & Hk' & _ & Hl);
    [elem_of_closed|done|exact Hh|done|by vm_compute|].
  eexists. split; [exact Hk'|]. rewrite upd_eq.
  assert (startsWith (opsObjectName "v" (op_hlc demo_op1)) (opsPrefix "v") = true) as Hp by (vm_compute; reflexivity).
  rewrite demo_engine_remote demo_engine_app in Hl.
  assert (remoteObjects (demo_device "b") !! opsObjectName "v" (op_hlc demo_op1) = None) as Hn by apply lookup_empty.
  exact (Hl (opsObjectName "v" (op_hlc demo_op1)) [demo_op1] demo_op1 Hp Hn demo_foreign (list_elem_of_here demo_op1 [])).
Defined.

(** A snapshot holds the rows that exist, not the deletions; pruning then removes the
    batches that held them.  A device that had not downloaded such a batch keeps the
    deleted row for good: "b" still has the category "a" deleted, while both are idle
    with nothing to send and only the snapshot is left at the destination. *)
Definition demo_other : AnyEntity := ACategory (mkCategory "c2" "Rent" CExpense None "#fff" "tag" false 5 "").
Fixpoint put_times (n : nat) (s : App) : App :=
  match n with O => s | S m => put_times m (snd (put ECategories demo_other s)) end.
Definition demo_a2 : Engine (InMemoryAdapter demo_bytes) :=
  snd (demo_cycle "a" (demo_engine (put_times 200 (snd (remove ECategories "c1" (app demo_a1)))) (remote demo_b1))).
Definition demo_b2 : Engine (InMemoryAdapter demo_bytes) := snd (demo_cycle "b" (demo_engine (app demo_b1) (remote demo_a2))).

Lemma pruned_snapshot_loses_a_deletion :
  rows (app demo_a2) !! (ECategories, "c1") = None /\ rows (app demo_b2) !! (ECategories, "c1") <> None
  /\ (st_state (status demo_a2), st_pending (status demo_a2)) = (Idle, 0%nat)
  /\ (st_state (status demo_b2), st_pending (status demo_b2)) = (Idle, 0%nat)
  /\ map (fun kv => startsWith kv.1 (opsPrefix "v")) (map_to_list (objects (remote demo_b2))) = [false].
Proof. split_and!; vm_compute; first [reflexivity|discriminate]. Qed.
