(* ===== verification/Interleaving.v ===== *)
(** The sync engine cut at its awaits ([app/src/app/core/sync/sync.service.ts]).  [Sync]
    takes a cycle as one call; here it is a program of steps, one for each call the code
    awaits, so that edits of the same device and the cycles of the others can fall between
    any two of them.  Uninterrupted, the steps are the cycle of [Sync]; interleaved, the
    devices are still a run of the [Fleet], as long as no edit falls between the reads of a
    snapshot. *)
From S2P Require Export SyncSafety.
#[local] Open Scope string_scope.
#[local] Open Scope Z_scope.

(** * Definitions *)

(** An async function: it has settled, or awaits.  Each step runs at once and yields what
    is left.  [together] marks a step whose values are used with those of the step before
    as if both were read at one time. *)
Inductive Steps (S A : Type) : Type :=
| Done (r : result A)
| Act (together : bool) (step : S -> Steps S A * S).
Arguments Done {S A} r.
Arguments Act {S A} together step.

Fixpoint steps_bind {S A B} (f : A -> Steps S B) (p : Steps S A) : Steps S B :=
  match p with
  | Done (Ok a) => f a
  | Done (Throw e) => Done (Throw e)
  | Act t step => Act t (fun s => let '(p', s') := step s in (steps_bind f p', s'))
  end.
#[export] Instance Steps_ret S : MRet (Steps S) := fun A a => Done (Ok a).
#[export] Instance Steps_bind S : MBind (Steps S) := fun A B f p => steps_bind f p.

(** One awaited call, a synchronous expression, and a read of the database. *)
Definition atomic {S A} (m : M S A) : Steps S A := Act false (fun s => let '(r, s') := m s in (Done r, s')).
Definition sync_value {S A} (r : result A) : Steps S A := Done r.
Definition look {R A} (f : App -> A) : Steps (Engine R) A := atomic (fun st => (Ok (f (app st)), st)).
Definition look_together {R A} (f : App -> A) : Steps (Engine R) A := Act true (fun st => (Done (Ok (f (app st))), st)).

(** [try { p } catch (error) { handler }] *)
Fixpoint catch_steps {S A} (p : Steps S A) (handler : exn -> Steps S A) : Steps S A :=
  match p with
  | Done (Throw e) => handler e
  | Done r => Done r
  | Act t step => Act t (fun s => let '(p', s') := step s in (catch_steps p' handler, s'))
  end.

(** [for (const x of xs) await f(x)] *)
Fixpoint for_steps {S A} (xs : list A) (f : A -> Steps S unit) : Steps S unit :=
  match xs with [] => mret tt | x :: xs' => mbind (fun _ => for_steps xs' f) (f x) end.
Fixpoint fold_steps {S A B} (f : B -> A -> Steps S B) (b : B) (xs : list A) : Steps S B :=
  match xs with [] => mret b | x :: xs' => mbind (fun b' => fold_steps f b' xs') (f b x) end.

(** Run to the end without interruption. *)
Fixpoint run_steps {S A} (p : Steps S A) : M S A := fun s =>
  match p with Done r => (r, s) | Act _ step => let '(p', s') := step s in run_steps p' s' end.

Section Steps.
Context {R Bytes Key : Type} `{!SyncAdapter R Bytes} `{!Sealing Key Bytes}.
Notation Async := (Steps (Engine R)).

(** ** The functions of the service *)

Definition steps_pull_object (vault : VaultSession Key) (key : Key) (vaultId : string)
    (acc : list Operation * list string * list string) (name : string)
  : Async (list Operation * list string * list string) :=
  let '(ops, applied, heads) := acc in
  bytes ← atomic (onRemote (adapter_get name));
  opened ← sync_value (openJson key bytes);
  let '(header, value) := opened in
  if negb (String.eqb (hdr_v header) vaultId) then mret acc
  else
    device ← sync_value (requireDeviceId vault);
    if String.eqb (hdr_d header) device then mret (ops, (applied ++ [name])%list, heads)
    else
      more ← sync_value (payload_ops value);
      mret ((ops ++ more)%list, (applied ++ [name])%list, (heads ++ [hdr_h header])%list).

(** [observeStamps] and the transaction of [merge] it is followed by: the call of [merge]
    queues its transaction at once, ahead of that of any later edit. *)
Definition receive (heads : list string) (ops : list Operation) : Async Z :=
  atomic (_ ← onApp (observeStamps heads); onApp (merge ops)).

Definition steps_applySnapshot (key : Key) (vaultId : string) (seen : list string)
  : Async (option string * list string) :=
  snapshots ← atomic (onRemote (adapter_list (snapshotPrefix vaultId)));
  match last snapshots with
  | None => mret (None, seen)
  | Some newest =>
      if bool_decide (newest ∈ seen) then mret (None, seen)
      else
        bytes ← atomic (onRemote (adapter_get newest));
        opened ← sync_value (openJson key bytes);
        let '(header, value) := opened in
        if negb (String.eqb (hdr_v header) vaultId) then mret (None, seen)
        else
          snap ← sync_value (payload_snapshot value);
          _ ← receive [snap_watermark snap] (snapshot_ops snap);
          _ ← atomic (record_applied [newest]);
          _ ← atomic (onApp (modifyS (set_lastSnapshot (Some (snap_watermark snap)))));
          mret (Some (snap_watermark snap), jset_add seen newest)
  end.

Definition steps_pull (vault : VaultSession Key) (key : Key) (vaultId : string) : Async Z :=
  known ← look (fun s => map fst (map_to_list (remoteObjects s)));
  result ← steps_applySnapshot key vaultId known;
  let '(watermark, seen) := result in
  remote ← atomic (onRemote (adapter_list (opsPrefix vaultId)));
  let unseen := List.filter (fun name => negb (bool_decide (name ∈ seen))) remote in
  let is_covered name := match watermark with Some w => coveredBy name w | None => false end in
  let covered := List.filter is_covered unseen in
  let fresh := List.filter (fun name => negb (is_covered name)) unseen in
  _ ← atomic (record_applied covered);
  match fresh with
  | [] => mret 0
  | _ =>
      got ← fold_steps (steps_pull_object vault key vaultId) ([], [], []) fresh;
      let '(ops, applied, heads) := got in
      count ← receive heads ops;
      _ ← atomic (record_applied applied);
      mret count
  end.

Definition steps_push_batch (key : Key) (vaultId device : string) (pushed : Z) (slice : list LocalOperation) : Async Z :=
  let ops := map lop_op slice in
  let head := default "" (op_hlc ∘ lop_op <$> last slice) in
  n ← atomic draw;
  sealed ← sync_value (sealJson key n (mkHeader vaultId device head "ops") (PBatch (mkBatch vaultId device head ops)));
  let name := opsObjectName vaultId head in
  _ ← atomic (onRemote (adapter_put name sealed));
  _ ← atomic (record_applied [name]);
  _ ← atomic (onApp (modifyS (markSynced (map (op_hlc ∘ lop_op) slice))));
  mret (pushed + Z.of_nat (length ops)).

Definition steps_push (vault : VaultSession Key) (key : Key) (vaultId : string) : Async Z :=
  pending ← look (pendingOperations PENDING_LIMIT);
  match pending with
  | [] => mret 0
  | _ =>
      device ← sync_value (requireDeviceId vault);
      fold_steps (steps_push_batch key vaultId device) 0 (chunks (length pending) MAX_OPS_PER_BATCH pending)
  end.

(** [Promise.all] of two listings: the second goes on when the first has failed. *)
Definition steps_both (ops_prefix snapshots_prefix : string) : Async (list string * list string) :=
  listed ← atomic (fun st => let '(r, st') := onRemote (adapter_list ops_prefix) st in (Ok r, st'));
  snapshots ← atomic (fun st => let '(r, st') := onRemote (adapter_list snapshots_prefix) st in (Ok r, st'));
  sync_value (match listed, snapshots with
              | Ok a, Ok b => Ok (a, b) | Throw e, _ => Throw e | _, Throw e => Throw e end).

Definition steps_prune (vaultId watermark : string) : Async unit :=
  catch_steps
    (listed ← steps_both (opsPrefix vaultId) (snapshotPrefix vaultId);
     let '(ops, snapshots) := listed in
     let superseded :=
       (List.filter (fun name => coveredBy name watermark) ops
        ++ List.filter (fun name => match stampFromObjectName name with
                                    | Some stamp => String.ltb stamp watermark | None => false end) snapshots)%list in
     for_steps superseded (fun name =>
       _ ← atomic (onRemote (adapter_remove name));
       atomic (onApp (modifyS (set_remoteObjects (delete name))))))
    (fun _ => mret tt).

(** [entities], a table at a time: rows read after the log. *)
Definition steps_entities : Async (list (EntityName * list AnyEntity)) :=
  fold_steps (fun entities name =>
      rows ← look_together (table_rows name);
      mret (entities ++ [(name, rows)])%list) [] ENTITY_NAMES.

Definition steps_maybeSnapshot (vault : VaultSession Key) (key : Key) (vaultId : string) : Async unit :=
  last_snapshot ← look (fun s => default "" (meta_lastSnapshot s));
  since ← look (fun s => length (List.filter (fun lop => String.ltb last_snapshot (op_hlc (lop_op lop))) (oplog_sorted s)));
  if (since <? SNAPSHOT_AFTER_OPERATIONS)%nat then mret tt
  else
    operations ← look oplog_sorted;
    match op_hlc ∘ lop_op <$> last operations with
    | None => mret tt
    | Some watermark =>
        if negb (truthy watermark) then mret tt
        else
          entities ← steps_entities;
          device ← sync_value (requireDeviceId vault);
          let snapshot := mkSnapshot vaultId device watermark entities (Z.of_nat (length operations)) in
          let name := snapshotObjectName vaultId watermark in
          n ← atomic draw;
          sealed ← sync_value (sealJson key n (mkHeader vaultId device watermark "snapshot") (PSnapshot snapshot));
          _ ← atomic (onRemote (adapter_put name sealed));
          _ ← atomic (record_applied [name]);
          _ ← atomic (onApp (modifyS (set_lastSnapshot (Some watermark))));
          steps_prune vaultId watermark
    end.

Definition steps_cycle (vault : VaultSession Key) (target : SyncTarget) (override : bool) : Async unit :=
  _ ← sync_value (if override then Ok tt else create_adapter target);
  key ← sync_value (requireKey vault);
  vaultId ← sync_value (requireVaultId vault);
  pulled ← steps_pull vault key vaultId;
  pushed ← steps_push vault key vaultId;
  _ ← steps_maybeSnapshot vault key vaultId;
  _ ← atomic (onRemote adapter_flush);
  now ← atomic (now ← onApp Date_now; _ ← onApp (modifyS (set_lastSyncAt (Some now))); mret now);
  pending ← look countPending;
  atomic (patch (fun _ => mkSyncStatus Idle (Some now) None false pending pulled pushed)).

Definition steps_cycle_failed (error : exn) : Async unit :=
  match error with
  | NoSyncTargetError =>
      atomic (patch (fun s => mkSyncStatus Idle (st_lastSyncAt s) None (st_retryable s) (st_pending s) (st_pulled s) (st_pushed s)))
  | _ =>
      pending ← look countPending;
      atomic (patch (fun s => mkSyncStatus SyncError (st_lastSyncAt s) (Some (exn_message error))
               (match error with SyncTransportError _ retryable => retryable | _ => false end)
               pending (st_pulled s) (st_pushed s)))
  end.

Definition steps_runCycle (vault : VaultSession Key) (target : SyncTarget) (override : bool) : Async SyncStatus :=
  if negb (vs_unlocked vault) then
    _ ← atomic (patch (fun s => mkSyncStatus Idle (st_lastSyncAt s) None (st_retryable s) (st_pending s) (st_pulled s) (st_pushed s)));
    atomic (st ← getS; mret (status st))
  else
    _ ← atomic (patch (fun s => mkSyncStatus Syncing (st_lastSyncAt s) None (st_retryable s) (st_pending s) 0 0));
    _ ← catch_steps (steps_cycle vault target override) steps_cycle_failed;
    atomic (st ← getS; mret (status st)).
End Steps.

(** ** Several devices at once *)

(** The installations of a vault, the destination they share, and the cycle each has in
    flight ([inFlight]). *)
Record World (R : Type) : Type := mkWorld {
  w_app : string -> App; w_remote : R; w_draws : string -> nat; w_status : string -> SyncStatus;
  w_running : string -> option (Steps (Engine R) SyncStatus) }.
Arguments mkWorld {R}.
Arguments w_app {R}.
Arguments w_remote {R}.
Arguments w_draws {R}.
Arguments w_status {R}.
Arguments w_running {R}.

Section World.
Context {R Bytes Key : Type} `{!SyncAdapter R Bytes} `{!Sealing Key Bytes}.

Definition engine_of (w : World R) (d : string) : Engine R :=
  mkEngine (w_app w d) (w_remote w) (w_draws w d) (w_status w d).
Definition set_running (d : string) (p : option (Steps (Engine R) SyncStatus)) (w : World R) : World R :=
  mkWorld (w_app w) (w_remote w) (w_draws w) (w_status w) (upd (w_running w) d p).
Definition set_app (d : string) (s : App) (w : World R) : World R :=
  mkWorld (upd (w_app w) d s) (w_remote w) (w_draws w) (w_status w) (w_running w).

(** [sync()] : callers share whichever run is already going. *)
Definition call_sync (d : string) (vault : VaultSession Key) (target : SyncTarget) (override : bool) (w : World R) : World R :=
  match w_running w d with
  | Some _ => w
  | None => set_running d (Some (steps_runCycle vault target override)) w
  end.

(** The call a cycle awaits is made; a settled one is cleared ([finally]). *)
Definition advance (d : string) (w : World R) : World R :=
  match w_running w d with
  | Some (Act _ step) =>
      let '(p, st) := step (engine_of w d) in
      mkWorld (upd (w_app w) d (app st)) (remote st) (upd (w_draws w) d (draws st)) (upd (w_status w) d (status st))
        (upd (w_running w) d (Some p))
  | Some (Done _) => set_running d None w
  | None => w
  end.

(** No cycle of the device is between two reads that belong together. *)
Definition calm (w : World R) (d : string) : bool :=
  match w_running w d with Some (Act true _) => false | _ => true end.

(** What can happen next: a device edits, restarts or keeps its books, starts a cycle,
    takes one step of it or is closed in the middle.  [g] collects what was authored. *)
Inductive world_step (devices : list string) (key : Key) (vaultId : string)
  : World R -> list Operation -> World R -> list Operation -> Prop :=
| ws_put : forall w g d e v v' s', d ∈ devices -> calm w d = true -> put e v (w_app w d) = (Ok v', s') ->
    world_step devices key vaultId w g (set_app d s' w)
      (mkOp (entity_updatedAt v') e (entity_id v') Put (Some v') (device_of (w_app w d)) :: g)
| ws_remove : forall w g d e id s', d ∈ devices -> calm w d = true -> remove e id (w_app w d) = (Ok tt, s') ->
    world_step devices key vaultId w g (set_app d s' w)
      (mkOp match clock s' with Some c => encodeHlc (clock_state c) (clock_device c) | None => "" end
         e id Delete None (device_of (w_app w d)) :: g)
| ws_quiet : forall w g d s', d ∈ devices -> calm w d = true -> quiet (w_app w d) s' -> oplog s' = oplog (w_app w d) ->
    world_step devices key vaultId w g (set_app d s' w) g
| ws_call : forall w g d vault target override, d ∈ devices -> vs_key vault = Some key -> vs_vaultId vault = Some vaultId ->
    world_step devices key vaultId w g (call_sync d vault target override w) g
| ws_step : forall w g d, d ∈ devices -> world_step devices key vaultId w g (advance d w) g
| ws_close : forall w g d, d ∈ devices -> world_step devices key vaultId w g (set_running d None w) g.

(** New installations and an empty destination. *)
Definition new_world (devices : list string) `{!AdapterLaws R Bytes} (w : World R) : Prop :=
  (forall d, d ∈ devices -> fresh_device d (w_app w d)) /\ contents (w_remote w) = ∅ /\ (forall d, w_running w d = None).

(** Any interleaving. *)
Inductive interleaved (devices : list string) (key : Key) (vaultId : string) `{!AdapterLaws R Bytes}
  : World R -> list Operation -> Prop :=
| iv_new : forall w, new_world devices w -> interleaved devices key vaultId w []
| iv_next : forall w g w' g', interleaved devices key vaultId w g -> world_step devices key vaultId w g w' g' ->
    interleaved devices key vaultId w' g'.
End World.

(** * Lemmas *)

(** Induction over the steps a call can take. *)
Lemma Steps_step_ind S A (P : Steps S A -> Prop) :
  (forall r, P (Done r)) ->
  (forall t step, (forall s p s', step s = (p, s') -> P p) -> P (Act t step)) ->
  forall p, P p.
Proof.
  intros Hd Ha. fix IH 1. intros [r|t step]; [apply Hd|]. apply Ha.
  intros s p s' E. pose proof (IH (fst (step s))) as H. by rewrite E in H.
Qed.

(** ** Uninterrupted runs *)

(** Left alone, the steps do what the call does. *)
Definition alike {S A} (p : Steps S A) (m : M S A) : Prop := forall s, run_steps p s = m s.

Lemma run_bind {S A B} (p : Steps S A) (f : A -> Steps S B) s :
  run_steps (mbind f p) s = mbind (fun a => run_steps (f a)) (run_steps p) s.
Proof.
  revert s. induction p as [[a|e]|t step IH] using Steps_step_ind; intros s; [done|done|].
  unfold mbind, M_bind in *. cbn. destruct (step s) as [p' s'] eqn:E. cbn. apply (IH s p' s' E).
Qed.

Lemma alike_bind {S A B} (p : Steps S A) (m : M S A) (f : A -> Steps S B) (g : A -> M S B) :
  alike p m -> (forall a, alike (f a) (g a)) -> alike (mbind f p) (mbind g m).
Proof.
  intros Hp Hf s. rewrite run_bind. unfold mbind, M_bind. rewrite Hp. destruct (m s) as [[a|e] s']; [apply Hf|done].
Qed.

Lemma alike_catch {S A} (p : Steps S A) (m : M S A) h g :
  alike p m -> (forall e, alike (h e) (g e)) -> alike (catch_steps p h) (catchM m g).
Proof.
  intros Hp Hh s. unfold catchM. rewrite -(Hp s). clear Hp. revert s.
  induction p as [[a|e]|t step IH] using Steps_step_ind; intros s; [done|apply Hh|].
  cbn. destruct (step s) as [p' s'] eqn:E. cbn. apply (IH s p' s' E).
Qed.

Lemma alike_ret {S A} (a : A) : alike (S := S) (mret a) (mret a).
Proof. done. Qed.
Lemma alike_atomic {S A} (m : M S A) : alike (atomic m) m.
Proof. intros s. cbn. by destruct (m s). Qed.
Lemma alike_value {S A} (r : result A) : alike (S := S) (sync_value r) (liftR r).
Proof. done. Qed.

Lemma alike_for {S A} (xs : list A) (f : A -> Steps S unit) (g : A -> M S unit) :
  (forall x, alike (f x) (g x)) -> alike (for_steps xs f) (forM_ xs g).
Proof. intros H. induction xs as [|x xs IH]; cbn [for_steps forM_]; [apply alike_ret|by apply alike_bind]. Qed.
Lemma alike_fold {S A B} (xs : list A) (f : B -> A -> Steps S B) (g : B -> A -> M S B) :
  (forall b x, alike (f b x) (g b x)) -> forall b, alike (fold_steps f b xs) (foldM g b xs).
Proof.
  intros H. induction xs as [|x xs IH]; intros b; cbn [fold_steps foldM]; [apply alike_ret|].
  apply alike_bind; [done|]. intros b'. apply IH.
Qed.

(** A read of the database finds the state the call is in. *)
Lemma run_look {R A B} (f : App -> A) (k : A -> Steps (Engine R) B) st :
  run_steps (mbind k (look f)) st = run_steps (k (f (app st))) st.
Proof. done. Qed.
Lemma alike_look {R A B} (f : App -> A) (k : A -> Steps (Engine R) B) (g : Engine R -> M (Engine R) B) :
  (forall st, run_steps (k (f (app st))) st = g st st) -> alike (mbind k (look f)) (mbind g getS).
Proof. intros H st. rewrite run_look H. done. Qed.

#[export] Hint Resolve alike_bind alike_catch alike_ret alike_atomic alike_value alike_for alike_fold : docket.

Section Uninterrupted.
Context {R Bytes Key : Type} `{!SyncAdapter R Bytes} `{!Sealing Key Bytes} (vault : VaultSession Key).

(** From the runs in one state to the programs. *)
Ltac on_programs st :=
  match goal with |- run_steps ?p st = ?m st => let H := fresh in assert (alike p m) as H; [|exact (H st)] end.

(** Follow the two programs call by call. *)
Ltac one_step :=
  first
    [ apply alike_ret | apply alike_atomic | apply alike_value
    | apply alike_catch; [|intros ?]
    | apply alike_bind; [|intros ?]
    | apply alike_for; intros ? | apply alike_fold; intros ? ?
    | match goal with |- alike (let '(_, _) := ?x in _) _ => destruct x end
    | match goal with |- alike (match ?x with _ => _ end) _ => destruct x end ].
Ltac in_step := repeat one_step.

Lemma alike_receive {A} heads ops (k : Z -> Steps (Engine R) A) (g : Z -> M (Engine R) A) :
  (forall n, alike (k n) (g n)) ->
  alike (mbind k (receive heads ops)) (_ ← onApp (observeStamps heads); n ← onApp (merge ops); g n).
Proof.
  intros H st. rewrite run_bind. unfold receive. cbn [run_steps atomic]. unfold mbind, M_bind, onApp.
  destruct (observeStamps heads (app st)) as [[[]|e] s1]; cbn; [|done].
  destruct (merge ops s1) as [[n|e] s2]; cbn; [apply H|done].
Qed.

Lemma pull_object_alike key vaultId acc name :
  alike (steps_pull_object (R := R) vault key vaultId acc name) (pull_object vault key vaultId acc name).
Proof. unfold steps_pull_object, pull_object. in_step. Qed.

Lemma applySnapshot_alike key vaultId seen :
  alike (steps_applySnapshot (R := R) key vaultId seen) (applySnapshot key vaultId seen).
Proof. unfold steps_applySnapshot, applySnapshot. in_step. apply alike_receive. intros n. in_step. Qed.

Lemma pull_alike key vaultId : alike (steps_pull (R := R) vault key vaultId) (pull vault key vaultId).
Proof.
  unfold steps_pull, pull. apply alike_look. intros st. on_programs st.
  apply alike_bind; [apply applySnapshot_alike|]. intros [w seen].
  apply alike_bind; [apply alike_atomic|]. intros names. apply alike_bind; [apply alike_atomic|]. intros _.
  set (fresh := List.filter _ (List.filter _ names)). destruct fresh as [|n0 fresh]; [apply alike_ret|].
  apply alike_bind; [apply alike_fold, pull_object_alike|]. intros [[ops applied] heads].
  apply alike_receive. intros n. in_step.
Qed.

Lemma push_alike key vaultId : alike (steps_push (R := R) vault key vaultId) (push vault key vaultId).
Proof.
  unfold steps_push, push. apply alike_look. intros st.
  on_programs st.
  destruct (pendingOperations PENDING_LIMIT (app st)) as [|p0 pending]; [apply alike_ret|].
  apply alike_bind; [apply alike_value|]. intros device. apply alike_fold. intros pushed slice.
  unfold steps_push_batch, push_batch. in_step.
Qed.

Lemma both_alike ops_prefix snapshots_prefix :
  alike (steps_both (R := R) ops_prefix snapshots_prefix)
    (both (onRemote (adapter_list ops_prefix)) (onRemote (adapter_list snapshots_prefix))).
Proof.
  intros st. unfold steps_both, both, onRemote. rewrite run_bind. cbn [run_steps atomic]. unfold mbind, M_bind. cbn.
  destruct (adapter_list ops_prefix (remote st)) as [ra r1]; cbn.
  destruct (adapter_list snapshots_prefix r1) as [rb r2]. by destruct ra, rb.
Qed.

Lemma prune_alike vaultId watermark : alike (steps_prune (R := R) vaultId watermark) (prune vaultId watermark).
Proof. unfold steps_prune, prune. in_step. apply both_alike. Qed.

Lemma run_entities (st : Engine R) :
  run_steps steps_entities st = (Ok (map (fun name => (name, table_rows name (app st))) ENTITY_NAMES), st).
Proof. done. Qed.

Lemma maybeSnapshot_alike key vaultId :
  alike (steps_maybeSnapshot (R := R) vault key vaultId) (maybeSnapshot vault key vaultId).
Proof.
  unfold steps_maybeSnapshot, maybeSnapshot. apply alike_look. intros st. rewrite run_look.
  destruct (_ <? _)%nat; [done|]. rewrite run_look.
  destruct (op_hlc ∘ lop_op <$> last (oplog_sorted (app st))) as [w|]; [|done]. destruct (negb (truthy w)); [done|].
  rewrite run_bind. unfold mbind at 1, M_bind at 1. rewrite run_entities.
  on_programs st. repeat first [apply prune_alike | one_step].
Qed.

Lemma cycle_alike target override :
  alike (steps_cycle (R := R) vault target override) (cycle vault target override).
Proof.
  unfold steps_cycle, cycle.
  do 3 (apply alike_bind; [apply alike_value|intros ?]).
  apply alike_bind; [apply pull_alike|intros pulled]. apply alike_bind; [apply push_alike|intros pushed].
  apply alike_bind; [apply maybeSnapshot_alike|intros _]. apply alike_bind; [apply alike_atomic|intros _].
  intros st. rewrite run_bind. reflexivity.
Qed.

Lemma cycle_failed_alike e : alike (steps_cycle_failed (R := R) e) (cycle_failed e).
Proof. destruct e; cbn [steps_cycle_failed cycle_failed]; try apply alike_atomic; apply alike_look; intros st; reflexivity. Qed.

(** Left alone, the steps of a cycle are the cycle. *)
Theorem uninterrupted_steps_are_the_cycle target override (st : Engine R) :
  run_steps (steps_runCycle vault target override) st = runCycle vault target override st.
Proof.
  on_programs st.
  unfold steps_runCycle, runCycle. destruct (negb (vs_unlocked vault)).
  - in_step.
  - repeat first [apply cycle_alike | apply cycle_failed_alike | one_step].
Qed.
End Uninterrupted.

(** ** Interleaved steps *)

Section Sound.
Context {R Bytes Key : Type} `{!SyncAdapter R Bytes} `{!AdapterLaws R Bytes} `{!Sealing Key Bytes}.
Context (devices : list string) (Hdash : forall d, d ∈ devices -> no_dash d = true) (d : string) (Hd : d ∈ devices).
Context (key : Key) (vaultId : string).
Notation kept f k g := (kept (R := R) devices f k g d key vaultId).
Notation safe f k g := (safe (R := R) devices f k g d key vaultId).

(** Whatever the others do and author between its steps, and whatever the device itself
    does where it may, each step of the program keeps the fleet and the destination sound. *)
Fixpoint sound {A} (g : list Operation) (s : App) (p : Steps (Engine R) A)
    (Q : list Operation -> App -> A -> Prop) {struct p} : Prop :=
  match p with
  | Done (Ok a) => Q g s a
  | Done (Throw _) => True
  | Act together step => forall new f k st,
      (together = true -> app st = s) -> kept f k (new ++ g)%list st ->
      kept f k (new ++ g)%list (snd (step st)) /\ sound (new ++ g)%list (app (snd (step st))) (fst (step st)) Q
  end.

Definition any {A} : list Operation -> App -> A -> Prop := fun _ _ _ => True.

Lemma sound_weaken {A} (p : Steps (Engine R) A) (Q Q' : list Operation -> App -> A -> Prop) g s :
  (forall new s a, Q (new ++ g)%list s a -> Q' (new ++ g)%list s a) -> sound g s p Q -> sound g s p Q'.
Proof.
  revert g s. induction p as [[a|e]|t step IH] using Steps_step_ind; intros g s HQ; cbn [sound]; [apply (HQ [])|done|].
  intros H new f k st Ht Hk. destruct (H new f k st Ht Hk) as [Hk' Hs]. split; [done|].
  eapply (IH st _ (snd (step st))); [by destruct (step st)| |exact Hs].
  intros new' s' a. rewrite app_assoc. apply HQ.
Qed.

Lemma sound_bind {A B} (p : Steps (Engine R) A) (f : A -> Steps (Engine R) B) P Q g s :
  sound g s p P -> (forall new s a, P (new ++ g)%list s a -> sound (new ++ g)%list s (f a) Q) ->
  sound g s (mbind f p) Q.
Proof.
  revert g s. induction p as [[a|e]|t step IH] using Steps_step_ind; intros g s; cbn [sound]; [|done|].
  - intros H Hf. by apply (Hf []).
  - intros H Hf. cbn [mbind Steps_bind steps_bind sound]. intros new f0 k st Ht Hk.
    destruct (H new f0 k st Ht Hk) as [Hk' Hs]. destruct (step st) as [p' s'] eqn:E. cbn [fst snd] in *. split; [done|].
    apply (IH st p' s' E); [done|]. intros new' s1 a. rewrite app_assoc. apply Hf.
Qed.

Lemma sound_catch {A} (p : Steps (Engine R) A) handler Q g s :
  sound g s p Q -> (forall new s e, sound (new ++ g)%list s (handler e) Q) -> sound g s (catch_steps p handler) Q.
Proof.
  revert g s. induction p as [[a|e]|t step IH] using Steps_step_ind; intros g s; cbn [sound catch_steps]; [done| |].
  - intros _ Hh. by apply (Hh []).
  - intros H Hh new f0 k st Ht Hk. destruct (H new f0 k st Ht Hk) as [Hk' Hs].
    destruct (step st) as [p' s'] eqn:E. cbn [fst snd] in *. split; [done|].
    apply (IH st p' s' E); [done|]. intros new' s1 e. rewrite app_assoc. apply Hh.
Qed.

Lemma sound_ret {A} (a : A) (Q : list Operation -> App -> A -> Prop) g s : Q g s a -> sound g s (mret a) Q.
Proof. done. Qed.
Lemma sound_value {A} (r : result A) g s : sound g s (sync_value r) (fun _ s' a => s' = s /\ r = Ok a).
Proof. by destruct r. Qed.

(** A step that is safe in every fleet. *)
Lemma sound_atomic {A} (m : M (Engine R) A) (P : list Operation -> A -> Prop) g s :
  (forall new f k, safe f k (new ++ g)%list m (P (new ++ g)%list)) -> sound g s (atomic m) (fun g _ => P g).
Proof.
  intros Hm new f k st _ Hk. destruct (m st) as [r st'] eqn:E. destruct (Hm new f k st r st' Hk E) as [Hk' HP].
  split; [done|]. cbn [fst snd]. destruct r; [by apply HP|done].
Qed.

(** A read finds a state of the fleet. *)
Lemma sound_look {A} (f : App -> A) g s :
  sound g s (look (R := R) f) (fun g' s' a => a = f s' /\ exists f0 k0 k, at_state devices f0 k0 g' d s' k).
Proof. intros new f0 k0 st _ Hk. cbn. split; [done|]. destruct Hk as [(k & Hk) Hr]. split; [done|]. by exists f0, k0, k. Qed.

Lemma sound_look_together {A} (f : App -> A) g s : sound g s (look_together (R := R) f) (fun _ s' a => s' = s /\ a = f s).
Proof. intros new f0 k0 st Ht Hk. cbn. rewrite (Ht eq_refl). by split. Qed.

(** A loop keeps what only grows with [g]. *)
Lemma sound_fold {A B} (xs : list A) (f : B -> A -> Steps (Engine R) B) (P : list Operation -> B -> Prop) :
  (forall g new b, P g b -> P (new ++ g)%list b) ->
  (forall b x g s, x ∈ xs -> P g b -> sound g s (f b x) (fun g _ => P g)) ->
  forall b g s, P g b -> sound g s (fold_steps f b xs) (fun g _ => P g).
Proof.
  intros Hmono. induction xs as [|x xs IH]; intros Hf b g s Hb; [done|]. cbn [fold_steps].
  eapply sound_bind; [apply Hf; [constructor|exact Hb]|]. intros new s' b' Hb'. cbn beta in Hb'.
  apply IH; [|done]. intros c y g' s1 Hy. apply Hf. by constructor.
Qed.

Lemma sound_for {A} (xs : list A) (f : A -> Steps (Engine R) unit) :
  (forall x g s, x ∈ xs -> sound g s (f x) any) -> forall g s, sound g s (for_steps xs f) any.
Proof.
  induction xs as [|x xs IH]; intros Hf g s; [done|]. cbn [for_steps].
  eapply sound_bind; [apply Hf; constructor|]. intros new s' [] _. apply IH. intros y g' s1 Hy. apply Hf. by constructor.
Qed.

#[local] Notation honest_at g name b := (honest_object g key vaultId name b).

Lemma from_app new g op : from g op -> from (new ++ g)%list op.
Proof. intros H. induction new as [|o new IH]; [done|]. by apply from_cons. Qed.

Lemma gathered_app new g acc : SyncSafety.gathered g acc -> SyncSafety.gathered (new ++ g)%list acc.
Proof.
  destruct acc as [[ops applied] heads]. intros (H1 & H2 & H3). split_and!; [| |done].
  - eapply Forall_impl; [exact H1|]. intros op. apply from_app.
  - eapply Forall_impl; [exact H2|]. intros h (o & Ho & E). exists o. split; [set_solver|done].
Qed.

Lemma honest_object_app new g name b : honest_at g name b -> honest_at (new ++ g)%list name b.
Proof.
  intros H. induction new as [|o new IH]; [done|]. cbn [app].
  assert (honest ([o] ++ (new ++ g))%list key vaultId {[name := b]}) as Hh.
  { apply honest_mono. intros n c [<- <-]%lookup_singleton_Some. exact IH. }
  apply Hh. apply lookup_singleton_eq.
Qed.

Lemma log_slice_app new g l : log_slice g l -> log_slice (new ++ g)%list l.
Proof. intros [H1 H2]. split; [|done]. eapply Forall_impl; [exact H1|]. intros lop. apply from_app. Qed.

(** What a step that is safe whatever the fleet tells. *)
Lemma sound_step {A} (m : M (Engine R) A) g s :
  (forall g f k, safe f k g m (fun _ => True)) -> sound g s (atomic m) any.
Proof. intros H. apply (sound_atomic m (fun _ _ => True)). intros new f k. apply H. Qed.

Lemma sound_list p g s : sound g s (atomic (onRemote (adapter_list p))) (fun _ _ names => Forall (fun n => startsWith n p = true) names).
Proof. apply (sound_atomic _ (fun _ => _)). intros new f k. apply safe_list. Qed.
Lemma sound_get name g s : sound g s (atomic (onRemote (adapter_get name))) (fun g _ b => honest_at g name b).
Proof. apply (sound_atomic _ (fun g b => honest_at g name b)). intros new f k. apply safe_get. Qed.
Lemma sound_put name b g s : honest_at g name b -> sound g s (atomic (onRemote (adapter_put name b))) any.
Proof. intros Hb. apply (sound_atomic _ (fun _ _ => True)). intros new f k. apply safe_put. by apply honest_object_app. Qed.
Lemma sound_draw g s : sound g s (atomic draw) any.
Proof. apply sound_step. intros. apply safe_draw. Qed.
Lemma sound_record names g s : sound g s (atomic (record_applied names)) any.
Proof. apply sound_step. intros. by apply safe_record. Qed.
Lemma sound_bookkeeping {A} (m : M App A) g s : (forall s r s', m s = (r, s') -> quiet s s') -> sound g s (atomic (onApp m)) any.
Proof. intros H. apply sound_step. intros. by apply safe_app_quiet. Qed.
Lemma sound_patch f g s : sound g s (atomic (patch f)) any.
Proof. apply sound_step. intros. apply safe_patch. Qed.

Lemma sound_receive heads ops g s :
  Forall (from g) ops -> Forall (fun head => exists o, o ∈ g /\ head = op_hlc o) heads ->
  Forall (fun op => exists head, head ∈ heads /\ compareHlc (op_hlc op) head <= 0) ops ->
  sound g s (receive heads ops) any.
Proof.
  intros H1 H2 H3. apply (sound_atomic _ (fun _ _ => True)). intros new f k.
  pose proof (gathered_app new g (ops, [], heads) (conj H1 (conj H2 H3))) as (G1 & G2 & G3).
  intros st r st' Hk E. eapply (safe_receive devices f k (new ++ g)%list d Hd key vaultId heads ops mret (fun _ => True)); [done..| |exact Hk|].
  - intros n. by apply safe_ret.
  - revert E. unfold mbind, M_bind, onApp. destruct (observeStamps heads (app st)) as [[[]|e] s1]; [|done]. cbn.
    by destruct (merge ops s1) as [[n|e] s2].
Qed.

(** Go on past a step of which nothing is kept. *)
Tactic Notation "past" uconstr(L) := eapply sound_bind; [apply L|intros ? ? ? _].

Lemma sound_pull_object vault acc name g s :
  startsWith name (opsPrefix vaultId) = true -> SyncSafety.gathered g acc ->
  sound g s (steps_pull_object vault key vaultId acc name) (fun g _ => SyncSafety.gathered g).
Proof.
  intros Hn Hacc. destruct acc as [[ops applied] heads]. unfold steps_pull_object.
  eapply sound_bind; [apply sound_get|]. intros new s1 b Hb. apply (gathered_app new) in Hacc.
  generalize dependent (new ++ g)%list. clear g new. intros g Hacc Hb.
  eapply sound_bind; [apply sound_value|]. intros n1 s2 [h v] [-> Hopen].
  destruct (String.eqb_spec (hdr_v h) vaultId) as [Hv|]; cbn [negb]; [|by apply gathered_app].
  eapply sound_bind; [apply sound_value|]. intros n2 s3 device _.
  apply (gathered_app n1), (gathered_app n2) in Hacc.
  destruct (String.eqb (hdr_d h) device); [done|].
  apply (honest_object_app n1), (honest_object_app n2) in Hb. generalize dependent (n2 ++ n1 ++ g)%list. clear g n1 n2.
  intros g Hacc Hb. destruct (Hb h v Hopen Hv) as [(batch & -> & Hh & Hops & Hle) _]; [done|]. cbn.
  destruct Hacc as (A1 & A2 & A3). split_and!.
  - by apply Forall_app.
  - apply Forall_app. split; [done|]. by repeat constructor.
  - apply Forall_app. split.
    + eapply Forall_impl; [exact A3|]. intros op (hd & Hin & ?). exists hd. split; [set_solver|done].
    + eapply Forall_impl; [exact Hle|]. intros op Hop. exists (hdr_h h). split; [set_solver|done].
Qed.

Lemma sound_applySnapshot seen g s : sound g s (steps_applySnapshot key vaultId seen) any.
Proof.
  unfold steps_applySnapshot. eapply sound_bind; [apply sound_list|]. intros new s1 names Hnames. cbv beta in Hnames.
  generalize (new ++ g)%list. clear g new. intros g.
  destruct (last names) as [newest|] eqn:El; [|done]. case_bool_decide; [done|].
  eapply sound_bind; [apply sound_get|]. intros new s2 b Hb. generalize dependent (new ++ g)%list. clear g new. intros g Hb.
  eapply sound_bind; [apply sound_value|]. intros n1 s3 [h v] [-> Hopen].
  apply (honest_object_app n1) in Hb. generalize dependent (n1 ++ g)%list. clear g n1. intros g Hb.
  destruct (String.eqb_spec (hdr_v h) vaultId) as [Hv|]; cbn [negb]; [|done].
  destruct (Hb h v Hopen Hv) as [_ Hsnap].
  destruct Hsnap as (snap & -> & Hs).
  { apply last_Some_elem_of in El. rewrite ->Forall_forall in Hnames. by apply Hnames. }
  destruct (honest_batch_receive devices Hdash (fun _ => s2) (fun _ => []) g d Hd _ _ Hs) as (H1 & H2 & H3).
  cbn [payload_snapshot sync_value mbind Steps_bind steps_bind].
  eapply sound_bind; [by apply sound_receive|]. intros n2 s4 z _.
  past sound_record. past sound_bookkeeping; [|done]. intros x r x'. by apply quiet_modify.
Qed.

Lemma sound_pull vault g s : sound g s (steps_pull vault key vaultId) any.
Proof.
  unfold steps_pull. past sound_look. eapply sound_bind; [apply sound_applySnapshot|]. intros ? ? [watermark seen] _.
  eapply sound_bind; [apply sound_list|]. intros ? ? names Hnames. cbv beta in Hnames. past sound_record.
  set (fresh := List.filter _ (List.filter _ names)).
  assert (forall n, n ∈ fresh -> startsWith n (opsPrefix vaultId) = true) as Hfresh.
  { intros n [[Hn _]%elem_of_filter_b _]%elem_of_filter_b. rewrite ->Forall_forall in Hnames. by apply Hnames. }
  destruct fresh as [|n0 fresh']; [done|]. eapply sound_bind.
  - apply (sound_fold _ _ (fun g => SyncSafety.gathered g)); [intros ? ? ?; apply gathered_app| |by split_and!; constructor].
    intros acc n g' s' Hn Hacc. apply sound_pull_object; [by apply Hfresh|done].
  - intros ? ? [[ops applied] heads] (A1 & A2 & A3). eapply sound_bind; [by apply sound_receive|].
    intros ? ? z _. past sound_record. done.
Qed.

Lemma sound_push_batch device pushed slice lop g s :
  log_slice g slice -> last slice = Some lop -> sound g s (steps_push_batch key vaultId device pushed slice) any.
Proof.
  intros Hs Hlast. unfold steps_push_batch. rewrite Hlast. cbn [fmap option_fmap option_map default].
  eapply sound_bind; [apply sound_draw|]. intros n1 s1 n _.
  eapply sound_bind; [apply sound_value|]. intros n2 s2 sealed [-> Hsealed].
  eapply sound_bind; [apply sound_put|].
  { intros h v Hopen Hv. rewrite (openJson_sealJson _ _ _ _ _ Hsealed) in Hopen.
    injection Hopen as <- <-. split.
    - intros _. eexists. split; [done|]. cbn. apply log_slice_honest; [|done]. by do 2 apply log_slice_app.
    - by rewrite ops_not_snapshot. }
  intros n3 s3 [] _. past sound_record. past sound_bookkeeping; [|done].
  intros x r x' [= _ <-]. destruct (markSynced_rest (map (op_hlc ∘ lop_op) slice) x) as (? & ? & ? & ?).
  apply quiet_bookkeeping; [done|apply markSynced_ops|done..].
Qed.

Lemma sound_push vault g s : sound g s (steps_push vault key vaultId) any.
Proof.
  unfold steps_push. eapply sound_bind; [apply sound_look|]. intros n1 s1 pending [-> (f0 & k0 & k & Hk)].
  generalize dependent (n1 ++ g)%list. clear g n1. intros g Hk.
  pose proof (log_slice_sorted devices Hdash f0 k0 g d Hd _ _ Hk) as Hlog.
  assert (log_slice g (pendingOperations PENDING_LIMIT s1)) as Hp.
  { unfold pendingOperations. rewrite <-(drop_0 (List.filter _ _)). by apply log_slice_cut, log_slice_filter. }
  destruct (pendingOperations PENDING_LIMIT s1) as [|p0 pending] eqn:E; [done|].
  eapply sound_bind; [apply sound_value|]. intros n2 s2 device [-> _].
  apply (log_slice_app n2) in Hp. generalize dependent (n2 ++ g)%list. clear g Hk Hlog. intros g Hp.
  eapply sound_weaken; [|eapply (sound_fold _ _ (fun g' _ => log_slice g' (p0 :: pending)))]; [done| | |exact Hp].
  { intros g' new _. apply log_slice_app. }
  intros pushed slice g' s' Hin Hsl. apply chunks_spec in Hin as (i & -> & Hne).
  destruct (last (take MAX_OPS_PER_BATCH (drop i (p0 :: pending)))) as [lop|] eqn:El.
  - eapply sound_weaken; [|eapply sound_push_batch; [by apply log_slice_cut|exact El]]. intros new x a _. by apply log_slice_app.
  - apply last_None in El. by destruct (drop i (p0 :: pending)).
Qed.

Lemma sound_prune watermark g s : sound g s (steps_prune vaultId watermark) any.
Proof.
  unfold steps_prune. apply sound_catch; [|done]. eapply sound_bind.
  - unfold steps_both. eapply (sound_bind _ _ any); [|intros n1 s1 ra _; eapply (sound_bind _ _ any); [|intros n2 s2 rb _]].
    + apply sound_step. intros g' f k st r st' Hk. destruct (onRemote _ st) as [x st1] eqn:E. intros [= <- <-].
      split; [|done]. by eapply safe_list.
    + apply sound_step. intros g' f k st r st' Hk. destruct (onRemote _ st) as [x st1] eqn:E. intros [= <- <-].
      split; [|done]. by eapply safe_list.
    + eapply sound_weaken; [|apply sound_value]. instantiate (1 := any). done.
  - intros n1 s1 [ops snapshots] _. apply sound_for. intros name g' s' _.
    eapply (sound_bind _ _ any); [apply sound_step; intros; by apply safe_remove_object|]. intros n2 s2 [] _.
    apply sound_bookkeeping. intros x r x'. by apply quiet_modify.
Qed.

(** The tables of a snapshot are those its log was read with. *)
Lemma sound_tables names entities g s :
  sound g s (fold_steps (fun entities name => rows ← look_together (table_rows name); mret (entities ++ [(name, rows)])%list) entities names)
    (fun _ s' l => s' = s /\ l = (entities ++ map (fun name => (name, table_rows name s)) names)%list).
Proof.
  revert entities g s. induction names as [|e names IH]; intros entities g s; [by rewrite /= app_nil_r|].
  cbn [fold_steps map]. eapply sound_bind; [eapply sound_bind; [apply sound_look_together|]|].
  - intros new s1 rows [-> ->]. by apply (sound_ret _ (fun _ s' l => s' = s /\ l = (entities ++ [(e, table_rows e s)])%list)).
  - intros new s1 l [-> ->]. eapply sound_weaken; [|apply IH]. intros new' s2 l [-> ->]. split; [done|]. by rewrite -app_assoc.
Qed.

Lemma sound_entities g s :
  sound g s steps_entities (fun _ s' entities => s' = s /\ entities = map (fun name => (name, table_rows name s)) ENTITY_NAMES).
Proof. apply sound_tables. Qed.

(** A snapshot whose log and tables were read at one time holds writes of the fleet, none
    newer than its watermark. *)
Lemma snapshot_honest f0 k0 g s k device w n :
  at_state devices f0 k0 g d s k -> op_hlc ∘ lop_op <$> last (oplog_sorted s) = Some w ->
  honest_batch g w (snapshot_ops (mkSnapshot vaultId device w (map (fun name => (name, table_rows name s)) ENTITY_NAMES) n)).
Proof.
  intros Hk Ew.
  assert (forall op, op ∈ snapshot_ops (mkSnapshot vaultId device w (map (fun name => (name, table_rows name s)) ENTITY_NAMES) n) ->
    from g op /\ compareHlc (op_hlc op) w <= 0) as Hops.
  { intros op. unfold snapshot_ops. rewrite list_elem_of_In in_flat_map. intros (e & _ & Hin).
    rewrite ->in_map_iff in Hin. destruct Hin as (row & <- & Hrow). cbn [snap_entities] in Hrow.
    rewrite snapshot_rows -list_elem_of_In in Hrow. by eapply (row_from devices Hdash f0 k0 g d Hd). }
  split_and!.
  - destruct (last (oplog_sorted s)) as [lw|] eqn:El; [|done]. injection Ew as <-.
    by destruct (log_slice_honest g _ _ (log_slice_sorted devices Hdash f0 k0 g d Hd _ _ Hk) El) as [? _].
  - apply Forall_forall. intros op Hop. by apply Hops.
  - apply Forall_forall. intros op Hop. by apply Hops.
Qed.

Lemma honest_batch_app new g head ops : honest_batch g head ops -> honest_batch (new ++ g)%list head ops.
Proof.
  intros ((o & Ho & E) & H2 & H3). split_and!; [exists o; split; [set_solver|done]| |done].
  eapply Forall_impl; [exact H2|]. intros op. apply from_app.
Qed.

Lemma sound_maybeSnapshot vault g s : sound g s (steps_maybeSnapshot vault key vaultId) any.
Proof.
  unfold steps_maybeSnapshot. past sound_look. past sound_look. destruct (_ <? _)%nat; [done|].
  eapply sound_bind; [apply sound_look|]. intros n1 s' operations [-> (f0 & k0 & k & Hk)].
  destruct (op_hlc ∘ lop_op <$> last (oplog_sorted s')) as [w|] eqn:Ew; [|done].
  destruct (negb (truthy w)); [done|].
  pose proof (fun device n => snapshot_honest f0 k0 _ s' k device w n Hk Ew) as Hh.
  generalize dependent (n1 ++ new0 ++ new ++ g)%list. clear g n1 new new0. intros g Hk Hh.
  eapply sound_bind; [apply sound_entities|]. intros n2 s2 entities [-> ->].
  eapply sound_bind; [apply sound_value|]. intros n3 s3 device [-> _].
  eapply sound_bind; [apply sound_draw|]. intros n4 s4 n _.
  eapply sound_bind; [apply sound_value|]. intros n5 s5 sealed [-> Hsealed].
  eapply (sound_bind _ _ any).
  { apply sound_put. intros h v Hopen Hv. rewrite (openJson_sealJson _ _ _ _ _ Hsealed) in Hopen.
    injection Hopen as <- <-. split; [by rewrite snapshot_not_ops|]. intros _. eexists. split; [done|].
    do 4 apply honest_batch_app. apply Hh. }
  intros n6 s6 [] _. past sound_record. past sound_bookkeeping; [|apply sound_prune].
  intros x r x'. by apply quiet_modify.
Qed.

(** ** A cycle *)

Lemma sound_cycle vault target override g s :
  vs_key vault = Some key -> vs_vaultId vault = Some vaultId ->
  sound g s (steps_cycle vault target override) any.
Proof.
  intros Hkey Hv. unfold steps_cycle. past sound_value.
  eapply sound_bind; [apply sound_value|]. intros n1 s1 key' [-> Ek].
  assert (key' = key) as -> by (revert Ek; unfold requireKey; rewrite Hkey; congruence).
  eapply sound_bind; [apply sound_value|]. intros n2 s2 v [-> Ev].
  assert (v = vaultId) as -> by (revert Ev; unfold requireVaultId; rewrite Hv; destruct (truthy vaultId); congruence).
  eapply (sound_bind _ _ any); [apply sound_pull|intros ? ? pulled _].
  eapply (sound_bind _ _ any); [apply sound_push|intros ? ? pushed _].
  eapply (sound_bind _ _ any); [apply sound_maybeSnapshot|intros ? ? [] _].
  eapply (sound_bind _ _ any); [apply sound_step; intros; by apply safe_flush|intros ? ? [] _].
  eapply (sound_bind _ _ any).
  - apply sound_step. intros g' f0 k0. eapply safe_bind; [apply safe_app_quiet; [done|]; intros x r x' [= _ <-]; right; right; by split_and!|].
    intros now _. eapply safe_bind; [apply safe_app_quiet; [done|]; intros x r x'; by apply quiet_modify|]. intros [] _. by apply safe_ret.
  - intros ? ? now _. past sound_look. apply sound_patch.
Qed.

Lemma sound_cycle_failed e g s : sound g s (steps_cycle_failed e) any.
Proof. destruct e; cbn [steps_cycle_failed]; first [apply sound_patch | past sound_look; apply sound_patch]. Qed.

Lemma sound_runCycle vault target override g s :
  vs_key vault = Some key -> vs_vaultId vault = Some vaultId ->
  sound g s (steps_runCycle vault target override) any.
Proof.
  intros Hkey Hv.
  assert (forall g s, sound g s (atomic (st ← getS; mret (status st))) any) as Hstatus.
  { intros g' s'. apply sound_step. intros g0 f0 k0. apply safe_same_world. by intros st r st' [= _ <-]. }
  unfold steps_runCycle. destruct (negb (vs_unlocked vault)).
  - eapply (sound_bind _ _ any); [apply sound_patch|]. intros ? ? [] _. apply Hstatus.
  - eapply (sound_bind _ _ any); [apply sound_patch|]. intros ? ? [] _.
    eapply (sound_bind _ _ any); [apply sound_catch; [by apply sound_cycle|intros; apply sound_cycle_failed]|]. intros ? ? [] _.
    apply Hstatus.
Qed.
End Sound.

(** Later, and with more authored. *)
Lemma sound_later {R Bytes Key : Type} `{!SyncAdapter R Bytes} `{!AdapterLaws R Bytes} `{!Sealing Key Bytes}
    devices d (key : Key) vaultId {A} (p : Steps (Engine R) A) new g s s' :
  s' = s \/ match p with Act true _ => False | _ => True end ->
  sound devices d key vaultId g s p any -> sound devices d key vaultId (new ++ g)%list s' p any.
Proof.
  intros Hs. destruct p as [[a|e]|t step]; [done|done|]. cbn [sound]. intros H new' f k st Ht Hk.
  rewrite app_assoc in Hk |- *. apply H; [|done]. intros ->. destruct Hs as [->|[]]. by apply Ht.
Qed.

Section Worlds.
Context {R Bytes Key : Type} `{!SyncAdapter R Bytes} `{!AdapterLaws R Bytes} `{!Sealing Key Bytes}.
Context (devices : list string) (Hdash : forall d, d ∈ devices -> no_dash d = true) (key : Key) (vaultId : string).

(** The fleet, the destination and every cycle in flight are sound. *)
Record world_inv (w : World R) (k : string -> list Operation) (g : list Operation) : Prop := {
  wi_fleet : fleet devices (w_app w) k g;
  wi_honest : honest g key vaultId (contents (w_remote w));
  wi_running : forall d p, d ∈ devices -> w_running w d = Some p -> sound devices d key vaultId g (w_app w d) p any }.

Lemma calm_later (w : World R) d d' p :
  calm w d = true -> w_running w d' = Some p -> (d' = d -> match p with Act true _ => False | _ => True end).
Proof. unfold calm. intros Hc Hp ->. rewrite Hp in Hc. by destruct p as [|[] ?]. Qed.

Lemma world_edit w k g d s' k' new :
  world_inv w k g -> calm w d = true -> fleet devices (upd (w_app w) d s') k' (new ++ g)%list ->
  honest (new ++ g)%list key vaultId (contents (w_remote w)) ->
  world_inv (set_app d s' w) k' (new ++ g)%list.
Proof.
  intros [H1 H2 H3] Hc Hf Hh. split; [done..|]. intros d' p Hd' Hp. cbn [set_app w_app w_running] in *.
  eapply sound_later; [|by apply H3]. unfold upd. destruct (String.eqb_spec d' d) as [E|]; [right|by left].
  by eapply calm_later.
Qed.

Lemma world_program w k g d p :
  world_inv w k g -> (forall q, p = Some q -> d ∈ devices -> sound devices d key vaultId g (w_app w d) q any) ->
  world_inv (set_running d p w) k g.
Proof.
  intros [H1 H2 H3] Hp. split; [done..|]. intros d' q Hd'. cbn [set_running w_running w_app]. unfold upd.
  destruct (String.eqb_spec d' d) as [->|]; intros E; [by apply Hp|by apply H3].
Qed.

Lemma world_advance w k g d :
  world_inv w k g -> d ∈ devices -> exists k', world_inv (advance d w) k' g.
Proof.
  intros Hw Hd. unfold advance. destruct (w_running w d) as [[r|t step]|] eqn:E.
  - exists k. by apply world_program.
  - pose proof (wi_running _ _ _ Hw d _ Hd E) as Hs. cbn [sound] in Hs.
    destruct (Hs [] (w_app w) k (engine_of w d)) as [[(k' & Hk') Hh] Hs'].
    { done. }
    { split; [|apply Hw]. exists (k d). eapply fl_ext; [apply Hw| |]; intros d'; unfold upd, engine_of; cbn;
        by destruct (String.eqb_spec d' d) as [->|]. }
    destruct (step (engine_of w d)) as [p st]. cbn [app fst snd] in *. exists (upd k d k'). split; [done..|].
    intros d' q Hd'. cbn [w_running w_app]. unfold upd. destruct (String.eqb_spec d' d) as [->|]; [by intros [= <-]|by apply Hw].
  - by exists k.
Qed.

Lemma new_world_inv w : new_world devices w -> world_inv w (fun _ => []) [].
Proof.
  intros (Hfresh & Hr & Hrun). split; [by apply fl_init| |].
  - intros name b. by rewrite Hr lookup_empty.
  - intros d p _. by rewrite Hrun.
Qed.

Lemma world_step_inv w g w' g' k :
  world_inv w k g -> world_step devices key vaultId w g w' g' -> exists k', world_inv w' k' g'.
Proof.
  intros IH Hs. destruct Hs as [w g d e v v' s' Hd Hc E|w g d e id s' Hd Hc E|w g d s' Hd Hc Hq _|w g d vault target override Hd Hkey Hv|w g d Hd|w g d Hd].
  - eexists. eapply (world_edit w k g d s' _ [_]); [done..| |].
    + eapply fl_put; [apply IH|done|exact E].
    + apply honest_mono, IH.
  - eexists. eapply (world_edit w k g d s' _ [_]); [done..| |].
    + eapply fl_remove; [apply IH|done|exact E].
    + apply honest_mono, IH.
  - exists k. eapply (world_edit w k g d s' _ []); [done..| |apply IH]. eapply fl_quiet; [apply IH|done|exact Hq].
  - exists k. unfold call_sync. destruct (w_running w d); [done|]. apply world_program; [done|].
    intros q [= <-] _. by apply sound_runCycle.
  - by apply (world_advance w k g d).
  - exists k. by apply world_program.
Qed.

Lemma interleaved_inv w g : interleaved devices key vaultId w g -> exists k, world_inv w k g.
Proof.
  induction 1 as [w Hw|w g w' g' _ [k IH] Hs]; [eexists; by apply new_world_inv|by eapply world_step_inv].
Qed.
End Worlds.

(** * Properties *)

(** C2: Synchronisation is safe under any interleaving.  Let the devices of a vault share a
    destination, edit while their cycles are in flight, have several cycles in flight at
    once, fail at any call and be closed in the middle of a cycle: as long as no edit
    falls between the reads of a snapshot, their ledgers are a run of the fleet of
    replicated ledgers and what is at the destination is honest. *)
Theorem interleaved_cycles_refine_the_fleet {R Bytes Key : Type} `{!SyncAdapter R Bytes} `{!AdapterLaws R Bytes} `{!Sealing Key Bytes}
    devices (key : Key) vaultId (w : World R) g :
  (forall d, d ∈ devices -> no_dash d = true) -> interleaved devices key vaultId w g ->
  exists k, fleet devices (w_app w) k g /\ honest g key vaultId (contents (w_remote w)).
Proof. intros Hdash (k & Hw)%interleaved_inv; [|done]. exists k. by destruct Hw. Qed.
