(* ===== verification/Delivery.v ===== *)
(** What is marked as sent was sent, under any interleaving.  The runs of [Interleaving]
    are watched: what the destination held at each moment is kept, and an operation a
    device has marked as sent is in an object the destination has held. *)
From S2P Require Export Interleaving.
#[local] Open Scope string_scope.
#[local] Open Scope Z_scope.

(** * Definitions *)

Section Watched.
Context {R Bytes Key : Type} `{!SyncAdapter R Bytes} `{!AdapterLaws R Bytes} `{!Sealing Key Bytes}.
Context (devices : list string) (key : Key) (vaultId : string).

(** What the destination has held, moment by moment. *)
Definition Seen : Type := list (gmap string Bytes).

Inductive watched : Seen -> World R -> list Operation -> Prop :=
| wt_new : forall w, new_world devices w -> watched [contents (w_remote w)] w []
| wt_next : forall seen w g w' g', watched seen w g -> world_step devices key vaultId w g w' g' ->
    watched (contents (w_remote w') :: seen) w' g'.

(** An object of the vault that says operation [o], in a batch or as a row of a snapshot. *)
Definition carries (name : string) (b : Bytes) (o : Operation) : Prop :=
  exists header value, openJson key b = Ok (header, value) /\ hdr_v header = vaultId
  /\ (startsWith name (opsPrefix vaultId) = true /\ (exists batch, value = PBatch batch /\ o ∈ batch_ops batch)
      \/ startsWith name (snapshotPrefix vaultId) = true /\ (exists snap, value = PSnapshot snap /\ o ∈ snapshot_ops snap)).

(** The destination has held an object that carries [o]. *)
Definition delivered (seen : Seen) (o : Operation) : Prop :=
  exists c name b, c ∈ seen /\ c !! name = Some b /\ carries name b o.
End Watched.

(** * Lemmas *)

(** ** The log *)

Lemma on_clock_log {A} (f : Z -> M HybridLogicalClock A) s r s' : on_clock f s = (r, s') -> oplog s' = oplog s.
Proof.
  unfold on_clock, requireClock, mbind, M_bind, Date_now, stepM.
  destruct (clock s); [|by intros [= _ <-]]. cbn. destruct (f _ _) as [r' c']. by intros [= _ <-].
Qed.

Lemma observeStamps_log heads s r s' : observeStamps heads s = (r, s') -> oplog s' = oplog s.
Proof.
  unfold observeStamps, mbind at 1, M_bind at 1, requireClock. destruct (clock s); [|by intros [= _ <-]].
  revert s. induction heads as [|hd heads IH]; intros s; cbn [forM_]; [by intros [= _ <-]|].
  unfold mbind at 1, M_bind at 1. destruct ((_ ← on_clock (observe hd); mret tt) s) as [[[]|x] s1] eqn:E.
  - intros H. rewrite (IH s1 H). revert E. unfold mbind, M_bind. destruct (on_clock (observe hd) s) as [[?|?] s2] eqn:E2; [|done].
    intros [= <-]. by eapply on_clock_log.
  - intros [= _ <-]. revert E. unfold mbind, M_bind. destruct (on_clock (observe hd) s) as [[?|?] s2] eqn:E2; [done|].
    intros [= _ <-]. by eapply on_clock_log.
Qed.

Lemma put_log e v s v' s' : put e v s = (Ok v', s') ->
  exists op, oplog s' = <[op_hlc op := mkLocalOp op false]> (oplog s).
Proof.
  unfold put, mbind, M_bind, requireClock. destruct (clock s) as [c|]; [|done].
  destruct (on_clock tick s) as [[hlc|x] s1] eqn:E; [|done]. cbn. intros [= _ <-]. eexists (mkOp hlc e _ Put _ _).
  unfold persistClock. rewrite -(on_clock_log _ _ _ _ E). by repeat case_match.
Qed.

Lemma remove_log e id s s' : remove e id s = (Ok tt, s') ->
  exists op, oplog s' = <[op_hlc op := mkLocalOp op false]> (oplog s).
Proof.
  unfold remove, mbind, M_bind, requireClock. destruct (clock s) as [c|]; [|done].
  destruct (on_clock tick s) as [[hlc|x] s1] eqn:E; [|done]. cbn. intros [= <-]. eexists (mkOp hlc e id Delete _ _).
  unfold persistClock. rewrite -(on_clock_log _ _ _ _ E). by repeat case_match.
Qed.

(** What a merge adds to the log is among what it is given. *)
Lemma merge_op_log op s k lop :
  oplog (fst (merge_op s op)) !! k = Some lop -> oplog s !! k = Some lop \/ (k = op_hlc op /\ lop = mkLocalOp op true).
Proof.
  unfold merge_op. repeat case_match; cbn; try by left.
  all: intros [[<- <-]|[_ H']]%lookup_insert_Some; [by right|by left].
Qed.

Lemma merge_loop_log ops : forall s k lop,
  oplog (fst (merge_loop s ops)) !! k = Some lop ->
  oplog s !! k = Some lop \/ exists op, op ∈ ops /\ k = op_hlc op /\ lop = mkLocalOp op true.
Proof.
  induction ops as [|op ops IH]; intros s k lop; [by left|]. cbn [merge_loop].
  pose proof (merge_op_log op s k lop) as H1. destruct (merge_op s op) as [s1 a]. cbn [fst] in H1. specialize (IH s1 k lop).
  destruct (merge_loop s1 ops) as [s2 n]. cbn [fst] in *. set_solver.
Qed.

Lemma merge_log ops s r s' k lop :
  merge ops s = (r, s') -> oplog s' !! k = Some lop ->
  oplog s !! k = Some lop \/ exists op, op ∈ ops /\ k = op_hlc op /\ lop = mkLocalOp op true.
Proof.
  unfold merge. destruct ops as [|o ops]; [intros [= _ <-]; by left|].
  unfold mbind, M_bind, requireClock, stepM. destruct (clock s) eqn:Hc; [|intros [= _ <-]; by left].
  cbn zeta. set (ordered := js_sort _ _). pose proof (merge_loop_log ordered s k lop) as H.
  assert (forall op, op ∈ ordered -> op ∈ o :: ops) as Hin by (intros op; by rewrite elem_of_js_sort).
  destruct (merge_loop s ordered) as [s2 n]. cbn [fst] in H. intros [= _ <-].
  assert (oplog (persistClock s2) = oplog s2) as -> by (unfold persistClock; by case_match). naive_solver.
Qed.

Lemma markSynced_log stamps : forall s k lop,
  oplog (markSynced stamps s) !! k = Some lop -> lop_synced lop = true -> oplog s !! k = Some lop \/ k ∈ stamps.
Proof.
  induction stamps as [|h stamps IH]; intros s k lop; [by left|]. cbn [markSynced fold_left]. intros H Hs.
  destruct (IH _ k lop H Hs) as [Hk|Hk]; [|right; by constructor]. cbn in Hk.
  destruct (decide (h = k)) as [->|Hne]; [right; constructor|]. rewrite lookup_alter_ne in Hk; [by left|done].
Qed.

(** ** Steps that mark only what was delivered *)

Section Delivers.
Context {R Bytes Key : Type} `{!SyncAdapter R Bytes} `{!AdapterLaws R Bytes} `{!Sealing Key Bytes}.
Context (key : Key) (vaultId : string).
Notation Seen := (Seen (Bytes := Bytes)).
Notation delivered := (delivered key vaultId).

(** An operation of that stamp was delivered. *)
Definition held (seen : Seen) (stamp : string) : Prop := exists o, delivered seen o /\ op_hlc o = stamp.
Definition held_object (seen : Seen) (name : string) (b : Bytes) : Prop := exists c, c ∈ seen /\ c !! name = Some b.

(** Whatever the log has as sent was delivered. *)
Definition sent_ok (seen : Seen) (s : App) : Prop :=
  forall stamp lop, oplog s !! stamp = Some lop -> lop_synced lop = true -> held seen stamp.

Lemma held_mono more seen stamp : held seen stamp -> held (more ++ seen)%list stamp.
Proof. intros (o & (c & name & b & Hc & H) & E). exists o. split; [|done]. exists c, name, b. split; [set_solver|done]. Qed.
Lemma held_all_mono more seen stamps : Forall (held seen) stamps -> Forall (held (more ++ seen)%list) stamps.
Proof. intros H. eapply Forall_impl; [exact H|]. intros stamp. apply held_mono. Qed.
Lemma held_object_mono more seen name b : held_object seen name b -> held_object (more ++ seen)%list name b.
Proof. intros (c & Hc & E). exists c. split; [set_solver|done]. Qed.
Lemma sent_ok_mono more seen s : sent_ok seen s -> sent_ok (more ++ seen)%list s.
Proof. intros H stamp lop Hl Hs. by apply held_mono, (H _ lop). Qed.
Lemma sent_ok_log seen s s' : oplog s' = oplog s -> sent_ok seen s -> sent_ok seen s'.
Proof. unfold sent_ok. by intros ->. Qed.

Lemma sent_ok_new seen s s' op :
  oplog s' = <[op_hlc op := mkLocalOp op false]> (oplog s) -> sent_ok seen s -> sent_ok seen s'.
Proof. intros E H stamp lop. rewrite E. intros [[_ <-]|[_ Hl]]%lookup_insert_Some Hs; [done|by apply (H _ lop)]. Qed.

(** Each step of the program marks only what the destination has held by then. *)
Fixpoint delivers {A} (seen : Seen) (p : Steps (Engine R) A) (Q : Seen -> A -> Prop) {struct p} : Prop :=
  match p with
  | Done (Ok a) => Q seen a
  | Done (Throw _) => True
  | Act _ step => forall more st,
      contents (remote st) ∈ (more ++ seen)%list -> sent_ok (more ++ seen)%list (app st) ->
      let st' := snd (step st) in
      let seen' := (contents (remote st') :: more ++ seen)%list in
      sent_ok seen' (app st') /\ delivers seen' (fst (step st)) Q
  end.

Definition anything {A} : Seen -> A -> Prop := fun _ _ => True.

Lemma delivers_weaken {A} (p : Steps (Engine R) A) (Q Q' : Seen -> A -> Prop) seen :
  (forall more a, Q (more ++ seen)%list a -> Q' (more ++ seen)%list a) -> delivers seen p Q -> delivers seen p Q'.
Proof.
  revert seen. induction p as [[a|e]|t step IH] using Steps_step_ind; intros seen HQ; cbn [delivers]; [apply (HQ [])|done|].
  intros H more st Hc Hs. destruct (H more st Hc Hs) as [Hs' Hd]. split; [done|].
  eapply (IH st _ (snd (step st))); [by destruct (step st)| |exact Hd].
  intros more' a. change (contents (remote (snd (step st))) :: more ++ seen)%list with ((contents (remote (snd (step st))) :: more) ++ seen)%list.
  rewrite app_assoc. apply HQ.
Qed.

Lemma delivers_bind {A B} (p : Steps (Engine R) A) (f : A -> Steps (Engine R) B) P Q seen :
  delivers seen p P -> (forall more a, P (more ++ seen)%list a -> delivers (more ++ seen)%list (f a) Q) ->
  delivers seen (mbind f p) Q.
Proof.
  revert seen. induction p as [[a|e]|t step IH] using Steps_step_ind; intros seen; cbn [delivers]; [|done|].
  - intros H Hf. by apply (Hf []).
  - intros H Hf. cbn [mbind Steps_bind steps_bind delivers]. intros more st Hc Hs.
    destruct (H more st Hc Hs) as [Hs' Hd]. destruct (step st) as [p' st'] eqn:E. cbn [fst snd] in *. split; [done|].
    apply (IH st p' st' E); [done|]. intros more' a.
    change (contents (remote st') :: more ++ seen)%list with ((contents (remote st') :: more) ++ seen)%list. rewrite app_assoc. apply Hf.
Qed.

Lemma delivers_catch {A} (p : Steps (Engine R) A) handler Q seen :
  delivers seen p Q -> (forall more e, delivers (more ++ seen)%list (handler e) Q) -> delivers seen (catch_steps p handler) Q.
Proof.
  revert seen. induction p as [[a|e]|t step IH] using Steps_step_ind; intros seen; cbn [delivers catch_steps]; [done| |].
  - intros _ Hh. by apply (Hh []).
  - intros H Hh more st Hc Hs. destruct (H more st Hc Hs) as [Hs' Hd].
    destruct (step st) as [p' st'] eqn:E. cbn [fst snd] in *. split; [done|].
    apply (IH st p' st' E); [done|]. intros more' e.
    change (contents (remote st') :: more ++ seen)%list with ((contents (remote st') :: more) ++ seen)%list. rewrite app_assoc. apply Hh.
Qed.

Lemma delivers_value {A} (r : result A) seen : delivers seen (sync_value r) (fun _ a => r = Ok a).
Proof. by destruct r. Qed.

Lemma delivers_atomic {A} (m : M (Engine R) A) (P : Seen -> A -> Prop) seen :
  (forall more st r st', contents (remote st) ∈ (more ++ seen)%list -> sent_ok (more ++ seen)%list (app st) -> m st = (r, st') ->
     let seen' := (contents (remote st') :: more ++ seen)%list in
     sent_ok seen' (app st') /\ forall a, r = Ok a -> P seen' a) ->
  delivers seen (atomic m) P.
Proof.
  intros Hm more st Hc Hs. destruct (m st) as [r st'] eqn:E. destruct (Hm more st r st' Hc Hs E) as [Hs' HP].
  split; [done|]. destruct r; [by apply HP|done].
Qed.

(** A call that leaves the log alone. *)
Lemma delivers_silent {A} (m : M (Engine R) A) seen :
  (forall st r st', m st = (r, st') -> oplog (app st') = oplog (app st)) -> delivers seen (atomic m) anything.
Proof.
  intros Hm. apply delivers_atomic. intros more st r st' _ Hs E. split; [|done].
  eapply sent_ok_log; [by eapply Hm|]. by apply (sent_ok_mono [_]).
Qed.

Lemma onRemote_log {A} (f : R -> result A * R) (st : Engine R) r st' : onRemote f st = (r, st') -> app st' = app st.
Proof. unfold onRemote. destruct (f (remote st)) as [r' w]. by intros [= _ <-]. Qed.

Lemma delivers_remote {A} (f : R -> result A * R) seen : delivers seen (atomic (onRemote f)) anything.
Proof. apply delivers_silent. intros st r st' E. by rewrite (onRemote_log _ _ _ _ E). Qed.

Lemma delivers_app {A} (m : M App A) seen :
  (forall s r s', m s = (r, s') -> oplog s' = oplog s) -> delivers seen (atomic (onApp m)) anything.
Proof.
  intros Hm. apply delivers_silent. intros st r st'. unfold onApp. destruct (m (app st)) as [r' s'] eqn:E. intros [= _ <-].
  by apply Hm in E.
Qed.

Lemma delivers_look {A} (f : App -> A) seen : delivers seen (look (R := R) f) anything.
Proof. apply delivers_silent. by intros st r st' [= _ <-]. Qed.
Lemma delivers_patch f seen : delivers seen (atomic (patch (R := R) f)) anything.
Proof. apply delivers_silent. by intros st r st' [= _ <-]. Qed.
Lemma delivers_draw seen : delivers seen (atomic (draw (R := R))) anything.
Proof. apply delivers_silent. by intros st r st' [= _ <-]. Qed.

Lemma delivers_record names seen : delivers seen (atomic (record_applied (R := R) names)) anything.
Proof.
  apply delivers_silent. unfold record_applied. induction names as [|n names IH]; intros st r st'; cbn [forM_]; [by intros [= _ <-]|].
  unfold mbind, M_bind. cbn. intros E. by rewrite (IH _ _ _ E).
Qed.

(** ** The calls that matter *)

Lemma delivers_list p seen :
  delivers seen (atomic (onRemote (adapter_list p))) (fun _ names => Forall (fun n => startsWith n p = true) names).
Proof.
  apply delivers_atomic. intros more st r st' _ Hs E. split.
  - eapply sent_ok_log; [by rewrite (onRemote_log _ _ _ _ E)|by apply (sent_ok_mono [_])].
  - intros names ->. unfold onRemote in E. destruct (adapter_list p (remote st)) as [x w] eqn:El. injection E as -> <-.
    apply Forall_forall. intros n Hn. by apply (list_complete _ _ _ _ _ El) in Hn as [? _].
Qed.

Lemma delivers_get name seen : delivers seen (atomic (onRemote (adapter_get name))) (fun seen b => held_object seen name b).
Proof.
  apply delivers_atomic. intros more st r st' Hc Hs E. split.
  - eapply sent_ok_log; [by rewrite (onRemote_log _ _ _ _ E)|by apply (sent_ok_mono [_])].
  - intros b ->. unfold onRemote in E. destruct (adapter_get name (remote st)) as [x w] eqn:El. injection E as -> <-.
    exists (contents (remote st)). split; [by constructor|]. by eapply get_returns.
Qed.

Lemma delivers_put name b seen : delivers seen (atomic (onRemote (adapter_put name b))) (fun seen _ => held_object seen name b).
Proof.
  apply delivers_atomic. intros more st r st' Hc Hs E. split.
  - eapply sent_ok_log; [by rewrite (onRemote_log _ _ _ _ E)|by apply (sent_ok_mono [_])].
  - intros [] ->. unfold onRemote in E. destruct (adapter_put name b (remote st)) as [x w] eqn:El. injection E as -> <-.
    exists (contents w). split; [constructor|]. rewrite (put_stores _ _ _ _ El). apply lookup_insert_eq.
Qed.

Lemma delivers_receive heads ops seen : Forall (held seen) (map op_hlc ops) -> delivers seen (receive (R := R) heads ops) anything.
Proof.
  intros Hops. apply delivers_atomic. intros more st r st' _ Hs E. split; [|done]. revert E.
  unfold mbind, M_bind, onApp. destruct (observeStamps heads (app st)) as [[[]|e] s1] eqn:Eo; cbn; apply observeStamps_log in Eo.
  - destruct (merge ops s1) as [[n|e] s2] eqn:Em; cbn; intros [= _ <-]; cbn; intros stamp lop Hl Hsync.
    all: destruct (merge_log _ _ _ _ _ _ Em Hl) as [Hl'|(op & Hin & -> & _)];
      [rewrite Eo in Hl'; by apply (held_mono [_]), (Hs _ lop)|].
    all: apply (held_mono [_]), held_mono; rewrite ->Forall_forall in Hops; apply Hops, list_elem_of_fmap; by exists op.
  - intros [= _ <-]. eapply sent_ok_log; [exact Eo|by apply (sent_ok_mono [_])].
Qed.

Lemma delivers_mark stamps seen : Forall (held seen) stamps -> delivers seen (atomic (onApp (R := R) (modifyS (markSynced stamps)))) anything.
Proof.
  intros Hst. apply delivers_atomic. intros more st r st' _ Hs [= _ <-]. split; [|done]. cbn. intros stamp lop Hl Hsync.
  apply (held_mono [_]). destruct (markSynced_log _ _ _ _ Hl Hsync) as [Hk|Hk]; [by apply (Hs _ lop)|].
  rewrite ->Forall_forall in Hst. by apply held_mono, Hst.
Qed.

(** ** The functions of the service *)

Lemma batch_held seen name b header value ops :
  held_object seen name b -> openJson key b = Ok (header, value) -> hdr_v header = vaultId ->
  startsWith name (opsPrefix vaultId) = true -> payload_ops value = Ok ops -> Forall (held seen) (map op_hlc ops).
Proof.
  intros (c & Hc & Hb) Ho Hv Hn Hp. destruct value as [batch| |]; [|done..]. injection Hp as <-.
  apply Forall_forall. intros stamp (o & -> & Hin)%list_elem_of_fmap. exists o. split; [|done]. exists c, name, b. split_and!; [done..|].
  exists header, (PBatch batch). split_and!; [done..|]. left. split; [done|]. by exists batch.
Qed.

Lemma snapshot_held seen name b header value snap :
  held_object seen name b -> openJson key b = Ok (header, value) -> hdr_v header = vaultId ->
  startsWith name (snapshotPrefix vaultId) = true -> payload_snapshot value = Ok snap ->
  Forall (held seen) (map op_hlc (snapshot_ops snap)).
Proof.
  intros (c & Hc & Hb) Ho Hv Hn Hp. destruct value as [|snapshot|]; [done| |done]. injection Hp as <-.
  apply Forall_forall. intros stamp (o & -> & Hin)%list_elem_of_fmap. exists o. split; [|done]. exists c, name, b. split_and!; [done..|].
  exists header, (PSnapshot snapshot). split_and!; [done..|]. right. split; [done|]. by exists snapshot.
Qed.

Lemma delivers_fold {A B} (xs : list A) (f : B -> A -> Steps (Engine R) B) (P : Seen -> B -> Prop) :
  (forall more seen b, P seen b -> P (more ++ seen)%list b) ->
  (forall b x seen, x ∈ xs -> P seen b -> delivers seen (f b x) P) ->
  forall b seen, P seen b -> delivers seen (fold_steps f b xs) P.
Proof.
  intros Hmono. induction xs as [|x xs IH]; intros Hf b seen Hb; [done|]. cbn [fold_steps].
  eapply delivers_bind; [apply Hf; [constructor|exact Hb]|]. intros more b' Hb'.
  apply IH; [|done]. intros c y seen' Hy. apply Hf. by constructor.
Qed.

Lemma delivers_for {A} (xs : list A) (f : A -> Steps (Engine R) unit) :
  (forall x seen, delivers seen (f x) anything) -> forall seen, delivers seen (for_steps xs f) anything.
Proof.
  intros Hf. induction xs as [|x xs IH]; intros seen; [done|]. cbn [for_steps].
  eapply delivers_bind; [apply Hf|]. intros more [] _. apply IH.
Qed.

(** Go on past a step of which nothing is kept. *)
Tactic Notation "skip" uconstr(L) := eapply delivers_bind; [apply L|intros ? ? _].

Lemma delivers_pull_object vault acc name seen :
  startsWith name (opsPrefix vaultId) = true -> Forall (held seen) (map op_hlc acc.1.1) ->
  delivers seen (steps_pull_object vault key vaultId acc name) (fun seen acc => Forall (held seen) (map op_hlc acc.1.1)).
Proof.
  intros Hn Hacc. destruct acc as [[ops applied] heads]. unfold steps_pull_object. cbn [fst] in Hacc.
  eapply delivers_bind; [apply delivers_get|]. intros m1 b Hb. apply (held_all_mono m1) in Hacc.
  eapply delivers_bind; [apply delivers_value|]. intros m2 [h v] Ho.
  apply (held_object_mono m2) in Hb. apply (held_all_mono m2) in Hacc.
  destruct (String.eqb_spec (hdr_v h) vaultId) as [Hv|]; cbn [negb]; [|exact Hacc].
  eapply delivers_bind; [apply delivers_value|]. intros m3 device _. apply (held_object_mono m3) in Hb. apply (held_all_mono m3) in Hacc.
  destruct (String.eqb (hdr_d h) device); [exact Hacc|].
  eapply delivers_bind; [apply delivers_value|]. intros m4 more Hm. apply (held_object_mono m4) in Hb. apply (held_all_mono m4) in Hacc.
  cbn. rewrite map_app. apply Forall_app. split; [exact Hacc|by eapply batch_held].
Qed.

Lemma delivers_applySnapshot known seen : delivers seen (steps_applySnapshot key vaultId known) anything.
Proof.
  unfold steps_applySnapshot. eapply delivers_bind; [apply delivers_list|]. intros m1 names Hnames. cbv beta in Hnames.
  destruct (last names) as [newest|] eqn:El; [|done]. case_bool_decide; [done|].
  eapply delivers_bind; [apply delivers_get|]. intros m2 b Hb.
  eapply delivers_bind; [apply delivers_value|]. intros m3 [h v] Ho. apply (held_object_mono m3) in Hb.
  destruct (String.eqb_spec (hdr_v h) vaultId) as [Hv|]; cbn [negb]; [|done].
  eapply delivers_bind; [apply delivers_value|]. intros m4 snap Hp. apply (held_object_mono m4) in Hb.
  skip delivers_receive.
  { eapply snapshot_held; [exact Hb|done|done| |done]. apply last_Some_elem_of in El. rewrite ->Forall_forall in Hnames. by apply Hnames. }
  skip delivers_record. skip delivers_app; [by intros s r s' [= _ <-]|done].
Qed.

Lemma delivers_pull vault seen : delivers seen (steps_pull vault key vaultId) anything.
Proof.
  unfold steps_pull. skip delivers_look. eapply delivers_bind; [apply delivers_applySnapshot|]. intros m1 [watermark known] _.
  eapply delivers_bind; [apply delivers_list|]. intros m2 names Hnames. cbv beta in Hnames. skip delivers_record.
  set (fresh := List.filter _ (List.filter _ names)).
  assert (forall n, n ∈ fresh -> startsWith n (opsPrefix vaultId) = true) as Hfresh.
  { intros n [[Hn _]%elem_of_filter_b _]%elem_of_filter_b. rewrite ->Forall_forall in Hnames. by apply Hnames. }
  destruct fresh as [|n0 fresh']; [done|]. eapply delivers_bind.
  - eapply (delivers_fold _ _ (fun seen acc => Forall (held seen) (map op_hlc acc.1.1))); [intros ? ? ?; apply held_all_mono| |by constructor].
    intros acc n s' Hn Hacc. apply delivers_pull_object; [by apply Hfresh|done].
  - intros m3 [[ops applied] heads] Hops. cbn [fst] in Hops. eapply delivers_bind; [by apply delivers_receive|]. intros m4 z _.
    skip delivers_record. done.
Qed.

Lemma delivers_push_batch device pushed slice seen : delivers seen (steps_push_batch key vaultId device pushed slice) anything.
Proof.
  unfold steps_push_batch. eapply delivers_bind; [apply delivers_draw|]. intros m1 n _.
  eapply delivers_bind; [apply delivers_value|]. intros m2 sealed Hsealed.
  eapply delivers_bind; [apply delivers_put|]. intros m3 [] Hb. cbv beta in Hb.
  eapply batch_held in Hb; [|exact (openJson_sealJson _ _ _ _ _ Hsealed)|reflexivity|apply SyncTarget.prefix_app|reflexivity].
  cbn [batch_ops] in Hb. rewrite map_map in Hb.
  eapply delivers_bind; [apply delivers_record|]. intros m4 [] _. apply (held_all_mono m4) in Hb.
  skip delivers_mark; [exact Hb|done].
Qed.

Lemma delivers_push vault seen : delivers seen (steps_push vault key vaultId) anything.
Proof.
  unfold steps_push. eapply delivers_bind; [apply delivers_look|]. intros m1 pending _. destruct pending as [|p0 pending]; [done|].
  skip delivers_value. apply (delivers_fold _ _ anything); [done| |done]. intros b x s' _ _. apply delivers_push_batch.
Qed.

Lemma delivers_prune watermark seen : delivers seen (steps_prune vaultId watermark) anything.
Proof.
  unfold steps_prune. apply delivers_catch; [|done]. eapply (delivers_bind _ _ anything).
  - unfold steps_both. eapply (delivers_bind _ _ anything); [|intros m1 ra _; eapply (delivers_bind _ _ anything); [|intros m2 rb _]].
    1, 2: apply delivers_silent; intros st r st'; destruct (onRemote _ st) as [x st1] eqn:E; intros [= _ <-];
      by rewrite (onRemote_log _ _ _ _ E).
    eapply delivers_weaken; [|apply delivers_value]. done.
  - intros m1 [ops snapshots] _. apply delivers_for. intros name s'. skip delivers_remote.
    apply delivers_app. by intros s r s2 [= _ <-].
Qed.

Lemma delivers_entities seen : delivers seen (steps_entities (R := R)) anything.
Proof.
  unfold steps_entities. apply (delivers_fold _ _ anything); [done| |done]. intros b x s' _ _.
  eapply (delivers_bind _ _ anything); [|done]. intros more st _ Hs. split; [by apply (sent_ok_mono [_])|done].
Qed.

Lemma delivers_maybeSnapshot vault seen : delivers seen (steps_maybeSnapshot vault key vaultId) anything.
Proof.
  unfold steps_maybeSnapshot. skip delivers_look. skip delivers_look. destruct (_ <? _)%nat; [done|].
  eapply delivers_bind; [apply delivers_look|]. intros m1 operations _. destruct (op_hlc ∘ lop_op <$> last operations) as [w|]; [|done].
  destruct (negb (truthy w)); [done|]. skip delivers_entities. skip delivers_value. skip delivers_draw. skip delivers_value.
  eapply delivers_bind; [apply delivers_put|]. intros ? ? _. skip delivers_record.
  skip delivers_app; [by intros s r s' [= _ <-]|apply delivers_prune].
Qed.

Lemma delivers_cycle vault target override seen :
  vs_key vault = Some key -> vs_vaultId vault = Some vaultId ->
  delivers seen (steps_cycle vault target override) anything.
Proof.
  intros Hkey Hv. unfold steps_cycle. skip delivers_value.
  eapply delivers_bind; [apply delivers_value|]. intros m1 key' Ek.
  assert (key' = key) as -> by (revert Ek; unfold requireKey; rewrite Hkey; congruence).
  eapply delivers_bind; [apply delivers_value|]. intros m2 v Ev.
  assert (v = vaultId) as -> by (revert Ev; unfold requireVaultId; rewrite Hv; destruct (truthy vaultId); congruence).
  skip delivers_pull. skip delivers_push. skip delivers_maybeSnapshot. skip delivers_remote.
  eapply (delivers_bind _ _ anything).
  - apply delivers_silent. intros st r st' [= _ <-]. done.
  - intros ? now _. skip delivers_look. apply delivers_patch.
Qed.

Lemma delivers_cycle_failed e seen : delivers seen (steps_cycle_failed (R := R) e) anything.
Proof. destruct e; cbn [steps_cycle_failed]; first [apply delivers_patch | skip delivers_look; apply delivers_patch]. Qed.

Lemma delivers_runCycle vault target override seen :
  vs_key vault = Some key -> vs_vaultId vault = Some vaultId ->
  delivers seen (steps_runCycle vault target override) anything.
Proof.
  intros Hkey Hv.
  assert (forall seen, delivers seen (atomic (st ← getS; mret (status st))) anything) as Hstatus.
  { intros s'. apply delivers_silent. by intros st r st' [= _ <-]. }
  unfold steps_runCycle. destruct (negb (vs_unlocked vault)).
  - skip delivers_patch. apply Hstatus.
  - skip delivers_patch.
    eapply (delivers_bind _ _ anything); [apply delivers_catch; [by apply delivers_cycle|intros; apply delivers_cycle_failed]|].
    intros ? [] _. apply Hstatus.
Qed.
End Delivers.

Lemma delivers_later {R Bytes Key : Type} `{!SyncAdapter R Bytes} `{!AdapterLaws R Bytes} `{!Sealing Key Bytes}
    (key : Key) vaultId {A} more seen (p : Steps (Engine R) A) :
  delivers key vaultId seen p anything -> delivers key vaultId (more ++ seen)%list p anything.
Proof.
  destruct p as [[a|e]|t step]; [done|done|]. cbn [delivers]. intros H more' st. rewrite app_assoc. apply H.
Qed.

(** ** Worlds *)

Section Worlds.
Context {R Bytes Key : Type} `{!SyncAdapter R Bytes} `{!AdapterLaws R Bytes} `{!Sealing Key Bytes}.
Context (devices : list string) (Hdash : forall d, d ∈ devices -> no_dash d = true) (key : Key) (vaultId : string).

Record watch_inv (seen : Seen (Bytes := Bytes)) (w : World R) (g : list Operation) : Prop := {
  wv_world : exists k, world_inv devices key vaultId w k g;
  wv_now : contents (w_remote w) ∈ seen;
  wv_honest : forall c, c ∈ seen -> honest g key vaultId c;
  wv_sent : forall d, d ∈ devices -> sent_ok key vaultId seen (w_app w d);
  wv_running : forall d p, d ∈ devices -> w_running w d = Some p -> delivers key vaultId seen p anything }.

Lemma world_step_grows w g w' g' : world_step devices key vaultId w g w' g' -> g' = g \/ exists o, g' = o :: g.
Proof. destruct 1; eauto. Qed.

(** The logs and the programs after a step, the destination having been watched. *)
Lemma world_step_sent seen w g w' g' :
  watch_inv seen w g -> world_step devices key vaultId w g w' g' ->
  let seen' := contents (w_remote w') :: seen in
  forall d, d ∈ devices -> sent_ok key vaultId seen' (w_app w' d)
    /\ forall p, w_running w' d = Some p -> delivers key vaultId seen' p anything.
Proof.
  intros Hw Hs. cbn zeta. intros d' Hd'.
  assert (forall c, sent_ok key vaultId (c :: seen) (w_app w d')
    /\ forall p, w_running w d' = Some p -> delivers key vaultId (c :: seen) p anything) as Hold.
  { intros c. split; [by apply (sent_ok_mono _ _ [_]), Hw|]. intros p Hp. apply (delivers_later _ _ [_]). by eapply Hw. }
  assert (forall d s', (exists op, oplog s' = <[op_hlc op := mkLocalOp op false]> (oplog (w_app w d))) \/ oplog s' = oplog (w_app w d) ->
    sent_ok key vaultId (contents (w_remote w) :: seen) (upd (w_app w) d s' d')) as Hedit.
  { intros d s' E. unfold upd. destruct (String.eqb_spec d' d) as [->|]; [|apply Hold].
    destruct E as [[op E]|E]; [by eapply sent_ok_new, Hold|by eapply sent_ok_log, Hold]. }
  destruct Hs as [w g d e v v' s' Hd Hc E|w g d e id s' Hd Hc E|w g d s' Hd Hc Hq E|w g d vault target override Hd Hkey Hv|w g d Hd|w g d Hd].
  - split; [apply Hedit; left; by eapply put_log|apply Hold].
  - split; [apply Hedit; left; by eapply remove_log|apply Hold].
  - split; [apply Hedit; by right|apply Hold].
  - unfold call_sync. destruct (w_running w d) eqn:Er; [apply Hold|]. split; [apply Hold|]. intros p. cbn. unfold upd.
    destruct (String.eqb_spec d' d) as [->|]; [|apply Hold]. intros [= <-]. by apply delivers_runCycle.
  - unfold advance. destruct (w_running w d) as [[r|t step]|] eqn:Er; [| |apply Hold].
    + split; [apply Hold|]. intros p. cbn. unfold upd. destruct (String.eqb_spec d' d) as [->|]; [done|apply Hold].
    + pose proof (wv_running _ _ _ Hw d _ Hd Er [] (engine_of w d) (wv_now _ _ _ Hw) (wv_sent _ _ _ Hw d Hd)) as [H1 H2].
      destruct (step (engine_of w d)) as [p st]. cbn [fst snd app] in *. split.
      * cbn [w_app w_remote]. unfold upd. destruct (String.eqb_spec d' d) as [->|]; [exact H1|apply Hold].
      * intros q. cbn [w_running w_remote]. unfold upd. destruct (String.eqb_spec d' d) as [->|]; [intros [= <-]; exact H2|apply Hold].
  - split; [apply Hold|]. intros p. cbn. unfold upd. destruct (String.eqb_spec d' d) as [->|]; [done|apply Hold].
Qed.

Lemma watched_inv seen w g : watched devices key vaultId seen w g -> watch_inv seen w g.
Proof.
  induction 1 as [w Hw|seen w g w' g' _ IH Hs].
  - split.
    + eexists. by apply new_world_inv.
    + constructor.
    + intros c ->%list_elem_of_singleton. destruct Hw as (_ & -> & _). intros name b. by rewrite lookup_empty.
    + intros d Hd stamp lop. destruct Hw as (Hf & _). destruct (Hf d Hd) as (_ & -> & _). by rewrite lookup_empty.
    + intros d p _. destruct Hw as (_ & _ & Hr). by rewrite Hr.
  - destruct (wv_world _ _ _ IH) as [k Hk]. destruct (world_step_inv devices Hdash key vaultId _ _ _ _ _ Hk Hs) as [k' Hk'].
    pose proof (world_step_sent _ _ _ _ _ IH Hs) as Hsent. split.
    + by exists k'.
    + constructor.
    + intros c [->|Hc]%elem_of_cons; [apply Hk'|]. pose proof (wv_honest _ _ _ IH c Hc) as Hh.
      destruct (world_step_grows _ _ _ _ Hs) as [->|[o ->]]; [done|by apply honest_mono].
    + intros d Hd. by apply Hsent.
    + intros d p Hd. by apply Hsent.
Qed.

(** What a device logs is of the fleet, under its own stamp. *)
Lemma logged_from w k g d stamp lop :
  world_inv devices key vaultId w k g -> d ∈ devices -> oplog (w_app w d) !! stamp = Some lop ->
  op_hlc (lop_op lop) = stamp /\ from g (lop_op lop) /\ unique_stamps g.
Proof.
  intros Hw Hd Hl. assert (at_state devices (w_app w) k g d (w_app w d) (k d)) as Hs.
  { unfold at_state. eapply fl_ext; [apply Hw| |]; intros d'; unfold upd; by destruct (String.eqb_spec d' d) as [->|]. }
  destruct (at_state_inv devices Hdash _ _ _ _ Hd _ _ Hs) as (_ & Hfrom & c & Hi & _). destruct (inv_log _ _ Hi _ _ Hl) as [E Hin].
  split_and!; [done|by apply Hfrom|]. eapply fi_unique, (fleet_invariant devices Hdash). exact Hs.
Qed.
End Worlds.

(** Every run can be watched. *)
Lemma interleaved_watched {R Bytes Key : Type} `{!SyncAdapter R Bytes} `{!AdapterLaws R Bytes} `{!Sealing Key Bytes}
    devices (key : Key) vaultId (w : World R) g :
  interleaved devices key vaultId w g -> exists seen, watched devices key vaultId seen w g.
Proof. induction 1 as [w Hw|w g w' g' _ [seen IH] Hs]; eexists; [by apply wt_new|by eapply wt_next]. Qed.

(** * Properties *)

(** C7: Nothing is taken for sent that never left.  Take any interleaving of cycles,
    failures and closings, and of edits made while no cycle of the same device is between
    two reads that belong together, on destinations that keep what they acknowledge (the
    bundled server and the S3 bucket, but not a Git repository, which acknowledges before it
    pushes).  An operation that a device has marked as sent, or received, is then the very
    write of some object that the destination has held, a batch or a snapshot of the vault
    that opens under its key. *)
Theorem sent_operations_were_delivered {R Bytes Key : Type} `{!SyncAdapter R Bytes} `{!AdapterLaws R Bytes} `{!Sealing Key Bytes}
    devices (key : Key) vaultId seen (w : World R) g d stamp lop :
  (forall d, d ∈ devices -> no_dash d = true) -> watched devices key vaultId seen w g -> d ∈ devices ->
  oplog (w_app w d) !! stamp = Some lop -> lop_synced lop = true ->
  exists o, delivered key vaultId seen o /\ op_hlc o = op_hlc (lop_op lop) /\ same_write o (lop_op lop).
Proof.
  intros Hdash Hw%watched_inv Hd Hl Hs; [|done]. destruct (wv_world _ _ _ _ _ _ Hw) as [k Hk].
  destruct (logged_from _ Hdash _ _ _ _ _ _ _ _ Hk Hd Hl) as (<- & Hfrom & Hu).
  destruct (wv_sent _ _ _ _ _ _ Hw d Hd _ _ Hl Hs) as (o & Ho & E). exists o. split_and!; [done..|].
  assert (from g o) as Hof.
  { destruct Ho as (c & name & b & Hc & Hb & (h & v & Hopen & Hv & Hcase)). destruct (wv_honest _ _ _ _ _ _ Hw c Hc name b Hb h v Hopen Hv) as [H1 H2].
    destruct Hcase as [(Hn & batch & -> & Hin)|(Hn & snap & -> & Hin)].
    - destruct (H1 Hn) as (batch' & [= <-] & _ & Hf & _). rewrite ->Forall_forall in Hf. by apply Hf.
    - destruct (H2 Hn) as (snap' & [= <-] & _ & Hf & _). rewrite ->Forall_forall in Hf. by apply Hf. }
  apply (from_unique g [o; lop_op lop]); [done| |set_solver..|done].
  intros op [->|[->|[]%elem_of_nil]%elem_of_cons]%elem_of_cons; done.
Qed.
