(* ===== verification/Races.v ===== *)
(** What can and does happen when cycles overlap: a run of [Interleaving] at concrete
    devices, and three schedules after which the devices of a vault disagree for good
    though each is idle with nothing to send. *)
From S2P Require Import SyncDemo Delivery.
#[local] Open Scope string_scope.
#[local] Open Scope Z_scope.

#[local] Existing Instance plain_sealing.

(** * Definitions *)

Definition demo_world : World (InMemoryAdapter demo_bytes) :=
  mkWorld demo_device demo_remote (fun _ => 0%nat) (fun _ => INITIAL_STATUS) (fun _ => None).

(** An event of a schedule: a device saves a record, asks for a cycle, makes the next
    [n] calls of the one in flight, or runs it to the end. *)
Inductive Event : Type :=
| Save (d : string) (v : AnyEntity)
| Sync (d : string)
| Steps_of (n : nat) (d : string).

Definition happens (w : World (InMemoryAdapter demo_bytes)) (ev : Event) : World (InMemoryAdapter demo_bytes) :=
  match ev with
  | Save d v => set_app d (snd (put ECategories v (w_app w d))) w
  | Sync d => call_sync d (demo_vault d) (NoneTarget "") true w
  | Steps_of n d => Nat.iter n (advance d) w
  end.
Definition schedule (w : World (InMemoryAdapter demo_bytes)) (evs : list Event) := fold_left happens evs w.

(** A whole cycle: no cycle below makes as many calls. *)
Definition Whole (d : string) : list Event := [Sync d; Steps_of 60 d].

Definition category (id name : string) : AnyEntity :=
  ACategory (mkCategory id name CExpense None "#fff" "tag" false 5 "").
Definition row_of (w : World (InMemoryAdapter demo_bytes)) (d id : string) : option string :=
  match rows (w_app w d) !! (ECategories, id) with Some (ACategory c) => Some (cat_name c) | _ => None end.
(** Idle, with nothing to send and no cycle in flight. *)
Definition at_rest (w : World (InMemoryAdapter demo_bytes)) (d : string) : bool :=
  match st_state (w_status w d), st_pending (w_status w d), countPending (w_app w d), w_running w d with
  | Idle, O, O, None => true | _, _, _, _ => false end.
Definition remote_names (w : World (InMemoryAdapter demo_bytes)) : list string := map fst (map_to_list (objects (w_remote w))).

Definition busy (d : string) (n : nat) : list Event := repeat (Save d (category "c2" "Rent")) n.

(** The other device uploads while "a" is between its download and its pruning. *)
Definition pruned_meanwhile : World (InMemoryAdapter demo_bytes) :=
  schedule demo_world
    ([Save "b" (category "c1" "Food")] ++ busy "a" 200 ++ [Sync "a"; Steps_of 5 "a"] ++ Whole "b" ++ [Steps_of 60 "a"]
     ++ Whole "b" ++ Whole "a" ++ Whole "b" ++ Whole "a").

(** "b" was offline when it wrote, and uploads after "a" has written its snapshot; "c"
    joins later. *)
Definition uploaded_late : World (InMemoryAdapter demo_bytes) :=
  schedule demo_world
    ([Save "b" (category "c1" "Food")] ++ busy "a" 200 ++ Whole "a" ++ Whole "b" ++ Whole "c"
     ++ Whole "a" ++ Whole "b" ++ Whole "c").

(** "a" saves three times after its snapshot has read the log and before it reads the
    table; "b" then edits the row it received. *)
Definition edited_between_reads : World (InMemoryAdapter demo_bytes) :=
  schedule demo_world
    (busy "a" 200 ++ [Sync "a"; Steps_of 13 "a"]
     ++ [Save "a" (category "c2" "One"); Save "a" (category "c2" "Two"); Save "a" (category "c2" "Three")]
     ++ [Steps_of 60 "a"] ++ Whole "b" ++ [Save "b" (category "c2" "Mine")]
     ++ Whole "b" ++ Whole "a" ++ Whole "b" ++ Whole "a").

(** An edit in the middle of a cycle, and two cycles that overlap. *)
Definition overlapping : World (InMemoryAdapter demo_bytes) :=
  schedule demo_world
    ([Save "a" (category "c1" "Food"); Save "b" (category "c2" "Rent"); Sync "a"; Steps_of 6 "a"; Sync "b"; Steps_of 4 "b";
      Save "a" (category "c1" "Groceries"); Steps_of 60 "a"; Steps_of 60 "b"] ++ Whole "a" ++ Whole "b" ++ Whole "a").

(** Whether the rules of [interleaved] let an event happen. *)
Definition permitted (w : World (InMemoryAdapter demo_bytes)) (ev : Event) : bool :=
  match ev with
  | Save d v => bool_decide (d ∈ demo_ids) && calm w d
      && match put ECategories v (w_app w d) with (Ok _, _) => true | _ => false end
  | Sync d | Steps_of _ d => bool_decide (d ∈ demo_ids)
  end.
Fixpoint all_permitted (w : World (InMemoryAdapter demo_bytes)) (evs : list Event) : bool :=
  match evs with [] => true | ev :: evs' => permitted w ev && all_permitted (happens w ev) evs' end.

(** * Witnesses *)

Lemma permitted_interleaved w g ev :
  interleaved demo_ids tt "v" w g -> permitted w ev = true -> exists g', interleaved demo_ids tt "v" (happens w ev) g'.
Proof.
  intros Hw. destruct ev as [d v|d|n d]; cbn [permitted happens].
  - rewrite !andb_true_iff bool_decide_eq_true. intros [[Hd Hc] Hp].
    destruct (put ECategories v (w_app w d)) as [[v'|] s'] eqn:E; [|done]. eexists. eapply iv_next; [exact Hw|by eapply ws_put].
  - rewrite bool_decide_eq_true. intros Hd. exists g. eapply iv_next; [exact Hw|by apply ws_call].
  - rewrite bool_decide_eq_true. intros Hd. exists g. induction n as [|n IH]; [done|]. cbn [Nat.iter].
    eapply iv_next; [exact IH|by apply ws_step].
Qed.

Lemma schedule_interleaved evs : forall w g,
  interleaved demo_ids tt "v" w g -> all_permitted w evs = true -> exists g', interleaved demo_ids tt "v" (schedule w evs) g'.
Proof.
  induction evs as [|ev evs IH]; intros w g Hw; cbn [all_permitted schedule fold_left]; [by exists g|].
  rewrite andb_true_iff. intros [Hp Hall]. destruct (permitted_interleaved w g ev Hw Hp) as (g' & Hw'). by apply (IH _ g').
Qed.

Lemma demo_new_world : new_world demo_ids demo_world.
Proof. split_and!; [|done..]. intros d _. by split_and!. Qed.

Lemma overlapping_interleaved : exists g, interleaved demo_ids tt "v" overlapping g.
Proof. apply (schedule_interleaved _ demo_world []); [by apply iv_new, demo_new_world|by vm_compute]. Qed.

Lemma interleaved_cycles_refine_the_fleet_witness :
  exists g k, fleet demo_ids (w_app overlapping) k g
  /\ map (fun d => (at_rest overlapping d, row_of overlapping d "c1", row_of overlapping d "c2")) demo_ids
     = [(true, Some "Groceries", Some "Rent"); (true, Some "Groceries", Some "Rent")].
Proof.
  destruct overlapping_interleaved as (g & Hw).
  destruct (interleaved_cycles_refine_the_fleet demo_ids tt "v" overlapping g demo_ids_dash Hw) as (k & Hf & _).
  exists g, k. split; [exact Hf|vm_compute; reflexivity].
Defined.

(** The second save of "a" fell into its first cycle and was sent by the next. *)
Definition sent_stamp : string := "0000000000000001000-0001-a".
Lemma overlapping_sent : lop_synced <$> oplog (w_app overlapping "a") !! sent_stamp = Some true.
Proof. vm_compute. reflexivity. Qed.

Lemma sent_operations_were_delivered_witness :
  exists seen g o, watched demo_ids tt "v" seen overlapping g /\ delivered tt "v" seen o.
Proof.
  destruct overlapping_interleaved as (g & Hw). destruct (interleaved_watched _ _ _ _ _ Hw) as (seen & Hs).
  destruct (oplog (w_app overlapping "a") !! sent_stamp) as [lop|] eqn:El.
  - assert (lop_synced lop = true) as Hl by (pose proof overlapping_sent as H; rewrite El in H; by injection H).
    destruct (sent_operations_were_delivered demo_ids tt "v" seen overlapping g "a" sent_stamp lop demo_ids_dash Hs ltac:(by left) El Hl)
      as (o & Ho & _).
    exists seen, g, o. split; [exact Hs|exact Ho].
  - exfalso. pose proof overlapping_sent as H. by rewrite El in H.
Defined.

(** * Schedules that part the devices *)

(** A batch that arrives while a cycle runs is pruned unread: only the snapshot of "a" is
    left, it lacks the row of "b", and no later cycle brings it to "a". *)
Lemma pruned_meanwhile_loses_a_batch :
  map (fun d => (at_rest pruned_meanwhile d, row_of pruned_meanwhile d "c1")) ["a"; "b"] = [(true, None); (true, Some "Food")]
  /\ forallb (fun name => startsWith name (snapshotPrefix "v")) (remote_names pruned_meanwhile) = true.
Proof.
  split; vm_compute; reflexivity.
Qed.

(** A batch uploaded after a snapshot with a later stamp is taken for covered: "c" records
    it as applied and never downloads it. *)
Lemma uploaded_late_is_never_downloaded :
  map (fun d => (at_rest uploaded_late d, row_of uploaded_late d "c1")) ["a"; "b"; "c"]
    = [(true, Some "Food"); (true, Some "Food"); (true, None)]
  /\ forallb (fun name => bool_decide (is_Some (remoteObjects (w_app uploaded_late "c") !! name))) (remote_names uploaded_late) = true.
Proof. split; vm_compute; reflexivity. Qed.

(** The condition of [interleaved] on edits is needed: the row of a snapshot is newer than
    its watermark, the clock of "b" learns only the watermark, and its next edit of the row
    is stamped below what it replaces. *)
Lemma edited_between_reads_parts_the_devices :
  map (fun d => (at_rest edited_between_reads d, row_of edited_between_reads d "c2")) ["a"; "b"]
    = [(true, Some "Three"); (true, Some "Mine")].
Proof. vm_compute. reflexivity. Qed.
