(* ===== verification/Paging.v ===== *)
(** Listings cut into pages, shared by the destinations that page them: the keys of a map
    under a prefix, in order, and what is left of them past a mark. *)
From S2P Require Export SyncTarget.
#[local] Open Scope string_scope.
#[local] Open Scope Z_scope.

(** * Definitions *)

(** The keys of a map under a prefix, past a mark, in order. *)
Definition keys_past {A} (m : gmap string A) (prefix mark : string) : list string :=
  js_sort cmp_string (List.filter (fun k => startsWith k prefix && negb (String.leb k mark)) (map fst (map_to_list m))).

(** * Lemmas *)

Lemma leb_refl_string (n : string) : String.leb n n = true.
Proof. by rewrite leb_cmp_string (proj2 (cmp_string_eq n n) eq_refl). Qed.
Lemma ltb_irrefl_string (n : string) : String.ltb n n = false.
Proof. by rewrite ltb_cmp_string (proj2 (cmp_string_eq n n) eq_refl). Qed.
Lemma ltb_flip_leb (a b : string) : String.ltb a b = true -> String.leb b a = false.
Proof. rewrite ltb_cmp_string leb_cmp_string. pose proof (cmp_antisym (cmp := cmp_string) a b). lia. Qed.
Lemma ltb_leb_string (a b : string) : String.ltb a b = true -> String.leb a b = true.
Proof. rewrite ltb_cmp_string leb_cmp_string. lia. Qed.

(** Strictly sorted lists with the same elements are equal. *)
Lemma strict_sorted_unique l : forall k,
  StronglySorted (fun a b => String.ltb a b = true) l -> StronglySorted (fun a b => String.ltb a b = true) k ->
  (forall n, n ∈ l <-> n ∈ k) -> l = k.
Proof.
  induction l as [|x l IH]; intros [|y k] Hl Hk H; [done| | |].
  - by destruct (not_elem_of_nil y (proj2 (H y) (list_elem_of_here _ _))).
  - by destruct (not_elem_of_nil x (proj1 (H x) (list_elem_of_here _ _))).
  - apply StronglySorted_inv in Hl as [Hl Hx]. apply StronglySorted_inv in Hk as [Hk Hy]. rewrite ->Forall_forall in Hx, Hy.
    assert (x = y) as ->.
    { destruct (decide (x = y)) as [|Hne]; [done|]. exfalso.
      pose proof (proj1 (H x) (list_elem_of_here _ _)) as [?|Hxk]%elem_of_cons; [done|].
      pose proof (proj2 (H y) (list_elem_of_here _ _)) as [?|Hyl]%elem_of_cons; [congruence|].
      apply Hx, ltb_leb_string in Hyl. apply Hy, ltb_flip_leb in Hxk. congruence. }
    f_equal. apply IH; [done..|]. intros n. split; intros Hn.
    + pose proof (proj1 (H n) (list_elem_of_further _ _ _ Hn)) as [->|?]%elem_of_cons; [|done].
      specialize (Hx _ Hn). by rewrite ltb_irrefl_string in Hx.
    + pose proof (proj2 (H n) (list_elem_of_further _ _ _ Hn)) as [->|?]%elem_of_cons; [|done].
      specialize (Hy _ Hn). by rewrite ltb_irrefl_string in Hy.
Qed.

(** Sorting by a key that does not repeat sorts strictly. *)
Lemma js_sort_keys_strict {A} (f : A -> string) (l : list A) :
  NoDup (map f l) -> StronglySorted (fun a b => String.ltb a b = true) (map f (js_sort (fun a b => cmp_string (f a) (f b)) l)).
Proof.
  intros Hnd. pose proof (js_sort_sorted (fun a b : A => cmp_string (f a) (f b)) l) as Hs.
  assert (NoDup (map f (js_sort (fun a b => cmp_string (f a) (f b)) l))) as Hnd' by by rewrite (js_sort_perm _ l).
  induction Hs as [|x k Hk IH Hx]; cbn in *; constructor.
  - apply NoDup_cons in Hnd' as [_ Hnd']. by apply IH.
  - apply NoDup_cons in Hnd' as [Hn _]. apply Forall_forall. intros y (o & -> & Ho)%list_elem_of_fmap.
    rewrite ->Forall_forall in Hx. specialize (Hx o Ho). cbn in Hx. rewrite ltb_cmp_string.
    assert (cmp_string (f x) (f o) <> 0); [|lia].
    rewrite cmp_string_eq. intros E. apply Hn. rewrite E. by apply list_elem_of_fmap_2.
Qed.

Section Keys.
Context {A : Type} (m : gmap string A) (prefix : string).

Lemma elem_of_keys_past mark n :
  n ∈ keys_past m prefix mark <-> is_Some (m !! n) /\ startsWith n prefix = true /\ String.leb n mark = false.
Proof.
  unfold keys_past. rewrite elem_of_js_sort elem_of_filter_b. change (map fst ?l) with (l.*1). rewrite list_elem_of_fmap andb_true_iff negb_true_iff.
  split.
  - intros [([k a] & -> & H%elem_of_map_to_list) Hp]. split; [by exists a|done].
  - intros ([a H] & Hp). split; [|done]. exists (n, a). split; [done|]. by apply elem_of_map_to_list.
Qed.

Lemma keys_past_filter_NoDup mark :
  NoDup (List.filter (fun k => startsWith k prefix && negb (String.leb k mark)) (map fst (map_to_list m))).
Proof. apply NoDup_ListNoDup, List.NoDup_filter, NoDup_ListNoDup, NoDup_fst_map_to_list. Qed.

Lemma keys_past_NoDup mark : NoDup (keys_past m prefix mark).
Proof. unfold keys_past. rewrite (js_sort_perm _ _). apply keys_past_filter_NoDup. Qed.

Lemma keys_past_sorted mark : StronglySorted (fun a b => String.ltb a b = true) (keys_past m prefix mark).
Proof.
  pose proof (js_sort_keys_strict id (List.filter (fun k => startsWith k prefix && negb (String.leb k mark)) (map fst (map_to_list m)))) as H.
  change (map id) with (fmap (M := list) (@id string)) in H. rewrite !list_fmap_id in H. apply H, keys_past_filter_NoDup.
Qed.

Lemma keys_past_bound mark : (length (keys_past m prefix mark) <= size m)%nat.
Proof.
  rewrite -length_map_to_list -(length_fmap fst). apply submseteq_length, NoDup_submseteq; [apply keys_past_NoDup|].
  intros n ([a H] & _)%elem_of_keys_past. apply list_elem_of_fmap. exists (n, a). split; [done|]. by apply elem_of_map_to_list.
Qed.

(** Any strictly sorted list of those keys is the listing. *)
Lemma keys_past_unique mark l :
  StronglySorted (fun a b => String.ltb a b = true) l ->
  (forall n, n ∈ l <-> is_Some (m !! n) /\ startsWith n prefix = true /\ String.leb n mark = false) -> l = keys_past m prefix mark.
Proof.
  intros Hl H. apply strict_sorted_unique; [done|apply keys_past_sorted|]. intros n. by rewrite H elem_of_keys_past.
Qed.

(** The listing past the last key of a page is the rest. *)
Lemma keys_past_rest mark page x rest :
  keys_past m prefix mark = (page ++ x :: rest)%list -> keys_past m prefix x = rest.
Proof.
  intros E. pose proof (keys_past_sorted mark) as Hs. rewrite E in Hs.
  assert (StronglySorted (fun a b => String.ltb a b = true) (x :: rest)) as [Hr Hx]%StronglySorted_inv.
  { clear -Hs. induction page as [|y page IH]; [done|]. apply StronglySorted_inv in Hs as [Hs _]. by apply IH. }
  assert (forall y, y ∈ page -> String.ltb y x = true) as Hpage.
  { clear -Hs. induction page as [|y page IH]; [by intros ? ?%elem_of_nil|]. apply StronglySorted_inv in Hs as [Hs Hy].
    intros z [->|Hz]%elem_of_cons; [|by apply IH]. rewrite ->Forall_forall in Hy. apply Hy. set_solver. }
  rewrite ->Forall_forall in Hx. symmetry. apply keys_past_unique; [done|]. intros n.
  assert (x ∈ keys_past m prefix mark) as (_ & _ & Hxc)%elem_of_keys_past by (rewrite E; set_solver). split.
  - intros Hn. assert (n ∈ keys_past m prefix mark) as (? & ? & _)%elem_of_keys_past by (rewrite E; set_solver).
    split_and!; [done..|]. by apply ltb_flip_leb, Hx.
  - intros (Hs' & Hp & Hc). assert (n ∈ keys_past m prefix mark) as Hn.
    { apply elem_of_keys_past. split_and!; [done..|]. revert Hxc Hc. rewrite !leb_cmp_string.
      pose proof (cmp_antisym (cmp := cmp_string) n x). pose proof (cmp_trans (cmp := cmp_string) x n mark). lia. }
    rewrite E in Hn. apply elem_of_app in Hn as [Hn%Hpage%ltb_leb_string|[->|Hn]%elem_of_cons]; [congruence| |done].
    by rewrite leb_refl_string in Hc.
Qed.
End Keys.
