(* ===== verification/SyncServer.v ===== *)
(** The bundled sync server, a Go program of its own: the object store
    ([server/internal/storage/storage.go], [fsstore.go]), bearer tokens
    ([server/internal/auth/auth.go]) and the HTTP handlers ([server/internal/api/server.go]). *)
From S2P Require Export SyncTarget Envelope Trees.
#[local] Open Scope string_scope.
#[local] Open Scope Z_scope.

(** * Definitions *)

(** ** storage.go *)

Inductive StoreError : Type :=
| ErrNotFound | ErrAlreadyExists | ErrQuotaExceeded | ErrInvalidName (detail : string).

(** A Go function that returns a value or an error. *)
Inductive outcome (A : Type) : Type := Value (a : A) | Failed (e : StoreError).
Arguments Value {A}.
Arguments Failed {A}.

Definition is_vault_char (c : ascii) : bool := is_alnum c || Ascii.eqb c "-".

(** [[0-9]{19}-[0-9a-f]{4}-[A-Za-z0-9]{1,32}\.edk] *)
Definition stamp_file (file : string) : bool :=
  endsWith file ".edk" &&
  (let stamp := js_slice file 0 (String.length file - 4) in
   is_stamp stamp && match split_on "-" stamp with [_; _; d] => (String.length d <=? 32)%nat | _ => false end).

(** [^vaults/[A-Za-z0-9-]{1,64}/ops/...$] *)
Definition objectNamePattern (name : string) : bool :=
  match split_on "/" name with
  | [root; vault; kind; file] =>
      String.eqb root "vaults" && String.eqb kind "ops"
      && (1 <=? String.length vault)%nat && (String.length vault <=? 64)%nat && str_forall is_vault_char vault
      && stamp_file file
  | _ => false
  end.

Definition ValidateName (name : string) : option StoreError :=
  if (256 <? String.length name)%nat then Some (ErrInvalidName "too long")
  else if includes name ".." || startsWith name "/" then Some (ErrInvalidName "path traversal")
  else if negb (objectNamePattern name) then Some (ErrInvalidName "expected vaults/<vault>/ops/<stamp>.edk")
  else None.

Definition is_prefix_char (c : ascii) : bool :=
  is_alnum c || Ascii.eqb c "-" || Ascii.eqb c "_" || Ascii.eqb c "/" || Ascii.eqb c ".".

Definition ValidatePrefix (prefix : string) : option StoreError :=
  if (256 <? String.length prefix)%nat then Some (ErrInvalidName "prefix too long")
  else if includes prefix ".." || startsWith prefix "/" then Some (ErrInvalidName "path traversal")
  else if negb (str_forall is_prefix_char prefix) then Some (ErrInvalidName "invalid character in prefix")
  else None.

(** ** fsstore.go *)

Record File : Type := mkFile { f_data : bytes; f_time : Z }.

(** Files by account and object name; the host's clock is a stream of readings. *)
Record FSStore : Type := mkStore {
  fs_files : gmap string (gmap string File); fs_quota : Z; fs_times : nat -> Z; fs_writes : nat }.

Definition account_files (account : string) (s : FSStore) : gmap string File := default ∅ (fs_files s !! account).

Definition set_files (f : gmap string (gmap string File)) (s : FSStore) : FSStore :=
  mkStore f (fs_quota s) (fs_times s) (fs_writes s).

(** [path] refuses an account that is no single path segment; a name that was validated
    cannot leave the account's directory. *)
Definition path (account : string) : option StoreError :=
  if String.eqb account "" || negb (str_forall (fun c => negb (Ascii.eqb c "/") && negb (Ascii.eqb c "\") && negb (Ascii.eqb c ".")) account)
  then Some (ErrInvalidName "account") else None.

Definition Usage (account : string) (s : FSStore) : Z :=
  sumZ (map (fun kv => Z.of_nat (length (f_data kv.2))) (map_to_list (account_files account s))).

Definition write_file (account name : string) (data : bytes) (s : FSStore) : FSStore :=
  mkStore (<[account := <[name := mkFile data (fs_times s (fs_writes s))]> (account_files account s)]> (fs_files s))
    (fs_quota s) (fs_times s) (S (fs_writes s)).

(** The error, if any, and the store. *)
Definition Put (account name : string) (data : bytes) (s : FSStore) : option StoreError * FSStore :=
  match ValidateName name with
  | Some e => (Some e, s)
  | None =>
      match path account with
      | Some e => (Some e, s)
      | None =>
          match account_files account s !! name with
          | Some existing => if bool_decide (f_data existing = data) then (None, s) else (Some ErrAlreadyExists, s)
          | None =>
              if (0 <? fs_quota s) && (fs_quota s <? Usage account s + Z.of_nat (length data))
              then (Some ErrQuotaExceeded, s)
              else (None, write_file account name data s)
          end
      end
  end.

Definition Get (account name : string) (s : FSStore) : outcome bytes :=
  match ValidateName name with
  | Some e => Failed e
  | None =>
      match path account with
      | Some e => Failed e
      | None => match account_files account s !! name with Some f => Value (f_data f) | None => Failed ErrNotFound end
      end
  end.

Definition Delete (account name : string) (s : FSStore) : option StoreError * FSStore :=
  match ValidateName name with
  | Some e => (Some e, s)
  | None =>
      match path account with
      | Some e => (Some e, s)
      | None => (None, set_files (<[account := delete name (account_files account s)]> (fs_files s)) s)
      end
  end.

Record Object : Type := mkObject { o_name : string; o_size : Z; o_modifiedAt : Z }.
Record Listing : Type := mkListing { l_objects : list Object; l_nextCursor : string }.

(** The walk, sorted: the files under the prefix and past the cursor. *)
Definition walk_objects (account prefix cursor : string) (s : FSStore) : list Object :=
  js_sort (fun a b => cmp_string (o_name a) (o_name b))
    (map (fun kv => mkObject kv.1 (Z.of_nat (length (f_data kv.2))) (f_time kv.2))
       (List.filter (fun kv : string * File => startsWith kv.1 prefix && negb (String.leb kv.1 cursor))
          (map_to_list (account_files account s)))).

Definition List (account prefix cursor : string) (limit : nat) (s : FSStore) : outcome Listing :=
  match ValidatePrefix prefix with
  | Some e => Failed e
  | None =>
      match path account with
      | Some e => Failed e
      | None =>
          let objects := walk_objects account prefix cursor s in
          if (limit <? length objects)%nat
          then Value (mkListing (take limit objects) (default "" (o_name <$> last (take limit objects))))
          else Value (mkListing objects "")
      end
  end.

(** ** auth.go *)

(** Token hashes and the accounts they open. *)
Definition Registry : Type := gmap string string.

Definition BearerToken (header : string) : string :=
  if (String.length header <=? 7)%nat || negb (String.eqb (toLowerCase (js_slice header 0 7)) "bearer ") then ""
  else trim (js_slice_from header 7).

Section Server.
(** [hex.EncodeToString(sha256.Sum256(token))] of Go's standard library. *)
Context (sha256_hex : string -> string).

Definition Lookup (token : string) (registry : Registry) : option string :=
  if String.eqb token "" then None else registry !! sha256_hex token.

(** ** server.go *)

Inductive Method : Type := GET | PUT | DELETE.
#[local] Instance Method_eq_dec : EqDecision Method.
Proof. solve_decision. Defined.

(** A request as the handlers see it: the path still escaped, the query decoded. *)
Record Request : Type := mkRequest {
  rq_method : Method; rq_path : string; rq_query : list (string * string); rq_authorization : string; rq_body : bytes }.

(** A body is JSON, which [encoding/json] writes and the browser's [json()] reads, or bytes. *)
Inductive Body : Type := BJson (v : json) | BBytes (b : bytes) | BEmpty.
Record Response : Type := mkResponse { rs_status : Z; rs_body : Body }.

Record Server : Type := mkServer {
  sv_store : FSStore; sv_tokens : Registry; sv_maxObjectSize : Z; sv_version : string }.

Definition with_store (st : FSStore) (s : Server) : Server :=
  mkServer st (sv_tokens s) (sv_maxObjectSize s) (sv_version s).

Definition writeError (status : Z) (message : string) : Response := mkResponse status (BJson (obj [("error", str message)])).

Definition storeErrorText (e : StoreError) : string :=
  match e with ErrInvalidName detail => "invalid object name: " ++ detail | _ => "" end.

Definition writeStoreError (e : StoreError) : Response :=
  match e with
  | ErrNotFound => writeError 404 "object not found"
  | ErrInvalidName _ => writeError 400 (storeErrorText e)
  | ErrAlreadyExists => writeError 409 "an object with different contents already exists under that name"
  | ErrQuotaExceeded => writeError 507 "storage quota exceeded"
  end.

Definition handleHealth (s : Server) : Response :=
  mkResponse 200 (BJson (obj [("status", str "ok"); ("version", str (sv_version s))])).

(** [Query().Get] : the first value, or the empty string. *)
Definition query_get (key : string) (query : list (string * string)) : string := default "" (jmap_get key query).

(** [strconv.Atoi] on a plain numeral; a sign or a numeral past 64 bits is not followed. *)
Definition list_limit (raw : string) : option nat :=
  if String.eqb raw "" then Some 1000%nat
  else match parse_digits 10 raw with
       | Some n => if n <=? 0 then None else Some (Z.to_nat (Z.min n 1000))
       | None => None
       end.

Definition object_json (o : Object) : json :=
  obj [("name", str (o_name o)); ("size", int (o_size o)); ("modifiedAt", int (o_modifiedAt o))].
Definition listing_json (l : Listing) : json :=
  obj [("objects", Some (JArr (map object_json (l_objects l))));
       ("nextCursor", if String.eqb (l_nextCursor l) "" then None else str (l_nextCursor l))].

Definition handleList (rq : Request) (account : string) (s : Server) : Response :=
  match list_limit (query_get "limit" (rq_query rq)) with
  | None => writeError 400 "limit must be a positive integer"
  | Some limit =>
      match List account (query_get "prefix" (rq_query rq)) (query_get "cursor" (rq_query rq)) limit (sv_store s) with
      | Failed e => writeStoreError e
      | Value listing => mkResponse 200 (BJson (listing_json listing))
      end
  end.

Definition handleGet (name account : string) (s : Server) : Response :=
  match Get account name (sv_store s) with
  | Failed e => writeStoreError e
  | Value data => mkResponse 200 (BBytes data)
  end.

Definition handlePut (rq : Request) (name account : string) (s : Server) : Response * Server :=
  if sv_maxObjectSize s <? Z.of_nat (length (rq_body rq)) then (writeError 413 "object exceeds the server's size limit", s)
  else if (length (rq_body rq) =? 0)%nat then (writeError 400 "object must not be empty", s)
  else match Put account name (rq_body rq) (sv_store s) with
       | (Some e, st) => (writeStoreError e, with_store st s)
       | (None, st) =>
           (mkResponse 201 (BJson (obj [("name", str name); ("size", int (Z.of_nat (length (rq_body rq))))])), with_store st s)
       end.

Definition handleDelete (name account : string) (s : Server) : Response * Server :=
  match Delete account name (sv_store s) with
  | (Some e, st) => (writeStoreError e, with_store st s)
  | (None, st) => (mkResponse 204 BEmpty, with_store st s)
  end.

(** The account behind a request. *)
Definition authenticate (rq : Request) (s : Server) : option string := Lookup (BearerToken (rq_authorization rq)) (sv_tokens s).

Definition authenticated (rq : Request) (next : string -> Server -> Response * Server) (s : Server) : Response * Server :=
  match authenticate rq s with
  | None => (writeError 401 "invalid or missing bearer token", s)
  | Some account => next account s
  end.

(** Escapes of a path segment decoded, as the mux does. *)
Fixpoint unescape_path (s : string) : option string :=
  match s with
  | "" => Some ""
  | String c s' =>
      if Ascii.eqb c "%" then
        match s' with
        | String h (String l rest) =>
            match digit_val 16 (low h), digit_val 16 (low l) with
            | Some a, Some b => String (chr (a * 16 + b)) <$> unescape_path rest
            | _, _ => None
            end
        | _ => None
        end
      else String c <$> unescape_path s'
  end.

(** The mux: the patterns of [New].  A path that only the preflight pattern matches is
    answered 405. *)
Definition serve (rq : Request) (s : Server) : Response * Server :=
  let notAllowed := (mkResponse 405 BEmpty, s) in
  if String.eqb (rq_path rq) "/v1/health" then
    match rq_method rq with GET => (handleHealth s, s) | _ => notAllowed end
  else if String.eqb (rq_path rq) "/v1/objects" then
    match rq_method rq with
    | GET => authenticated rq (fun account s => (handleList rq account s, s)) s
    | _ => notAllowed
    end
  else if startsWith (rq_path rq) "/v1/objects/" then
    match unescape_path (js_slice_from (rq_path rq) 12) with
    | None => (mkResponse 400 BEmpty, s)
    | Some name =>
        match rq_method rq with
        | GET => authenticated rq (fun account s => (handleGet name account s, s)) s
        | PUT => authenticated rq (handlePut rq name) s
        | DELETE => authenticated rq (handleDelete name) s
        end
    end
  else notAllowed.
End Server.

(** * Specification *)

(** What the store promises of every file it holds. *)
Definition file_ok (max : Z) (name : string) (f : File) : Prop :=
  ValidateName name = None /\ f_data f <> [] /\ Z.of_nat (length (f_data f)) <= max.

Definition store_ok (max : Z) (s : FSStore) : Prop :=
  (forall account name f, account_files account s !! name = Some f -> file_ok max name f)
  /\ (0 < fs_quota s -> forall account, Usage account s <= fs_quota s).

(** A server through a list of requests. *)
Fixpoint serve_all (sha256_hex : string -> string) (rqs : list Request) (s : Server) : Server :=
  match rqs with
  | [] => s
  | rq :: rest => serve_all sha256_hex rest (snd (serve sha256_hex rq s))
  end.

(** A server no one has written to. *)
Definition empty_server (s : Server) : Prop := fs_files (sv_store s) = ∅ /\ 0 <= fs_quota (sv_store s).

(** * Lemmas *)

Lemma account_files_insert account m s b :
  account_files b (set_files (<[account := m]> (fs_files s)) s) = if decide (b = account) then m else account_files b s.
Proof.
  unfold account_files, set_files. cbn. destruct (decide (b = account)) as [->|Hne].
  - by rewrite lookup_insert_eq.
  - by rewrite lookup_insert_ne.
Qed.

Lemma account_files_write account name data s b :
  account_files b (write_file account name data s)
  = if decide (b = account) then <[name := mkFile data (fs_times s (fs_writes s))]> (account_files account s) else account_files b s.
Proof.
  unfold account_files at 1, write_file. cbn. destruct (decide (b = account)) as [->|Hne].
  - by rewrite lookup_insert_eq.
  - by rewrite lookup_insert_ne.
Qed.

Definition files_size (m : gmap string File) : Z := sumZ (map (fun kv => Z.of_nat (length (f_data kv.2))) (map_to_list m)).

Lemma files_size_insert name f m : m !! name = None -> files_size (<[name := f]> m) = Z.of_nat (length (f_data f)) + files_size m.
Proof.
  intros Hn. unfold files_size. rewrite (sumZ_perm _ _ (Permutation_map _ (map_to_list_insert m name f Hn))). done.
Qed.

Lemma files_size_delete name m : files_size (delete name m) <= files_size m.
Proof.
  destruct (m !! name) as [f|] eqn:E; [|by rewrite delete_id].
  rewrite -{2}(insert_delete_id m name f E) files_size_insert; [lia|]. by rewrite lookup_delete_eq.
Qed.

(** What [Put] and [Delete] do. *)
Lemma Put_cases account name data s :
  (exists e, Put account name data s = (Some e, s))
  \/ (Put account name data s = (None, s) /\ ValidateName name = None
      /\ exists f, account_files account s !! name = Some f /\ f_data f = data)
  \/ (Put account name data s = (None, write_file account name data s) /\ ValidateName name = None /\ path account = None
      /\ account_files account s !! name = None
      /\ (0 < fs_quota s -> Usage account s + Z.of_nat (length data) <= fs_quota s)).
Proof.
  unfold Put. destruct (ValidateName name); [left; by eexists|]. destruct (path account); [left; by eexists|].
  destruct (account_files account s !! name) as [f|] eqn:Ef.
  - case_bool_decide; [right; left; split_and!; [done..|by exists f]|left; by eexists].
  - destruct (Z.ltb_spec 0 (fs_quota s)), (Z.ltb_spec (fs_quota s) (Usage account s + Z.of_nat (length data)));
      cbn [andb]; first [left; by eexists|right; right; split_and!; [done..|intros; lia]].
Qed.

Lemma Delete_cases account name s :
  (exists e, Delete account name s = (Some e, s))
  \/ (Delete account name s = (None, set_files (<[account := delete name (account_files account s)]> (fs_files s)) s)
      /\ ValidateName name = None).
Proof.
  unfold Delete. destruct (ValidateName name); [left; by eexists|]. destruct (path account); [left; by eexists|]. by right.
Qed.

Section Steps.
Context (sha256_hex : string -> string).

(** Every request leaves the store alone or is a [PUT] or a [DELETE] of its account. *)
Lemma serve_cases rq s rs s' : serve sha256_hex rq s = (rs, s') ->
  s' = with_store (sv_store s') s
  /\ (sv_store s' = sv_store s
      \/ exists account name, authenticate sha256_hex rq s = Some account
         /\ unescape_path (js_slice_from (rq_path rq) 12) = Some name
         /\ ((rq_method rq = PUT /\ rq_body rq <> [] /\ Z.of_nat (length (rq_body rq)) <= sv_maxObjectSize s
              /\ sv_store s' = snd (Put account name (rq_body rq) (sv_store s)))
             \/ (rq_method rq = DELETE /\ sv_store s' = snd (Delete account name (sv_store s))))).
Proof.
  assert (forall st, s = with_store (sv_store s) s) as Hs by by destruct s.
  unfold serve. intros H. repeat (case_match; simplify_eq/=; [..]); try (split; [by destruct s'|by left]).
  all: unfold authenticated in *; destruct (authenticate _ rq s) as [account|] eqn:Ea; simplify_eq/=; try (split; [by destruct s'|by left]).
  - unfold handlePut in *. destruct (Z.ltb_spec (sv_maxObjectSize s) (Z.of_nat (length (rq_body rq)))); simplify_eq/=; [split; [by destruct s'|by left]|].
    destruct (rq_body rq) as [|b body] eqn:Eb; simplify_eq/=; [split; [by destruct s'|by left]|].
    destruct (Put _ _ _ _) as [[e|] st] eqn:Ep; simplify_eq/=; (split; [done|]); right; exists account, s0; rewrite Ep; split_and!; try done; left; by split_and!.
  - unfold handleDelete in *. destruct (Delete _ _ _) as [[e|] st] eqn:Ed; simplify_eq/=; (split; [done|]); right; exists account, s0;
      rewrite Ed; split_and!; try done; by right.
Qed.
End Steps.

(** ** Invariants *)

Lemma put_store_ok max account name data s :
  data <> [] -> Z.of_nat (length data) <= max -> store_ok max s -> store_ok max (snd (Put account name data s)).
Proof.
  intros Hne Hlen [Hf Hq]. destruct (Put_cases account name data s) as [(e & ->)|[(-> & _)|(-> & Hv & _ & Hn & Hquota)]]; try done.
  split.
  - intros b n f. cbn. rewrite account_files_write. case_decide as Hb; [|apply Hf]. subst b.
    intros [[<- <-]|[_ H]]%lookup_insert_Some; [by split_and!|by eapply Hf].
  - intros Hpos b. unfold Usage. cbn [snd]. rewrite account_files_write. change (fs_quota (write_file _ _ _ _)) with (fs_quota s) in *.
    case_decide as Hb; [|by apply Hq]. subst b. pose proof (files_size_insert name (mkFile data (fs_times s (fs_writes s))) _ Hn) as E.
    unfold files_size in E. rewrite E. unfold Usage in Hquota. specialize (Hquota Hpos). cbn in *. lia.
Qed.

Lemma delete_store_ok max account name s : store_ok max s -> store_ok max (snd (Delete account name s)).
Proof.
  intros [Hf Hq]. destruct (Delete_cases account name s) as [(e & ->)|(-> & _)]; [done|]. split.
  - intros b n f. cbn [snd]. rewrite account_files_insert. case_decide as Hb; [|apply Hf]. intros [_ H]%lookup_delete_Some. by eapply Hf.
  - intros Hpos b. unfold Usage. cbn [snd]. rewrite account_files_insert. case_decide as Hb; [|by apply Hq]. subst b.
    pose proof (files_size_delete name (account_files account s)) as E. unfold files_size in E. etrans; [exact E|by apply Hq].
Qed.

Lemma serve_all_inv sha256_hex rqs : forall s, store_ok (sv_maxObjectSize s) (sv_store s) ->
  sv_maxObjectSize (serve_all sha256_hex rqs s) = sv_maxObjectSize s
  /\ store_ok (sv_maxObjectSize s) (sv_store (serve_all sha256_hex rqs s)).
Proof.
  induction rqs as [|rq rqs IH]; intros s Hs; [done|]. cbn [serve_all].
  destruct (serve sha256_hex rq s) as [rs s'] eqn:E. apply serve_cases in E as [Hs' Hc]. cbn [snd].
  assert (sv_maxObjectSize s' = sv_maxObjectSize s) as Hm by by rewrite Hs'.
  rewrite -Hm. rewrite -Hm in Hs, Hc. apply IH.
  destruct Hc as [->|(account & name & _ & _ & [(_ & Hne & Hlen & ->)|(_ & ->)])]; [done|by apply put_store_ok|by apply delete_store_ok].
Qed.

Lemma empty_store_ok max s : fs_files s = ∅ -> store_ok max s.
Proof. intros He. split; unfold Usage, account_files; rewrite He.
  - intros account name f. by rewrite !lookup_empty.
  - intros Hq account. rewrite lookup_empty map_to_list_empty. cbn. lia.
Qed.

(** * Properties *)

(** C19: Accounts are kept apart: a request touches the files of no account but the one
    its token opens, and the answer tells nothing of any other: a server with the same
    tokens and limits that agrees on that account gives the same answer. *)
Theorem accounts_are_kept_apart sha256_hex rq s rs s' :
  serve sha256_hex rq s = (rs, s') ->
  (forall b, authenticate sha256_hex rq s <> Some b -> account_files b (sv_store s') = account_files b (sv_store s))
  /\ forall t, sv_tokens t = sv_tokens s -> sv_maxObjectSize t = sv_maxObjectSize s -> sv_version t = sv_version s ->
       fs_quota (sv_store t) = fs_quota (sv_store s) ->
       (forall a, authenticate sha256_hex rq s = Some a -> account_files a (sv_store t) = account_files a (sv_store s)) ->
       fst (serve sha256_hex rq t) = rs.
Proof.
  intros E. split.
  - intros b Hb. apply serve_cases in E as [_ [->|(account & name & Ha & _ & [(_ & _ & _ & ->)|(_ & ->)])]]; [done| |];
      assert (b <> account) by congruence.
    + destruct (Put_cases account name (rq_body rq) (sv_store s)) as [(e & ->)|[(-> & _)|(-> & _)]]; try done.
      cbn [snd]. by rewrite account_files_write decide_False.
    + destruct (Delete_cases account name (sv_store s)) as [(e & ->)|(-> & _)]; [done|]. cbn [snd].
      by rewrite account_files_insert decide_False.
  - intros t Ht Hm Hv Hq Hf. apply (f_equal fst) in E. cbn in E. subst rs.
    unfold serve, handleHealth. rewrite Hv. destruct (String.eqb _ "/v1/health"); [by destruct (rq_method rq)|].
    assert (forall next, (forall a, authenticate sha256_hex rq s = Some a -> fst (next a t) = fst (next a s)) ->
      fst (authenticated sha256_hex rq next t) = fst (authenticated sha256_hex rq next s)) as Hauth.
    { intros next Hn. unfold authenticated. assert (authenticate sha256_hex rq t = authenticate sha256_hex rq s) as ->
        by by unfold authenticate; rewrite Ht. destruct (authenticate sha256_hex rq s) as [a|]; [by apply Hn|done]. }
    destruct (String.eqb _ "/v1/objects"); [destruct (rq_method rq); try done; apply Hauth|].
    { intros a Ha. cbn. unfold handleList, List, walk_objects. by rewrite (Hf a Ha). }
    destruct (startsWith _ _); [|done]. destruct (unescape_path _) as [name|]; [|done].
    destruct (rq_method rq); apply Hauth; intros a Ha; cbn.
    + unfold handleGet, Get. by rewrite (Hf a Ha).
    + unfold handlePut, Put, Usage. rewrite (Hf a Ha) Hm Hq. repeat (case_match; simplify_eq/=; try done).
    + unfold handleDelete, Delete. repeat (case_match; simplify_eq/=; try done).
Qed.

(** The store keeps its promises under any traffic: whatever requests a server that
    started empty has served, every file has a name the pattern allows and some bytes,
    none over the size limit, and no account is over its quota. *)
Theorem store_stays_sound sha256_hex rqs s :
  empty_server s -> store_ok (sv_maxObjectSize s) (sv_store (serve_all sha256_hex rqs s)).
Proof. intros [He _]. apply serve_all_inv. by apply empty_store_ok. Qed.

(** C24: Objects are immutable: whatever a request does, a stored object keeps its bytes
    until a [DELETE] of its own account, answered 204, removes it; no upload changes it. *)
Theorem objects_are_immutable sha256_hex rq s rs s' account name f :
  serve sha256_hex rq s = (rs, s') -> account_files account (sv_store s) !! name = Some f ->
  account_files account (sv_store s') !! name = Some f
  \/ (account_files account (sv_store s') !! name = None /\ rq_method rq = DELETE
      /\ authenticate sha256_hex rq s = Some account /\ rs_status rs = 204).
Proof.
  intros E Hf. destruct (serve_cases _ _ _ _ _ E) as [_ [->|(a & n & Ha & Hn & [(_ & _ & _ & ->)|(Hm & Hs)])]]; [by left| |].
  - destruct (Put_cases a n (rq_body rq) (sv_store s)) as [(e & ->)|[(-> & _)|(-> & _ & _ & Hnone & _)]]; [by left..|]. left. cbn.
    rewrite account_files_write. case_decide as Hb; [|done]. subst a. rewrite lookup_insert_ne; [done|]. intros <-. congruence.
  - rewrite Hs. destruct (Delete_cases a n (sv_store s)) as [(e & ->)|(Ed & _)]; [by left|]. rewrite Ed. cbn.
    rewrite account_files_insert. case_decide as Hb; [|by left]. subst a.
    destruct (decide (n = name)) as [->|Hne]; [|left; by rewrite lookup_delete_ne].
    right. rewrite lookup_delete_eq. split_and!; [done..|].
    unfold serve in E. rewrite Hm Hn in E. unfold authenticated, handleDelete in E. rewrite Ha Ed in E.
    repeat case_match; simplify_eq/=; try done.
    all: rewrite Ed in Hs; apply (f_equal (account_files account)) in Hs; cbn [snd] in Hs; rewrite account_files_insert decide_True // in Hs;
      by rewrite Hs lookup_delete_eq in Hf.
Qed.

(** * Witnesses *)

(** Two accounts; the tokens are their own hashes. *)
Definition demo_server : Server :=
  mkServer (mkStore ∅ 100 (fun n => 1000 + Z.of_nat n) 0) (<["t-bob" := "bob"]> {["t-alice" := "alice"]}) 50 "1.0".
Definition demo_name : string := "vaults/v-1/ops/0000000000000001000-0000-a.edk".
Definition demo_put (token : string) (data : bytes) : Request :=
  mkRequest PUT ("/v1/objects/" ++ demo_name) [] ("Bearer " ++ token) data.
Definition demo_delete (token : string) : Request := mkRequest DELETE ("/v1/objects/" ++ demo_name) [] ("Bearer " ++ token) [].
Definition demo_served : Server :=
  serve_all id [demo_put "t-alice" [1; 2; 3]; demo_put "t-alice" [1; 2; 3]; demo_put "t-alice" [4]; demo_delete "t-bob"] demo_server.

Lemma demo_answers :
  rs_status (fst (serve id (demo_put "t-alice" [1; 2; 3]) demo_server)) = 201
  /\ rs_status (fst (serve id (demo_put "t-alice" [1; 2; 3]) demo_served)) = 201
  /\ rs_status (fst (serve id (demo_put "t-alice" [4]) demo_served)) = 409
  /\ rs_status (fst (serve id (demo_put "nobody" [4]) demo_served)) = 401
  /\ rs_status (fst (serve id (demo_delete "t-alice") demo_served)) = 204.
Proof. split_and!; vm_compute; reflexivity. Qed.

Lemma demo_empty : empty_server demo_server.
Proof. split; [reflexivity|done]. Qed.

Lemma store_stays_sound_witness :
  store_ok 50 (sv_store demo_served) /\ f_data <$> account_files "alice" (sv_store demo_served) !! demo_name = Some [1; 2; 3].
Proof. split; [exact (store_stays_sound id _ demo_server demo_empty)|vm_compute; reflexivity]. Defined.

Lemma accounts_are_kept_apart_witness :
  account_files "alice" (sv_store (snd (serve id (demo_delete "t-bob") demo_served))) = account_files "alice" (sv_store demo_served).
Proof.
  refine (proj1 (accounts_are_kept_apart id (demo_delete "t-bob") demo_served _ _ (surjective_pairing _)) "alice" _).
  vm_compute. discriminate.
Defined.

Lemma demo_file : account_files "alice" (sv_store demo_served) !! demo_name = Some (mkFile [1; 2; 3] 1000).
Proof. vm_compute. reflexivity. Qed.

Lemma objects_are_immutable_witness :
  account_files "alice" (sv_store (snd (serve id (demo_put "t-alice" [4]) demo_served))) !! demo_name = Some (mkFile [1; 2; 3] 1000).
Proof.
  destruct (objects_are_immutable id (demo_put "t-alice" [4]) demo_served _ _ "alice" demo_name _ (surjective_pairing _) demo_file)
    as [H|(_ & H & _)]; [exact H|discriminate].
Defined.
