(* ===== verification/ServerSetup.v ===== *)
(** Starting the bundled sync server and what stands around its handlers: the configuration
    ([server/internal/config/config.go]), the tokens file ([server/internal/auth/auth.go],
    with the [token] command of [server/cmd/docket-sync/main.go]), CORS and the other
    middleware ([server/internal/api/cors.go], [server.go]).  Text is ASCII. *)
From S2P Require Export SyncServer.
#[local] Open Scope string_scope.
#[local] Open Scope Z_scope.

(** * Definitions *)

(** ** auth.go *)

Inductive AccountError : Type := EmptyID | LongID | InvalidCharacter (c : ascii).
Inductive LineError : Type := ExpectedPair | BadAccount (e : AccountError) | BadHash | DuplicateHash.
Inductive TokensError : Type := AtLine (line : nat) (e : LineError) | ErrTooLong | ErrNoTokens.

Definition is_id_char (c : ascii) : bool := is_alnum c || Ascii.eqb c "-" || Ascii.eqb c "_".

Fixpoint first_not (p : ascii -> bool) (s : string) : option ascii :=
  match s with "" => None | String c s' => if p c then first_not p s' else Some c end.

Definition validAccountID (id : string) : option AccountError :=
  if String.eqb id "" then Some EmptyID
  else if (64 <? String.length id)%nat then Some LongID
  else InvalidCharacter <$> first_not is_id_char id.

(** [strings.Cut(text, c)] *)
Fixpoint cut (c : ascii) (s : string) : option (string * string) :=
  match s with
  | "" => None
  | String d s' => if Ascii.eqb c d then Some ("", s')
                   else match cut c s' with Some (a, b) => Some (String d a, b) | None => None end
  end.

(** [hex.DecodeString] of a lower-case text gives 32 bytes. *)
Definition is_hex_digit (c : ascii) : bool := is_digit c || ((97 <=? code c) && (code c <=? 102)).
Definition is_hash (s : string) : bool := (String.length s =? 64)%nat && str_forall is_hex_digit s.

(** The lines [bufio.Scanner] gives: what follows the last newline counts unless empty,
    a carriage return at the end of a line does not, and a line of 64 KiB stops it. *)
Definition newline : ascii := "010".
Definition MaxScanTokenSize : Z := 65536.
Definition scan_lines (text : string) : list string :=
  let lines := split_on newline text in
  if String.eqb (default "" (last lines)) "" then removelast lines else lines.
Definition dropCR (line : string) : string :=
  if endsWith line (String "013" "") then js_slice line 0 (String.length line - 1) else line.

Fixpoint parse_lines (line : nat) (lines : list string) (registry : Registry) : TokensError + Registry :=
  match lines with
  | [] => inr registry
  | raw :: rest =>
      if MaxScanTokenSize <=? Z.of_nat (String.length raw) then inl ErrTooLong
      else
        let text := trim (dropCR raw) in
        if String.eqb text "" || startsWith text "#" then parse_lines (S line) rest registry
        else match cut ":" text with
             | None => inl (AtLine line ExpectedPair)
             | Some (id0, hash0) =>
                 let id := trim id0 in
                 let hash := toLowerCase (trim hash0) in
                 match validAccountID id with
                 | Some e => inl (AtLine line (BadAccount e))
                 | None =>
                     if negb (is_hash hash) then inl (AtLine line BadHash)
                     else match registry !! hash with
                          | Some _ => inl (AtLine line DuplicateHash)
                          | None => parse_lines (S line) rest (<[hash := id]> registry)
                          end
                 end
             end
  end.

Definition ParseTokens (text : string) : TokensError + Registry :=
  match parse_lines 1 (scan_lines text) ∅ with
  | inl e => inl e
  | inr registry => if bool_decide (registry = ∅) then inl ErrNoTokens else inr registry
  end.

(** The line [docket-sync token <account>] prints for a token it has drawn. *)
Definition mintToken (sha256_hex : string -> string) (account token : string) : string :=
  account ++ ":" ++ sha256_hex token.

(** ** config.go *)

Inductive ConfigError : Type := NotAnInteger (key : string) | ErrMissingDataDir | MissingTokensFile | NonPositiveObjectSize.

Record Config : Type := mkConfig {
  cfg_Addr : string; cfg_DataDir : string; cfg_TokensFile : string; cfg_MaxObjectSize : Z; cfg_MaxAccountBytes : Z;
  cfg_LogLevel : string; cfg_AllowedOrigins : string }.

Definition DefaultAddr : string := ":8080".
Definition DefaultMaxObjectSize : Z := Z.shiftl 8 20.

Definition stringOr (lookup : string -> option string) (key fallback : string) : string :=
  match lookup key with Some v => if String.eqb v "" then fallback else v | None => fallback end.

(** [strconv.ParseInt(v, 10, 64)] *)
Definition parse_int64 (v : string) : option Z :=
  let ranged (n : Z) := if (- 2 ^ 63 <=? n) && (n <? 2 ^ 63) then Some n else None in
  match v with
  | String "-" digits => n ← parse_digits 10 digits; ranged (- n)
  | String "+" digits => n ← parse_digits 10 digits; ranged n
  | _ => n ← parse_digits 10 v; ranged n
  end.

Definition bytesOr (lookup : string -> option string) (key : string) (fallback : Z) : ConfigError + Z :=
  match lookup key with
  | None => inr fallback
  | Some v => if String.eqb v "" then inr fallback
              else match parse_int64 v with Some n => inr n | None => inl (NotAnInteger key) end
  end.

Definition Load (lookup : string -> option string) : ConfigError + Config :=
  let DataDir := stringOr lookup "DOCKET_DATA_DIR" "" in
  let TokensFile := stringOr lookup "DOCKET_TOKENS_FILE" "" in
  match bytesOr lookup "DOCKET_MAX_OBJECT_SIZE" DefaultMaxObjectSize with
  | inl e => inl e
  | inr MaxObjectSize =>
      match bytesOr lookup "DOCKET_MAX_ACCOUNT_BYTES" 0 with
      | inl e => inl e
      | inr MaxAccountBytes =>
          if String.eqb DataDir "" then inl ErrMissingDataDir
          else if String.eqb TokensFile "" then inl MissingTokensFile
          else if MaxObjectSize <=? 0 then inl NonPositiveObjectSize
          else inr (mkConfig (stringOr lookup "DOCKET_ADDR" DefaultAddr) DataDir TokensFile MaxObjectSize MaxAccountBytes
                      (stringOr lookup "DOCKET_LOG_LEVEL" "info") (stringOr lookup "DOCKET_ALLOWED_ORIGINS" ""))
      end
  end.

(** ** cors.go and the middleware of server.go *)

Fixpoint trimRight_slashes (fuel : nat) (s : string) : string :=
  match fuel with
  | S f => if endsWith s "/" then trimRight_slashes f (js_slice s 0 (String.length s - 1)) else s
  | O => s
  end.

Definition ParseOrigins (raw : string) : list string :=
  map (fun part => let trimmed := trim part in trimRight_slashes (String.length trimmed) trimmed)
    (List.filter (fun part => negb (String.eqb (trim part) "")) (split_on "," raw)).

Definition corsMaxAge : string := "86400".

(** The headers of a request the middleware reads, and whether it is an [OPTIONS]. *)
Record Headers : Type := mkHeaders { h_origin : string; h_options : bool; h_requestMethod : string; h_ifNoneMatch : string }.

Definition headers : Type := list (string * string).

(** Answered by the middleware, or passed on with headers set. *)
Inductive Cors : Type := Answered (status : Z) (h : headers) | Passed (h : headers).

Definition withCORS (origins : list string) (rq : Headers) : Cors :=
  if bool_decide (origins = []) then Passed []
  else
    let allowAll := bool_decide ("*" ∈ origins) in
    let allowed := negb (String.eqb (h_origin rq) "") && (allowAll || bool_decide (h_origin rq ∈ origins)) in
    let echoed := if allowed then [("Access-Control-Allow-Origin", h_origin rq); ("Vary", "Origin");
                                   ("Access-Control-Expose-Headers", "ETag")] else [] in
    if h_options rq && negb (String.eqb (h_requestMethod rq) "") then
      if negb allowed then Answered 403 echoed
      else Answered 204 (echoed ++ [("Access-Control-Allow-Methods", "GET, PUT, DELETE, OPTIONS");
                                    ("Access-Control-Allow-Headers", "Authorization, Content-Type, If-None-Match");
                                    ("Access-Control-Max-Age", corsMaxAge)])%list
    else Passed echoed.

Definition securityHeaders : headers :=
  [("X-Content-Type-Options", "nosniff"); ("Referrer-Policy", "no-referrer");
   ("Content-Security-Policy", "default-src 'none'; frame-ancestors 'none'")].

Section Handler.
(** The hash of a token, and the text of the first sixteen bytes of the hash of an object. *)
Context (sha256_hex : string -> string) (sum16_hex : bytes -> string).

Definition ETag (data : bytes) : string := dquote ++ sum16_hex data ++ dquote.

(** The answer to a download with [If-None-Match]. *)
Definition revalidated (ifNoneMatch : string) (rs : Response) : Response * headers :=
  match rs_body rs with
  | BBytes data =>
      let etag := ETag data in
      let h := [("ETag", etag); ("Cache-Control", "private, max-age=31536000, immutable")] in
      if String.eqb ifNoneMatch etag then (mkResponse 304 BEmpty, h)
      else (rs, (h ++ [("Content-Type", "application/octet-stream"); ("Content-Length", num_to_string (Z.of_nat (length data)))])%list)
  | _ => (rs, [])
  end.

(** [New] : CORS, then the security headers, then the mux.  An [OPTIONS] that is no
    preflight matches the pattern that does nothing.  The content type of a JSON answer and
    the challenge of a 401 are left out of the headers. *)
Definition handler (origins : list string) (h : Headers) (rq : Request) (s : Server) : Response * headers * Server :=
  match withCORS origins h with
  | Answered status out => (mkResponse status BEmpty, out, s)
  | Passed out =>
      if h_options h then (mkResponse 200 BEmpty, (out ++ securityHeaders)%list, s)
      else let '(rs, s') := serve sha256_hex rq s in
           let '(rs', own) := revalidated (h_ifNoneMatch h) rs in
           (rs', (out ++ securityHeaders ++ own)%list, s')
  end.
End Handler.

(** ** main.go *)

Inductive StartError : Type := BadConfig (e : ConfigError) | NoTokensFile | BadTokens (e : TokensError).

(** [serve] up to listening: the environment, the files it names and what the data
    directory holds, which can be made if it is missing. *)
Definition start (lookup : string -> option string) (read_file : string -> option string)
    (files : string -> gmap string (gmap string File)) (times : nat -> Z) (version : string)
  : StartError + (Server * list string) :=
  match Load lookup with
  | inl e => inl (BadConfig e)
  | inr cfg =>
      match read_file (cfg_TokensFile cfg) with
      | None => inl NoTokensFile
      | Some text =>
          match ParseTokens text with
          | inl e => inl (BadTokens e)
          | inr tokens =>
              inr (mkServer (mkStore (files (cfg_DataDir cfg)) (cfg_MaxAccountBytes cfg) times 0) tokens (cfg_MaxObjectSize cfg) version,
                   ParseOrigins (cfg_AllowedOrigins cfg))
          end
      end
  end.

(** A registry as the program keeps it. *)
Definition registry_ok (r : Registry) : Prop :=
  forall hash id, r !! hash = Some id -> validAccountID id = None /\ is_hash hash = true.

(** * Lemmas *)

Lemma first_not_None p s : first_not p s = None <-> str_forall p s = true.
Proof. induction s as [|c s IH]; cbn; [done|]. destruct (p c); cbn; [exact IH|done]. Qed.

Lemma validAccountID_spec id :
  validAccountID id = None <-> id <> "" /\ (String.length id <= 64)%nat /\ str_forall is_id_char id = true.
Proof.
  unfold validAccountID. destruct (String.eqb_spec id "") as [->|]; [split; [done|by intros (? & _)]|].
  destruct (Nat.ltb_spec 64 (String.length id)); [split; [done|intros (_ & ? & _); lia]|].
  rewrite -first_not_None. destruct (first_not is_id_char id); cbn; split; try done. by intros (_ & _ & ?).
Qed.

(** The characters a class of text is free of. *)
Ltac by_codes := unfold is_id_char, is_hex_digit, is_alnum, is_lower, is_upper, is_digit, is_ws in *;
  intros [[] [] [] [] [] [] [] []]; vm_compute; congruence.

Lemma valid_path id : validAccountID id = None -> path id = None.
Proof.
  intros (Hne & _ & Hall)%validAccountID_spec. unfold path. destruct (String.eqb_spec id ""); [done|]. cbn [orb].
  rewrite (str_forall_impl is_id_char); [done| |done]. by_codes.
Qed.

Lemma registry_insert_ok r hash id : registry_ok r -> validAccountID id = None -> is_hash hash = true -> registry_ok (<[hash := id]> r).
Proof. intros Hr Hi Hh h i [[<- <-]|[_ H]]%lookup_insert_Some; [done|by apply Hr]. Qed.

Lemma parse_lines_ok lines : forall n r r', registry_ok r -> parse_lines n lines r = inr r' -> registry_ok r'.
Proof.
  induction lines as [|raw rest IH]; intros n r r' Hr; cbn [parse_lines]; [by intros [= <-]|].
  destruct (_ <=? _); [done|]. cbv zeta. destruct (_ || _); [by apply IH|]. destruct (cut _ _) as [[id0 hash0]|]; [|done].
  destruct (validAccountID (trim id0)) eqn:Ev; [done|]. destruct (is_hash _) eqn:Eh; [|done]. cbn [negb].
  destruct (r !! _); [done|]. apply IH. by apply registry_insert_ok.
Qed.

Lemma ParseTokens_ok text r : ParseTokens text = inr r -> registry_ok r /\ r <> ∅.
Proof.
  unfold ParseTokens. destruct (parse_lines _ _ _) as [|r'] eqn:E; [done|]. case_bool_decide; [done|]. intros [= <-].
  split; [|done]. eapply parse_lines_ok; [|exact E]. intros h i. by rewrite lookup_empty.
Qed.

(** ** Minted lines *)

Lemma cut_app c a b : str_forall (fun d => negb (Ascii.eqb c d)) a = true -> cut c (a ++ String c b) = Some (a, b).
Proof.
  induction a as [|d a IH]; cbn; [by rewrite Ascii.eqb_refl|]. rewrite andb_true_iff negb_true_iff. intros [-> Ha]. by rewrite IH.
Qed.

Lemma toLowerCase_hash s : str_forall is_hex_digit s = true -> toLowerCase s = s.
Proof.
  unfold toLowerCase. induction s as [|c s IH]; cbn; [done|]. rewrite andb_true_iff. intros [Hc Hs]. rewrite IH; [|done].
  f_equal. revert c Hc. clear. by_codes.
Qed.

Definition no_newline (l : string) : bool := str_forall (fun d => negb (Ascii.eqb newline d)) l.

(** A file of whole lines. *)
Definition file_of (lines : list string) : string := foldr (fun l text => l ++ String newline text) "" lines.

Lemma split_file lines :
  Forall (fun l => no_newline l = true) lines -> split_on newline (file_of lines) = (lines ++ [""])%list.
Proof.
  induction 1 as [|l lines Hl _ IH]; [done|]. cbn [file_of foldr app]. rewrite -IH. by apply split_on_app.
Qed.

Lemma scan_file lines : Forall (fun l => no_newline l = true) lines -> scan_lines (file_of lines) = lines.
Proof.
  intros H. unfold scan_lines. rewrite (split_file _ H) last_snoc. cbn [default String.eqb]. apply removelast_last.
Qed.

Definition plain (c : ascii) : bool := negb (is_ws c) && negb (Ascii.eqb newline c) && negb (Ascii.eqb "013" c).

Lemma id_plain id : validAccountID id = None -> str_forall plain id = true /\ str_forall (fun d => negb (Ascii.eqb ":" d)) id = true.
Proof.
  intros (_ & _ & H)%validAccountID_spec. split; (eapply str_forall_impl; [|exact H]); by_codes.
Qed.

Lemma hash_plain hash : is_hash hash = true -> str_forall plain hash = true /\ toLowerCase hash = hash.
Proof.
  unfold is_hash. rewrite andb_true_iff. intros [_ H]. split; [|by apply toLowerCase_hash].
  eapply str_forall_impl; [|exact H]. unfold plain. by_codes.
Qed.

Lemma plain_trim s : str_forall plain s = true -> trim s = s.
Proof.
  intros H. apply trim_none. eapply str_forall_impl; [|exact H]. unfold plain. intros c. rewrite !andb_true_iff. by intros [[? _] _].
Qed.

Lemma plain_newline s : str_forall plain s = true -> no_newline s = true.
Proof. intros H. eapply str_forall_impl; [|exact H]. unfold plain. intros c. rewrite !andb_true_iff. by intros [[_ ?] _]. Qed.

Lemma plain_dropCR s : str_forall plain s = true -> dropCR s = s.
Proof.
  intros H. unfold dropCR. destruct (endsWith s _) eqn:E; [|done]. apply endsWith_split in E as (u & ->).
  rewrite str_forall_app in H. by rewrite andb_comm in H.
Qed.

(** A minted line puts its token into the registry. *)
Lemma parse_minted n id hash rest r :
  validAccountID id = None -> is_hash hash = true -> r !! hash = None ->
  parse_lines n ((id ++ ":" ++ hash) :: rest) r = parse_lines (S n) rest (<[hash := id]> r).
Proof.
  intros Hid Hh Hr. destruct (id_plain id Hid) as [Hi1 Hi2], (hash_plain hash Hh) as [Hh1 Hh2].
  pose proof Hid as (Hne & Hlen & Hall)%validAccountID_spec.
  assert (str_forall plain (id ++ ":" ++ hash) = true) as Hp by by rewrite str_forall_app Hi1; cbn; rewrite Hh1.
  assert (String.length hash = 64%nat) as Hl by (unfold is_hash in Hh; apply andb_true_iff in Hh as [?%Nat.eqb_eq _]; done).
  cbn [parse_lines]. destruct (Z.leb_spec MaxScanTokenSize (Z.of_nat (String.length (id ++ ":" ++ hash)))) as [Hbig|_].
  { rewrite !length_str_app Hl in Hbig. unfold MaxScanTokenSize in Hbig. cbn in Hbig. lia. }
  cbv zeta. rewrite (plain_dropCR _ Hp) (plain_trim _ Hp).
  assert (String.eqb (id ++ ":" ++ hash) "" || startsWith (id ++ ":" ++ hash) "#" = false) as ->.
  { destruct id as [|c id]; [done|]. cbn in Hall |- *. apply andb_true_iff in Hall as [Hc _]. clear -Hc. cbn. revert c Hc. by_codes. }
  change (id ++ ":" ++ hash) with (id ++ String ":" hash). rewrite (cut_app _ _ _ Hi2) (plain_trim _ Hi1) (plain_trim _ Hh1) Hh2 Hid Hh Hr.
  done.
Qed.

Section Minted.
Context (sha256_hex : string -> string) (Hhash : forall token, is_hash (sha256_hex token) = true).

Definition minted (entries : list (string * string)) : list string := map (fun e => mintToken sha256_hex e.1 e.2) entries.
Definition registered (entries : list (string * string)) : Registry -> Registry :=
  fold_left (fun r e => <[sha256_hex e.2 := e.1]> r) entries.

Lemma parse_all_minted entries : forall n r,
  (forall e, e ∈ entries -> validAccountID e.1 = None /\ r !! sha256_hex e.2 = None) ->
  NoDup (map (fun e => sha256_hex e.2) entries) ->
  parse_lines n (minted entries) r = inr (registered entries r).
Proof.
  induction entries as [|[a t] entries IH]; intros n r He Hnd; [done|]. apply NoDup_cons in Hnd as [Hnot Hnd].
  destruct (He (a, t)) as [Ha Hr]; [constructor|]. cbn [minted map mintToken fst snd] in *.
  rewrite (parse_minted n a (sha256_hex t) _ r Ha (Hhash t) Hr). apply IH; [|done].
  intros e Hin. split; [by apply He; constructor|]. rewrite lookup_insert_ne; [by apply He; constructor|].
  intros E. apply Hnot. apply list_elem_of_fmap. by exists e.
Qed.

Lemma registered_lookup entries : forall r h a,
  NoDup (map (fun e => sha256_hex e.2) entries) ->
  registered entries r !! h = Some a <->
  (exists t, (a, t) ∈ entries /\ sha256_hex t = h) \/ (r !! h = Some a /\ forall e, e ∈ entries -> sha256_hex e.2 <> h).
Proof.
  induction entries as [|[b t] entries IH]; intros r h a Hnd; [cbn; set_solver|].
  apply NoDup_cons in Hnd as [Hnot Hnd]. cbn [registered fold_left]. rewrite (IH _ _ _ Hnd). cbn [fst snd] in *.
  assert (forall e, e ∈ entries -> sha256_hex e.2 <> sha256_hex t) as Hne.
  { intros e Hin E. apply Hnot. apply list_elem_of_fmap. by exists e. }
  split.
  - intros [(t' & Hin & E)|[Hl Hall]]; [left; exists t'; split; [by constructor|done]|].
    apply lookup_insert_Some in Hl as [[E ->]|[E Hl]]; [left; exists t; split; [constructor|done]|right].
    split; [done|]. intros e [->|Hin]%elem_of_cons; [done|by apply Hall].
  - intros [(t' & [[= -> ->]|Hin]%elem_of_cons & E)|[Hl Hall]].
    + right. rewrite E lookup_insert_eq. split; [done|]. intros e Hin. rewrite -E. by apply Hne.
    + left. by exists t'.
    + right. rewrite lookup_insert_ne; [|apply (Hall (b, t)); constructor]. split; [done|]. intros e Hin. apply Hall. by constructor.
Qed.
End Minted.

Lemma parse_int64_range v n : parse_int64 v = Some n -> - 2 ^ 63 <= n < 2 ^ 63.
Proof.
  assert (forall m, (if (- 2 ^ 63 <=? m) && (m <? 2 ^ 63) then Some m else None) = Some n -> - 2 ^ 63 <= n < 2 ^ 63) as H.
  { intros m. destruct (Z.leb_spec (- 2 ^ 63) m), (Z.ltb_spec m (2 ^ 63)); cbn [andb]; intros [= <-]; lia. }
  unfold parse_int64. intros E.
  assert (exists m, (if (- 2 ^ 63 <=? m) && (m <? 2 ^ 63) then Some m else None) = Some n) as (m & Em); [|by eapply H].
  repeat case_match; apply bind_Some in E as (k & _ & E); by eexists.
Qed.

Lemma Load_object_size lookup cfg : Load lookup = inr cfg -> 0 < cfg_MaxObjectSize cfg < 2 ^ 63.
Proof.
  unfold Load. destruct (bytesOr lookup "DOCKET_MAX_OBJECT_SIZE" _) as [|size] eqn:E1; [done|].
  destruct (bytesOr lookup "DOCKET_MAX_ACCOUNT_BYTES" 0); [done|].
  destruct (String.eqb (stringOr _ "DOCKET_DATA_DIR" _) _); [done|].
  destruct (String.eqb (stringOr _ "DOCKET_TOKENS_FILE" _) _); [done|].
  destruct (Z.leb_spec size 0); [done|]. intros [= <-]. cbn [cfg_MaxObjectSize]. split; [done|]. revert E1. unfold bytesOr.
  destruct (lookup _) as [v|]; [|intros [= <-]; done]. destruct (String.eqb v ""); [intros [= <-]; done|].
  destruct (parse_int64 v) as [m|] eqn:Em; [|done]. intros [= <-]. apply parse_int64_range in Em. lia.
Qed.

(** ** Headers *)

Lemma header_absent k (l : headers) v : forallb (fun h => negb (String.eqb h.1 k)) l = true -> (k, v) ∉ l.
Proof.
  intros H Hin. rewrite ->forallb_forall in H. apply list_elem_of_In, H in Hin. by rewrite String.eqb_refl in Hin.
Qed.

Lemma own_headers_name_no_origin sum16_hex ifNoneMatch rs v :
  ("Access-Control-Allow-Origin", v) ∉ (securityHeaders ++ snd (revalidated sum16_hex ifNoneMatch rs))%list.
Proof.
  apply header_absent. rewrite forallb_app. apply andb_true_iff. split; [done|]. unfold revalidated.
  destruct (rs_body rs); [done| |done]. by destruct (String.eqb _ _).
Qed.

(** * Properties *)

(** The tokens the program mints are the tokens the server takes.  A file of minted lines,
    for accounts with valid names and with no token twice, is accepted, and a token opens
    an account exactly if it was minted for it. *)
Theorem minted_tokens_open_their_accounts sha256_hex entries :
  (forall token, is_hash (sha256_hex token) = true) ->
  (forall e, e ∈ entries -> validAccountID e.1 = None) -> NoDup (map (fun e => sha256_hex e.2) entries) -> entries <> [] ->
  exists registry, ParseTokens (file_of (minted sha256_hex entries)) = inr registry
  /\ forall token account, Lookup sha256_hex token registry = Some account <->
       token <> "" /\ exists minted_token, (account, minted_token) ∈ entries /\ sha256_hex minted_token = sha256_hex token.
Proof.
  intros Hhash Hv Hnd Hne. exists (registered sha256_hex entries ∅).
  assert (parse_lines 1 (scan_lines (file_of (minted sha256_hex entries))) ∅ = inr (registered sha256_hex entries ∅)) as E.
  { rewrite scan_file.
    - apply parse_all_minted; [done| |done]. intros e He. split; [by apply Hv|apply lookup_empty].
    - apply Forall_forall. intros l ([a t] & -> & Hin)%list_elem_of_fmap. apply plain_newline. cbn [fst snd]. unfold mintToken.
      rewrite str_forall_app. destruct (id_plain a (Hv _ Hin)) as [-> _]. cbn. by destruct (hash_plain _ (Hhash t)) as [-> _]. }
  pose proof (fun h a => registered_lookup sha256_hex Hhash entries ∅ h a Hnd) as Hl. split.
  - unfold ParseTokens. rewrite E. case_bool_decide as Hempty; [|done]. destruct entries as [|[a t] rest]; [done|].
    assert (registered sha256_hex ((a, t) :: rest) ∅ !! sha256_hex t = Some a) as H.
    { apply Hl. left. exists t. split; [constructor|done]. }
    by rewrite Hempty lookup_empty in H.
  - intros token account. unfold Lookup. destruct (String.eqb_spec token "") as [->|Ht]; [split; [done|by intros [? _]]|].
    rewrite Hl. split.
    + intros [H|[H _]]; [by split|]. by rewrite lookup_empty in H.
    + intros [_ H]. by left.
Qed.

(** Every account a running server authenticates has a directory of its own: a server that
    started never turns down a request because of the name of its account, and it takes
    objects of some size. *)
Theorem a_started_server_has_room_for_its_accounts sha256_hex lookup read_file files times version s origins rq account :
  start lookup read_file files times version = inr (s, origins) -> authenticate sha256_hex rq s = Some account ->
  path account = None /\ 0 < sv_maxObjectSize s < 2 ^ 63.
Proof.
  unfold start. destruct (Load lookup) as [e|cfg] eqn:El; [done|]. destruct (read_file _) as [text|]; [|done].
  destruct (ParseTokens text) as [e|tokens] eqn:Et; [done|]. intros [= <- <-]. unfold authenticate. cbn [sv_tokens sv_maxObjectSize].
  intros Ha. split.
  - unfold Lookup in Ha. destruct (String.eqb _ ""); [done|]. apply ParseTokens_ok in Et as [Hok _]. apply valid_path. by eapply Hok.
  - by eapply Load_object_size.
Qed.

(** CORS lets in only the origins configured: an answer names an origin only if it is that
    of the request and is listed, or any is; a preflight never reaches the handlers; and
    without configuration no header is added. *)
Theorem cors_names_only_listed_origins sha256_hex sum16_hex origins h rq s rs out s' :
  handler sha256_hex sum16_hex origins h rq s = (rs, out, s') ->
  (forall origin, ("Access-Control-Allow-Origin", origin) ∈ out ->
     origin = h_origin h /\ origin <> "" /\ (origin ∈ origins \/ "*" ∈ origins))
  /\ (h_options h = true -> s' = s)
  /\ (h_options h = true -> rs_status rs = 204 -> h_origin h ∈ origins \/ "*" ∈ origins).
Proof.
  intros E. unfold handler, withCORS in E.
  set (allowed := negb (String.eqb (h_origin h) "") && (bool_decide ("*" ∈ origins) || bool_decide (h_origin h ∈ origins))) in *.
  assert (allowed = true -> h_origin h <> "" /\ (h_origin h ∈ origins \/ "*" ∈ origins)) as Hallowed.
  { unfold allowed. rewrite andb_true_iff negb_true_iff orb_true_iff !bool_decide_eq_true. destruct (String.eqb_spec (h_origin h) ""); naive_solver. }
  set (echoed := if allowed then _ else []) in E.
  assert (forall origin rest, ("Access-Control-Allow-Origin", origin) ∈ (echoed ++ rest)%list ->
    (forall v, ("Access-Control-Allow-Origin", v) ∉ rest) -> origin = h_origin h /\ origin <> "" /\ (origin ∈ origins \/ "*" ∈ origins)) as Hname.
  { intros origin rest Hin Hrest. apply elem_of_app in Hin as [Hin|Hin]; [|by apply Hrest in Hin]. unfold echoed in Hin.
    destruct allowed; [|by apply elem_of_nil in Hin]. destruct (Hallowed eq_refl) as [Hne Hl].
    repeat (apply elem_of_cons in Hin as [Hin|Hin]; [simplify_eq; by split_and!|]). by apply elem_of_nil in Hin. }
  pose proof (fun v => own_headers_name_no_origin sum16_hex "" (mkResponse 0 BEmpty) v) as Hsec. cbn [revalidated rs_body snd] in Hsec.
  rewrite app_nil_r in Hsec.
  assert (forall out0, match (if h_options h then (mkResponse 200 BEmpty, (out0 ++ securityHeaders)%list, s)
      else let '(rs, s') := serve sha256_hex rq s in let '(rs', own) := revalidated sum16_hex (h_ifNoneMatch h) rs in
           (rs', (out0 ++ securityHeaders ++ own)%list, s')) with (rs, out, s') => 
      (exists rest, out = (out0 ++ rest)%list /\ forall v, ("Access-Control-Allow-Origin", v) ∉ rest)
      /\ (h_options h = true -> s' = s /\ rs_status rs = 200) end) as Hpassed.
  { intros out0. destruct (h_options h); [split; [by eexists|done]|].
    destruct (serve sha256_hex rq s) as [rs0 s0]. pose proof (own_headers_name_no_origin sum16_hex (h_ifNoneMatch h) rs0) as Hown.
    destruct (revalidated sum16_hex (h_ifNoneMatch h) rs0) as [rs1 own]. split; [by eexists|done]. }
  destruct (bool_decide_reflect (origins = [])) as [->|Hne]; [|destruct (h_options h && negb (String.eqb (h_requestMethod h) "")) eqn:Epre].
  - specialize (Hpassed []). rewrite E in Hpassed. destruct Hpassed as [(rest & -> & Hrest) Ho]. split_and!.
    + intros origin Hin. by apply Hrest in Hin.
    + by intros [? _]%Ho.
    + intros [_ H]%Ho. by rewrite H.
  - destruct allowed eqn:Ea; injection E as <- <- <-; split_and!; try done.
    + intros origin Hin. apply (Hname _ _ Hin). intros v. by apply header_absent.
    + intros _ _. by apply Hallowed.
    + intros origin Hin. apply (Hname _ []); [by rewrite app_nil_r|]. intros v. apply not_elem_of_nil.
  - specialize (Hpassed echoed). rewrite E in Hpassed. destruct Hpassed as [(rest & -> & Hrest) Ho]. split_and!.
    + intros origin Hin. by eapply Hname.
    + by intros [? _]%Ho.
    + intros [_ H]%Ho. by rewrite H.
Qed.

(** * Witnesses *)

Definition demo_hex (token : string) : string := fixed 16 64 (Z.of_nat (String.length token)) "".

Lemma demo_hex_hash token : is_hash (demo_hex token) = true.
Proof.
  unfold is_hash, demo_hex. rewrite (length_fixed 16). apply andb_true_iff. split; [done|].
  apply (str_forall_fixed 16); [lia| |done]. intros d Hd. unfold is_hex_digit, is_digit, digit_char.
  rewrite code_chr; [|case_match; lia]. destruct (Z.ltb_spec d 10); lia.
Qed.

Lemma minted_tokens_open_their_accounts_witness :
  exists registry, ParseTokens (file_of (minted demo_hex [("alice", "a"); ("bob", "bb")])) = inr registry
  /\ Lookup demo_hex "bb" registry = Some "bob".
Proof.
  destruct (minted_tokens_open_their_accounts demo_hex [("alice", "a"); ("bob", "bb")]) as (r & Hr & Hl).
  - exact demo_hex_hash.
  - intros e [->|[->|[]%elem_of_nil]%elem_of_cons]%elem_of_cons; reflexivity.
  - apply (bool_decide_unpack (NoDup _)). vm_compute. exact I.
  - discriminate.
  - exists r. split; [exact Hr|]. apply Hl. split; [discriminate|]. exists "bb". split; [elem_of_closed|reflexivity].
Defined.

Definition demo_env (key : string) : option string :=
  if String.eqb key "DOCKET_DATA_DIR" then Some "/data"
  else if String.eqb key "DOCKET_TOKENS_FILE" then Some "/tokens"
  else if String.eqb key "DOCKET_MAX_ACCOUNT_BYTES" then Some "-1" else None.

Definition demo_tokens_file (name : string) : option string :=
  if String.eqb name "/tokens" then Some (file_of (minted demo_hex [("alice", "a")])) else None.
Definition demo_started := start demo_env demo_tokens_file (fun _ => ∅) (fun _ => 0) "dev".
Definition demo_request : Request := mkRequest GET "/v1/objects" [] "Bearer a" [].

Lemma a_started_server_has_room_for_its_accounts_witness :
  exists s origins, demo_started = inr (s, origins) /\ authenticate demo_hex demo_request s = Some "alice" /\ path "alice" = None.
Proof.
  destruct demo_started as [e|[s origins]] eqn:E; [vm_compute in E; discriminate|]. exists s, origins. split; [reflexivity|].
  assert (authenticate demo_hex demo_request s = Some "alice") as Ha.
  { assert (match demo_started with inr (s0, _) => authenticate demo_hex demo_request s0 | inl _ => None end = Some "alice") as H
      by (vm_compute; reflexivity). by rewrite E in H. }
  split; [exact Ha|].
  exact (proj1 (a_started_server_has_room_for_its_accounts demo_hex _ _ _ _ _ s origins demo_request "alice" E Ha)).
Defined.

(** A preflight of a listed origin, at a server that lists it. *)
Lemma cors_names_only_listed_origins_witness :
  exists rs out s', handler demo_hex (fun _ => "") ["https://app"] (mkHeaders "https://app" true "PUT" "")
      (mkRequest GET "/" [] "" []) (mkServer (mkStore ∅ 0 (fun _ => 0) 0) ∅ 1 "dev") = (rs, out, s')
  /\ rs_status rs = 204 /\ ("https://app" ∈ ["https://app"] \/ "*" ∈ ["https://app"]).
Proof.
  eexists _, _, _. split; [reflexivity|]. split; [reflexivity|].
  exact (proj2 (proj2 (cors_names_only_listed_origins demo_hex (fun _ => "") ["https://app"] (mkHeaders "https://app" true "PUT" "")
    (mkRequest GET "/" [] "" []) (mkServer (mkStore ∅ 0 (fun _ => 0) 0) ∅ 1 "dev") _ _ _ eq_refl)) eq_refl eq_refl).
Defined.

(** * Behaviours that are not meant *)

(** A negative quota is accepted at start-up and means none. *)
Lemma a_negative_quota_is_unlimited :
  (exists cfg, Load demo_env = inr cfg /\ cfg_MaxAccountBytes cfg = -1)
  /\ forall s account name data, fs_quota s = -1 -> fst (Put account name data s) <> Some ErrQuotaExceeded.
Proof.
  split; [eexists; split; [reflexivity|reflexivity]|]. intros s account name data Hq. unfold Put.
  destruct (ValidateName name) as [e|] eqn:Ev.
  - unfold ValidateName in Ev. repeat case_match; simplify_eq; cbn; congruence.
  - destruct (path account) as [e|] eqn:Ep; [unfold path in Ep; repeat case_match; simplify_eq; cbn; congruence|].
    destruct (account_files account s !! name); [case_bool_decide; done|]. by rewrite Hq.
Qed.

(** The [token] command mints for any account; a name the tokens file may not hold makes
    the server refuse to start. *)
Lemma minting_does_not_check_the_account :
  ParseTokens (file_of [mintToken demo_hex "bob.smith" "a"]) = inl (AtLine 1 (BadAccount (InvalidCharacter "."))).
Proof. vm_compute. reflexivity. Qed.
