(* ===== verification/StoreLocks.v ===== *)
(** Concurrent requests at the store of the bundled server
    ([server/internal/storage/fsstore.go]).  [SyncServer] takes an upload or a deletion as
    one step and computes the usage of an account each time; here each runs in the steps
    its critical section has, under the lock of its account and with the cache of usages.
    Whatever the interleaving, the store and every answer are those of the calls made one
    at a time. *)
From S2P Require Export SyncServer.
#[local] Open Scope string_scope.
#[local] Open Scope Z_scope.

(** * Definitions *)

(** The store with its cache of usages. *)
Record Cached : Type := mkCached { ca_store : FSStore; ca_usages : gmap string Z }.

Definition usage (account : string) (c : Cached) : Z * Cached :=
  match ca_usages c !! account with
  | Some cached => (cached, c)
  | None => let total := Usage account (ca_store c) in
            (total, mkCached (ca_store c) (<[account := total]> (ca_usages c)))
  end.
Definition forget (account : string) (c : Cached) : Cached := mkCached (ca_store c) (delete account (ca_usages c)).

(** The checks of [Put] under the lock: it returns there, or goes on to write. *)
Definition check (account name : string) (data : bytes) (c : Cached) : option (option StoreError) * Cached :=
  match account_files account (ca_store c) !! name with
  | Some existing => (Some (if bool_decide (f_data existing = data) then None else Some ErrAlreadyExists), c)
  | None =>
      if 0 <? fs_quota (ca_store c) then
        let '(used, c') := usage account c in
        if fs_quota (ca_store c) <? used + Z.of_nat (length data) then (Some (Some ErrQuotaExceeded), c') else (None, c')
      else (None, c)
  end.

(** The rename that puts the written file in place, and the removal of a file. *)
Definition rename (account name : string) (data : bytes) (c : Cached) : Cached :=
  mkCached (write_file account name data (ca_store c)) (ca_usages c).
Definition remove_file (account name : string) (c : Cached) : Cached :=
  mkCached (set_files (<[account := delete name (account_files account (ca_store c))]> (fs_files (ca_store c))) (ca_store c))
    (ca_usages c).

Inductive Call : Type := PutCall (account name : string) (data : bytes) | DeleteCall (account name : string).
Definition call_account (call : Call) : string := match call with PutCall a _ _ | DeleteCall a _ => a end.

(** What is refused before the lock is taken. *)
Definition refused (call : Call) : option StoreError :=
  match call with
  | PutCall account name _ | DeleteCall account name =>
      match ValidateName name with Some e => Some e | None => path account end
  end.

(** Where a request is: before the lock, holding it, past its checks, past its write, or done. *)
Inductive Stage : Type := Waiting | Holding | Writable | Stored | Returned (r : option StoreError).

Record System : Type := mkSystem { sy_cached : Cached; sy_locks : gmap string nat; sy_calls : gmap nat (Call * Stage) }.

Definition to_stage (i : nat) (call : Call) (stage : Stage) (c : Cached) (sy : System) : System :=
  mkSystem c (sy_locks sy) (<[i := (call, stage)]> (sy_calls sy)).
Definition unlock (account : string) (sy : System) : System :=
  mkSystem (sy_cached sy) (delete account (sy_locks sy)) (sy_calls sy).
Definition lock (account : string) (i : nat) (sy : System) : System :=
  mkSystem (sy_cached sy) (<[account := i]> (sy_locks sy)) (sy_calls sy).

(** Arriving: refused, or waiting for the lock, or taking it. *)
Definition enter (i : nat) (call : Call) (sy : System) : System :=
  match refused call with
  | Some e => to_stage i call (Returned (Some e)) (sy_cached sy) sy
  | None =>
      match sy_locks sy !! call_account call with
      | Some _ => sy
      | None => lock (call_account call) i (to_stage i call Holding (sy_cached sy) sy)
      end
  end.

(** Leaving: the cached usage dropped, then the lock released. *)
Definition leave (i : nat) (call : Call) (sy : System) : System :=
  unlock (call_account call) (to_stage i call (Returned None) (forget (call_account call) (sy_cached sy)) sy).

(** The next step of request [i]. *)
Definition progress (i : nat) (sy : System) : System :=
  let c := sy_cached sy in
  match sy_calls sy !! i with
  | Some (call, Waiting) => enter i call sy
  | Some (PutCall account name data as call, Holding) =>
      match check account name data c with
      | (Some r, c') => unlock account (to_stage i call (Returned r) c' sy)
      | (None, c') => to_stage i call Writable c' sy
      end
  | Some (DeleteCall account name as call, Holding) => to_stage i call Stored (remove_file account name c) sy
  | Some (PutCall account name data as call, Writable) => to_stage i call Stored (rename account name data c) sy
  | Some (call, Stored) => leave i call sy
  | _ => sy
  end.

(** A schedule says which request moves next. *)
Definition run_schedule (schedule : list nat) (sy : System) : System := fold_left (fun sy i => progress i sy) schedule sy.

(** Requests just arrived at a store at rest. *)
Definition arrived (s : FSStore) (calls : gmap nat Call) : System :=
  mkSystem (mkCached s ∅) ∅ ((fun call => (call, Waiting)) <$> calls).

(** * Specification *)

(** One call at a time. *)
Definition perform (call : Call) (s : FSStore) : option StoreError * FSStore :=
  match call with PutCall account name data => Put account name data s | DeleteCall account name => Delete account name s end.

(** A history: the calls in the order they took effect, with their answers. *)
Definition History : Type := list (nat * Call * option StoreError).
Inductive sequential (s : FSStore) : History -> FSStore -> Prop :=
| sequential_nil : sequential s [] s
| sequential_snoc h now i call :
    sequential s h now -> sequential s (app h [(i, call, fst (perform call now))]) (snd (perform call now)).

(** What a system shows is explained by a history: its store is the one the history
    leaves, each request took effect once at most, and the requests with an answer, and
    those that have only to release the lock, are in it with that answer. *)
Record linearized (s : FSStore) (calls : gmap nat Call) (h : History) (sy : System) : Prop := mkLinearized {
  ln_calls : fst <$> sy_calls sy = calls;
  ln_store : sequential s h (ca_store (sy_cached sy));
  ln_once : NoDup (map (fun entry => entry.1.1) h);
  ln_answers : forall i call r, (i, call, r) ∈ h <->
    sy_calls sy !! i = Some (call, Returned r) \/ (sy_calls sy !! i = Some (call, Stored) /\ r = None) }.

(** * Lemmas *)

Definition exact_for (account : string) (c : Cached) : Prop :=
  forall total, ca_usages c !! account = Some total -> total = Usage account (ca_store c).

Lemma usage_spec account c :
  exact_for account c ->
  fst (usage account c) = Usage account (ca_store c) /\ ca_store (snd (usage account c)) = ca_store c
  /\ exact_for account (snd (usage account c))
  /\ forall b, b <> account -> ca_usages (snd (usage account c)) !! b = ca_usages c !! b.
Proof.
  intros H. unfold usage. destruct (ca_usages c !! account) as [v|] eqn:E; cbn [fst snd ca_store ca_usages].
  - split_and!; [by apply H|done|done|done].
  - split_and!; [done|done| |intros b Hb; by rewrite lookup_insert_ne].
    intros total. cbn. rewrite lookup_insert_eq. by intros [= <-].
Qed.

(** With an exact cache the checks are those of [Put]. *)
Lemma check_spec account name data c r c' :
  exact_for account c -> ValidateName name = None -> path account = None -> check account name data c = (r, c') ->
  ca_store c' = ca_store c /\ exact_for account c' /\ (forall b, b <> account -> ca_usages c' !! b = ca_usages c !! b)
  /\ Put account name data (ca_store c)
     = match r with Some answer => (answer, ca_store c) | None => (None, write_file account name data (ca_store c)) end
  /\ (r = None -> account_files account (ca_store c) !! name = None).
Proof.
  intros Hx Hv Hp. unfold check, Put. rewrite Hv Hp.
  destruct (account_files account (ca_store c) !! name) as [f|] eqn:Ef.
  { intros [= <- <-]. split_and!; [done..| |done]. by case_bool_decide. }
  destruct (usage_spec account c Hx) as (Hu & Hs & Hx' & Hb). destruct (usage account c) as [used c1]. cbn [fst snd] in *.
  rewrite Hu. destruct (0 <? fs_quota (ca_store c)); cbn [andb]; [|by intros [= <- <-]].
  destruct (fs_quota (ca_store c) <? Usage account (ca_store c) + Z.of_nat (length data)); by intros [= <- <-].
Qed.

(** ** The invariant *)

Definition active (stage : Stage) : bool := match stage with Holding | Writable | Stored => true | _ => false end.

(** Who is past the lock holds it and what it checked still stands; the cached usage of an
    account is exact unless a request has just written there. *)
Record disciplined (sy : System) : Prop := mkGuarded {
  gu_locked : forall i call stage, sy_calls sy !! i = Some (call, stage) -> active stage = true ->
    sy_locks sy !! call_account call = Some i /\ refused call = None;
  gu_held : forall account i, sy_locks sy !! account = Some i ->
    exists call stage, sy_calls sy !! i = Some (call, stage) /\ active stage = true /\ call_account call = account;
  gu_writable : forall i call, sy_calls sy !! i = Some (call, Writable) ->
    exists account name data, call = PutCall account name data
    /\ Put account name data (ca_store (sy_cached sy)) = (None, write_file account name data (ca_store (sy_cached sy)));
  gu_exact : forall account, exact_for account (sy_cached sy)
    \/ exists i call, sy_calls sy !! i = Some (call, Stored) /\ call_account call = account }.

(** Only the files of its account decide what a [PUT] does. *)
Lemma put_writes_frame account name data s s' :
  account_files account s' = account_files account s -> fs_quota s' = fs_quota s ->
  Put account name data s = (None, write_file account name data s) ->
  Put account name data s' = (None, write_file account name data s').
Proof.
  intros Hf Hq. unfold Put, Usage. rewrite Hf Hq.
  destruct (ValidateName name); [done|]. destruct (path account); [done|].
  destruct (account_files account s !! name) as [f|]; [|by destruct (_ && _)].
  case_bool_decide; [|done]. intros [= E]. apply (f_equal fs_writes) in E. cbn in E. lia.
Qed.

Lemma fst_insert (calls : gmap nat (Call * Stage)) i call stage stage' :
  calls !! i = Some (call, stage) -> fst <$> <[i := (call, stage')]> calls = fst <$> calls.
Proof.
  intros H. apply map_eq. intros j. rewrite !lookup_fmap. destruct (decide (j = i)) as [->|Hne].
  - by rewrite lookup_insert_eq H.
  - by rewrite lookup_insert_ne.
Qed.

(** A request that has taken no effect yet, and takes none in this step. *)
Lemma linearized_move s calls h sy i call stage stage' c locks :
  linearized s calls h sy -> sy_calls sy !! i = Some (call, stage) -> ca_store c = ca_store (sy_cached sy) ->
  (stage = Stored /\ stage' = Returned None
   \/ (forall r, stage <> Returned r) /\ stage <> Stored /\ (forall r, stage' <> Returned r) /\ stage' <> Stored) ->
  linearized s calls h (mkSystem c locks (<[i := (call, stage')]> (sy_calls sy))).
Proof.
  intros [Hc Hs Ho Ha] Hi Hst Hstage. split; cbn; [by rewrite (fst_insert _ _ _ _ _ Hi)|by rewrite Hst|done|].
  intros j call' r. rewrite Ha. destruct (decide (j = i)) as [->|Hne]; [|by rewrite lookup_insert_ne].
  rewrite lookup_insert_eq Hi. destruct Hstage as [(-> & ->)|(H1 & H2 & H3 & H4)]; naive_solver.
Qed.

(** A request that takes effect. *)
Lemma linearized_effect s calls h sy i call stage stage' c locks :
  linearized s calls h sy -> sy_calls sy !! i = Some (call, stage) ->
  (forall r, stage <> Returned r) -> stage <> Stored ->
  ca_store c = snd (perform call (ca_store (sy_cached sy))) ->
  (stage' = Returned (fst (perform call (ca_store (sy_cached sy))))
   \/ stage' = Stored /\ fst (perform call (ca_store (sy_cached sy))) = None) ->
  linearized s calls (app h [(i, call, fst (perform call (ca_store (sy_cached sy))))])
    (mkSystem c locks (<[i := (call, stage')]> (sy_calls sy))).
Proof.
  intros [Hc Hs Ho Ha] Hi Hr Hnst Hst Hstage. split; cbn; [by rewrite (fst_insert _ _ _ _ _ Hi)|rewrite Hst; by constructor| |].
  - rewrite map_app. apply NoDup_app. split_and!; [done| |apply NoDup_singleton]. cbn. intros j Hj ->%list_elem_of_singleton.
    apply list_elem_of_fmap in Hj as ([[j' call'] r] & Hj & Hin). cbn in Hj. subst j'. apply Ha in Hin as [Hin|[Hin _]]; naive_solver.
  - intros j call' r. rewrite elem_of_app list_elem_of_singleton Ha. destruct (decide (j = i)) as [->|Hne].
    + rewrite lookup_insert_eq Hi. destruct Hstage as [->|[-> E]]; [|rewrite E]; naive_solver.
    + rewrite lookup_insert_ne; [|done]. naive_solver.
Qed.

(** A step of request [i] under the lock of its account, or taking or releasing it. *)
Lemma disciplined_step sy i call stage stage' c' locks' :
  let a := call_account call in
  disciplined sy -> sy_calls sy !! i = Some (call, stage) ->
  locks' = (if active stage' then <[a := i]> (sy_locks sy) else if active stage then delete a (sy_locks sy) else sy_locks sy) ->
  (active stage = false -> c' = sy_cached sy /\ (active stage' = true -> stage' = Holding /\ refused call = None /\ sy_locks sy !! a = None)) ->
  (forall b, b <> a -> account_files b (ca_store c') = account_files b (ca_store (sy_cached sy))
                       /\ ca_usages c' !! b = ca_usages (sy_cached sy) !! b) ->
  fs_quota (ca_store c') = fs_quota (ca_store (sy_cached sy)) ->
  (stage' = Writable -> exists name data, call = PutCall a name data
    /\ Put a name data (ca_store c') = (None, write_file a name data (ca_store c'))) ->
  (active stage = true -> stage' = Stored \/ exact_for a c') ->
  disciplined (mkSystem c' locks' (<[i := (call, stage')]> (sy_calls sy))).
Proof.
  intros a. assert (call_account call = a) as Eca by done. clearbody a. intros Hg Hi -> Hidle Hframe Hq Hw Hx.
  assert (forall j call0 stage0, j <> i -> sy_calls sy !! j = Some (call0, stage0) -> active stage0 = true -> call_account call0 = a ->
    active stage = false /\ active stage' = false) as Hex.
  { intros j call0 stage0 Hne Hj Hact Ha. destruct (gu_locked _ Hg j _ _ Hj Hact) as [Hl _]. rewrite Ha in Hl.
    destruct (active stage) eqn:E; [destruct (gu_locked _ Hg i _ _ Hi E) as [Hl' _]; congruence|].
    split; [done|]. destruct (active stage') eqn:E'; [|done]. destruct (Hidle eq_refl) as [_ H]. destruct (H eq_refl) as (_ & _ & H'). congruence. }
  split; cbn.
  - intros j call0 stage0 [(<- & [= <- <-])|(Hne & Hj)]%lookup_insert_Some Hact.
    + rewrite Hact Eca lookup_insert_eq. split; [done|]. destruct (active stage) eqn:E.
      * exact (proj2 (gu_locked _ Hg i _ _ Hi E)).
      * destruct (Hidle eq_refl) as [_ H]. naive_solver.
    + destruct (gu_locked _ Hg j _ _ Hj Hact) as [Hl Hr]. split; [|done].
      destruct (decide (call_account call0 = a)) as [Ha|Ha].
      * destruct (Hex j _ _ ltac:(done) Hj Hact Ha) as [-> ->]. done.
      * by repeat case_match; rewrite ?lookup_insert_ne ?lookup_delete_ne.
  - intros b j Hl. destruct (decide (b = a)) as [->|Hb].
    + destruct (active stage') eqn:E'.
      { rewrite lookup_insert_eq in Hl. injection Hl as <-. exists call, stage'. by rewrite lookup_insert_eq. }
      destruct (active stage) eqn:E; [by rewrite lookup_delete_eq in Hl|].
      destruct (gu_held _ Hg _ _ Hl) as (call0 & stage0 & Hj & Hact & Ha). exists call0, stage0. rewrite lookup_insert_ne; [done|].
      intros <-. congruence.
    + assert (sy_locks sy !! b = Some j) as Hl' by (by repeat case_match; rewrite ?lookup_insert_ne ?lookup_delete_ne in Hl).
      destruct (gu_held _ Hg _ _ Hl') as (call0 & stage0 & Hj & Hact & Ha). exists call0, stage0. rewrite lookup_insert_ne; [done|].
      intros <-. congruence.
  - intros j call0 [(<- & [= <- ->])|(Hne & Hj)]%lookup_insert_Some.
    + destruct (Hw eq_refl) as (name & data & -> & HP). cbn in *. by exists a, name, data.
    + destruct (gu_writable _ Hg _ _ Hj) as (b & name & data & -> & HP). exists b, name, data. split; [done|].
      destruct (decide (b = a)) as [Hb|Hb].
      * destruct (Hex j _ _ ltac:(done) Hj eq_refl Hb) as [E _]. destruct (Hidle E) as [-> _]. done.
      * eapply put_writes_frame; [exact (proj1 (Hframe b Hb))|exact Hq|exact HP].
  - intros b. destruct (decide (b = a)) as [->|Hb].
    + destruct (active stage) eqn:E.
      * destruct (Hx eq_refl) as [->|Hx']; [right; exists i, call; by rewrite lookup_insert_eq|by left].
      * destruct (Hidle eq_refl) as [-> _]. destruct (gu_exact _ Hg a) as [H|(j & call0 & Hj & Ha)]; [by left|right].
        exists j, call0. rewrite lookup_insert_ne; [done|]. intros <-. rewrite Hi in Hj. injection Hj as _ ->. done.
    + destruct (gu_exact _ Hg b) as [H|(j & call0 & Hj & Ha)].
      * left. intros total. unfold Usage. destruct (Hframe b Hb) as [-> ->]. apply H.
      * right. exists j, call0. rewrite lookup_insert_ne; [done|]. intros <-. congruence.
Qed.

(** Who holds the lock and has not written finds an exact cache. *)
Lemma holder_exact sy i call stage :
  disciplined sy -> sy_calls sy !! i = Some (call, stage) -> active stage = true -> stage <> Stored ->
  exact_for (call_account call) (sy_cached sy).
Proof.
  intros Hg Hi Hact Hst. destruct (gu_exact _ Hg (call_account call)) as [H|(j & call0 & Hj & Ha)]; [done|].
  destruct (gu_locked _ Hg _ _ _ Hi Hact) as [Hl _]. destruct (gu_locked _ Hg _ _ _ Hj eq_refl) as [Hl' _]. congruence.
Qed.

Lemma not_refused account name : refused (DeleteCall account name) = None -> ValidateName name = None /\ path account = None.
Proof. cbn. by destruct (ValidateName name). Qed.

Lemma perform_refused call s e : refused call = Some e -> perform call s = (Some e, s).
Proof.
  destruct call as [account name data|account name]; cbn; unfold Put, Delete;
    (destruct (ValidateName name); [by intros [= ->]|by intros ->]).
Qed.

Lemma rename_frame account name data c b : b <> account ->
  account_files b (ca_store (rename account name data c)) = account_files b (ca_store c)
  /\ ca_usages (rename account name data c) !! b = ca_usages c !! b.
Proof. intros Hb. split; [|done]. cbn. by rewrite account_files_write decide_False. Qed.

Lemma remove_frame account name c b : b <> account ->
  account_files b (ca_store (remove_file account name c)) = account_files b (ca_store c)
  /\ ca_usages (remove_file account name c) !! b = ca_usages c !! b.
Proof. intros Hb. split; [|done]. cbn. by rewrite account_files_insert decide_False. Qed.

Section Step.
Context (s : FSStore) (calls : gmap nat Call) (h : History) (sy : System) (i : nat).
Hypothesis Hl : linearized s calls h sy.
Hypothesis Hg : disciplined sy.

(** The guards hold after a step, and the history has grown by what took effect in it. *)
Definition explained (sy' : System) : Prop := exists h', linearized s calls (app h h') sy' /\ disciplined sy'.

Lemma explained_same : explained sy.
Proof. exists []. by rewrite app_nil_r. Qed.

Lemma enter_ok call : sy_calls sy !! i = Some (call, Waiting) -> explained (enter i call sy).
Proof.
  intros Hi. unfold enter. destruct (refused call) as [e|] eqn:Er.
  - pose proof (perform_refused call (ca_store (sy_cached sy)) e Er) as Ep. eexists. split.
    + eapply (linearized_effect _ _ _ _ _ _ _ (Returned (Some e))); [done|done|done|done|by rewrite Ep|left; by rewrite Ep].
    + by apply (disciplined_step sy i call Waiting).
  - destruct (sy_locks sy !! call_account call) eqn:Elock; [exact explained_same|]. exists []. rewrite app_nil_r. split.
    + eapply (linearized_move _ _ _ _ _ _ _ Holding); [done|done|done|]. right. naive_solver.
    + by apply (disciplined_step sy i call Waiting).
Qed.

Lemma leave_ok call : sy_calls sy !! i = Some (call, Stored) -> explained (leave i call sy).
Proof.
  intros Hi. exists []. rewrite app_nil_r. split.
  - eapply (linearized_move _ _ _ _ _ _ _ (Returned None)); [done|done|done|by left].
  - apply (disciplined_step sy i call Stored); try done.
    + intros b Hb. split; [done|]. cbn. by rewrite lookup_delete_ne.
    + intros _. right. intros total. cbn. by rewrite lookup_delete_eq.
Qed.

Lemma check_ok account name data : let call := PutCall account name data in
  sy_calls sy !! i = Some (call, Holding) ->
  explained match check account name data (sy_cached sy) with
            | (Some r, c') => unlock account (to_stage i call (Returned r) c' sy)
            | (None, c') => to_stage i call Writable c' sy
            end.
Proof.
  intros call Hi. destruct (gu_locked _ Hg _ _ _ Hi eq_refl) as [Hlock Hr].
  destruct (check account name data (sy_cached sy)) as [r c'] eqn:Ec. destruct (not_refused account name Hr) as [Hv Hp].
  destruct (check_spec _ _ _ _ _ _ (holder_exact _ _ _ _ Hg Hi eq_refl ltac:(done)) Hv Hp Ec) as (Hs & Hx & Hb & HP & _).
  destruct r as [r|].
  - eexists. split.
    + eapply (linearized_effect _ _ _ _ _ _ _ (Returned r)); [done|done|done|done|cbn; by rewrite HP|left; cbn; by rewrite HP].
    + apply (disciplined_step sy i call Holding); try done; [|by rewrite Hs|by right]. intros b Hne. by rewrite Hs Hb.
  - exists []. rewrite app_nil_r. split.
    + eapply (linearized_move _ _ _ _ _ _ _ Writable); [done|done|done|]. right. naive_solver.
    + apply (disciplined_step sy i call Holding); try done; [by rewrite insert_id| |by rewrite Hs| |by right].
      * intros b Hne. by rewrite Hs Hb.
      * intros _. exists name, data. by rewrite Hs HP.
Qed.

(** A write that takes effect under the lock. *)
Lemma write_ok call stage c' :
  sy_calls sy !! i = Some (call, stage) -> stage = Holding \/ stage = Writable ->
  perform call (ca_store (sy_cached sy)) = (None, ca_store c') -> fs_quota (ca_store c') = fs_quota (ca_store (sy_cached sy)) ->
  (forall b, b <> call_account call -> account_files b (ca_store c') = account_files b (ca_store (sy_cached sy))
                                       /\ ca_usages c' !! b = ca_usages (sy_cached sy) !! b) ->
  explained (to_stage i call Stored c' sy).
Proof.
  intros Hi Hstage HP Hq Hframe. assert (active stage = true) as Hact by by destruct Hstage as [->| ->].
  destruct (gu_locked _ Hg _ _ _ Hi Hact) as [Hlock _]. eexists. split.
  - eapply (linearized_effect _ _ _ _ _ _ _ Stored); [done|done| | |by rewrite HP|right; by rewrite HP]; by destruct Hstage as [->| ->].
  - apply (disciplined_step sy i call stage); try done; [by rewrite insert_id|by rewrite Hact|by left].
Qed.

Lemma progress_ok : explained (progress i sy).
Proof.
  unfold progress. destruct (sy_calls sy !! i) as [[call stage]|] eqn:Hi; [|exact explained_same].
  destruct stage as [| | | |r]; [| | | |by destruct call; exact explained_same].
  - destruct call; by apply enter_ok.
  - destruct call as [account name data|account name]; [by apply check_ok|].
    destruct (gu_locked _ Hg _ _ _ Hi eq_refl) as [_ Hr]. destruct (not_refused account name Hr) as [Hv Hp].
    eapply write_ok; [done|by left| |done|intros; by apply remove_frame]. cbn. unfold Delete. by rewrite Hv Hp.
  - destruct (gu_writable _ Hg _ _ Hi) as (account & name & data & -> & HP).
    eapply write_ok; [done|by right|exact HP|done|intros; by apply rename_frame].
  - destruct call; by apply leave_ok.
Qed.
End Step.

Lemma arrived_ok s calls : linearized s calls [] (arrived s calls) /\ disciplined (arrived s calls).
Proof.
  split; split; cbn.
  - apply map_eq. intros j. rewrite !lookup_fmap. by destruct (calls !! j).
  - constructor.
  - constructor.
  - intros i call r. rewrite lookup_fmap. split; [set_solver|]. destruct (calls !! i); naive_solver.
  - intros i call stage. rewrite lookup_fmap. destruct (calls !! i); naive_solver.
  - intros account i. by rewrite lookup_empty.
  - intros i call. rewrite lookup_fmap. destruct (calls !! i); naive_solver.
  - intros account. left. intros total. cbn. by rewrite lookup_empty.
Qed.

Lemma run_schedule_ok s calls schedule : forall h sy,
  linearized s calls h sy -> disciplined sy -> explained s calls h (run_schedule schedule sy).
Proof.
  induction schedule as [|i schedule IH]; intros h sy Hl Hg; [by apply explained_same|].
  destruct (progress_ok s calls h sy i Hl Hg) as (h1 & Hl1 & Hg1). destruct (IH _ _ Hl1 Hg1) as (h2 & Hl2 & Hg2).
  exists (app h1 h2). by rewrite app_assoc.
Qed.

(** ** Progress *)

(** The steps a request has left at most. *)
Definition left_of (stage : Stage) : nat :=
  match stage with Waiting => 4 | Holding => 3 | Writable => 2 | Stored => 1 | Returned _ => 0 end.
Definition remaining (sy : System) : nat := sum_list_with (fun kv => left_of kv.2.2) (map_to_list (sy_calls sy)).

Lemma remaining_insert i call stage (calls : gmap nat (Call * Stage)) c locks : calls !! i = None ->
  remaining (mkSystem c locks (<[i := (call, stage)]> calls)) = (left_of stage + remaining (mkSystem c locks calls))%nat.
Proof.
  intros Hn. unfold remaining. cbn. by rewrite map_to_list_insert.
Qed.

Lemma remaining_move i call stage stage' (calls : gmap nat (Call * Stage)) c c' locks locks' :
  calls !! i = Some (call, stage) ->
  (remaining (mkSystem c' locks' (<[i := (call, stage')]> calls)) + left_of stage
   = left_of stage' + remaining (mkSystem c locks calls))%nat.
Proof.
  intros Hi. rewrite -(insert_delete_id calls i (call, stage) Hi) insert_insert_eq.
  rewrite !remaining_insert; [|by rewrite lookup_delete_eq..]. unfold remaining. cbn. lia.
Qed.

(** A request that waits for no one moves. *)
Lemma progress_moves sy i call stage :
  sy_calls sy !! i = Some (call, stage) -> (forall r, stage <> Returned r) ->
  (forall account name, call = DeleteCall account name -> stage <> Writable) ->
  (stage = Waiting -> refused call = None -> sy_locks sy !! call_account call = None) ->
  (remaining (progress i sy) < remaining sy)%nat.
Proof.
  intros Hi Hr Hd Hfree. destruct sy as [c locks cs]. cbn in *.
  assert (forall c' locks' stage', (left_of stage' < left_of stage)%nat ->
    (remaining (mkSystem c' locks' (<[i := (call, stage')]> cs)) < remaining (mkSystem c locks cs))%nat) as Hmove.
  { intros c' locks' stage' Hlt. pose proof (remaining_move i call stage stage' cs c c' locks locks' Hi). lia. }
  unfold progress. cbn [sy_calls sy_cached]. rewrite Hi. destruct stage; [| | | |by destruct (Hr r)].
  - assert (remaining (enter i call (mkSystem c locks cs)) < remaining (mkSystem c locks cs))%nat; [|by destruct call].
    unfold enter. destruct (refused call) eqn:E; [apply Hmove; cbn; lia|]. cbn. rewrite Hfree; [|done..]. apply Hmove. cbn. lia.
  - destruct call as [account name data|account name]; [|apply Hmove; cbn; lia].
    destruct (check account name data c) as [[r|] c']; apply Hmove; cbn; lia.
  - destruct call as [account name data|account name]; [apply Hmove; cbn; lia|]. by destruct (Hd account name).
  - assert (remaining (leave i call (mkSystem c locks cs)) < remaining (mkSystem c locks cs))%nat; [|by destruct call].
    apply Hmove. cbn. lia.
Qed.

(** Unless every request has its answer, one can move: a request waits only for one that
    holds its lock, and that one waits for no one. *)
Lemma someone_moves sy i call stage :
  disciplined sy -> sy_calls sy !! i = Some (call, stage) -> (forall r, stage <> Returned r) ->
  exists j, (remaining (progress j sy) < remaining sy)%nat.
Proof.
  intros Hg Hi Hr.
  assert (forall j call0 stage0, sy_calls sy !! j = Some (call0, stage0) -> active stage0 = true ->
    (remaining (progress j sy) < remaining sy)%nat) as Hactive.
  { intros j call0 stage0 Hj Hact. eapply progress_moves; [done|by intros r ->| |by intros ->].
    intros account name -> ->. destruct (gu_writable _ Hg _ _ Hj) as (? & ? & ? & ? & _). done. }
  destruct (active stage) eqn:E; [exists i; by eapply Hactive|]. destruct stage; [|done..|by destruct (Hr r)].
  destruct (sy_locks sy !! call_account call) as [j|] eqn:El.
  - destruct (gu_held _ Hg _ _ El) as (call0 & stage0 & Hj & Hact & _). exists j. by eapply Hactive.
  - exists i. eapply progress_moves; [done|done|done|done].
Qed.

(** * Properties *)

(** C20: Concurrent uploads and deletions are atomic: in whatever order their steps come,
    a history of the calls made one at a time explains the store and every answer, and what
    has happened is not rearranged later: the history only grows, so a call with its answer
    comes before every call that takes effect after it. *)
Theorem requests_take_effect_one_at_a_time s calls schedule more :
  exists h h',
    linearized s calls h (run_schedule schedule (arrived s calls))
    /\ linearized s calls (app h h') (run_schedule (app schedule more) (arrived s calls)).
Proof.
  destruct (arrived_ok s calls) as [Hl Hg]. destruct (run_schedule_ok s calls schedule [] _ Hl Hg) as (h & Hh & Hgh).
  destruct (run_schedule_ok s calls more _ _ Hh Hgh) as (h' & Hh' & _). exists h, h'. split; [done|].
  unfold run_schedule at 1. by rewrite fold_left_app.
Qed.

(** C3: No request is stuck: however far a schedule has come, steps remain that bring every
    request to its answer. *)
Theorem every_request_can_be_answered s calls schedule :
  exists more, forall i call, calls !! i = Some call ->
    exists r, sy_calls (run_schedule (app schedule more) (arrived s calls)) !! i = Some (call, Returned r).
Proof.
  unfold run_schedule. setoid_rewrite fold_left_app.
  destruct (arrived_ok s calls) as [Hl Hg]. destruct (run_schedule_ok s calls schedule [] _ Hl Hg) as (h & Hh & Hgh).
  change (fold_left _ schedule _) with (run_schedule schedule (arrived s calls)).
  set (sy := run_schedule schedule (arrived s calls)) in *. clearbody sy. cbn [app] in Hh. clear Hl Hg. revert h Hh Hgh.
  induction sy as [sy IH] using (induction_ltof1 _ remaining). unfold ltof in IH. intros h Hh Hgh.
  destruct (decide (map_Forall (fun _ kv => left_of kv.2 = 0%nat) (sy_calls sy))) as [Hdone|Hnot].
  - exists []. intros i call Hc. rewrite -(ln_calls _ _ _ _ Hh) lookup_fmap in Hc.
    destruct (sy_calls sy !! i) as [[call0 stage]|] eqn:Hi; [|done]. injection Hc as ->. pose proof (Hdone i _ Hi) as H0.
    destruct stage; try done. by exists r.
  - apply map_not_Forall in Hnot as (i & [call stage] & Hi & Hne); [|apply _].
    destruct (someone_moves sy i call stage Hgh Hi) as [j Hj]; [by intros r ->|].
    destruct (progress_ok s calls h sy j Hh Hgh) as (h1 & Hl1 & Hg1). destruct (IH _ Hj _ Hl1 Hg1) as [more Hmore].
    by exists (j :: more).
Qed.

(** * Witnesses *)

(** Two devices race to upload different bytes under one name, their steps alternating:
    whichever takes the lock first wins, and the other is refused. *)
Definition racing : gmap nat Call :=
  <[0%nat := PutCall "alice" demo_name [1; 2; 3]]> {[1%nat := PutCall "alice" demo_name [4]]}.
Definition raced (schedule : list nat) : option (option StoreError) * option (option StoreError) * option bytes :=
  let sy := run_schedule schedule (arrived (sv_store demo_server) racing) in
  let answer i := match sy_calls sy !! i with Some (_, Returned r) => Some r | _ => None end in
  (answer 0%nat, answer 1%nat, f_data <$> account_files "alice" (ca_store (sy_cached sy)) !! demo_name).

Lemma the_first_to_lock_wins :
  raced [0; 1; 0; 1; 0; 1; 0; 1; 1]%nat = (Some None, Some (Some ErrAlreadyExists), Some [1; 2; 3])
  /\ raced [1; 0; 0; 1; 1; 0; 1; 0; 0]%nat = (Some (Some ErrAlreadyExists), Some None, Some [4]).
Proof. split; vm_compute; reflexivity. Qed.
