(* ===== verification/ServerAdapter.v ===== *)
(** The client of the bundled server ([core/sync/adapters/server.adapter.ts]) over a link
    that may lose a request or its answer, and the proof that, through it, the server of
    [SyncServer] is a destination with the contract of [sync-adapter.ts]. *)
From S2P Require Import SyncSafety Crypto.
From S2P Require Export Paging SyncServer.
#[local] Open Scope string_scope.
#[local] Open Scope Z_scope.

(** * Definitions *)

(** What becomes of a request: the server acts and answers; it is never reached; it acts
    and the answer is lost; its disk fails before anything is changed. *)
Inductive Fate : Type := Delivered | Unreachable | Unanswered | StorageFailure.

(** The server at the end of a link, with the fates of the requests to come. *)
Record Link : Type := mkLink { ln_server : Server; ln_fates : nat -> Fate; ln_sent : nat }.

(** [encodeURIComponent] *)
Definition is_unreserved (c : ascii) : bool :=
  is_alnum c || existsb (Ascii.eqb c) ["-"; "_"; "."; "!"; "~"; "*"; "'"; "("; ")"]%char.
Definition escape_byte (b : Z) : string := String "%" (String (up (digit_char (b / 16))) (String (up (digit_char (b mod 16))) "")).
Definition escape_char (c : ascii) : string :=
  if is_unreserved c then String c "" else fold_right String.append "" (map escape_byte (utf8_char c)).
Fixpoint encodeURIComponent (s : string) : string :=
  match s with "" => "" | String c s' => escape_char c ++ encodeURIComponent s' end.

(** [new URL] drops dot segments, and the server's mux empty ones. *)
Definition plain_segment (s : string) : bool := truthy s && negb (String.eqb s ".") && negb (String.eqb s "..").

(** [http.StatusText] of the codes the server answers with. *)
Definition status_text (status : Z) : string :=
  if status =? 400 then "Bad Request" else if status =? 401 then "Unauthorized" else if status =? 404 then "Not Found"
  else if status =? 405 then "Method Not Allowed" else if status =? 409 then "Conflict"
  else if status =? 413 then "Request Entity Too Large" else if status =? 500 then "Internal Server Error"
  else if status =? 507 then "Insufficient Storage" else "".

(** [body.objects] with their names, and [body.nextCursor]. *)
Definition read_page (body : Body) : result (list string * string) :=
  match body with
  | BJson v =>
      match Trees.get "objects" (as_list (Trees.get "name" as_str)) v with
      | Some names => Ok (names, default "" (Trees.get "nextCursor" as_str v))
      | None => Throw (OutsideModel "a listing without its objects")
      end
  | _ => Throw (JsError "Unexpected end of JSON input")
  end.

Section Adapter.
Context (sha256_hex : string -> string) (endpoint token : string).

Definition objectUrl (name : string) : result string :=
  let segments := split_on "/" name in
  if forallb plain_segment segments then Ok ("/v1/objects/" ++ JsString.join "/" (map encodeURIComponent segments))
  else Throw (OutsideModel "a name with an empty or a dot segment").

(** [response.ok], and the error otherwise. *)
Definition check_response (rs : Response) : result Response :=
  if (200 <=? rs_status rs) && (rs_status rs <? 300) then Ok rs
  else Throw (SyncTransportError ("Sync server returned " ++ num_to_string (rs_status rs) ++ " " ++ status_text (rs_status rs))
                ((500 <=? rs_status rs) || (rs_status rs =? 429))).

Definition cannot_reach {A} : result A := Throw (SyncTransportError ("Cannot reach " ++ endpoint) true).

Definition request (method : Method) (path : string) (query : list (string * string)) (body : bytes) : M Link Response := fun l =>
  let rq := mkRequest method path query ("Bearer " ++ token) body in
  let sent s := mkLink s (ln_fates l) (S (ln_sent l)) in
  match ln_fates l (ln_sent l) with
  | Delivered => let '(rs, s') := serve sha256_hex rq (ln_server l) in (check_response rs, sent s')
  | Unreachable => (cannot_reach, sent (ln_server l))
  | Unanswered => let '(_, s') := serve sha256_hex rq (ln_server l) in (cannot_reach, sent s')
  | StorageFailure => (check_response (mkResponse 500 BEmpty), sent (ln_server l))
  end.

(** The account of this client's token, and its objects. *)
Definition link_account (l : Link) : option string := Lookup sha256_hex (BearerToken ("Bearer " ++ token)) (sv_tokens (ln_server l)).
Definition link_files (l : Link) : gmap string File :=
  match link_account l with Some a => filter (fun kv => kv.1 <> "") (account_files a (sv_store (ln_server l))) | None => ∅ end.
Definition link_contents (l : Link) : gmap string bytes := f_data <$> link_files l.

(** The paging loop; [do { ... } while (cursor)]. *)
Fixpoint list_loop (fuel : nat) (prefix cursor : string) (objects : list string) : M Link (list string) :=
  match fuel with
  | O => throwM (OutsideModel "the listing ran out of fuel")
  | S fuel' =>
      rs ← request GET "/v1/objects" (("prefix", prefix) :: if truthy cursor then [("cursor", cursor)] else []) [];
      page ← liftR (read_page (rs_body rs));
      let objects := (objects ++ page.1)%list in
      if truthy page.2 then list_loop fuel' prefix page.2 objects else mret objects
  end.

(** A page with a next one is full, so there are no more pages than files. *)
Definition server_list (prefix : string) : M Link (list string) :=
  l ← getS;
  objects ← list_loop (S (size (link_files l))) prefix "" [];
  mret (js_sort (fun a b => if String.ltb a b then -1 else 1) objects).

Definition server_get (name : string) : M Link bytes :=
  url ← liftR (objectUrl name);
  rs ← request GET url [] [];
  match rs_body rs with BBytes b => mret b | _ => throwM (OutsideModel "a body that is not the object's") end.

Definition server_put (name : string) (b : bytes) : M Link unit :=
  url ← liftR (objectUrl name);
  _ ← request PUT url [] b;
  mret tt.

Definition server_remove (name : string) : M Link unit :=
  url ← liftR (objectUrl name);
  _ ← request DELETE url [] [];
  mret tt.

Definition server_probe : M Link unit :=
  _ ← request GET "/v1/health" [] [];
  _ ← request GET "/v1/objects" [("prefix", "vaults/"); ("limit", "1")] [];
  mret tt.

(** The destination; there is no [flush]. *)
#[export] Instance server_adapter : SyncAdapter Link bytes := {|
  adapter_list := server_list; adapter_get := server_get; adapter_put := server_put; adapter_remove := server_remove;
  adapter_flush := mret tt |}.
End Adapter.

(** * Lemmas *)

(** ** Names on the wire *)

(** What a server reads of a string: its UTF-8 bytes. *)
Fixpoint utf8_string (s : string) : string :=
  match s with "" => "" | String c s' => fold_right String (utf8_string s') (map chr (utf8_char c)) end.

Definition is_ascii (c : ascii) : bool := code c <? 128.

Lemma unescape_escape h l rest a b :
  digit_val 16 (low h) = Some a -> digit_val 16 (low l) = Some b ->
  unescape_path (String "%" (String h (String l rest))) = String (chr (a * 16 + b)) <$> unescape_path rest.
Proof. intros Ha Hb. cbn [unescape_path]. change (Ascii.eqb "%" "%") with true. cbn iota. by rewrite Ha Hb. Qed.

Lemma unescape_byte b s : 0 <= b < 256 -> unescape_path (escape_byte b ++ s) = String (chr b) <$> unescape_path s.
Proof.
  intros Hb. assert (forall d, 0 <= d < 16 -> digit_val 16 (low (up (digit_char d))) = Some d) as Hd.
  { intros d Hd. assert (Forall (fun d => digit_val 16 (low (up (digit_char d))) = Some d) (seqZ 0 16)) as H
      by (repeat constructor).
    rewrite ->Forall_forall in H. apply H, elem_of_seqZ. lia. }
  unfold escape_byte. cbn [String.append]. rewrite (unescape_escape _ _ s (b / 16) (b mod 16)).
  - by rewrite Z.mul_comm -Z.div_mod.
  - apply Hd. split; [apply Z.div_pos; lia|apply Z.div_lt_upper_bound; lia].
  - by apply Hd, Z.mod_pos_bound.
Qed.

Lemma unescape_plain c s : Ascii.eqb c "%" = false -> unescape_path (String c s) = String c <$> unescape_path s.
Proof. intros H. cbn [unescape_path]. by rewrite H. Qed.

Lemma unescape_char c s : unescape_path (escape_char c ++ s) = (fun t => fold_right String t (map chr (utf8_char c))) <$> unescape_path s.
Proof.
  pose proof (code_range c) as Hc. unfold escape_char. destruct (is_unreserved c) eqn:Hu.
  - assert (code c < 128 /\ Ascii.eqb c "%" = false) as [Hlt Hp].
    { by destruct c as [[] [] [] [] [] [] [] []]. }
    cbn [String.append]. rewrite unescape_plain //. unfold utf8_char. rewrite (proj2 (Z.ltb_lt _ _) Hlt). cbn [map fold_right].
    by rewrite chr_code.
  - unfold utf8_char. destruct (Z.ltb_spec (code c) 128); cbn [map fold_right].
    + rewrite str_app_nil_r. by apply unescape_byte.
    + rewrite str_app_nil_r str_app_assoc. pose proof (Z.div_pos (code c) 64). pose proof (Z.mod_pos_bound (code c) 64).
      assert (code c / 64 < 4) by (apply Z.div_lt_upper_bound; lia).
      rewrite !unescape_byte; [|lia..]. by rewrite -option_fmap_compose.
Qed.

(** The escaped segments, joined, decode to the UTF-8 of the name. *)
Fixpoint escape_path (s : string) : string :=
  match s with "" => "" | String c s' => (if Ascii.eqb "/" c then "/" else escape_char c) ++ escape_path s' end.

Lemma join_escaped s : JsString.join "/" (map encodeURIComponent (split_on "/" s)) = escape_path s.
Proof.
  induction s as [|c s IH]; [done|]. cbn [escape_path]. rewrite -IH. cbn [split_on].
  pose proof (split_on_nonempty "/" s) as Hne. destruct (split_on "/" s) as [|w ws]; [done|].
  destruct (Ascii.eqb "/" c); [by destruct ws|]. destruct ws as [|w' ws].
  - done.
  - cbn [map JsString.join encodeURIComponent]. by rewrite str_app_assoc.
Qed.

Lemma unescape_escaped s : unescape_path (escape_path s) = Some (utf8_string s).
Proof.
  induction s as [|c s IH]; [done|]. cbn [escape_path utf8_string]. destruct (Ascii.eqb_spec "/" c) as [<-|].
  - cbn [String.append]. by rewrite unescape_plain // IH.
  - by rewrite unescape_char IH.
Qed.

Lemma utf8_ascii s : str_forall is_ascii (utf8_string s) = true -> utf8_string s = s.
Proof.
  induction s as [|c s IH]; [done|]. cbn [utf8_string]. unfold utf8_char. pose proof (code_range c).
  destruct (Z.ltb_spec (code c) 128); cbn [map fold_right str_forall].
  - intros [_ Hs]%andb_prop. by rewrite chr_code IH.
  - intros [Hc _]%andb_prop. exfalso. unfold is_ascii in Hc. apply Z.ltb_lt in Hc.
    pose proof (Z.div_pos (code c) 64). assert (code c / 64 < 4) by (apply Z.div_lt_upper_bound; lia).
    rewrite code_chr in Hc; lia.
Qed.

Lemma str_forall_join P c l : P c = true -> Forall (fun s => str_forall P s = true) l -> str_forall P (JsString.join (String c "") l) = true.
Proof.
  intros Hc. induction 1 as [|s l Hs Hl IH]; [done|]. destruct l as [|s' l]; [done|].
  change (str_forall P (s ++ String c "" ++ JsString.join (String c "") (s' :: l)) = true).
  rewrite !str_forall_app Hs IH. cbn. by rewrite Hc.
Qed.

Lemma alnum_ascii c : is_alnum c = true -> is_ascii c = true.
Proof. by destruct c as [[] [] [] [] [] [] [] []]. Qed.

Lemma ValidateName_ascii name : ValidateName name = None -> str_forall is_ascii name = true.
Proof.
  unfold ValidateName. destruct (_ <? _)%nat; [done|]. destruct (_ || _); [done|]. destruct (objectNamePattern name) eqn:H; [|done]. intros _.
  unfold objectNamePattern in H. destruct (split_on "/" name) as [|a [|b [|c [|d [|? ?]]]]] eqn:E; try done.
  rewrite !andb_true_iff in H. destruct H as (((((Ha & Hc) & _) & _) & Hb) & Hd). apply String.eqb_eq in Ha, Hc. subst a c.
  rewrite -(join_split "/" name) E. apply str_forall_join; [done|]. repeat constructor.
  - eapply str_forall_impl; [|exact Hb]. intros x [Hx|Hx]%orb_prop; [by apply alnum_ascii|by apply Ascii.eqb_eq in Hx as ->].
  - destruct Hd as ((u & ->)%endsWith_split & Hs & _).
    rewrite length_str_app in Hs. change (String.length ".edk") with 4%nat in Hs.
    replace (String.length u + 4 - 4)%nat with (String.length u) in Hs by lia. rewrite slice_app_l in Hs.
    rewrite str_forall_app andb_true_r. unfold is_stamp in Hs.
    destruct (split_on "-" u) as [|p [|q [|r [|? ?]]]] eqn:Eu; try done. rewrite !andb_true_iff in Hs.
    destruct Hs as (((((_ & Hp) & _) & Hq) & _) & Hr). rewrite -(join_split "-" u) Eu. apply str_forall_join; [done|].
    repeat constructor; (eapply str_forall_impl; [|eassumption]); by intros [[] [] [] [] [] [] [] []].
Qed.

(** ** What a request does *)

Section Requests.
Context (sha256_hex : string -> string) (endpoint token : string).
Notation request := (request sha256_hex endpoint token).
Notation link_contents := (link_contents sha256_hex token).
Notation link_files := (link_files sha256_hex token).
Notation link_account := (link_account sha256_hex token).
Notation rq method path query body := (mkRequest method path query ("Bearer " ++ token) body).

Lemma link_contents_same l l' : sv_tokens (ln_server l') = sv_tokens (ln_server l) ->
  (forall a, link_account l = Some a -> account_files a (sv_store (ln_server l')) = account_files a (sv_store (ln_server l))) ->
  link_contents l' = link_contents l.
Proof.
  intros Ht Hf. unfold ServerAdapter.link_contents, ServerAdapter.link_files.
  assert (link_account l' = link_account l) as -> by by unfold ServerAdapter.link_account; rewrite Ht.
  destruct (link_account l) as [a|] eqn:E; [|done]. by rewrite (Hf a eq_refl).
Qed.

(** A request that returns was answered with success; one that throws either was not
    answered by the server at all, or its effect is that of serving it. *)
Lemma request_Ok method path query body l rs l' : request method path query body l = (Ok rs, l') ->
  serve sha256_hex (rq method path query body) (ln_server l) = (rs, ln_server l') /\ 200 <= rs_status rs < 300.
Proof.
  unfold ServerAdapter.request. destruct (ln_fates l (ln_sent l)); try done.
  - destruct (serve _ _ _) as [rs' s'] eqn:E. unfold check_response.
    destruct (Z.leb_spec 200 (rs_status rs')), (Z.ltb_spec (rs_status rs') 300); cbn [andb]; try done. by intros [= -> <-].
  - by destruct (serve _ _ _).
Qed.

Lemma request_server method path query body l x l' : request method path query body l = (x, l') ->
  ln_server l' = ln_server l \/ exists rs, serve sha256_hex (rq method path query body) (ln_server l) = (rs, ln_server l').
Proof.
  unfold ServerAdapter.request. destruct (ln_fates l (ln_sent l)).
  - destruct (serve _ _ _) as [rs s'] eqn:E. intros [= _ <-]. right. by exists rs.
  - intros [= _ <-]. by left.
  - destruct (serve _ _ _) as [rs s'] eqn:E. intros [= _ <-]. right. by exists rs.
  - intros [= _ <-]. by left.
Qed.

Lemma request_get_server path query l x l' : request GET path query [] l = (x, l') -> ln_server l' = ln_server l.
Proof.
  intros [?|(rs & E)]%request_server; [done|]. apply serve_cases in E as [Hs [Hc|(a & n & _ & _ & [(? & _)|(? & _)])]]; try done.
  rewrite Hs Hc. by destruct (ln_server l).
Qed.

Lemma request_get_contents path query l x l' : request GET path query [] l = (x, l') -> link_contents l' = link_contents l.
Proof. intros E. apply request_get_server in E. apply link_contents_same; by rewrite E. Qed.

Lemma objectUrl_Ok name url : objectUrl name = Ok url ->
  name <> "" /\ url = "/v1/objects/" ++ escape_path name.
Proof.
  unfold objectUrl. destruct (forallb _ _) eqn:H; [|done]. intros [= <-]. rewrite join_escaped. split; [|done]. by intros ->.
Qed.

Lemma url_path name : js_slice_from ("/v1/objects/" ++ escape_path name) 12 = escape_path name.
Proof. apply (slice_app_r "/v1/objects/"). Qed.

(** Serving the URL of a name is serving the name. *)
Lemma serve_object method query body name (s : Server) :
  serve sha256_hex (rq method ("/v1/objects/" ++ escape_path name) query body) s
  = let r := rq method ("/v1/objects/" ++ escape_path name) query body in
    match method with
    | GET => authenticated sha256_hex r (fun account s => (handleGet (utf8_string name) account s, s)) s
    | PUT => authenticated sha256_hex r (handlePut r (utf8_string name)) s
    | DELETE => authenticated sha256_hex r (handleDelete (utf8_string name)) s
    end.
Proof.
  unfold serve. cbn [rq_path rq_method].
  assert (forall p t, String.eqb ("/v1/objects/" ++ t) p = false <-> "/v1/objects/" ++ t <> p) as Hne by (intros; apply String.eqb_neq).
  rewrite !(proj2 (Hne _ _)); [|done..]. unfold startsWith. rewrite SyncTarget.prefix_app. cbn [negb]. rewrite url_path unescape_escaped. done.
Qed.

Lemma account_of_request method path query body l :
  authenticate sha256_hex (rq method path query body) (ln_server l) = link_account l.
Proof. done. Qed.

Lemma link_contents_insert l l' a name f :
  link_account l = Some a -> sv_tokens (ln_server l') = sv_tokens (ln_server l) -> name <> "" ->
  account_files a (sv_store (ln_server l')) = <[name := f]> (account_files a (sv_store (ln_server l))) ->
  link_contents l' = <[name := f_data f]> (link_contents l).
Proof.
  intros Ha Ht Hn Hf. unfold ServerAdapter.link_contents, ServerAdapter.link_files.
  assert (link_account l' = link_account l) as -> by by unfold ServerAdapter.link_account; rewrite Ht.
  rewrite Ha Hf map_filter_insert_True // fmap_insert. done.
Qed.
End Requests.

(** ** Pages *)

(** The names a listing past [cursor] has still to give. *)
Definition names_past (account prefix : string) (s : FSStore) (cursor : string) : list string :=
  keys_past (account_files account s) prefix cursor.

Lemma walk_names account prefix s cursor :
  map o_name (walk_objects account prefix cursor s) = names_past account prefix s cursor.
Proof.
  unfold names_past, walk_objects. set (l := map _ (List.filter _ _)).
  assert (map o_name l = map fst (List.filter (fun kv : string * File => startsWith kv.1 prefix && negb (String.leb kv.1 cursor))
    (map_to_list (account_files account s)))) as El by (unfold l; by rewrite map_map).
  assert (forall k, k ∈ map o_name l <-> is_Some (account_files account s !! k) /\ startsWith k prefix = true /\ String.leb k cursor = false) as Hl.
  { intros k. rewrite El list_elem_of_fmap. setoid_rewrite elem_of_filter_b. setoid_rewrite andb_true_iff. setoid_rewrite negb_true_iff. split.
    - intros ([k' f] & -> & H%elem_of_map_to_list & Hp). split; [by exists f|done].
    - intros ([f H] & Hp). exists (k, f). split_and!; [done|by apply elem_of_map_to_list|apply Hp..]. }
  apply keys_past_unique.
  - apply js_sort_keys_strict. rewrite El. apply NoDup_map_filter, NoDup_fst_map_to_list.
  - intros k. rewrite -Hl. change (map o_name ?x) with (o_name <$> x). by rewrite (js_sort_perm _ l).
Qed.

Lemma read_page_listing l : read_page (BJson (listing_json l)) = Ok (map o_name (l_objects l), l_nextCursor l).
Proof.
  unfold read_page, listing_json. cbn -[map object_json as_list].
  assert (forall os, as_list (Trees.get "name" as_str) (JArr (map object_json os)) = Some (map o_name os)) as Hl.
  { induction os as [|o os IH]; [done|]. unfold as_list in *. cbn [map mapM] in *. cbn [Trees.get field]. cbn. cbn in IH. by rewrite IH. }
  rewrite Hl. destruct (String.eqb_spec (l_nextCursor l) "") as [->|]; done.
Qed.

(** ** The listing *)

(** What one request of the loop brings. *)
Definition page_of (account prefix cursor : string) (st : FSStore) : list string * string :=
  let names := names_past account prefix st cursor in
  if (1000 <? length names)%nat then (take 1000 names, default "" (last (take 1000 names))) else (names, "").

(** A page, and what is left after it. *)
Lemma page_of_spec account prefix cursor st :
  let page := page_of account prefix cursor st in
  (truthy page.2 = false /\ page.1 = names_past account prefix st cursor)
  \/ (names_past account prefix st cursor = (page.1 ++ names_past account prefix st page.2)%list /\ page.1 <> []
      /\ (truthy page.2 = false -> False)).
Proof.
  cbn zeta. unfold page_of. set (names := names_past account prefix st cursor).
  destruct (Nat.ltb_spec 1000 (length names)) as [Hl|]; [|by left]. right.
  assert (exists k x, take 1000 names = (k ++ [x])%list) as (k & x & Ek).
  { destruct (take 1000 names) as [|y t] eqn:E using rev_ind; [|by eexists _, _].
    apply (f_equal length) in E. rewrite length_take in E. change (length []) with 0%nat in E. lia. }
  cbn [fst snd]. rewrite Ek last_snoc. cbn [default from_option id].
  assert (names = (k ++ x :: drop 1000 names)%list) as En.
  { rewrite -{1}(take_drop 1000 names) Ek. by rewrite -app_assoc. }
  pose proof (keys_past_rest (account_files account st) prefix cursor k x (drop 1000 names) En) as Hr. unfold names_past. rewrite Hr -app_assoc. split_and!; [exact En|by destruct k|].
  intros Hx. assert (x ∈ names) as (_ & _ & Hc)%elem_of_keys_past by (rewrite En; set_solver).
  unfold truthy in Hx. apply negb_false_iff, String.eqb_eq in Hx as ->. by destruct cursor.
Qed.
Section Listings.
Context (sha256_hex : string -> string) (endpoint token : string).
Notation request := (request sha256_hex endpoint token).
Notation link_contents := (link_contents sha256_hex token).
Notation link_files := (link_files sha256_hex token).
Notation link_account := (link_account sha256_hex token).
Notation list_loop := (list_loop sha256_hex endpoint token).

Definition page_query (prefix cursor : string) : list (string * string) :=
  ("prefix", prefix) :: if truthy cursor then [("cursor", cursor)] else [].

Lemma page_query_get prefix cursor :
  query_get "limit" (page_query prefix cursor) = "" /\ query_get "prefix" (page_query prefix cursor) = prefix
  /\ query_get "cursor" (page_query prefix cursor) = cursor.
Proof. unfold page_query, truthy. by destruct (String.eqb_spec cursor "") as [->|]. Qed.

Lemma handleList_page prefix cursor rq account (s : Server) :
  rq_query rq = page_query prefix cursor ->
  (exists e, handleList rq account s = writeStoreError e)
  \/ exists rs, handleList rq account s = mkResponse 200 rs /\ read_page rs = Ok (page_of account prefix cursor (sv_store s)).
Proof.
  intros Hq. unfold handleList. rewrite Hq. destruct (page_query_get prefix cursor) as (-> & -> & ->).
  change (list_limit "") with (Some 1000%nat). cbv iota. unfold List. destruct (ValidatePrefix prefix) as [e|]; [left; by eexists|].
  destruct (path account) as [e|]; [left; by eexists|]. right. unfold page_of. rewrite -walk_names length_map.
  destruct (1000 <? length _)%nat; eexists; (split; [reflexivity|]); rewrite read_page_listing; cbn [l_objects l_nextCursor]; [|done].
  by rewrite firstn_map (fmap_last o_name).
Qed.

Lemma serve_listing query (s : Server) :
  serve sha256_hex (mkRequest GET "/v1/objects" query ("Bearer " ++ token) []) s
  = authenticated sha256_hex (mkRequest GET "/v1/objects" query ("Bearer " ++ token) [])
      (fun account s => (handleList (mkRequest GET "/v1/objects" query ("Bearer " ++ token) []) account s, s)) s.
Proof. done. Qed.

Lemma request_page prefix cursor l rs l' :
  request GET "/v1/objects" (page_query prefix cursor) [] l = (Ok rs, l') ->
  ln_server l' = ln_server l
  /\ exists account, link_account l = Some account
       /\ read_page (rs_body rs) = Ok (page_of account prefix cursor (sv_store (ln_server l))).
Proof.
  intros E. pose proof (request_get_server _ _ _ _ _ _ _ _ E) as Hs. split; [done|]. apply request_Ok in E as [E Hok].
  rewrite serve_listing in E. unfold authenticated in E. rewrite account_of_request in E.
  destruct (link_account l) as [account|]; [|injection E as <- _; cbn in Hok; lia]. exists account. split; [done|].
  destruct (handleList_page prefix cursor (mkRequest GET "/v1/objects" (page_query prefix cursor) ("Bearer " ++ token) [])
    account (ln_server l) eq_refl) as [(e & H)|(b & H & Hb)]; rewrite H in E; injection E as <- _; [destruct e; cbn in Hok; lia|done].
Qed.
End Listings.

Section Loop.
Context (sha256_hex : string -> string) (endpoint token prefix : string).
Notation request := (request sha256_hex endpoint token).
Notation link_account := (link_account sha256_hex token).
Notation list_loop := (list_loop sha256_hex endpoint token).
Notation past a l := (names_past a prefix (sv_store (ln_server l))).

Lemma link_account_same l l' : ln_server l' = ln_server l -> link_account l' = link_account l.
Proof. intros E. unfold ServerAdapter.link_account. by rewrite E. Qed.

Lemma list_loop_server fuel : forall cursor acc l x l',
  list_loop fuel prefix cursor acc l = (x, l') -> ln_server l' = ln_server l.
Proof.
  induction fuel as [|fuel IH]; intros cursor acc l x l'; [by intros [= _ <-]|]. cbn [ServerAdapter.list_loop]. unfold mbind, M_bind.
  destruct (request _ _ _ _ l) as [[rs|e] l1] eqn:E; apply request_get_server in E; [|by intros [= _ <-]].
  unfold liftR. destruct (read_page (rs_body rs)) as [page|]; [|by intros [= _ <-]].
  destruct (truthy page.2); [intros H; by rewrite (IH _ _ _ _ _ H)|by intros [= _ <-]].
Qed.

Lemma list_loop_Ok fuel : forall cursor acc l objs l',
  list_loop fuel prefix cursor acc l = (Ok objs, l') ->
  exists a, link_account l = Some a /\ objs = (acc ++ past a l cursor)%list.
Proof.
  induction fuel as [|fuel IH]; intros cursor acc l objs l'; [done|]. cbn [ServerAdapter.list_loop]. intros H.
  apply M_bind_Ok_inv in H as (rs & l1 & E & H). apply request_page in E as (Es & a & Ha & Hp).
  apply M_bind_Ok_inv in H as (page & l2 & [= Hp' <-] & H). rewrite Hp in Hp'. injection Hp' as <-. exists a. split; [done|].
  destruct (page_of_spec a prefix cursor (sv_store (ln_server l))) as [[Ht E1]|(E1 & Hne & Ht)].
  - rewrite Ht in H. injection H as <- _. by rewrite E1.
  - destruct (truthy _) eqn:Et; [|by destruct (Ht eq_refl)]. apply IH in H as (a' & Ha' & ->).
    rewrite (link_account_same _ _ Es) Ha in Ha'. injection Ha' as <-. by rewrite Es -app_assoc -E1.
Qed.

(** With enough fuel, and answers, the loop ends. *)
Lemma list_loop_returns fuel a : path a = None -> ValidatePrefix prefix = None -> forall cursor acc l,
  link_account l = Some a -> (forall n, ln_fates l n = Delivered) -> (length (past a l cursor) < fuel)%nat ->
  exists l', list_loop fuel prefix cursor acc l = (Ok (acc ++ past a l cursor)%list, l').
Proof.
  intros Hpath Hpre. induction fuel as [|fuel IH]; intros cursor acc l Ha Hf Hl; [lia|]. cbn [ServerAdapter.list_loop].
  assert (exists rs, request GET "/v1/objects" (page_query prefix cursor) [] l
                     = (Ok rs, mkLink (ln_server l) (ln_fates l) (S (ln_sent l)))
                     /\ read_page (rs_body rs) = Ok (page_of a prefix cursor (sv_store (ln_server l)))) as (rs & E & Hrs).
  { unfold ServerAdapter.request. rewrite Hf serve_listing. unfold authenticated. rewrite account_of_request Ha.
    destruct (handleList_page prefix cursor (mkRequest GET "/v1/objects" (page_query prefix cursor) ("Bearer " ++ token) [])
      a (ln_server l) eq_refl) as [(e & H)|(b & H & Hb)]; rewrite H; [|by eexists].
    exfalso. unfold handleList in H. destruct (page_query_get prefix cursor) as (E1 & E2 & E3). cbn [rq_query] in H. rewrite E1 E2 E3 in H.
    change (list_limit "") with (Some 1000%nat) in H. cbv iota in H. unfold List in H. rewrite Hpre Hpath in H.
    destruct (1000 <? _)%nat in H; by destruct e. }
  unfold mbind, M_bind. fold (page_query prefix cursor). rewrite E. unfold liftR. rewrite Hrs.
  destruct (page_of_spec a prefix cursor (sv_store (ln_server l))) as [[Ht E1]|(E1 & Hne & Ht)].
  - rewrite Ht E1. by eexists.
  - destruct (truthy _) eqn:Et; [|by destruct (Ht eq_refl)].
    destruct (IH (page_of a prefix cursor (sv_store (ln_server l))).2 (acc ++ (page_of a prefix cursor (sv_store (ln_server l))).1)%list
      (mkLink (ln_server l) (ln_fates l) (S (ln_sent l)))) as (l' & H); [done..| |].
    + cbn [ln_server]. rewrite E1 length_app in Hl. destruct (page_of _ _ _ _).1; [done|]. cbn in Hl. lia.
    + exists l'. rewrite H. cbn [ln_server]. by rewrite E1 app_assoc.
Qed.

(** The names of the client's objects. *)
Lemma elem_of_names a l n :
  link_account l = Some a -> n ∈ past a l "" <-> startsWith n prefix = true /\ is_Some (link_contents sha256_hex token l !! n).
Proof.
  intros Ha. rewrite elem_of_keys_past. unfold link_contents, link_files. rewrite Ha lookup_fmap fmap_is_Some.
  split.
  - intros ([f Hf] & Hp & Hc). split; [done|]. exists f. apply map_lookup_filter_Some. split; [done|]. cbn. by intros ->.
  - intros (Hp & f & [Hf Hn]%map_lookup_filter_Some). split_and!; [by exists f|done|]. cbn in Hn. by destruct n.
Qed.
End Loop.

(** ** The contract *)

Section Laws.
Context (sha256_hex : string -> string) (endpoint token : string).
Notation contents := (link_contents sha256_hex token).
Notation link_account := (link_account sha256_hex token).

Lemma server_list_Ok prefix l names l' :
  server_list sha256_hex endpoint token prefix l = (Ok names, l') ->
  exists a, link_account l = Some a
    /\ names = js_sort (fun a b => if String.ltb a b then -1 else 1) (names_past a prefix (sv_store (ln_server l)) "").
Proof.
  intros H. apply M_bind_Ok_inv in H as (l0 & l1 & [= <- <-] & H). apply M_bind_Ok_inv in H as (objs & l2 & H & [= <- _]).
  apply list_loop_Ok in H as (a & Ha & ->). by exists a.
Qed.

(** What the server made of a name it accepted. *)
Lemma accepted_name name : ValidateName (utf8_string name) = None -> utf8_string name = name.
Proof. intros H. by apply utf8_ascii, ValidateName_ascii. Qed.

Lemma contents_lookup l a name f :
  link_account l = Some a -> name <> "" -> account_files a (sv_store (ln_server l)) !! name = Some f -> contents l !! name = Some (f_data f).
Proof.
  intros Ha Hn Hf. unfold link_contents, link_files. rewrite Ha lookup_fmap.
  by rewrite (proj2 (map_lookup_filter_Some _ _ _ _) (conj Hf Hn)).
Qed.

(** Serving a [PUT] of the client. *)
Lemma serve_put name b l rs s' :
  name <> "" ->
  serve sha256_hex (mkRequest PUT ("/v1/objects/" ++ escape_path name) [] ("Bearer " ++ token) b) (ln_server l) = (rs, s') ->
  (forall fates n, contents (mkLink s' fates n) = contents l) /\ (200 <= rs_status rs < 300 -> contents l !! name = Some b)
  \/ (forall fates n, contents (mkLink s' fates n) = <[name := b]> (contents l)).
Proof.
  intros Hn E. rewrite serve_object in E. cbn zeta in E. unfold authenticated in E. rewrite account_of_request in E.
  destruct (link_account l) as [a|] eqn:Ha; [|injection E as <- <-; left; split; [done|cbn; lia]].
  unfold handlePut in E. destruct (_ <? _); [injection E as <- <-; left; split; [done|cbn; lia]|].
  destruct (length _ =? 0)%nat; [injection E as <- <-; left; split; [done|cbn; lia]|]. cbn [rq_body] in E.
  destruct (Put_cases a (utf8_string name) b (sv_store (ln_server l)))
    as [(e & Ep)|[(Ep & Hv%accepted_name & f & Hf & Hd)|(Ep & Hv%accepted_name & _ & Hnone & _)]]; rewrite Ep in E; injection E as <- <-.
  - left. split; [|destruct e; cbn; lia]. intros. by apply link_contents_same.
  - left. split; [intros; by apply link_contents_same|]. intros _. rewrite Hv in Hf. rewrite -Hd. by eapply contents_lookup.
  - right. intros. rewrite Hv. eapply (link_contents_insert sha256_hex token l _ a name (mkFile b _)); [done..|]. cbn.
    rewrite account_files_write decide_True //.
Qed.

(** Serving a [DELETE] of the client. *)
Lemma serve_delete name l rs s' :
  name <> "" ->
  serve sha256_hex (mkRequest DELETE ("/v1/objects/" ++ escape_path name) [] ("Bearer " ++ token) []) (ln_server l) = (rs, s') ->
  (forall fates n, contents (mkLink s' fates n) = contents l) \/ (forall fates n, contents (mkLink s' fates n) = delete name (contents l)).
Proof.
  intros Hn E. rewrite serve_object in E. cbn zeta in E. unfold authenticated in E. rewrite account_of_request in E.
  destruct (link_account l) as [a|] eqn:Ha; [|injection E as <- <-; by left].
  unfold handleDelete in E. destruct (Delete_cases a (utf8_string name) (sv_store (ln_server l))) as [(e & Ep)|(Ep & Hv%accepted_name)];
    rewrite Ep in E; injection E as <- <-.
  - left. intros. by apply link_contents_same.
  - right. intros. rewrite Hv. unfold link_contents, link_files.
    assert (forall fates n, link_account (mkLink (with_store (set_files (<[a := delete name (account_files a (sv_store (ln_server l)))]>
      (fs_files (sv_store (ln_server l)))) (sv_store (ln_server l))) (ln_server l)) fates n) = link_account l) as Hacc by done.
    rewrite Hacc Ha. cbn. rewrite account_files_insert decide_True // map_filter_delete fmap_delete. done.
Qed.

(** The server after a request of the client is some served server, or none. *)
Lemma request_effect method path query body l x l' : ServerAdapter.request sha256_hex endpoint token method path query body l = (x, l') ->
  exists fates n, (l' = mkLink (ln_server l) fates n /\ forall rs, x <> Ok rs)
    \/ exists rs s', l' = mkLink s' fates n /\ serve sha256_hex (mkRequest method path query ("Bearer " ++ token) body) (ln_server l) = (rs, s')
       /\ (forall rs', x = Ok rs' -> rs' = rs /\ 200 <= rs_status rs < 300).
Proof.
  intros E. destruct x as [rs|e].
  - pose proof (request_Ok _ _ _ _ _ _ _ _ _ _ E) as [Es Hok]. exists (ln_fates l'), (ln_sent l'). right. exists rs, (ln_server l').
    split_and!; [by destruct l'|done|]. by intros rs' [= <-].
  - exists (ln_fates l'), (ln_sent l'). destruct (request_server _ _ _ _ _ _ _ _ _ _ E) as [Hs|(rs & Hs)].
    + left. split; [|done]. rewrite -Hs. by destruct l'.
    + right. exists rs, (ln_server l'). split_and!; [by destruct l'|done..].
Qed.

#[export] Instance server_laws : @AdapterLaws Link bytes (server_adapter sha256_hex endpoint token).
Proof.
  refine {| SyncTarget.contents := contents |}; unfold adapter_list, adapter_get, adapter_put, adapter_remove, adapter_flush, server_adapter.
  - intros p l x l' H. assert (ln_server l' = ln_server l) as Es.
    { unfold server_list, mbind, M_bind, getS in H. destruct (list_loop _ _ _ _ _ _ _ l) as [[objs|e] l1] eqn:E;
        apply list_loop_server in E; injection H as _ <-; done. }
    apply link_contents_same; by rewrite Es.
  - intros p l names l' n H. apply server_list_Ok in H as (a & Ha & ->). rewrite elem_of_js_sort. by apply elem_of_names.
  - intros p l names l' H. apply server_list_Ok in H as (a & Ha & ->). apply sort_names_strict, keys_past_NoDup.
  - intros name l x l' H. unfold server_get, mbind, M_bind, liftR in H. destruct (objectUrl name) as [url|e]; [|by injection H as _ <-].
    destruct (ServerAdapter.request _ _ _ _ _ _ _ l) as [[rs|e] l1] eqn:E; apply request_get_contents in E; [|by injection H as _ <-].
    destruct (rs_body rs); by injection H as _ <-.
  - intros name l b l' H. apply M_bind_Ok_inv in H as (url & l0 & [= Eu <-] & H). apply objectUrl_Ok in Eu as [Hn ->].
    apply M_bind_Ok_inv in H as (rs & l1 & E & H). apply request_Ok in E as [E Hok]. rewrite serve_object in E. cbn zeta in E.
    unfold authenticated in E. rewrite account_of_request in E. destruct (link_account l) as [a|] eqn:Ha; [|injection E as <- _; cbn in Hok; lia].
    unfold handleGet, Get in E. destruct (ValidateName _) eqn:Hv; [injection E as <- _; destruct s; cbn in Hok; lia|].
    destruct (path a); [injection E as <- _; destruct s; cbn in Hok; lia|]. apply accepted_name in Hv. rewrite Hv in E.
    destruct (account_files _ _ !! name) as [f|] eqn:Hf; [|injection E as <- _; cbn in Hok; lia]. injection E as <- _.
    cbn in H. injection H as <- _. by eapply contents_lookup.
  - intros name b l x l' H. unfold server_put, mbind, M_bind, liftR in H. destruct (objectUrl name) as [url|e] eqn:Eu; [|injection H as _ <-; by left].
    apply objectUrl_Ok in Eu as [Hn ->]. destruct (ServerAdapter.request _ _ _ _ _ _ _ l) as [y l1] eqn:E.
    assert (l' = l1) as -> by by destruct y; injection H as _ <-. apply request_effect in E as (fates & n & [[-> _]|(rs & s' & -> & Es & _)]).
    + left. by apply link_contents_same.
    + apply serve_put in Es as [[Hc _]|Hc]; [left; by apply Hc|right; by apply Hc|done].
  - intros name b l l' H. apply M_bind_Ok_inv in H as (url & l0 & [= Eu <-] & H). apply objectUrl_Ok in Eu as [Hn ->].
    apply M_bind_Ok_inv in H as (rs & l1 & E & [= <-]). apply request_Ok in E as [E Hok]. destruct l1 as [s' fates n].
    apply serve_put in E as [[Hc Hb]|Hc]; [|by apply Hc|done]. rewrite Hc insert_id //. by apply Hb.
  - intros name l x l' H. unfold server_remove, mbind, M_bind, liftR in H. destruct (objectUrl name) as [url|e] eqn:Eu; [|injection H as _ <-; by left].
    apply objectUrl_Ok in Eu as [Hn ->]. destruct (ServerAdapter.request _ _ _ _ _ _ _ l) as [y l1] eqn:E.
    assert (l' = l1) as -> by by destruct y; injection H as _ <-. apply request_effect in E as (fates & n & [[-> _]|(rs & s' & -> & Es & _)]).
    + left. by apply link_contents_same.
    + apply serve_delete in Es as [Hc|Hc]; [left; by apply Hc|right; by apply Hc|done].
  - by intros l x l' [= _ <-].
Defined.
End Laws.

(** ** Listings and snapshots *)

Section More.
Context (sha256_hex : string -> string) (endpoint token : string).
Notation contents := (link_contents sha256_hex token).
Notation link_account := (link_account sha256_hex token).

(** No more names than the files of the account, when none has an empty name. *)
Lemma names_past_bound l a prefix :
  link_account l = Some a -> (length (names_past a prefix (sv_store (ln_server l)) "") <= size (link_files sha256_hex token l))%nat.
Proof.
  intros Ha. rewrite -length_map_to_list -(length_fmap fst). apply submseteq_length, NoDup_submseteq; [apply keys_past_NoDup|].
  intros n [_ [b Hb]]%(elem_of_names sha256_hex token prefix a l n Ha). unfold link_contents in Hb.
  rewrite lookup_fmap in Hb. destruct (link_files _ _ _ !! n) as [f|] eqn:Hf; [|done].
  apply list_elem_of_fmap. exists (n, f). split; [done|]. by apply elem_of_map_to_list.
Qed.

(** A snapshot's name is none the server takes. *)
Lemma snapshot_kind vaultId watermark : objectNamePattern (snapshotObjectName vaultId watermark) = false.
Proof.
  unfold snapshotObjectName, snapshotPrefix, objectNamePattern.
  replace (("vaults/" ++ vaultId ++ "/snapshots/") ++ watermark ++ ".edk")
    with ("vaults" ++ String "/" (vaultId ++ String "/" ("snapshots" ++ String "/" (watermark ++ ".edk"))))
    by by rewrite !str_app_assoc.
  rewrite (split_on_app_gen "/" "vaults") split_on_app_gen (split_on_app_gen "/" "snapshots").
  change (split_on "/" "vaults") with ["vaults"]. change (split_on "/" "snapshots") with ["snapshots"]. cbn [app].
  pose proof (split_on_nonempty "/" vaultId) as Hv. pose proof (split_on_nonempty "/" (watermark ++ ".edk")) as Hw.
  destruct (split_on "/" vaultId) as [|v [|w vs]], (split_on "/" (watermark ++ ".edk")) as [|x xs]; try done.
  - by destruct xs.
  - by destruct vs as [|? [|? ?]].
Qed.

Lemma put_snapshot vaultId watermark b l x l' :
  server_put sha256_hex endpoint token (snapshotObjectName vaultId watermark) b l = (x, l') -> x <> Ok tt.
Proof.
  intros H ->. apply M_bind_Ok_inv in H as (url & l0 & [= Eu <-] & H). apply objectUrl_Ok in Eu as [Hn ->].
  apply M_bind_Ok_inv in H as (rs & l1 & E & _). apply request_Ok in E as [E Hok].
  rewrite serve_object in E. cbn zeta in E. unfold authenticated in E. rewrite account_of_request in E.
  destruct (link_account l) as [a|]; [|injection E as <- _; cbn in Hok; lia].
  unfold handlePut in E. destruct (_ <? _); [injection E as <- _; cbn in Hok; lia|].
  destruct (length _ =? 0)%nat; [injection E as <- _; cbn in Hok; lia|]. unfold Put in E.
  destruct (ValidateName (utf8_string (snapshotObjectName vaultId watermark))) as [e|] eqn:Hv.
  - injection E as <- _. destruct e; cbn in Hok; lia.
  - pose proof (accepted_name _ Hv) as En. rewrite En in Hv. unfold ValidateName in Hv. rewrite snapshot_kind in Hv.
    by repeat case_match.
Qed.
End More.

(** * Specification *)

(** The operations recorded since the last snapshot, which [maybeSnapshot] counts. *)
Definition unsummarised (s : App) : list LocalOperation :=
  List.filter (fun lop => String.ltb (default "" (meta_lastSnapshot s)) (op_hlc (lop_op lop))) (oplog_sorted s).

(** Every recorded operation has a stamp. *)
Definition stamped (s : App) : Prop := forall k lop, oplog s !! k = Some lop -> op_hlc (lop_op lop) <> "".

Section Cycles.
Context {Key : Type} `{!Sealing Key bytes} (sha256_hex : string -> string) (endpoint token : string).
#[local] Existing Instance server_adapter.

(** A snapshot that is due is refused, so the step that writes it fails. *)
Lemma maybeSnapshot_server (vault : VaultSession Key) key vaultId (st st' : Engine Link) :
  @maybeSnapshot Link bytes Key (server_adapter sha256_hex endpoint token) _ vault key vaultId st = (Ok tt, st') ->
  st' = st /\ (stamped (Sync.app st) -> (length (unsummarised (Sync.app st)) < SNAPSHOT_AFTER_OPERATIONS)%nat).
Proof.
  unfold maybeSnapshot. intros H. apply M_bind_Ok_inv in H as (st0 & st1 & [= <- <-] & H). cbn zeta in H.
  fold (unsummarised (Sync.app st)) in H.
  destruct (Nat.ltb_spec (length (unsummarised (Sync.app st))) SNAPSHOT_AFTER_OPERATIONS) as [|Hlen]; [by injection H as <-|].
  destruct (last (oplog_sorted (Sync.app st))) as [lop|] eqn:El; cbn in H.
  - destruct (truthy (op_hlc (lop_op lop))) eqn:Et; cbn [negb] in H.
    + exfalso. apply M_bind_Ok_inv in H as (d & s1 & _ & H). apply M_bind_Ok_inv in H as (n & s2 & _ & H).
      apply M_bind_Ok_inv in H as (sealed & s3 & _ & H). apply M_bind_Ok_inv in H as ([] & s4 & H & _).
      unfold onRemote in H. change (adapter_put ?n ?b) with (server_put sha256_hex endpoint token n b) in H.
      destruct (server_put _ _ _ _ _ _) as [x l'] eqn:E. injection H as -> _.
      by eapply (put_snapshot sha256_hex endpoint token vaultId (op_hlc (lop_op lop))) in E.
    + injection H as <-. split; [done|]. intros Hst. exfalso.
      apply last_Some_elem_of, elem_of_oplog_sorted in El as (k & Hk). apply Hst in Hk. unfold truthy in Et.
      by destruct (String.eqb_spec (op_hlc (lop_op lop)) "").
  - injection H as <-. split; [done|]. intros _. exfalso. destruct (oplog_sorted (Sync.app st)) as [|lop l] eqn:Eo.
    + unfold unsummarised in Hlen. rewrite Eo in Hlen. cbn in Hlen. unfold SNAPSHOT_AFTER_OPERATIONS in Hlen. lia.
    + rewrite last_cons in El. by destruct (last l).
Qed.
End Cycles.

(** * Properties *)

(** C21: A listing over the server ends and is complete: when the answers arrive, the
    paging loop stops, and returns in order exactly the names of the account under the
    prefix, however many pages the server cuts them into. *)
Theorem server_list_returns sha256_hex endpoint token prefix l a :
  link_account sha256_hex token l = Some a -> path a = None -> ValidatePrefix prefix = None -> (forall n, ln_fates l n = Delivered) ->
  exists names l', server_list sha256_hex endpoint token prefix l = (Ok names, l')
    /\ StronglySorted (fun a b => String.ltb a b = true) names
    /\ forall n, n ∈ names <-> startsWith n prefix = true /\ is_Some (link_contents sha256_hex token l !! n).
Proof.
  intros Ha Hpath Hpre Hf.
  destruct (list_loop_returns sha256_hex endpoint token prefix (S (size (link_files sha256_hex token l))) a Hpath Hpre "" [] l Ha Hf) as (l' & E).
  { pose proof (names_past_bound sha256_hex token l a prefix Ha). lia. }
  exists (js_sort (fun a b => if String.ltb a b then -1 else 1) (names_past a prefix (sv_store (ln_server l)) "")), l'. split_and!.
  - unfold server_list, mbind, M_bind, getS. by rewrite E.
  - apply sort_names_strict, keys_past_NoDup.
  - intros n. rewrite elem_of_js_sort. by apply elem_of_names.
Qed.

(** C22: Over the bundled server a cycle succeeds only while fewer than two hundred
    operations lie past the last snapshot: the server takes no snapshot's name, so from
    then on every cycle ends in an error. *)
Theorem server_cycles_need_short_ledgers {Key} `{!Sealing Key bytes} sha256_hex endpoint token vault target override (st st' : Engine Link) :
  @cycle Link bytes Key (server_adapter sha256_hex endpoint token) _ vault target override st = (Ok tt, st') ->
  stamped (Sync.app st') -> (length (unsummarised (Sync.app st')) < SNAPSHOT_AFTER_OPERATIONS)%nat.
Proof.
  unfold cycle. intros H Hst. do 5 (apply M_bind_Ok_inv in H as (? & ? & _ & H)).
  apply M_bind_Ok_inv in H as ([] & s1 & Hs & H).
  do 4 (apply M_bind_Ok_inv in H as (? & ? & [= _ <-] & H)). injection H as <-. cbn in *.
  apply maybeSnapshot_server in Hs as [-> Hl]. by apply Hl.
Qed.

(** * Witnesses *)

#[local] Existing Instance crypto_sealing.

(** Alice's client, and a phone that synchronises over it. *)
Definition demo_link (fates : nat -> Fate) : Link := mkLink demo_served fates 0.
Definition all_delivered : nat -> Fate := fun _ => Delivered.

Lemma server_list_returns_witness :
  exists names l', server_list id "https://nas" "t-alice" "vaults/v-1/" (demo_link all_delivered) = (Ok names, l') /\ demo_name ∈ names.
Proof.
  destruct (server_list_returns id "https://nas" "t-alice" "vaults/v-1/" (demo_link all_delivered) "alice") as (names & l' & E & _ & Hn);
    [vm_compute; reflexivity|vm_compute; reflexivity|vm_compute; reflexivity|intros n; reflexivity|].
  exists names, l'. split; [exact E|]. apply Hn. split; [vm_compute; reflexivity|]. exists [1; 2; 3]. vm_compute. reflexivity.
Defined.

Definition nas_server : Server := mkServer (mkStore ∅ 0 (fun n => Z.of_nat n) 0) {["t-alice" := "alice"]} 1000000 "1.0".
Definition nas_vault : VaultSession bool := mkSession true (Some true) (Some "v-1") (Some "a").
Definition nas_cycle (s : Engine Link) : result SyncStatus * Engine Link :=
  @runCycle Link bytes bool (server_adapter id "https://nas" "t-alice") _ nas_vault
    (ServerTarget "NAS" "https://nas" "t-alice") false s.
Definition nas_engine (s : App) (fates : nat -> Fate) : Engine Link := mkEngine s (mkLink nas_server fates 0) 0 INITIAL_STATUS.
Definition nas_synced : Engine Link := snd (nas_cycle (nas_engine demoA1 all_delivered)).

Definition nas_cycle_body (s : Engine Link) : result unit * Engine Link :=
  @cycle Link bytes bool (server_adapter id "https://nas" "t-alice") _ nas_vault (ServerTarget "NAS" "https://nas" "t-alice") false s.

Lemma nas_cycle_ok : nas_cycle_body (nas_engine demoA1 all_delivered) = (Ok tt, snd (nas_cycle_body (nas_engine demoA1 all_delivered))).
Proof. vm_compute. reflexivity. Qed.

Lemma nas_stamped : stamped (Sync.app (snd (nas_cycle_body (nas_engine demoA1 all_delivered)))).
Proof.
  apply map_Forall_lookup. apply map_Forall_to_list.
  assert (forallb (fun kv => truthy (op_hlc (lop_op kv.2)))
    (map_to_list (oplog (Sync.app (snd (nas_cycle_body (nas_engine demoA1 all_delivered)))))) = true) as H by (vm_compute; reflexivity).
  apply Forall_forall. intros [k lop] Hk%list_elem_of_In. rewrite forallb_forall in H. apply H in Hk. unfold truthy in Hk. cbn in *.
  by destruct (String.eqb_spec (op_hlc (lop_op lop)) "").
Qed.

Lemma server_cycles_need_short_ledgers_witness :
  (length (unsummarised (Sync.app (snd (nas_cycle_body (nas_engine demoA1 all_delivered))))) < 200)%nat.
Proof.
  exact (server_cycles_need_short_ledgers id "https://nas" "t-alice" nas_vault (ServerTarget "NAS" "https://nas" "t-alice") false
    (nas_engine demoA1 all_delivered) _ nas_cycle_ok nas_stamped).
Defined.

(** Two hundred writes on, every cycle uploads its batch and then fails on the snapshot. *)
Fixpoint nas_writes (n : nat) (s : App) : App :=
  match n with O => s | S m => nas_writes m (snd (put ECategories demo_category s)) end.
Definition nas_full : Engine Link := nas_engine (nas_writes 200 demoA1) all_delivered.

Definition nas_report (e : Engine Link) : option string * bool * nat :=
  (st_lastError (status e), st_retryable (status e), st_pending (status e)).
Fixpoint nas_cycles (n : nat) (e : Engine Link) : list (option string * bool * nat) :=
  match n with O => [] | S m => let e' := snd (nas_cycle e) in nas_report e' :: nas_cycles m e' end.

Lemma long_ledgers_fail :
  nas_cycles 2 nas_full
  = [(Some "Sync server returned 400 Bad Request", false, 0%nat); (Some "Sync server returned 400 Bad Request", false, 0%nat)].
Proof. vm_compute. reflexivity. Qed.

(** The answer to an upload is lost.  The next cycle seals the same batch with a new nonce
    and uploads it under the same name: the server, which already holds the first bytes,
    answers 409, and every cycle after that, until an edit gives the batch a new head. *)
Definition nas_unanswered : Engine Link := nas_engine demoA1 (fun n => if Nat.eqb n 2 then Unanswered else Delivered).

Lemma lost_answer_wedges_the_queue :
  nas_cycles 3 nas_unanswered
  = [(Some "Cannot reach https://nas", true, 1%nat); (Some "Sync server returned 409 Conflict", false, 1%nat);
     (Some "Sync server returned 409 Conflict", false, 1%nat)].
Proof. vm_compute. reflexivity. Qed.
