(* ===== verification/S3Adapter.v ===== *)
(** The destination on any S3-compatible store ([core/sync/adapters/s3.adapter.ts]).  The
    client of the store is a parameter, with what the documentation of the service says of
    it as laws; under them the adapter honours the contract of [sync-adapter.ts]. *)
From S2P Require Export SyncTarget Envelope Paging.
#[local] Open Scope string_scope.
#[local] Open Scope Z_scope.

(** * Definitions *)

(** What a failed call throws: the HTTP status, when there was an answer, and a message. *)
Record S3Failure : Type := mkS3Failure { sf_status : option Z; sf_message : string }.
Definition s3_result (A : Type) : Type := S3Failure + A.

(** The calls of the S3 client the adapter makes: a page of keys under a prefix with the
    token of the next one, the body of a key, storing, deleting, and asking for the bucket. *)
Class S3Client (R : Type) : Type := {
  list_objects : string -> option string -> R -> s3_result (list string * option string) * R;
  get_object : string -> R -> s3_result (option bytes) * R;
  put_object : string -> bytes -> R -> s3_result unit * R;
  delete_object : string -> R -> s3_result unit * R;
  head_bucket : R -> s3_result unit * R }.

(** The documented behaviour: no key is empty; a listing is in order and a continuation
    token resumes it after the last key it returned; a call that failed may or may not
    have taken effect. *)
Class S3Laws (R : Type) `{!S3Client R} : Type := {
  bucket : R -> gmap string bytes;
  token_mark : string -> string;
  keys_not_empty : forall r, bucket r !! "" = None;
  list_objects_bucket : forall p t r x r', list_objects p t r = (x, r') -> bucket r' = bucket r;
  list_objects_page : forall p t r keys next r', list_objects p t r = (inr (keys, next), r') ->
    let past := keys_past (bucket r) p (match t with Some tok => token_mark tok | None => "" end) in
    match next with
    | None => keys = past
    | Some tok => tok <> "" /\ keys <> [] /\ last keys = Some (token_mark tok) /\ exists rest, past = (keys ++ rest)%list
    end;
  get_object_bucket : forall k r x r', get_object k r = (x, r') -> bucket r' = bucket r;
  get_object_returns : forall k r b r', get_object k r = (inr (Some b), r') -> bucket r !! k = Some b;
  put_object_bucket : forall k b r x r', put_object k b r = (x, r') ->
    bucket r' = bucket r \/ bucket r' = <[k := b]> (bucket r);
  put_object_stores : forall k b r r', put_object k b r = (inr tt, r') -> bucket r' = <[k := b]> (bucket r);
  delete_object_bucket : forall k r x r', delete_object k r = (x, r') ->
    bucket r' = bucket r \/ bucket r' = delete k (bucket r) }.

(** [prefix.replace(/^\/+|\/+$/g, '')] *)
Definition trim_slashes (s : string) : string := str_rev (trimStart_slashes (str_rev (trimStart_slashes s) "")) "".

Section Adapter.
Context {R : Type} `{!S3Client R} (max_pages : nat) (target_prefix : string).

Definition key (name : string) : string :=
  let prefix := trim_slashes target_prefix in if truthy prefix then prefix ++ "/" ++ name else name.

Definition unkey (k : string) : string :=
  let prefix := trim_slashes target_prefix in
  if truthy prefix && startsWith k (prefix ++ "/") then js_slice_from k (String.length prefix + 1) else k.

Definition run_s3 {A} (operation : R -> s3_result A * R) : M R A := fun r =>
  match operation r with
  | (inr a, r') => (Ok a, r')
  | (inl failure, r') =>
      let status := sf_status failure in
      let retryable := match status with None => true | Some s => (500 <=? s) || (s =? 429) end in
      let with_status := match status with Some s => if s =? 0 then "" else " with " ++ num_to_string s | None => "" end in
      (Throw (SyncTransportError ("S3 request failed" ++ with_status ++ ": " ++ sf_message failure) retryable), r')
  end.

(** [do { ... } while (token)]; items without a key are passed over.  [max_pages] pages are
    followed: enough, by [s3_list_returns], when they outnumber the keys. *)
Fixpoint list_pages (fuel : nat) (prefix : string) (token : option string) (objects : list string) : M R (list string) :=
  match fuel with
  | O => throwM (OutsideModel "the listing ran out of fuel")
  | S fuel' =>
      page ← run_s3 (list_objects (key prefix) token);
      let objects := (objects ++ map unkey (List.filter truthy page.1))%list in
      match page.2 with
      | Some next => if truthy next then list_pages fuel' prefix page.2 objects else mret objects
      | None => mret objects
      end
  end.

Definition s3_list (prefix : string) : M R (list string) :=
  objects ← list_pages max_pages prefix None [];
  mret (js_sort (fun a b => if String.ltb a b then -1 else 1) objects).

Definition s3_get (name : string) : M R bytes :=
  body ← run_s3 (get_object (key name));
  match body with
  | Some b => mret b
  | None => throwM (SyncTransportError ("Empty response for " ++ name) true)
  end.

Definition s3_put (name : string) (b : bytes) : M R unit := run_s3 (put_object (key name) b).
Definition s3_remove (name : string) : M R unit := run_s3 (delete_object (key name)).
Definition s3_probe : M R unit := run_s3 head_bucket.

#[export] Instance s3_adapter : SyncAdapter R bytes := {|
  adapter_list := s3_list; adapter_get := s3_get; adapter_put := s3_put; adapter_remove := s3_remove;
  adapter_flush := mret tt |}.
End Adapter.

(** * Lemmas *)

(** Where an object name stands in the bucket. *)
Definition s3_root (target_prefix : string) : string :=
  let prefix := trim_slashes target_prefix in if truthy prefix then prefix ++ "/" else "".

Lemma key_root target_prefix name : key target_prefix name = s3_root target_prefix ++ name.
Proof. unfold key, s3_root. destruct (truthy _); [|done]. by rewrite str_app_assoc. Qed.

Lemma startsWith_self p t : startsWith (p ++ t) p = true.
Proof. apply SyncTarget.prefix_app. Qed.

Lemma unkey_key target_prefix name : unkey target_prefix (key target_prefix name) = name.
Proof.
  rewrite key_root. unfold unkey, s3_root. destruct (truthy (trim_slashes target_prefix)); [|done].
  rewrite startsWith_self. cbn [andb]. pose proof (slice_app_r (trim_slashes target_prefix ++ "/") name) as E.
  by rewrite length_str_app in E.
Qed.

Lemma key_inj target_prefix n m : key target_prefix n = key target_prefix m -> n = m.
Proof. intros E. by rewrite -(unkey_key target_prefix n) E unkey_key. Qed.

Section Contents.
Context {R : Type} `{!S3Client R} `{!S3Laws R} (target_prefix : string).
Notation key := (key target_prefix).
Notation unkey := (unkey target_prefix).
Notation root := (s3_root target_prefix).

(** The objects of this target: those of the bucket under its prefix. *)
Definition s3_contents (r : R) : gmap string bytes :=
  list_to_map (omap (fun kv => if startsWith kv.1 root then Some (unkey kv.1, kv.2) else None) (map_to_list (bucket r))).

Lemma s3_lookup r n : s3_contents r !! n = bucket r !! key n.
Proof.
  apply option_eq. intros b. unfold s3_contents. rewrite -elem_of_list_to_map.
  - rewrite list_elem_of_omap. split.
    + intros ([k b'] & H%elem_of_map_to_list & E). cbn [fst snd] in E. destruct (startsWith k root) eqn:Hk; [|done]. injection E as <- <-.
      apply prefix_split in Hk as (t & ->). by rewrite -key_root unkey_key key_root.
    + intros H. exists (key n, b). rewrite elem_of_map_to_list. split; [done|]. cbn [fst snd]. by rewrite {1}key_root startsWith_self unkey_key.
  - pose proof (NoDup_fst_map_to_list (bucket r)) as Hnd. revert Hnd. generalize (map_to_list (bucket r)) as l.
    induction l as [|[k b'] l IH]; [constructor|]. cbn [map fst snd omap list_omap]. intros [Hk Hnd]%NoDup_cons. destruct (startsWith k root) eqn:Hp; [|by apply IH].
    cbn. apply NoDup_cons. split; [|by apply IH]. intros ([n' b2] & En & ([k' b3] & Hin & E)%list_elem_of_omap)%list_elem_of_fmap.
    cbn [fst snd] in *. destruct (startsWith k' root) eqn:Hp'; [|done]. injection E as E1 ->. apply Hk.
    apply prefix_split in Hp as (t & ->), Hp' as (t' & ->). rewrite -!key_root !unkey_key in E1, En. subst n' t'.
    apply list_elem_of_fmap. exists (root ++ t, b2). by split.
Qed.

Lemma s3_contents_same r r' : bucket r' = bucket r -> s3_contents r' = s3_contents r.
Proof. intros E. apply map_eq. intros n. by rewrite !s3_lookup E. Qed.
Lemma s3_contents_insert r r' n b : bucket r' = <[key n := b]> (bucket r) -> s3_contents r' = <[n := b]> (s3_contents r).
Proof.
  intros E. apply map_eq. intros m. rewrite s3_lookup E. destruct (decide (m = n)) as [->|Hne].
  - by rewrite !lookup_insert_eq.
  - rewrite !lookup_insert_ne ?s3_lookup //. by intros ?%key_inj.
Qed.
Lemma s3_contents_delete r r' n : bucket r' = delete (key n) (bucket r) -> s3_contents r' = delete n (s3_contents r).
Proof.
  intros E. apply map_eq. intros m. rewrite s3_lookup E. destruct (decide (m = n)) as [->|Hne].
  - by rewrite !lookup_delete_eq.
  - rewrite !lookup_delete_ne ?s3_lookup //. by intros ?%key_inj.
Qed.

(** ** The calls *)

Lemma run_s3_inv {A} (operation : R -> s3_result A * R) r x r' :
  run_s3 operation r = (x, r') -> exists y, operation r = (y, r') /\ (forall a, x = Ok a -> y = inr a).
Proof.
  unfold run_s3. destruct (operation r) as [[failure|a] r1]; intros [= <- <-]; eexists; (split; [done|]); [done|by intros ? [= <-]].
Qed.

Lemma run_s3_Ok {A} (operation : R -> s3_result A * R) r a r' : run_s3 operation r = (Ok a, r') -> operation r = (inr a, r').
Proof. intros (y & E & H)%run_s3_inv. by rewrite E (H a). Qed.

Lemma list_pages_bucket fuel prefix : forall token objects r x r',
  list_pages target_prefix fuel prefix token objects r = (x, r') -> bucket r' = bucket r.
Proof.
  induction fuel as [|fuel IH]; intros token objects r x r'; [by intros [= _ <-]|]. cbn [list_pages]. unfold mbind, M_bind.
  destruct (run_s3 _ r) as [[[keys next]|e] r1] eqn:E; apply run_s3_inv in E as (y & E & _); apply list_objects_bucket in E; [|by intros [= _ <-]].
  cbn [fst snd]. destruct next as [tok|]; [destruct (truthy tok)|]; [intros ->%IH; done|by intros [= _ <-]..].
Qed.

(** What a page leaves. *)
Definition token_past (r : R) (prefix : string) (token : option string) : list string :=
  keys_past (bucket r) (key prefix) (match token with Some tok => token_mark tok | None => "" end).

Lemma page_step r prefix token keys next r' :
  list_objects (key prefix) token r = (inr (keys, next), r') ->
  match next with
  | None => keys = token_past r prefix token
  | Some tok => truthy tok = true /\ (length (token_past r prefix next) < length (token_past r prefix token))%nat
      /\ token_past r prefix token = (keys ++ token_past r prefix next)%list
  end.
Proof.
  intros H%list_objects_page. destruct next as [tok|]; [|done]. destruct H as (Ht & Hk & Hl & rest & E).
  destruct keys as [|k keys _] using rev_ind; [done|]. rewrite last_snoc in Hl. injection Hl as ->.
  rewrite -app_assoc in E. pose proof (keys_past_rest _ _ _ _ _ _ E) as Er. unfold token_past. split_and!.
  - unfold truthy. by destruct (String.eqb_spec tok "").
  - rewrite E Er !length_app. cbn. lia.
  - by rewrite Er -app_assoc.
Qed.

Lemma token_past_truthy r prefix token : List.filter truthy (token_past r prefix token) = token_past r prefix token.
Proof.
  apply List.forallb_filter_id, forallb_forall. intros k Hk%list_elem_of_In.
  apply elem_of_keys_past in Hk as ([b Hb] & _). unfold truthy. destruct (String.eqb_spec k "") as [->|]; [|done].
  by rewrite keys_not_empty in Hb.
Qed.

Lemma token_past_same r r' prefix token : bucket r' = bucket r -> token_past r' prefix token = token_past r prefix token.
Proof. intros E. unfold token_past. by rewrite E. Qed.

Lemma list_pages_Ok fuel prefix : forall token objects r names r',
  list_pages target_prefix fuel prefix token objects r = (Ok names, r') ->
  names = (objects ++ map unkey (token_past r prefix token))%list.
Proof.
  induction fuel as [|fuel IH]; intros token objects r names r'; [done|]. cbn [list_pages]. intros H.
  apply M_bind_Ok_inv in H as ([keys next] & r1 & E & H). apply run_s3_Ok in E. pose proof (list_objects_bucket _ _ _ _ _ E) as Eb.
  apply page_step in E. cbn [fst snd] in H. pose proof (token_past_truthy r prefix token) as Hf.
  destruct next as [tok|].
  - destruct E as (Ht & _ & E). rewrite Ht in H. apply IH in H. rewrite H (token_past_same _ _ _ _ Eb) E -app_assoc. f_equal.
    rewrite E List.filter_app in Hf. rewrite map_app. f_equal. f_equal.
    pose proof (token_past_truthy r prefix (Some tok)) as Hf2. rewrite Hf2 in Hf. by apply app_inv_tail in Hf.
  - injection H as <- _. by rewrite -E in Hf |- *; rewrite Hf.
Qed.

Lemma token_past_bound r prefix token : (length (token_past r prefix token) <= size (bucket r))%nat.
Proof. apply keys_past_bound. Qed.

(** The names a listing returns. *)
Lemma elem_of_token_names r prefix n :
  n ∈ map unkey (token_past r prefix None) <-> startsWith n prefix = true /\ is_Some (s3_contents r !! n).
Proof.
  rewrite s3_lookup. change (map unkey ?l) with (unkey <$> l). rewrite list_elem_of_fmap. unfold token_past. setoid_rewrite elem_of_keys_past.
  split.
  - intros (k & -> & Hk & Hp & _). rewrite key_root in Hp. pose proof Hp as (t & ->)%prefix_split.
    rewrite str_app_assoc startsWith_common in Hp. rewrite str_app_assoc -key_root unkey_key in Hk |- *. done.
  - intros (Hp & Hs). exists (key n). rewrite unkey_key. split_and!; [done..|by rewrite !key_root startsWith_common|].
    destruct Hs as [b Hb]. destruct (key n) as [|c k]; [by rewrite keys_not_empty in Hb|done].
Qed.

Lemma token_names_NoDup r prefix : NoDup (map unkey (token_past r prefix None)).
Proof.
  unfold token_past. apply NoDup_fmap_2_strong; [|apply keys_past_NoDup].
  intros k k' (_ & Hk & _)%elem_of_keys_past (_ & Hk' & _)%elem_of_keys_past E. rewrite key_root in Hk, Hk'.
  apply prefix_split in Hk as (t & ->), Hk' as (t' & ->). rewrite !str_app_assoc -!key_root !unkey_key in E. by rewrite !str_app_assoc E.
Qed.

Context (max_pages : nat).
Notation names r prefix := (js_sort (fun a b => if String.ltb a b then -1 else 1) (map unkey (token_past r prefix None))).

Lemma s3_list_Ok prefix r l r' : s3_list max_pages target_prefix prefix r = (Ok l, r') -> l = names r prefix.
Proof. intros (objects & r1 & ->%list_pages_Ok & [= <- _])%M_bind_Ok_inv. done. Qed.

(** ** The contract *)

#[export] Instance s3_laws : @AdapterLaws R bytes (s3_adapter max_pages target_prefix).
Proof.
  refine {| contents := s3_contents |}; unfold adapter_list, adapter_get, adapter_put, adapter_remove, adapter_flush, s3_adapter.
  - intros p r x r' H. apply s3_contents_same. unfold s3_list, mbind, M_bind in H.
    destruct (list_pages _ _ _ _ _ r) as [[l|e] r1] eqn:E; apply list_pages_bucket in E; by injection H as _ <-.
  - intros p r l r' n H. rewrite (s3_list_Ok _ _ _ _ H) elem_of_js_sort. apply elem_of_token_names.
  - intros p r l r' H. rewrite (s3_list_Ok _ _ _ _ H). apply sort_names_strict, token_names_NoDup.
  - intros n r x r' H. apply s3_contents_same. unfold s3_get, mbind, M_bind in H.
    destruct (run_s3 _ r) as [[[b|]|e] r1] eqn:E; apply run_s3_inv in E as (y & E%get_object_bucket & _); by injection H as _ <-.
  - intros n r b r' H. apply M_bind_Ok_inv in H as ([b'|] & r1 & E%run_s3_Ok & H); [|done]. injection H as <- _.
    rewrite s3_lookup. by eapply get_object_returns.
  - intros n b r x r' H. apply run_s3_inv in H as (y & [E|E]%put_object_bucket & _); [left; by apply s3_contents_same|right; by apply s3_contents_insert].
  - intros n b r r' H. apply run_s3_Ok, put_object_stores in H. by apply s3_contents_insert.
  - intros n r x r' H. apply run_s3_inv in H as (y & [E|E]%delete_object_bucket & _); [left; by apply s3_contents_same|right; by apply s3_contents_delete].
  - by intros r x r' [= _ <-].
Defined.
End Contents.

(** With more pages allowed than keys, the loop does not run out: it returns or a call failed. *)
Lemma list_pages_ends {R : Type} `{!S3Client R} `{!S3Laws R} target_prefix fuel prefix : forall token objects r,
  (forall t r, exists page r', list_objects (key target_prefix prefix) t r = (inr page, r')) ->
  (length (token_past target_prefix r prefix token) < fuel)%nat ->
  exists names r', list_pages target_prefix fuel prefix token objects r = (Ok names, r').
Proof.
  induction fuel as [|fuel IH]; intros token objects r Hok Hl; [lia|]. cbn [list_pages]. unfold mbind, M_bind, run_s3.
  destruct (Hok token r) as ([keys next] & r1 & E). rewrite E. pose proof (list_objects_bucket _ _ _ _ _ E) as Eb.
  apply page_step in E. cbn [fst snd]. destruct next as [tok|]; [|by eexists _, _]. destruct E as (-> & Hlt & _).
  apply IH; [done|]. rewrite (token_past_same _ _ _ _ _ Eb). lia.
Qed.

(** * Properties *)

(** A listing of a bucket ends and is complete, whatever its pages: with more pages
    allowed than keys and calls that answer, the loop stops on the last page and returns,
    in order, exactly the names of this target under the prefix, without the target's own. *)
Theorem s3_list_returns {R : Type} `{!S3Client R} `{!S3Laws R} target_prefix max_pages prefix r :
  (forall t r, exists page r', list_objects (key target_prefix prefix) t r = (inr page, r')) ->
  (size (bucket r) < max_pages)%nat ->
  exists names r', s3_list max_pages target_prefix prefix r = (Ok names, r')
    /\ StronglySorted (fun a b => String.ltb a b = true) names
    /\ forall n, n ∈ names <-> startsWith n prefix = true /\ is_Some (bucket r !! key target_prefix n).
Proof.
  intros Hok Hl. pose proof (token_past_bound target_prefix r prefix None).
  destruct (list_pages_ends target_prefix max_pages prefix None [] r Hok) as (l & r1 & E); [lia|].
  assert (s3_list max_pages target_prefix prefix r = (Ok (js_sort (fun a b => if String.ltb a b then -1 else 1) l), r1)) as Hrun
    by by unfold s3_list, mbind, M_bind; rewrite E.
  eexists _, r1. split; [exact Hrun|]. rewrite (s3_list_Ok _ _ _ _ _ _ Hrun). split.
  - apply sort_names_strict, token_names_NoDup.
  - intros n. by rewrite elem_of_js_sort elem_of_token_names s3_lookup.
Qed.

(** * Witnesses *)

(** A bucket that answers two keys at a time; its tokens are the last keys of a page. *)
Definition demo_keys (m : gmap string bytes) (p : string) (t : option string) : list string :=
  keys_past (delete "" m) p (default "" t).
#[export] Instance demo_s3 : S3Client (gmap string bytes) := {|
  list_objects p t m :=
    let past := demo_keys m p t in
    (inr (if (2 <? length past)%nat then (take 2 past, last (take 2 past)) else (past, None)), m);
  get_object k m := (match delete "" m !! k with Some b => inr (Some b) | None => inl (mkS3Failure (Some 404) "NoSuchKey") end, m);
  put_object k b m := if String.eqb k "" then (inl (mkS3Failure None "Key must not be empty"), m) else (inr tt, <[k := b]> m);
  delete_object k m := (inr tt, delete k m);
  head_bucket m := (inr tt, m) |}.

#[export] Instance demo_s3_laws : S3Laws (gmap string bytes).
Proof.
  refine {| bucket := delete ""; token_mark := id |}; unfold list_objects, get_object, put_object, delete_object, demo_s3.
  - intros r. apply lookup_delete_eq.
  - by intros p t r x r' [= _ <-].
  - intros p t r keys next r' H. injection H as E _. cbn zeta. change (match t with Some tok => id tok | None => "" end) with (default "" t).
    fold (demo_keys r p t). unfold demo_keys in *. set (past := keys_past _ _ _) in *.
    destruct (Nat.ltb_spec 2 (length past)); injection E as <- <-; [|done].
    assert ("" ∉ past) as Hne.
    { intros ([b Hb] & _)%elem_of_keys_past. by rewrite lookup_delete_eq in Hb. }
    clearbody past. destruct past as [|x [|y rest]]; cbn in H |- *; [lia..|]. split_and!; [|done|done|by exists rest].
    intros ->. apply Hne. set_solver.
  - by intros k r x r' [= _ <-].
  - intros k r b r' H. injection H as H _. destruct (delete "" r !! k) as [b'|]; [by injection H as <-|done].
  - intros k b r x r'. destruct (String.eqb_spec k ""); intros [= _ <-]; [by left|]. right. by rewrite delete_insert_ne.
  - intros k b r r'. destruct (String.eqb_spec k ""); [done|]. intros [= <-]. by rewrite delete_insert_ne.
  - intros k r x r' [= _ <-]. right. apply delete_delete.
Defined.

Definition demo_bucket : gmap string bytes :=
  list_to_map (map (fun n => (key "/docket/" (opsObjectName "v" n), [1])) ["a"; "b"; "c"; "d"; "e"]).

Lemma demo_listing : fst (s3_list 6 "/docket/" (opsPrefix "v") demo_bucket) = Ok (map (opsObjectName "v") ["a"; "b"; "c"; "d"; "e"]).
Proof. vm_compute. reflexivity. Qed.

Lemma s3_list_returns_witness :
  exists names r', s3_list 6 "/docket/" (opsPrefix "v") demo_bucket = (Ok names, r') /\ opsObjectName "v" "e" ∈ names.
Proof.
  destruct (s3_list_returns "/docket/" 6 (opsPrefix "v") demo_bucket) as (names & r' & E & _ & Hn).
  - intros t r. eexists _, r. reflexivity.
  - apply Nat.ltb_lt. vm_compute. reflexivity.
  - exists names, r'. split; [exact E|]. apply Hn. split; [vm_compute; reflexivity|]. exists [1]. vm_compute. reflexivity.
Defined.
