(* ===== verification/GitAdapter.v ===== *)
(** The destination that keeps a vault in a Git repository
    ([core/sync/adapters/git.adapter.ts]).  The file system and the Git implementation are
    parameters, with what their documentation says of an index, a commit and a push as laws. *)
From S2P Require Import Crypto SyncSafety.
From S2P Require Export Sync Envelope.
#[local] Open Scope string_scope.
#[local] Open Scope Z_scope.

(** * Definitions *)

Definition REPO_DIR : string := "/vault".

(** What a file system or a Git call throws. *)
Record GitFailure : Type := mkGitFailure { gf_code : string; gf_message : string; gf_status : option Z }.
Definition git_result (A : Type) : Type := GitFailure + A.

(** What every call over the network is given: the CORS proxy and the credentials. *)
Record Access : Type := mkAccess { ac_corsProxy : option string; ac_username : string; ac_password : string }.

(** The calls the adapter makes of LightningFS and of isomorphic-git on the clone in
    [REPO_DIR] : a push names a remote of the clone and a branch, fast-forwarding a branch,
    and only asking for heads and cloning a URL. *)
Class Git (W : Type) : Type := {
  g_stat : string -> W -> bool;
  g_mkdir : string -> W -> git_result unit * W;
  g_readdir : string -> W -> git_result (list string);
  g_readFile : string -> W -> git_result bytes;
  g_writeFile : string -> bytes -> W -> git_result unit * W;
  g_unlink : string -> W -> git_result unit * W;
  g_add : string -> W -> git_result unit * W;
  g_remove : string -> W -> git_result unit * W;
  g_commit : string -> string * string -> W -> git_result unit * W;
  g_push : string -> string -> Access -> W -> git_result unit * W;
  g_fastForward : string -> Access -> W -> git_result unit * W;
  g_getRemoteInfo : string -> Access -> W -> git_result (list string) * W;
  g_clone : string -> string -> Access -> W -> git_result unit * W;
  g_init : string -> W -> git_result unit * W;
  g_addRemote : string -> string -> W -> git_result unit * W }.

(** The adapter: the clone, the names staged since the last flush, and whether the clone
    is known to be there. *)
Record GitAdapter (W : Type) : Type := mkGit { ga_world : W; staged : gset string; ready : bool }.
Arguments mkGit {W}.
Arguments ga_world {W}.
Arguments staged {W}.
Arguments ready {W}.

(** A new adapter on the clone another one left: the factory makes one for each cycle. *)
Definition new_adapter {W} (a : GitAdapter W) : GitAdapter W := mkGit (ga_world a) ∅ false.

(** Whether a failure is that a reference does not exist upstream yet. *)
Definition isMissingRef (cause : GitFailure) : bool :=
  String.eqb (gf_code cause) "NotFoundError" || String.eqb (gf_code cause) "ResolveRefError"
  || includes (toLowerCase (gf_message cause)) "could not find".

(** The URL parser's [hostname], and whether this is the app rather than a browser. *)
Record Platform : Type := mkPlatform { hostname : string -> option string; isNativePlatform : bool }.

Section Adapter.
Context {W : Type} `{!Git W} (platform : Platform) (repoUrl branch token username corsProxy authorName authorEmail : string).

(** [a || b] on strings. *)
Definition or_else (a b : string) : string := if truthy a then a else b.

Definition access : Access := mkAccess (if truthy corsProxy then Some corsProxy else None) (or_else username "docket") token.

(** The dashes of the message are their UTF-8 bytes. *)
Definition corsHint : option string :=
  if truthy (trim corsProxy) then None
  else if isNativePlatform platform then None
  else match hostname platform repoUrl with
       | None => None
       | Some host =>
           if String.eqb host "localhost" || String.eqb host "127.0.0.1" || String.eqb host "[::1]" then None
           else Some ("A browser cannot reach " ++ host ++ " directly: Git hosts send no CORS headers, "
             ++ "so the request is blocked before it is even authenticated. Set a CORS proxy "
             ++ "in the sync settings — https://cors.isomorphic-git.org, or one you run "
             ++ "yourself — or sync from the Android app, which does not need one.")
       end.

Definition transportError (cause : GitFailure) : exn :=
  let retryable := match gf_status cause with None => true | Some s => (500 <=? s) || (s =? 429) end
                   || String.eqb (gf_code cause) "HttpError" in
  let message := match corsHint with
                 | Some hint => hint ++ " (the underlying failure was: " ++ gf_message cause ++ ")"
                 | None => "Git operation failed: " ++ gf_message cause
                 end in
  SyncTransportError message retryable.

(** A call on the clone, its failure thrown as it is, or by [run] as a transport error. *)
Definition on_world {A} (wrap : GitFailure -> exn) (op : W -> git_result A * W) : M (GitAdapter W) A := fun a =>
  let '(x, w) := op (ga_world a) in
  (match x with inr v => Ok v | inl cause => Throw (wrap cause) end, mkGit w (staged a) (ready a)).
Definition run_git {A} : (W -> git_result A * W) -> M (GitAdapter W) A := on_world transportError.
Definition raw {A} : (W -> git_result A * W) -> M (GitAdapter W) A := on_world (fun cause => JsError (gf_message cause)).
Definition stage (name : string) : M (GitAdapter W) unit := modifyS (fun a => mkGit (ga_world a) ({[name]} ∪ staged a) (ready a)).

(** One directory: that it is there already is no failure. *)
Definition mkdir_one (current : string) : M (GitAdapter W) unit :=
  raw (fun w => match g_mkdir current w with
                | (inl cause, w') => (if String.eqb (gf_code cause) "EEXIST" then inr tt else inl cause, w')
                | r => r
                end).
Fixpoint mkdir_segments (segments : list string) (current : string) : M (GitAdapter W) unit :=
  match segments with
  | [] => mret tt
  | segment :: rest => let current := current ++ "/" ++ segment in _ ← mkdir_one current; mkdir_segments rest current
  end.
Definition mkdirp (path : string) : M (GitAdapter W) unit := mkdir_segments (List.filter truthy (split_on "/" path)) "".

Definition cloneOrInit : M (GitAdapter W) unit :=
  a ← getS;
  if g_stat (REPO_DIR ++ "/.git") (ga_world a) then mret tt
  else
    _ ← mkdirp REPO_DIR;
    heads ← run_git (g_getRemoteInfo repoUrl access);
    match heads with
    | _ :: _ => run_git (g_clone repoUrl branch access)
    | [] => _ ← run_git (g_init branch); run_git (g_addRemote "origin" repoUrl)
    end.

(** The memoised promise: a clone that failed is tried again by the next call. *)
Definition ensureClone : M (GitAdapter W) unit :=
  a ← getS;
  if ready a then mret tt
  else _ ← cloneOrInit; modifyS (fun a => mkGit (ga_world a) (staged a) true).

(** That there is nothing upstream to fast-forward to is no failure. *)
Definition fastForward : M (GitAdapter W) unit := fun a =>
  match g_fastForward branch access (ga_world a) with
  | (inl cause, w) => (if isMissingRef cause then Ok tt else Throw (transportError cause), mkGit w (staged a) (ready a))
  | (inr _, w) => (Ok tt, mkGit w (staged a) (ready a))
  end.
Definition git_sync : M (GitAdapter W) unit := _ ← ensureClone; fastForward.

(** The path without its trailing slashes, and without its last segment. *)
Fixpoint dropSlashes (s : string) : string := match s with String c s' => if Ascii.eqb c "/" then dropSlashes s' else s | "" => "" end.
Definition trimTrailing (s : string) : string := str_rev (dropSlashes (str_rev s "")) "".
Definition dirname (s : string) : string :=
  match rev (split_on "/" s) with
  | last :: rest => if truthy last then JsString.join "/" (rev rest) else s
  | [] => s
  end.

Definition git_list (prefix : string) : M (GitAdapter W) (list string) :=
  _ ← git_sync;
  a ← getS;
  match g_readdir (trimTrailing (REPO_DIR ++ "/" ++ prefix)) (ga_world a) with
  | inl _ => mret []
  | inr names =>
      mret (js_sort (fun a b => if String.ltb a b then -1 else 1)
              (map (fun name => prefix ++ name) (List.filter (fun name => negb (startsWith name ".")) names)))
  end.

Definition git_get (name : string) : M (GitAdapter W) bytes :=
  _ ← ensureClone; raw (fun w => (g_readFile (REPO_DIR ++ "/" ++ name) w, w)).

Definition git_put (name : string) (b : bytes) : M (GitAdapter W) unit :=
  _ ← ensureClone;
  _ ← mkdirp (dirname (REPO_DIR ++ "/" ++ name));
  _ ← raw (g_writeFile (REPO_DIR ++ "/" ++ name) b);
  _ ← run_git (g_add name);
  stage name.

Definition git_remove (name : string) : M (GitAdapter W) unit :=
  _ ← ensureClone;
  gone ← raw (fun w => match g_unlink (REPO_DIR ++ "/" ++ name) w with
                       | (inl cause, w') => (if String.eqb (gf_code cause) "ENOENT" then inr true else inl cause, w')
                       | (inr _, w') => (inr false, w')
                       end);
  if gone : bool then mret tt else _ ← run_git (g_remove name); stage name.

(** One commit of all that is staged, on the branch checked out, and a push of the branch of
    the settings to the remote the clone was made with. *)
Definition git_flush : M (GitAdapter W) unit :=
  a ← getS;
  let count := size (staged a) in
  if (count =? 0)%nat then mret tt
  else
    let message := "Easy Docket: sync " ++ num_to_string (Z.of_nat count) ++ " object" ++ (if (count =? 1)%nat then "" else "s") in
    _ ← run_git (g_commit message (or_else authorName "Easy Docket", or_else authorEmail "docket@localhost"));
    _ ← run_git (g_push "origin" branch access);
    modifyS (fun a => mkGit (ga_world a) ∅ (ready a)).

Definition git_probe : M (GitAdapter W) unit := _ ← run_git (g_getRemoteInfo repoUrl access); mret tt.

#[export] Instance git_adapter : SyncAdapter (GitAdapter W) bytes := {|
  adapter_list := git_list; adapter_get := git_get; adapter_put := git_put; adapter_remove := git_remove;
  adapter_flush := git_flush |}.
End Adapter.

(** * Specification *)

(** What the documentation of Git says of the clone's files and index, the branch checked
    out, the remotes configured, and the branches here and at each URL: writing changes a
    file, adding puts the file in the index, a commit records the index on the branch
    checked out, a push brings the last commit of the branch named to the same branch of the
    remote named; cloning and starting a history check the branch out, and set the remote. *)
Class GitLaws (W : Type) `{!Git W} : Type := {
  index : W -> gmap string bytes;
  tree : W -> gmap string bytes;
  checked_out : W -> option string;
  remotes : W -> gmap string string;
  branches : W -> gmap string (gmap string bytes);
  upstream_tree : W -> string -> string -> option (gmap string bytes);
  config (w : W) := (checked_out w, remotes w);
  mkdir_keeps : forall p w x w', g_mkdir p w = (x, w') -> index w' = index w /\ config w' = config w;
  writeFile_keeps : forall p b w x w', g_writeFile p b w = (x, w') -> index w' = index w /\ config w' = config w;
  writeFile_tree : forall n b w w', g_writeFile (REPO_DIR ++ "/" ++ n) b w = (inr tt, w') -> tree w' !! n = Some b;
  add_index : forall n b w w', g_add n w = (inr tt, w') -> tree w !! n = Some b -> index w' = <[n := b]> (index w);
  add_keeps : forall n w x w', g_add n w = (x, w') -> config w' = config w;
  commit_branch : forall m who b w w', g_commit m who w = (inr tt, w') -> checked_out w = Some b ->
    branches w' !! b = Some (index w);
  commit_keeps : forall m who w x w', g_commit m who w = (x, w') -> config w' = config w;
  push_upstream : forall remote ref ac w w', g_push remote ref ac w = (inr tt, w') ->
    exists url t, remotes w !! remote = Some url /\ branches w !! ref = Some t /\ upstream_tree w' url ref = Some t;
  getRemoteInfo_keeps : forall url ac w x w', g_getRemoteInfo url ac w = (x, w') -> config w' = config w;
  clone_config : forall url ref ac w w', g_clone url ref ac w = (inr tt, w') ->
    checked_out w' = Some ref /\ remotes w' !! "origin" = Some url;
  init_config : forall b w w', g_init b w = (inr tt, w') -> checked_out w' = Some b;
  addRemote_config : forall remote url w w', g_addRemote remote url w = (inr tt, w') ->
    checked_out w' = checked_out w /\ remotes w' = <[remote := url]> (remotes w) }.

(** The clone, if there is one, was made with these settings. *)
Definition set_up {W} `{!Git W} `{!GitLaws W} (repoUrl branch : string) (a : GitAdapter W) : Prop :=
  ready a = true \/ g_stat (REPO_DIR ++ "/.git") (ga_world a) = true ->
  checked_out (ga_world a) = Some branch /\ remotes (ga_world a) !! "origin" = Some repoUrl.

(** * Lemmas *)

Section Delivery.
Context {W : Type} `{!Git W} `{!GitLaws W} (platform : Platform) (repoUrl branch token username corsProxy authorName authorEmail : string).
Notation git_put := (git_put platform repoUrl branch token username corsProxy).
Notation git_flush := (git_flush platform repoUrl branch token username corsProxy authorName authorEmail).
Notation ensureClone := (ensureClone platform repoUrl branch token username corsProxy).

Lemma on_world_Ok {A} wrap (op : W -> git_result A * W) a v a' : on_world wrap op a = (Ok v, a') ->
  op (ga_world a) = (inr v, ga_world a') /\ staged a' = staged a /\ ready a' = ready a.
Proof. unfold on_world. destruct (op (ga_world a)) as [[cause|x] w]; intros [= <- <-]; done. Qed.

Lemma raw_Ok {A} (op : W -> git_result A * W) a v a' : raw op a = (Ok v, a') ->
  op (ga_world a) = (inr v, ga_world a') /\ staged a' = staged a /\ ready a' = ready a.
Proof. apply on_world_Ok. Qed.

Lemma run_git_Ok {A} (op : W -> git_result A * W) a v a' :
  run_git platform repoUrl corsProxy op a = (Ok v, a') ->
  op (ga_world a) = (inr v, ga_world a') /\ staged a' = staged a /\ ready a' = ready a.
Proof. apply on_world_Ok. Qed.

Lemma ensureClone_ready a x a' : ensureClone a = (Ok x, a') -> ready a' = true /\ (ready a = true -> a' = a).
Proof.
  unfold GitAdapter.ensureClone. intros (a0 & a1 & [= <- <-] & H)%M_bind_Ok_inv. destruct (ready a) eqn:E.
  - by injection H as _ <-.
  - apply M_bind_Ok_inv in H as ([] & a2 & _ & [= _ <-]). done.
Qed.

Lemma mkdirp_keeps path a x a' : mkdirp path a = (Ok x, a') ->
  index (ga_world a') = index (ga_world a) /\ config (ga_world a') = config (ga_world a) /\ staged a' = staged a /\ ready a' = ready a.
Proof.
  unfold mkdirp. generalize (List.filter truthy (split_on "/" path)) as segs. intros segs. generalize "" as cur. revert a.
  induction segs as [|seg segs IH]; intros a cur; [by intros [= _ <-]|]. cbn [mkdir_segments].
  intros ([] & a1 & E & H)%M_bind_Ok_inv. unfold mkdir_one in E. apply raw_Ok in E as (E & <- & <-).
  apply IH in H as (-> & -> & -> & ->).
  assert (index (ga_world a1) = index (ga_world a) /\ config (ga_world a1) = config (ga_world a)) as [-> ->]; [|done].
  destruct (g_mkdir _ _) as [[cause|[]] w] eqn:Em; [destruct (String.eqb _ _)|]; try done;
    injection E as ->; by eapply mkdir_keeps.
Qed.

(** After the clone was seen to, it is there, and made with these settings if it was before. *)
Lemma ensureClone_set_up a x a' : ensureClone a = (Ok x, a') -> set_up repoUrl branch a ->
  checked_out (ga_world a') = Some branch /\ remotes (ga_world a') !! "origin" = Some repoUrl.
Proof.
  unfold GitAdapter.ensureClone. intros (a0 & a1 & [= <- <-] & H)%M_bind_Ok_inv Hs. destruct (ready a) eqn:Er.
  { injection H as _ <-. apply Hs. by left. }
  apply M_bind_Ok_inv in H as ([] & a2 & H & [= _ <-]). cbn. unfold cloneOrInit in H.
  apply M_bind_Ok_inv in H as (a3 & a4 & [= <- <-] & H). destruct (g_stat _ _) eqn:Eg.
  { injection H as <-. apply Hs. by right. }
  apply M_bind_Ok_inv in H as ([] & a4 & _ & H). apply M_bind_Ok_inv in H as (heads & a5 & _ & H). destruct heads.
  - apply M_bind_Ok_inv in H as ([] & a6 & (E1%init_config & _)%run_git_Ok & ((E2 & E3)%addRemote_config & _)%run_git_Ok).
    rewrite E2 E3 E1. split; [done|apply lookup_insert_eq].
  - apply run_git_Ok in H as (E & _). by eapply clone_config.
Qed.

Lemma git_put_Ok n b a x a' : git_put n b a = (Ok x, a') ->
  ready a' = true /\ n ∈ staged a' /\ index (ga_world a') !! n = Some b
  /\ (set_up repoUrl branch a -> set_up repoUrl branch a')
  /\ (ready a = true -> staged a ⊆ staged a' /\ forall m, m <> n -> index (ga_world a') !! m = index (ga_world a) !! m).
Proof.
  unfold GitAdapter.git_put. intros ([] & a1 & E1 & H)%M_bind_Ok_inv.
  pose proof (ensureClone_set_up _ _ _ E1) as Hup. apply ensureClone_ready in E1 as [Hr1 Hsame].
  apply M_bind_Ok_inv in H as ([] & a2 & (Ei2 & Ec2 & Es2 & Er2)%mkdirp_keeps & H).
  apply M_bind_Ok_inv in H as ([] & a3 & (E3 & Es3 & Er3)%raw_Ok & H).
  apply M_bind_Ok_inv in H as ([] & a4 & (E4 & Es4 & Er4)%run_git_Ok & [= _ <-]). cbn.
  destruct (writeFile_keeps _ _ _ _ _ E3) as [Ei3 Ec3]. pose proof (add_keeps _ _ _ _ E4) as Ec4.
  pose proof (writeFile_tree _ _ _ _ E3) as Ht. pose proof (add_index _ _ _ _ E4 Ht) as Hi. rewrite Hi. split_and!.
  - congruence.
  - set_solver.
  - apply lookup_insert_eq.
  - intros [H1 H2]%Hup. unfold set_up. cbn. intros _. rewrite Ec3 Ec2 in Ec4. injection Ec4 as -> ->. by split.
  - intros Hr. specialize (Hsame Hr) as ->. split; [rewrite Es4 Es3 Es2; set_solver|]. intros m Hm.
    rewrite lookup_insert_ne //. by rewrite Ei3 Ei2.
Qed.

Lemma puts_staged l : forall a x a', NoDup (map fst l) ->
  forM_ l (fun nb => git_put nb.1 nb.2) a = (Ok x, a') -> ready a = true ->
  ready a' = true /\ staged a ⊆ staged a' /\ (set_up repoUrl branch a -> set_up repoUrl branch a')
  /\ (forall m, m ∉ map fst l -> index (ga_world a') !! m = index (ga_world a) !! m)
  /\ forall n b, (n, b) ∈ l -> index (ga_world a') !! n = Some b /\ n ∈ staged a'.
Proof.
  induction l as [|[n b] l IH]; intros a x a' Hnd H Hr.
  - injection H as _ <-. split_and!; [done..|]. by intros ? ? ?%elem_of_nil.
  - cbn [map fst] in Hnd. apply NoDup_cons in Hnd as [Hn Hnd]. cbn [forM_ fst snd] in H.
    apply M_bind_Ok_inv in H as ([] & a1 & (Hr1 & Hs1 & Hi1 & Hup1 & Hrest)%git_put_Ok & H). destruct (Hrest Hr) as [Hsub Hkeep].
    apply IH in H as (Hr' & Hsub' & Hup' & Hkeep' & Hall); [|done..]. split_and!; [done|set_solver|auto|..].
    + intros m Hm. cbn [map fst] in Hm. apply not_elem_of_cons in Hm as [Hm1 Hm2]. rewrite (Hkeep' _ Hm2). by apply Hkeep.
    + intros n' b' [[= -> ->]|Hin]%elem_of_cons; [|by apply Hall]. split; [|set_solver]. by rewrite (Hkeep' _ Hn).
Qed.

Lemma git_flush_Ok a x a' : git_flush a = (Ok x, a') -> staged a <> ∅ -> set_up repoUrl branch a -> ready a = true ->
  upstream_tree (ga_world a') repoUrl branch = Some (index (ga_world a)) /\ staged a' = ∅.
Proof.
  intros H Hs Hup Hr. destruct (Hup (or_introl Hr)) as [Hb Hu]. apply M_bind_Ok_inv in H as (a0 & a1 & [= <- <-] & H). cbn zeta in H.
  destruct (Nat.eqb_spec (size (staged a)) 0) as [Hz|_]; [by apply size_empty_inv, leibniz_equiv in Hz|].
  apply M_bind_Ok_inv in H as ([] & a2 & (E2 & _)%run_git_Ok & H).
  apply M_bind_Ok_inv in H as ([] & a3 & (E3 & _)%run_git_Ok & [= _ <-]). cbn.
  pose proof (commit_branch _ _ _ _ _ E2 Hb) as Hc. pose proof (commit_keeps _ _ _ _ _ E2) as Hk. injection Hk as _ Hk.
  apply push_upstream in E3 as (url & t & Eu & Et & Eup). rewrite Hk Hu in Eu. injection Eu as <-. split; [congruence|done].
Qed.
End Delivery.

(** * Properties *)

(** C25: A flush delivers what was put.  If the clone on the device, if there is one, was
    made with the settings of this adapter, and uploads and the flush that ends the cycle
    return, then the branch of the settings at the URL of the settings holds every object
    uploaded by this adapter with its bytes; and a second flush has nothing to push. *)
Theorem git_flush_delivers {W : Type} `{!Git W} `{!GitLaws W} platform repoUrl branch token username corsProxy authorName authorEmail
    l (a a1 a2 : GitAdapter W) x y :
  NoDup (map fst l) -> l <> [] -> set_up repoUrl branch a ->
  forM_ l (fun nb => git_put platform repoUrl branch token username corsProxy nb.1 nb.2) a = (Ok x, a1) ->
  git_flush platform repoUrl branch token username corsProxy authorName authorEmail a1 = (Ok y, a2) ->
  (exists t, upstream_tree (ga_world a2) repoUrl branch = Some t /\ forall n b, (n, b) ∈ l -> t !! n = Some b)
  /\ git_flush platform repoUrl branch token username corsProxy authorName authorEmail a2 = (Ok tt, a2).
Proof.
  intros Hnd Hl Hup Hp Hf. destruct l as [|[n b] l]; [done|]. cbn [map fst] in Hnd. pose proof Hnd as [Hn Hnd']%NoDup_cons.
  cbn [forM_ fst snd] in Hp. apply M_bind_Ok_inv in Hp as ([] & a0 & (Hr & Hs & Hi & Hup0 & _)%git_put_Ok & Hp).
  apply puts_staged in Hp as (Hr1 & Hsub & Hup1 & Hkeep & Hall); [|done..].
  apply git_flush_Ok in Hf as [Hu He]; [|set_solver|auto|done]. split.
  - exists (index (ga_world a1)). split; [done|]. intros n' b' [[= -> ->]|Hin]%elem_of_cons; [by rewrite (Hkeep _ Hn)|by apply Hall].
  - unfold git_flush, mbind, M_bind, getS. rewrite He size_empty. done.
Qed.

(** * Witnesses *)

(** A small Git: files, index, the branch checked out and the remotes; the commits of each
    branch here and at each URL, newest first; and how many pushes the network will lose. *)
#[local] Notation commits := (list (gmap string bytes)).
Record ToyGit : Type := mkToy {
  tg_cloned : bool; tg_files : gmap string bytes; tg_index : gmap string bytes; tg_branch : string;
  tg_remotes : gmap string string; tg_logs : gmap string commits; tg_upstream : gmap (string * string) commits; tg_lost : nat }.

Definition toy_rel (p : string) : string := js_slice_from p (String.length REPO_DIR + 1).
Definition toy_failure (code message : string) : GitFailure := mkGitFailure code message None.
Definition toy_files (f : gmap string bytes) (w : ToyGit) : ToyGit :=
  mkToy (tg_cloned w) f (tg_index w) (tg_branch w) (tg_remotes w) (tg_logs w) (tg_upstream w) (tg_lost w).
Definition toy_index (f : gmap string bytes) (w : ToyGit) : ToyGit :=
  mkToy (tg_cloned w) (tg_files w) f (tg_branch w) (tg_remotes w) (tg_logs w) (tg_upstream w) (tg_lost w).
Definition toy_log (b : string) (w : ToyGit) : commits := default [] (tg_logs w !! b).
Definition toy_up (url b : string) (w : ToyGit) : commits := default [] (tg_upstream w !! (url, b)).
Definition toy_origin (w : ToyGit) : string := default "" (tg_remotes w !! "origin").
Definition toy_checkout (url b : string) (remotes : gmap string string) (w : ToyGit) : ToyGit :=
  let log := toy_up url b w in let top := default ∅ (hd_error log) in
  mkToy true top top b remotes (<[b := log]> (tg_logs w)) (tg_upstream w) (tg_lost w).

Definition toy_push (remote ref : string) (w : ToyGit) : git_result unit * ToyGit :=
  match tg_lost w, tg_remotes w !! remote, tg_logs w !! ref with
  | S n, _, _ => (inl (toy_failure "" "Failed to fetch"),
                  mkToy (tg_cloned w) (tg_files w) (tg_index w) (tg_branch w) (tg_remotes w) (tg_logs w) (tg_upstream w) n)
  | O, Some url, Some (top :: log) =>
      if bool_decide (toy_up url ref w `suffix_of` top :: log)
      then (inr tt, mkToy (tg_cloned w) (tg_files w) (tg_index w) (tg_branch w) (tg_remotes w) (tg_logs w)
                      (<[(url, ref) := top :: log]> (tg_upstream w)) 0)
      else (inl (toy_failure "PushRejectedError" "Push rejected because it was not a simple fast-forward."), w)
  | O, _, _ => (inl (toy_failure "NotFoundError" ("Could not find " ++ ref ++ ".")), w)
  end.

Definition toy_fastForward (ref : string) (w : ToyGit) : git_result unit * ToyGit :=
  let up := toy_up (toy_origin w) ref w in
  if bool_decide (up = []) then (inl (toy_failure "NotFoundError" ("Could not find " ++ ref ++ ".")), w)
  else if bool_decide (up `suffix_of` toy_log ref w) then (inr tt, w)
  else if bool_decide (toy_log ref w `suffix_of` up) then (inr tt, toy_checkout (toy_origin w) ref (tg_remotes w) w)
  else (inl (toy_failure "FastForwardError" "A simple fast-forward merge was not possible."), w).

#[export] Instance toy_git : Git ToyGit := {|
  g_stat _ w := tg_cloned w;
  g_mkdir _ w := (inr tt, w);
  g_readdir dir w :=
    match List.filter (fun n => startsWith n (toy_rel dir ++ "/")) (map fst (map_to_list (tg_files w))) with
    | [] => inl (toy_failure "ENOENT" "ENOENT")
    | names => inr (map (fun n => js_slice_from n (String.length (toy_rel dir) + 1)) names)
    end;
  g_readFile p w := match tg_files w !! toy_rel p with Some b => inr b | None => inl (toy_failure "ENOENT" "ENOENT") end;
  g_writeFile p b w := (inr tt, toy_files (<[toy_rel p := b]> (tg_files w)) w);
  g_unlink p w := if bool_decide (is_Some (tg_files w !! toy_rel p)) then (inr tt, toy_files (delete (toy_rel p) (tg_files w)) w)
                  else (inl (toy_failure "ENOENT" "ENOENT"), w);
  g_add n w := match tg_files w !! n with
               | Some b => (inr tt, toy_index (<[n := b]> (tg_index w)) w)
               | None => (inl (toy_failure "NotFoundError" "Could not find file."), w)
               end;
  g_remove n w := (inr tt, toy_index (delete n (tg_index w)) w);
  g_commit _ _ w := (inr tt, mkToy (tg_cloned w) (tg_files w) (tg_index w) (tg_branch w) (tg_remotes w)
                               (<[tg_branch w := tg_index w :: toy_log (tg_branch w) w]> (tg_logs w)) (tg_upstream w) (tg_lost w));
  g_push remote ref _ := toy_push remote ref;
  g_fastForward ref _ := toy_fastForward ref;
  g_getRemoteInfo url _ w :=
    (inr (omap (fun kv : string * string * commits => if String.eqb kv.1.1 url then Some kv.1.2 else None) (map_to_list (tg_upstream w))), w);
  g_clone url ref _ w := (inr tt, toy_checkout url ref {["origin" := url]} w);
  g_init b w := (inr tt, mkToy true ∅ ∅ b ∅ ∅ (tg_upstream w) (tg_lost w));
  g_addRemote remote url w :=
    (inr tt, mkToy (tg_cloned w) (tg_files w) (tg_index w) (tg_branch w) (<[remote := url]> (tg_remotes w)) (tg_logs w) (tg_upstream w) (tg_lost w)) |}.

Lemma toy_rel_repo n : toy_rel (REPO_DIR ++ "/" ++ n) = n.
Proof. exact (slice_app_r "/vault/" n). Qed.

#[export] Instance toy_git_laws : GitLaws ToyGit.
Proof.
  refine {| index := tg_index; tree := tg_files; checked_out w := Some (tg_branch w); remotes := tg_remotes;
            branches w := omap hd_error (tg_logs w); upstream_tree w url b := hd_error (toy_up url b w) |};
    unfold g_mkdir, g_writeFile, g_add, g_commit, g_push, g_getRemoteInfo, g_clone, g_init, g_addRemote, toy_git.
  - by intros p w x w' [= _ <-].
  - by intros p b w x w' [= _ <-].
  - intros n b w w' [= <-]. rewrite toy_rel_repo. apply lookup_insert_eq.
  - intros n b w w' H Hn. rewrite Hn in H. by injection H as <-.
  - intros n w x w'. destruct (tg_files w !! n); by intros [= _ <-].
  - intros m who b w w' [= <-] [= <-]. cbn. by rewrite lookup_omap lookup_insert_eq.
  - by intros m who w x w' [= _ <-].
  - intros remote ref _ w w'. unfold toy_push. destruct (tg_lost w); [|done]. destruct (tg_remotes w !! remote) as [url|]; [|done].
    destruct (tg_logs w !! ref) as [[|top log]|] eqn:El; try done. case_bool_decide; [|done]. intros [= <-].
    exists url, top. rewrite lookup_omap El. unfold toy_up. cbn. by rewrite lookup_insert_eq.
  - by intros url ac w x w' [= _ <-].
  - intros url ref ac w w' [= <-]. split; [done|apply lookup_singleton_eq].
  - by intros b w w' [= <-].
  - by intros remote url w w' [= <-].
Defined.

#[local] Existing Instance crypto_sealing.

Definition any_platform : Platform := mkPlatform (fun _ => None) true.
Definition toy_put : string -> bytes -> M (GitAdapter ToyGit) unit := git_put any_platform "https://git/v.git" "main" "t" "" "".
Definition toy_flush : M (GitAdapter ToyGit) unit := git_flush any_platform "https://git/v.git" "main" "t" "" "" "" "".
Definition toy_fresh (lost : nat) : GitAdapter ToyGit := mkGit (mkToy false ∅ ∅ "" ∅ ∅ ∅ lost) ∅ false.
Definition toy_puts : list (string * bytes) := [(opsObjectName "v" "a", [1]); (opsObjectName "v" "b", [2])].

Definition toy_put_all : result unit * GitAdapter ToyGit := forM_ toy_puts (fun nb => toy_put nb.1 nb.2) (toy_fresh 0).

Lemma git_flush_delivers_witness :
  exists t, upstream_tree (ga_world (snd (toy_flush (snd toy_put_all)))) "https://git/v.git" "main" = Some t
    /\ t !! opsObjectName "v" "a" = Some [1].
Proof.
  assert (set_up "https://git/v.git" "main" (toy_fresh 0)) as Hup by by intros [|].
  destruct (git_flush_delivers any_platform "https://git/v.git" "main" "t" "" "" "" "" toy_puts (toy_fresh 0)
    (snd toy_put_all) (snd (toy_flush (snd toy_put_all))) tt tt) as [(t & Et & Ht) _].
  - apply (bool_decide_eq_true_1 (NoDup (map fst toy_puts))). vm_compute. reflexivity.
  - discriminate.
  - exact Hup.
  - vm_compute. reflexivity.
  - vm_compute. reflexivity.
  - exists t. split; [exact Et|]. apply (Ht _ [1]), list_elem_of_here.
Defined.

(** The person then enters another repository in the settings: the clone stays the one of
    the first, and what is put for the second is pushed to the first. *)
Lemma another_url_is_never_pushed_to :
  let moved := new_adapter (snd (toy_flush (snd toy_put_all))) in
  let '(r, a) := (_ ← git_put any_platform "https://git/new.git" "main" "t" "" "" (opsObjectName "v" "c") [3];
                  git_flush any_platform "https://git/new.git" "main" "t" "" "" "" "") moved in
  r = Ok tt /\ upstream_tree (ga_world a) "https://git/new.git" "main" = None
  /\ (t ← upstream_tree (ga_world a) "https://git/v.git" "main"; t !! opsObjectName "v" "c") = Some [3].
Proof. vm_compute. by split_and!. Qed.

(** Cycles of a device over the toy, each with the new adapter the factory makes. *)
Definition git_cycle (device : string) (s : App) (a : GitAdapter ToyGit) : result SyncStatus * Engine (GitAdapter ToyGit) :=
  @runCycle (GitAdapter ToyGit) bytes bool
    (git_adapter any_platform "https://git/v.git" "main" "t" "" "" "" "") _
    (mkSession true (Some true) (Some "v") (Some device)) (GitTarget "Git" "https://git/v.git" "main" "t" "" "" "" "") false
    (mkEngine s (new_adapter a) 0 INITIAL_STATUS).
Definition git_report (e : result SyncStatus * Engine (GitAdapter ToyGit)) : option string * nat * nat :=
  (st_lastError (status (snd e)), st_pending (status (snd e)), length (toy_up "https://git/v.git" "main" (ga_world (remote (snd e))))).

(** The push of the first cycle is lost.  The batch was marked as sent when it was staged,
    and the adapter of the next cycle has nothing staged: that cycle reports success with
    nothing waiting, and upstream there is still no commit. *)
Definition git_lost : result SyncStatus * Engine (GitAdapter ToyGit) := git_cycle "a" demoA1 (toy_fresh 1).
Definition git_next : result SyncStatus * Engine (GitAdapter ToyGit) := git_cycle "a" (Sync.app (snd git_lost)) (remote (snd git_lost)).

Lemma lost_push_is_forgotten :
  git_report git_lost = (Some "Git operation failed: Failed to fetch", 0%nat, 0%nat) /\ git_report git_next = (None, 0%nat, 0%nat).
Proof. split; vm_compute; reflexivity. Qed.

(** Another device pushes before the commit that was kept: the two histories part, no
    cycle can fast-forward again, and none merges. *)
Definition git_overtaken : GitAdapter ToyGit :=
  let w := ga_world (remote (snd git_lost)) in
  mkGit (mkToy (tg_cloned w) (tg_files w) (tg_index w) (tg_branch w) (tg_remotes w) (tg_logs w)
           {[("https://git/v.git", "main") := [{["x" := [1]]}]]} 0) ∅ false.
Definition git_parted : result SyncStatus * Engine (GitAdapter ToyGit) := git_cycle "a" (Sync.app (snd git_lost)) git_overtaken.

Lemma parted_histories_stay_parted :
  let stuck := (Some "Git operation failed: A simple fast-forward merge was not possible.", 0%nat, 1%nat) in
  git_report git_parted = stuck /\ git_report (git_cycle "a" (Sync.app (snd git_parted)) (remote (snd git_parted))) = stuck.
Proof. split; vm_compute; reflexivity. Qed.
