(* ===== verification/CorsProxy.v ===== *)
(** The proxy that lets a browser speak Git to hosts that send no CORS headers
    ([cors-proxy/src/worker.js]): which requests it forwards, where, and what it answers.
    The URL parser of the platform and the network are parameters; headers are a map from
    lower-case names, and what the worker asked of the network is kept as a trace. *)
From stdpp Require Import gmap strings.
From S2P Require Export JsString.
#[local] Open Scope string_scope.
#[local] Open Scope Z_scope.

(** * Definitions *)

(** The parts of a [URL] the worker reads; [parse_url text base] is [new URL(text, base)],
    [None] where it throws. *)
Class WebUrl (Url : Type) : Type := {
  parse_url : string -> option Url -> option Url;
  u_hostname : Url -> string; u_pathname : Url -> string; u_search : Url -> string; u_href : Url -> string;
  u_param : string -> Url -> option string }.

Definition Headers : Type := gmap string string.

Definition ALLOWED_METHODS : list string := ["GET"; "POST"; "OPTIONS"].
Definition GIT_SERVICES : list string := ["git-upload-pack"; "git-receive-pack"].
Definition FORWARD_REQUEST_HEADERS : list string :=
  ["accept"; "accept-encoding"; "accept-language"; "authorization"; "content-length"; "content-type"; "git-protocol";
   "pragma"; "range"; "user-agent"].
Definition EXPOSE_RESPONSE_HEADERS : list string :=
  ["accept-ranges"; "cache-control"; "content-encoding"; "content-length"; "content-language"; "content-type"; "date";
   "etag"; "expires"; "last-modified"; "location"; "pragma"; "server"; "transfer-encoding"; "vary"; "www-authenticate";
   "x-redirected-url"].
Definition MAX_REDIRECTS : nat := 5.

Record Response : Type := mkResponse { rs_status : Z; rs_headers : Headers; rs_body : option string }.
Record Env : Type := mkEnv { ALLOWED_ORIGINS : option string; ALLOWED_HOSTS : option string }.
Record Config : Type := mkConfig { origins : list string; hosts : list string }.

Definition splitList (value : option string) : list string :=
  List.filter truthy (map trim (split_on "," (default "" value))).
Definition readConfig (env : Env) : Config :=
  mkConfig (splitList (ALLOWED_ORIGINS env)) (map toLowerCase (splitList (ALLOWED_HOSTS env))).

Definition originAllowed (origin : option string) (allowed : list string) : bool :=
  match origin with
  | None => true
  | Some o => (length allowed =? 0)%nat || bool_decide ("*" ∈ allowed) || bool_decide (o ∈ allowed)
  end.

Definition hostAllowed (hostname : string) (allowed : list string) : bool :=
  let host := toLowerCase hostname in
  existsb (fun entry => String.eqb host entry || endsWith host ("." ++ entry)) allowed.

Definition corsHeaders (allowedOrigin : option string) : list (string * string) :=
  [("access-control-allow-origin", default "*" allowedOrigin); ("vary", "Origin")].
Definition set_all (entries : list (string * string)) (h : Headers) : Headers := fold_left (fun h kv => <[kv.1 := kv.2]> h) entries h.

Definition line_end : string := String "010" EmptyString.
Definition problem (status : Z) (message : string) (allowedOrigin : option string) : Response :=
  mkResponse status (set_all (("content-type", "text/plain; charset=utf-8") :: corsHeaders allowedOrigin) ∅) (Some (message ++ line_end)).

Section Worker.
Context {Url W : Type} `{!WebUrl Url}.

Record Request : Type := mkRequest { rq_method : string; rq_url : Url; rq_headers : Headers; rq_body : option string }.

(** One request to the network; [sn_body] is [None] for [undefined]. *)
Record Sent : Type := mkSent { sn_url : Url; sn_method : string; sn_headers : Headers; sn_body : option (option string) }.

(** The trace of what was asked, and the network behind it. *)
Record Worker : Type := mkWorker { wk_sent : list Sent; wk_net : W }.
Context (network : Sent -> W -> option Response * W).

(** [await fetch(...)]; a rejected promise is not caught by the worker. *)
Definition fetch_upstream (s : Sent) : M Worker Response := fun w =>
  let '(answer, net) := network s (wk_net w) in
  (match answer with Some response => Ok response | None => Throw (JsError "fetch failed") end,
   mkWorker (wk_sent w ++ [s]) net).

Definition is_host_char (c : ascii) : bool :=
  is_lower c || is_upper c || is_digit c || Ascii.eqb c "." || Ascii.eqb c "-".

Definition parseTarget (url : Url) : option Url :=
  let path := trimStart_slashes (u_pathname url) in
  match String.index 0 "/" path with
  | None | Some O => None
  | Some slash =>
      let host := js_slice path 0 slash in
      if negb (str_forall is_host_char host) then None
      else parse_url ("https://" ++ host ++ "/" ++ js_slice_from path (S slash) ++ u_search url) None
  end.

Definition isGitRequest (method : string) (target : Url) : bool :=
  if String.eqb method "GET" then
    endsWith (u_pathname target) "/info/refs" && bool_decide (default "" (u_param "service" target) ∈ GIT_SERVICES)
  else existsb (fun service => endsWith (u_pathname target) ("/" ++ service)) GIT_SERVICES.

Definition preflight (request : Request) (allowedOrigin : option string) : Response :=
  if negb (bool_decide (is_Some allowedOrigin)) && bool_decide (is_Some (rq_headers request !! "origin"))
  then mkResponse 403 ∅ None
  else
    mkResponse 204
      (set_all ([("access-control-allow-methods", join ", " ALLOWED_METHODS);
                 ("access-control-allow-headers", default (join ", " FORWARD_REQUEST_HEADERS) (rq_headers request !! "access-control-request-headers"));
                 ("access-control-max-age", "86400")] ++ corsHeaders allowedOrigin)%list ∅) None.

Definition forwarded_headers (request : Request) : Headers :=
  fold_left (fun h name => match rq_headers request !! name with Some v => <[name := v]> h | None => h end) FORWARD_REQUEST_HEADERS ∅.

(** Where an answer redirects to, if it does. *)
Definition redirect_of (response : Response) : option string :=
  match rs_headers response !! "location" with
  | Some location => if (rs_status response <? 300) || (400 <=? rs_status response) || negb (truthy location) then None else Some location
  | None => None
  end.

(** The loop over [hop], with [hops] left to make: an answer of its own, or the last URL and
    what it said. *)
Fixpoint forward_loop (hops : nat) (request : Request) (current : Url) (config : Config) (allowedOrigin : option string)
    : M Worker (Response + Url * Response) :=
  match hops with
  | O => throwM (OutsideModel "no hop to make")
  | S hops' =>
      let body := if String.eqb (rq_method request) "GET" then None else Some (rq_body request) in
      response ← fetch_upstream (mkSent current (rq_method request) (forwarded_headers request) body);
      match redirect_of response with
      | None => mret (inr (current, response))
      | Some location =>
          match parse_url location (Some current) with
          | None => mret (inl (problem 502 "The upstream sent a redirect this proxy could not read." allowedOrigin))
          | Some next =>
              if negb (hostAllowed (u_hostname next) (hosts config))
              then mret (inl (problem 403 ("The upstream redirected to " ++ u_hostname next ++ ", which is not allowed.") allowedOrigin))
              else if bool_decide (is_Some body)
              then mret (inl (problem 502 "The upstream redirected a request that cannot be replayed." allowedOrigin))
              else match hops' with
                   | O => mret (inr (next, response))
                   | _ => forward_loop hops' request next config allowedOrigin
                   end
          end
      end
  end.

Definition outgoing (target current : Url) (response : Response) (allowedOrigin : option string) : Response :=
  let h := set_all (corsHeaders allowedOrigin) (rs_headers response) in
  let h := <["access-control-expose-headers" := join ", " EXPOSE_RESPONSE_HEADERS]> h in
  let h := if String.eqb (u_href current) (u_href target) then h else <["x-redirected-url" := u_href current]> h in
  mkResponse (rs_status response) (delete "content-encoding" h) (rs_body response).

Definition forward (request : Request) (target : Url) (config : Config) (allowedOrigin : option string) : M Worker Response :=
  ended ← forward_loop (S MAX_REDIRECTS) request target config allowedOrigin;
  mret (match ended with
        | inl answer => answer
        | inr (current, response) => outgoing target current response allowedOrigin
        end).

Definition origin_of (request : Request) (config : Config) : option string :=
  match rq_headers request !! "origin" with
  | Some o => if originAllowed (Some o) (origins config) then Some o else None
  | None => None
  end.

(** [fetch(request, env)] of the worker. *)
Definition handle (request : Request) (env : Env) : M Worker Response :=
  let config := readConfig env in
  let origin := rq_headers request !! "origin" in
  let allowedOrigin := origin_of request config in
  if String.eqb (rq_method request) "OPTIONS" then mret (preflight request allowedOrigin)
  else if negb (bool_decide (rq_method request ∈ ALLOWED_METHODS))
  then mret (problem 405 ("Method " ++ rq_method request ++ " is not used by Git over HTTP.") allowedOrigin)
  else if bool_decide (is_Some origin) && negb (bool_decide (is_Some allowedOrigin))
  then mret (problem 403 ("Origin " ++ default "" origin ++ " is not allowed by this proxy.") None)
  else match parseTarget (rq_url request) with
       | None =>
           mret (problem 400
             ("Expected a URL of the form /<host>/<path>/info/refs?service=git-upload-pack, "
              ++ "/<host>/<path>/git-upload-pack or /<host>/<path>/git-receive-pack.") allowedOrigin)
       | Some target =>
           if negb (hostAllowed (u_hostname target) (hosts config))
           then mret (problem 403 ("This proxy does not forward to " ++ u_hostname target ++ ".") allowedOrigin)
           else if negb (isGitRequest (rq_method request) target)
           then mret (problem 403 "Only Git smart-HTTP endpoints are forwarded." allowedOrigin)
           else forward request target config allowedOrigin
       end.

(** * Specification *)

(** A host the deployment names, or one below it. *)
Definition named_host (host : string) (env : Env) : Prop :=
  exists entry, entry ∈ splitList (ALLOWED_HOSTS env)
    /\ (toLowerCase host = toLowerCase entry \/ exists below, toLowerCase host = below ++ "." ++ toLowerCase entry).

(** A request to the network made on behalf of [request]. *)
Record on_behalf (request : Request) (env : Env) (s : Sent) : Prop := {
  ob_host : named_host (u_hostname (sn_url s)) env;
  ob_method : sn_method s = rq_method request /\ (rq_method request = "GET" \/ rq_method request = "POST");
  ob_headers : forall name v, sn_headers s !! name = Some v -> name ∈ FORWARD_REQUEST_HEADERS /\ rq_headers request !! name = Some v;
  ob_body : sn_body s = if String.eqb (rq_method request) "GET" then None else Some (rq_body request) }.
End Worker.

(** * Lemmas *)

Lemma hostAllowed_named host env : hostAllowed host (hosts (readConfig env)) = true -> named_host host env.
Proof.
  unfold hostAllowed. intros (e & He & H)%existsb_exists. apply list_elem_of_In in He. cbn [readConfig hosts] in He.
  apply list_elem_of_fmap in He as (entry & -> & He). exists entry. split; [done|].
  apply orb_true_iff in H as [H%String.eqb_eq|(below & H)%endsWith_split]; [by left|right; by exists below].
Qed.

Section Proofs.
Context {Url W : Type} `{!WebUrl Url} (network : @Sent Url -> W -> option Response * W).
Implicit Types (request : @Request Url) (w : @Worker Url W).

Lemma forwarded_headers_lookup request name v :
  forwarded_headers request !! name = Some v -> name ∈ FORWARD_REQUEST_HEADERS /\ rq_headers request !! name = Some v.
Proof.
  unfold forwarded_headers. set (f := fun (h : Headers) n => _).
  assert (forall l h, fold_left f l h !! name = Some v -> h !! name = Some v \/ name ∈ l /\ rq_headers request !! name = Some v) as H.
  { induction l as [|n l IH]; intros h; cbn [fold_left]; [by left|]. intros [H|[? ?]]%IH; [|by right; split; [constructor|]].
    unfold f in H. destruct (rq_headers request !! n) as [x|] eqn:E; [|by left].
    apply lookup_insert_Some in H as [[-> ->]|[_ H]]; [right; by split; [constructor|]|by left]. }
  intros [Hl|?]%H; [by rewrite lookup_empty in Hl|done].
Qed.

(** Every hop is made on behalf of the request, the first to the target itself. *)
Lemma forward_loop_hops request env allowedOrigin n : forall current w r w',
  named_host (u_hostname current) env -> rq_method request = "GET" \/ rq_method request = "POST" ->
  forward_loop network n request current (readConfig env) allowedOrigin w = (r, w') ->
  exists hops, wk_sent w' = (wk_sent w ++ hops)%list /\ (length hops <= n)%nat /\ Forall (on_behalf request env) hops
    /\ (forall first, head hops = Some first -> sn_url first = current)
    /\ (rq_method request = "POST" -> length hops <= 1)%nat.
Proof.
  induction n as [|n IH]; intros current w r w' Hh Hm E.
  { injection E as <- <-. exists []. rewrite app_nil_r. split_and!; [done|done|constructor|done|cbn; lia]. }
  cbn [forward_loop] in E. set (s := mkSent current _ _ _) in E.
  assert (on_behalf request env s) as Hs by (split; [done|done|apply forwarded_headers_lookup|done]).
  unfold mbind, M_bind, fetch_upstream in E. destruct (network s (wk_net w)) as [[response|] net]; cycle 1.
  { injection E as <- <-. exists [s]. split_and!; [done|cbn; lia|by constructor|by intros ? [= <-]|cbn; lia]. }
  set (w1 := mkWorker (wk_sent w ++ [s]) net) in E.
  assert (forall r0, (r0, w1) = (r, w') -> exists hops, wk_sent w' = (wk_sent w ++ hops)%list /\ (length hops <= S n)%nat
    /\ Forall (on_behalf request env) hops /\ (forall first, head hops = Some first -> sn_url first = current)
    /\ (rq_method request = "POST" -> length hops <= 1)%nat) as Hend.
  { intros r0 [= <- <-]. exists [s]. split_and!; [done|cbn; lia|by constructor|by intros ? [= <-]|cbn; lia]. }
  destruct (redirect_of response) as [location|]; [|by eapply Hend]. destruct (parse_url location _) as [next|]; [|by eapply Hend].
  destruct (hostAllowed (u_hostname next) (hosts (readConfig env))) eqn:Hn; cbn [negb] in E; [|by eapply Hend].
  destruct (bool_decide _) eqn:Hb; [by eapply Hend|]. destruct n as [|n]; [by eapply Hend|].
  apply (IH next w1 r w' (hostAllowed_named _ _ Hn) Hm) in E as (hops & Hw & Hl & Hf & _ & _).
  exists (s :: hops). rewrite Hw. cbn [wk_sent w1]. split_and!.
  - by rewrite -app_assoc.
  - cbn. lia.
  - by constructor.
  - by intros ? [= <-].
  - intros Hp. rewrite Hp in Hb. cbn in Hb. done.
Qed.
End Proofs.

(** * Properties *)

(** C23: the proxy is no open relay: whatever it is asked, what it asks of the network is
    for a host the deployment names, or one below it, redirects included; it is at most six
    requests, the first to a Git endpoint the request itself spells, all with the method,
    the body and only listed headers of the request; and none is made for another method,
    or for a page of an origin the deployment does not allow. *)
Theorem proxy_forwards_only_git_to_named_hosts {Url W : Type} `{!WebUrl Url} (network : @Sent Url -> W -> option Response * W)
    request env w r w' :
  handle network request env w = (r, w') ->
  exists hops, wk_sent w' = (wk_sent w ++ hops)%list /\ (length hops <= 6)%nat /\ Forall (on_behalf request env) hops
    /\ (rq_method request = "POST" -> length hops <= 1)%nat
    /\ (forall first, head hops = Some first ->
          parseTarget (rq_url request) = Some (sn_url first) /\ isGitRequest (rq_method request) (sn_url first) = true
          /\ originAllowed (rq_headers request !! "origin") (origins (readConfig env)) = true).
Proof.
  intros E.
  assert (forall r0, (r0, w) = (r, w') -> exists hops, wk_sent w' = (wk_sent w ++ hops)%list /\ (length hops <= 6)%nat
    /\ Forall (on_behalf request env) hops /\ (rq_method request = "POST" -> length hops <= 1)%nat
    /\ (forall first, head hops = Some first ->
          parseTarget (rq_url request) = Some (sn_url first) /\ isGitRequest (rq_method request) (sn_url first) = true
          /\ originAllowed (rq_headers request !! "origin") (origins (readConfig env)) = true)) as Hnone.
  { intros r0 [= <- <-]. exists []. rewrite app_nil_r. split_and!; [done|cbn; lia|constructor|cbn; lia|done]. }
  unfold handle in E. destruct (String.eqb_spec (rq_method request) "OPTIONS") as [|Hopt]; [by eapply Hnone|].
  destruct (bool_decide (rq_method request ∈ ALLOWED_METHODS)) eqn:Hmeth; cbn [negb] in E; [|by eapply Hnone].
  apply bool_decide_eq_true in Hmeth.
  destruct (bool_decide _ && _) eqn:Ho; [by eapply Hnone|]. destruct (parseTarget (rq_url request)) as [target|] eqn:Et; [|by eapply Hnone].
  destruct (hostAllowed _ _) eqn:Hh; cbn [negb] in E; [|by eapply Hnone].
  destruct (isGitRequest _ _) eqn:Hg; cbn [negb] in E; [|by eapply Hnone].
  assert (rq_method request = "GET" \/ rq_method request = "POST") as Hm by (unfold ALLOWED_METHODS in Hmeth; set_solver).
  assert (exists x, forward_loop network 6 request target (readConfig env) (origin_of request (readConfig env)) w = (x, w')) as [x Ex].
  { unfold forward, mbind, M_bind in E. destruct (forward_loop _ _ _ _ _ _ _) as [[y|e] w1] eqn:E1; injection E as _ <-; by eexists. }
  destruct (forward_loop_hops network request env _ 6 target w x w' (hostAllowed_named _ _ Hh) Hm Ex) as (hops & ? & ? & ? & Hf & ?).
  exists hops. split_and!; [done..|]. intros first Hfirst. rewrite (Hf first Hfirst). split_and!; [done|done|].
  unfold origin_of in Ho. destruct (rq_headers request !! "origin") as [o|]; [|done].
  destruct (originAllowed (Some o) _); [done|]. by cbn in Ho.
Qed.

(** every answer to a Git request can be read by the page that asked, errors included: it
    allows the page's own origin, or any when the page has none the deployment names; a
    preflight is answered the same way, or refused without a header that allows anything. *)
Theorem every_answer_names_the_origin {Url W : Type} `{!WebUrl Url} (network : @Sent Url -> W -> option Response * W)
    request env w response w' :
  handle network request env w = (Ok response, w') ->
  rs_headers response !! "access-control-allow-origin" = Some (default "*" (origin_of request (readConfig env)))
  \/ rq_method request = "OPTIONS" /\ is_Some (rq_headers request !! "origin") /\ origin_of request (readConfig env) = None
     /\ response = mkResponse 403 ∅ None.
Proof.
  assert (forall status message o, rs_headers (problem status message o) !! "access-control-allow-origin" = Some (default "*" o)) as Hp.
  { intros. cbn. rewrite lookup_insert_ne; [by rewrite lookup_insert_eq|done]. }
  intros E. unfold handle in E. destruct (String.eqb_spec (rq_method request) "OPTIONS") as [Hopt|_].
  - injection E as <- _. unfold preflight. destruct (origin_of request _) as [o|] eqn:Eo; cbn [negb andb].
    + left. cbn. rewrite lookup_insert_ne; [by rewrite lookup_insert_eq|done].
    + destruct (bool_decide (is_Some (rq_headers request !! "origin"))) eqn:Ho; cbn.
      * right. apply bool_decide_eq_true in Ho. by split_and!.
      * left. rewrite lookup_insert_ne; [by rewrite lookup_insert_eq|done].
  - left. destruct (bool_decide (_ ∈ _)); cbn [negb] in E; [|injection E as <- _; apply Hp].
    destruct (bool_decide _ && _) eqn:Ho.
    { injection E as <- _. rewrite Hp. apply andb_true_iff in Ho as [_ Ho]. by destruct (origin_of request _). }
    destruct (parseTarget _) as [target|]; [|injection E as <- _; apply Hp].
    destruct (hostAllowed _ _); cbn [negb] in E; [|injection E as <- _; apply Hp].
    destruct (isGitRequest _ _); cbn [negb] in E; [|injection E as <- _; apply Hp].
    unfold forward in E. apply M_bind_Ok_inv in E as (ended & w1 & E1 & [= <- _]).
    assert (forall n current w ended w1, forward_loop network n request current (readConfig env) (origin_of request (readConfig env)) w = (Ok ended, w1) ->
      match ended with inl answer => rs_headers answer !! "access-control-allow-origin" = Some (default "*" (origin_of request (readConfig env))) | inr _ => True end) as Hl.
    { clear -Hp. induction n as [|n IH]; intros current w ended w1 E; [done|]. cbn [forward_loop] in E.
      apply M_bind_Ok_inv in E as (response & w2 & _ & E). destruct (redirect_of response); [|by injection E as <- _].
      destruct (parse_url _ _) as [next|]; [|injection E as <- _; apply Hp]. destruct (negb _); [injection E as <- _; apply Hp|].
      destruct (bool_decide _); [injection E as <- _; apply Hp|]. destruct n; [by injection E as <- _|by apply IH in E]. }
    apply Hl in E1. destruct ended as [answer|[current response0]]; [done|]. unfold outgoing. cbn [rs_headers].
    rewrite lookup_delete_ne; [|done].
    assert (<["access-control-expose-headers" := join ", " EXPOSE_RESPONSE_HEADERS]>
      (set_all (corsHeaders (origin_of request (readConfig env))) (rs_headers response0)) !! "access-control-allow-origin"
      = Some (default "*" (origin_of request (readConfig env)))) as Hx.
    { rewrite lookup_insert_ne; [|done]. cbn. rewrite lookup_insert_ne; [by rewrite lookup_insert_eq|done]. }
    destruct (String.eqb _ _); [exact Hx|]. rewrite lookup_insert_ne; [exact Hx|done].
Qed.

(** * Witnesses *)

(** A parser of absolute URLs, enough for examples. *)
Record ToyUrl : Type := mkToy { toy_scheme : string; toy_host : string; toy_path : string; toy_query : string }.
Definition cut (mark s : string) : string * string :=
  match String.index 0 mark s with
  | Some i => (js_slice s 0 i, js_slice_from s (i + String.length mark))
  | None => (s, "")
  end.
Definition toy_parse (text : string) (_ : option ToyUrl) : option ToyUrl :=
  let '(scheme, rest) := cut "://" text in
  if String.eqb rest "" then None
  else
    let '(place, query) := cut "?" rest in
    let '(host, path) := cut "/" place in
    Some (mkToy scheme host ("/" ++ path) query).
#[local] Instance toy_url : WebUrl ToyUrl := {|
  parse_url := toy_parse; u_hostname := toy_host; u_pathname := toy_path;
  u_search u := if String.eqb (toy_query u) "" then "" else "?" ++ toy_query u;
  u_href u := toy_scheme u ++ "://" ++ toy_host u ++ toy_path u ++ (if String.eqb (toy_query u) "" then "" else "?" ++ toy_query u);
  u_param name u := let '(key, value) := cut "=" (toy_query u) in if String.eqb key name then Some value else None |}.

Definition demo_env : Env := mkEnv (Some "https://docket.example") (Some " GitHub.com, gitlab.com ").
Definition demo_headers : Headers := {["origin" := "https://docket.example"; "authorization" := "Basic c2VjcmV0"; "cookie" := "session=1"]}.
Definition demo_get : @Request ToyUrl :=
  mkRequest "GET" (mkToy "https" "proxy.example" "/github.com/you/old.git/info/refs" "service=git-upload-pack") demo_headers None.

(** A host that sends every request but the one for the page on to that page, in the clear. *)
Definition demo_network (s : @Sent ToyUrl) (n : nat) : option Response * nat :=
  (Some (if String.eqb (toy_path (sn_url s)) "/settings/tokens" then mkResponse 200 ∅ (Some "page")
         else mkResponse 302 {["location" := "http://gist.github.com/settings/tokens"]} None), S n).
Definition demo_handled := handle demo_network demo_get demo_env (mkWorker [] 0%nat).

Lemma demo_sent :
  map (fun s => (u_href (sn_url s), sn_headers s !! "authorization", sn_headers s !! "cookie")) (wk_sent (snd demo_handled))
  = [("https://github.com/you/old.git/info/refs?service=git-upload-pack", Some "Basic c2VjcmV0", None);
     ("http://gist.github.com/settings/tokens", Some "Basic c2VjcmV0", None)].
Proof. vm_compute. reflexivity. Qed.

Lemma proxy_forwards_only_git_to_named_hosts_witness :
  exists hops, wk_sent (snd demo_handled) = hops /\ (length hops <= 6)%nat /\ Forall (on_behalf demo_get demo_env) hops.
Proof.
  destruct (proxy_forwards_only_git_to_named_hosts demo_network demo_get demo_env (mkWorker [] 0%nat) (fst demo_handled) (snd demo_handled)
    (surjective_pairing demo_handled)) as (hops & H1 & H2 & H3 & _). exists hops. cbn [wk_sent app] in H1. by split_and!.
Defined.

(** Only the host of a redirect is looked at: a listed host can send the token on to any
    page, over a connection that is not encrypted. *)
Lemma redirects_leave_git :
  let hops := wk_sent (snd demo_handled) in
  map (fun s => isGitRequest (sn_method s) (sn_url s)) hops = [true; false]
  /\ map (fun s => toy_scheme (sn_url s)) hops = ["https"; "http"].
Proof. vm_compute. by split. Qed.

(** A name that only ends like a listed host is another host. *)
Lemma look_alike_refused : hostAllowed "evilgithub.com" (hosts (readConfig demo_env)) = false /\ hostAllowed "api.github.com" (hosts (readConfig demo_env)) = true
  /\ hostAllowed "github.com" (hosts (readConfig (mkEnv None None))) = false.
Proof. vm_compute. by split_and!. Qed.
