(* ===== verification/Money.v ===== *)
(** Money and currencies ([app/src/app/core/util/money.ts],
    [core/money/currencies.ts]): amounts in minor units, their text form, and what
    a transaction does to an account. *)
From S2P Require Export JsString Domain.
From S2P Require Import Hlc.
#[local] Open Scope string_scope.
#[local] Open Scope Z_scope.

(** * Definitions *)

Definition EXPONENTS : list (string * nat) :=
  [("JPY", 0); ("KRW", 0); ("VND", 0); ("CLP", 0); ("ISK", 0);
   ("BHD", 3); ("KWD", 3); ("OMR", 3); ("TND", 3); ("JOD", 3)]%nat.

Definition minorUnitExponent (currency : string) : nat :=
  default 2%nat (jmap_get (toUpperCase currency) EXPONENTS).

Fixpoint drop_digits (s : string) : string :=
  match s with "" => "" | String c s' => if is_digit c then drop_digits s' else s end.

Definition drop_char (c : ascii) (s : string) : string :=
  match s with "" => "" | String d s' => if Ascii.eqb c d then s' else s end.

(** [/^-?\d*\.?\d*$/.test(s)]. *)
Definition amount_shape (s : string) : bool :=
  str_forall is_digit (drop_char "." (drop_digits (drop_char "-" s))).

Definition isSafeInteger (z : Z) : bool := Z.abs z <=? MAX_SAFE_INTEGER.

(** [Number] of a run of digits; past 2^53 the rounded value is still unsafe. *)
Definition parseAmount (input currency : string) : result Minor :=
  let exponent := minorUnitExponent currency in
  let cleaned := replace_first "," "." (str_filter (fun c => negb (is_ws c)) (trim input)) in
  if String.eqb cleaned "" || negb (amount_shape cleaned)
  then Throw (JsError (dquote ++ input ++ dquote ++ " is not a valid amount"))
  else
    let negative := startsWith cleaned "-" in
    let pieces := split_on "." (replace_first "-" "" cleaned) in
    let whole := default "" (pieces !! 0%nat) in
    let fraction := default "" (pieces !! 1%nat) in
    let scaled := (if truthy whole then whole else "0")
                  ++ js_slice (padEnd fraction exponent "0") 0 exponent in
    match parse_digits 10 scaled with
    | Some value =>
        if isSafeInteger value then Ok (if negative then - value else value)
        else Throw (JsError (dquote ++ input ++ dquote ++ " is out of range"))
    | None => Throw (OutsideModel "a numeral that is not digits")
    end.

Definition formatAmount (amount : Minor) (currency : string) : string :=
  let exponent := minorUnitExponent currency in
  let negative := amount <? 0 in
  let digits := padStart (num_to_string (Z.abs amount)) (exponent + 1) "0" in
  let whole := js_slice digits 0 (String.length digits - exponent) in
  let whole := if truthy whole then whole else "0" in
  let fraction := if Nat.eqb exponent 0 then ""
                  else "." ++ js_slice_from digits (String.length digits - exponent) in
  (if negative then "-" else "") ++ whole ++ fraction.

(** [Intl.NumberFormat(locale, ...).format(x)] is the host's. *)
Definition formatMoney
    (Intl_format : option string -> string -> nat -> number -> result string)
    (amount : Minor) (currency : string) (locale : option string) : string :=
  let exponent := minorUnitExponent currency in
  match Intl_format locale currency exponent (f_div (f_of_Z amount) (pow10 (Z.of_nat exponent))) with
  | Ok text => text
  | Throw _ => formatAmount amount currency ++ " " ++ currency
  end.

Definition signedFor (accountId : string) (txn : Transaction) : Minor :=
  match txn_kind txn with
  | Income => if String.eqb (txn_accountId txn) accountId then txn_amount txn else 0
  | Expense => if String.eqb (txn_accountId txn) accountId then - txn_amount txn else 0
  | Transfer =>
      if String.eqb (txn_accountId txn) accountId then - txn_amount txn
      else if decide (txn_counterAccountId txn = Some accountId) then txn_amount txn
      else 0
  end.

(** ** currencies.ts *)

Definition COMMON_CURRENCIES : list string :=
  ["USD"; "EUR"; "GBP"; "INR"; "BDT"; "AUD"; "CAD"; "JPY"; "SGD"; "AED"].

Definition BY_REGION : list (string * string) :=
  [("BD", "BDT"); ("IN", "INR"); ("GB", "GBP"); ("US", "USD"); ("AU", "AUD"); ("CA", "CAD");
   ("JP", "JPY"); ("SG", "SGD"); ("AE", "AED");
   ("DE", "EUR"); ("FR", "EUR"); ("ES", "EUR"); ("IT", "EUR"); ("NL", "EUR"); ("IE", "EUR");
   ("PT", "EUR"); ("AT", "EUR"); ("BE", "EUR"); ("FI", "EUR"); ("GR", "EUR")].

(** [/^[A-Z]{2}$/]. *)
Definition is_region (s : string) : bool :=
  Nat.eqb (String.length s) 2 && str_forall is_upper s.

(** [language] is [navigator.language], absent outside a browser. *)
Definition guessCurrency (locale language : option string) : string :=
  match (match locale with Some l => Some l | None => language end) with
  | None => "USD"
  | Some tag =>
      if negb (truthy tag) then "USD"
      else match List.find is_region (split_on "-" tag) with
           | Some region => default "USD" (jmap_get region BY_REGION)
           | None => "USD"
           end
  end.

(** * Lemmas *)

(** The characters of a formatted amount. *)
Definition amount_char (c : ascii) : bool := is_digit c || Ascii.eqb c "-" || Ascii.eqb c ".".

Lemma digit_char_digit d : 0 <= d < 10 -> is_digit (digit_char d) = true.
Proof.
  intros H. unfold is_digit. rw code_digit_char; [|lia]. destruct (Z.ltb_spec d 10); [|lia].
  apply andb_true_intro. lia.
Qed.

Lemma fixed_digits w n acc :
  str_forall is_digit acc = true -> str_forall is_digit (fixed 10 w n acc) = true.
Proof. apply str_forall_fixed; [lia | apply digit_char_digit]. Qed.

Lemma digit_not c d : is_digit d = true -> is_digit c = false -> Ascii.eqb c d = false.
Proof. intros Hd Hc. apply Ascii.eqb_neq. congruence. Qed.

Lemma digits_not c s :
  is_digit c = false -> str_forall is_digit s = true ->
  str_forall (fun d => negb (Ascii.eqb c d)) s = true.
Proof. intros Hc. apply str_forall_impl. intros d Hd. by rw (digit_not c d). Qed.

Lemma amount_char_not_ws c : amount_char c = true -> negb (is_ws c) = true.
Proof. by destruct c as [[] [] [] [] [] [] [] []]. Qed.

Lemma amount_char_not_comma c : amount_char c = true -> negb (Ascii.eqb "," c) = true.
Proof. by destruct c as [[] [] [] [] [] [] [] []]. Qed.

Lemma drop_digits_app s t :
  str_forall is_digit s = true -> drop_digits (s ++ t) = drop_digits t.
Proof. induction s as [|c s IH]; simpl; [done|]. by intros [-> Hs]%andb_prop; auto. Qed.

Lemma drop_digits_all s : str_forall is_digit s = true -> drop_digits s = "".
Proof. intros H. rw -(str_app_nil_r s) drop_digits_app; done. Qed.

Lemma truthy_fixed w n : (1 <= w)%nat -> truthy (fixed 10 w n "") = true.
Proof.
  intros Hw. unfold truthy. destruct (String.eqb_spec (fixed 10 w n "") "") as [E|]; [|done].
  apply (f_equal String.length) in E. rw (length_fixed 10) in E. simpl in E. lia.
Qed.

(** The text of an amount: sign, whole digits and as many decimals as the currency has. *)
Lemma formatAmount_text a c :
  let e := minorUnitExponent c in
  exists w, (1 <= w)%nat /\ Z.abs a < 10 ^ Z.of_nat (w + e)
    /\ formatAmount a c = (if a <? 0 then "-" else "")
         ++ fixed 10 w (Z.abs a / 10 ^ Z.of_nat e) ""
         ++ (if Nat.eqb e 0 then "" else "." ++ fixed 10 e (Z.abs a) "").
Proof.
  intros e. destruct (padStart_numeral 10 ltac:(lia) (e + 1) (Z.abs a)) as (k & Hk & Hb & E); [lia..|].
  exists (k - e)%nat. split_and!; [lia|by replace (k - e + e)%nat with k by lia; lia|].
  assert (fixed 10 k (Z.abs a) ""
    = fixed 10 (k - e) (Z.abs a / 10 ^ Z.of_nat e) "" ++ fixed 10 e (Z.abs a) "") as Hsplit.
  { replace k with ((k - e) + e)%nat at 1 by lia. rw (fixed_split 10); [|lia..]. apply (fixed_app 10). }
  unfold formatAmount. fold e. unfold num_to_string. rw E Hsplit.
  rw !length_str_app !(length_fixed 10). change (String.length "") with 0%nat.
  replace (k - e + 0 + (e + 0) - e)%nat
    with (String.length (fixed 10 (k - e) (Z.abs a / 10 ^ Z.of_nat e) ""))
    by (rewrite (length_fixed 10); simpl; lia).
  rw slice_app_l slice_app_r truthy_fixed; [done|lia].
Qed.

Lemma digits_head d X : str_forall is_digit (String d X) = true -> Ascii.eqb "-" d = false.
Proof. intros [Hd _]%andb_prop. by apply digit_not. Qed.

(** [sign whole . fraction] passes the shape test, and its sign and pieces are found. *)
Lemma amount_shape_text (neg : bool) X tail :
  truthy X = true -> str_forall is_digit X = true ->
  tail = "" \/ (exists Y, tail = "." ++ Y /\ str_forall is_digit Y = true) ->
  let s := (if neg then "-" else "") ++ X ++ tail in
  str_forall amount_char s = true /\ amount_shape s = true /\ startsWith s "-" = neg
  /\ replace_first "-" "" s = X ++ tail /\ truthy s = true.
Proof.
  intros Ht HX Htail s.
  assert (forall Z, str_forall is_digit Z = true -> str_forall amount_char Z = true) as Hsub.
  { intros Z. apply str_forall_impl. intros d Hd. unfold amount_char. by rw Hd. }
  assert (str_forall amount_char (X ++ tail) = true) as Hc.
  { rw str_forall_app Hsub //. destruct Htail as [->|(Y & -> & HY)]; [done | exact (Hsub Y HY)]. }
  assert (str_forall is_digit (drop_char "." (drop_digits (X ++ tail))) = true) as Hs.
  { rw drop_digits_app; [|done]. by destruct Htail as [->|(Y & -> & HY)]. }
  assert (str_forall (fun d => negb (Ascii.eqb "-" d)) (X ++ tail) = true) as Hn.
  { rw str_forall_app digits_not //. destruct Htail as [->|(Y & -> & HY)]; [done|].
    exact (digits_not "-" Y eq_refl HY). }
  destruct X as [|d X]; [done|]. pose proof (digits_head d X HX) as Hd.
  destruct neg; unfold s; [by split_and!|].
  split_and!; [done| | | |done].
  - unfold amount_shape. cbn [append drop_char]. by rw Hd.
  - unfold startsWith. cbn [String.prefix append]. destruct (ascii_dec "-" d) as [E|]; [by rw -E in Hd | done].
  - by apply replace_first_none.
Qed.

Lemma fixed_mod w x y acc : 0 <= y -> fixed 10 w (x * 10 ^ Z.of_nat w + y) acc = fixed 10 w y acc.
Proof.
  revert x y acc. induction w as [|w IH]; intros x y acc Hy; [done|]. cbn [fixed].
  rw Nat2Z.inj_succ Z.pow_succ_r; [|lia].
  replace (x * (10 * 10 ^ Z.of_nat w) + y) with ((x * 10 ^ Z.of_nat w) * 10 + y) by lia.
  rw Z.div_add_l; [|lia]. rw IH; [|apply Z.div_pos; lia]. f_equal. f_equal. f_equal.
  by rw Z.add_comm Z.mod_add.
Qed.

Lemma padEnd_none s c w : String.length s = w -> padEnd s w c = s.
Proof. intros <-. unfold padEnd. by rw Nat.sub_diag str_app_nil_r. Qed.

(** Reading back [sign whole . fraction]. *)
Lemma parseAmount_text (neg : bool) w e x y c :
  (1 <= w)%nat -> minorUnitExponent c = e -> 0 <= x < 10 ^ Z.of_nat w -> 0 <= y < 10 ^ Z.of_nat e ->
  x * 10 ^ Z.of_nat e + y <= MAX_SAFE_INTEGER ->
  parseAmount ((if neg then "-" else "") ++ fixed 10 w x ""
               ++ (if Nat.eqb e 0 then "" else "." ++ fixed 10 e y "")) c
  = Ok (if neg then - (x * 10 ^ Z.of_nat e + y) else x * 10 ^ Z.of_nat e + y).
Proof.
  intros Hw He Hx Hy Hsafe.
  pose proof (fixed_digits w x "" eq_refl) as HX. pose proof (fixed_digits e y "" eq_refl) as HY.
  pose proof (truthy_fixed w x Hw) as Ht.
  set (tail := if Nat.eqb e 0 then "" else "." ++ fixed 10 e y "").
  assert (split_on "." (fixed 10 w x "" ++ tail) = if Nat.eqb e 0 then [fixed 10 w x ""]
            else [fixed 10 w x ""; fixed 10 e y ""]) as Hsplit.
  { unfold tail. destruct (Nat.eqb e 0).
    - rw str_app_nil_r split_on_none; [done | by apply digits_not].
    - change ("." ++ ?z) with (String "." z). rw split_on_app; [|by apply digits_not].
      by rw split_on_none; [|apply digits_not]. }
  assert (parse_digits 10 (fixed 10 w x "" ++ fixed 10 e y "") = Some (x * 10 ^ Z.of_nat e + y)) as Hp.
  { pose proof (fixed_split 10 ltac:(lia) w e (x * 10 ^ Z.of_nat e + y) "" ltac:(lia)) as E.
    rw Z.div_add_l in E; [|lia]. rw (Z.div_small y) in E; [|lia]. rw Z.add_0_r in E.
    rw fixed_mod in E; [|lia]. rw -(fixed_app 10) -E. apply parse_fixed; [lia..|].
    rw Nat2Z.inj_add Z.pow_add_r; [|lia..]. nia. }
  destruct (amount_shape_text neg (fixed 10 w x "") tail Ht HX) as (Hc & Hs & Hneg & Hrep & Hts).
  { unfold tail. destruct (Nat.eqb e 0); [by left | right; by eexists]. }
  unfold parseAmount. rw He. set (s := _ ++ _) in *.
  rw trim_none; [|by eapply str_forall_impl, Hc; apply amount_char_not_ws].
  rw str_filter_all; [|by eapply str_forall_impl, Hc; apply amount_char_not_ws].
  rw replace_first_none; [|by eapply str_forall_impl, Hc; apply amount_char_not_comma].
  unfold truthy in Hts. apply negb_true_iff in Hts. rw Hts Hs Hneg Hrep Hsplit. cbn [orb negb].
  assert (default "" ((if Nat.eqb e 0 then [fixed 10 w x ""] else [fixed 10 w x ""; fixed 10 e y ""]) !! 0%nat)
    = fixed 10 w x "") as -> by by destruct (Nat.eqb e 0).
  assert (default "" ((if Nat.eqb e 0 then [fixed 10 w x ""] else [fixed 10 w x ""; fixed 10 e y ""]) !! 1%nat)
    = fixed 10 e y "") as ->.
  { destruct (Nat.eqb_spec e 0) as [->|]; done. }
  rw Ht padEnd_none; [|rw (length_fixed 10); simpl; lia].
  unfold js_slice. rw Nat.sub_0_r -{1}(Nat.add_0_r e). change 0%nat with (String.length "").
  rw -(length_fixed 10 e y) substring_all Hp. unfold isSafeInteger.
  destruct (Z.leb_spec (Z.abs (x * 10 ^ Z.of_nat e + y)) MAX_SAFE_INTEGER); [done|lia].
Qed.

Lemma parse_formatAmount a c : Z.abs a <= MAX_SAFE_INTEGER -> parseAmount (formatAmount a c) c = Ok a.
Proof.
  intros Ha. destruct (formatAmount_text a c) as (w & Hw & Hb & ->).
  set (e := minorUnitExponent c) in *.
  assert (0 < 10 ^ Z.of_nat e) as Hpow by (apply Z.pow_pos_nonneg; lia).
  pose proof (Z_div_mod_eq_full (Z.abs a) (10 ^ Z.of_nat e)) as Hdm.
  pose proof (Z.mod_pos_bound (Z.abs a) (10 ^ Z.of_nat e) Hpow) as Hm.
  assert (fixed 10 e (Z.abs a) "" = fixed 10 e (Z.abs a mod 10 ^ Z.of_nat e) "") as ->.
  { rw {1}Hdm. rw (Z.mul_comm (10 ^ Z.of_nat e)). apply fixed_mod. lia. }
  rw (parseAmount_text (a <? 0) w e); [|done|done| |done|lia].
  - replace (Z.abs a / 10 ^ Z.of_nat e * 10 ^ Z.of_nat e + Z.abs a mod 10 ^ Z.of_nat e) with (Z.abs a) by lia.
    destruct (Z.ltb_spec a 0); f_equal; lia.
  - split; [apply Z.div_pos; lia|]. apply Z.div_lt_upper_bound; [done|].
    rw Nat2Z.inj_add Z.pow_add_r in Hb; [|lia..]. lia.
Qed.

(** * Properties *)

(** the text of an amount reads back as that amount, in every currency (no
    minor unit, two digits or three), negative amounts included. *)
Theorem amount_text_roundtrip a c :
  Z.abs a <= MAX_SAFE_INTEGER -> parseAmount (formatAmount a c) c = Ok a.
Proof. apply parse_formatAmount. Qed.

(** whatever the user types, [parseAmount] returns a safe integer or throws:
    no amount past 2^53, where sums stop being exact, enters the ledger. *)
Theorem parseAmount_safe input c a :
  parseAmount input c = Ok a -> Z.abs a <= MAX_SAFE_INTEGER.
Proof.
  unfold parseAmount. case_match; [done|]. case_match; [|done].
  unfold isSafeInteger. match goal with |- (if ?b then _ else _) = _ -> _ => destruct b eqn:Hs end; [|done].
  apply Z.leb_le in Hs. intros [= <-].
  destruct (startsWith _ _); [by rw Z.abs_opp | done].
Qed.

(** a transfer between two accounts conserves money: what it takes from the
    source it gives to the destination, and it touches no third account. *)
Theorem transfer_conserves txn src dst :
  txn_kind txn = Transfer -> txn_accountId txn = src -> txn_counterAccountId txn = Some dst ->
  src <> dst ->
  signedFor src txn = - txn_amount txn /\ signedFor dst txn = txn_amount txn
  /\ forall other, other <> src -> other <> dst -> signedFor other txn = 0.
Proof.
  intros Hk Hs Hd Hne. unfold signedFor. rw Hk Hs Hd. rw String.eqb_refl.
  split_and!; [done| |].
  - destruct (String.eqb_spec src dst); [done|]. by rw decide_True.
  - intros o Ho1 Ho2. destruct (String.eqb_spec src o); [congruence|]. rw decide_False; [done|congruence].
Qed.

(** * Witnesses *)

Lemma amount_text_roundtrip_witness : parseAmount "-12.05" "USD" = Ok (-1205).
Proof. apply (amount_text_roundtrip (-1205) "USD"). bounds. Defined.

Lemma parseAmount_safe_witness : Z.abs 1999 <= MAX_SAFE_INTEGER.
Proof. apply (parseAmount_safe "19,999" "USD"). reflexivity. Defined.

Definition demo_transfer : Transaction :=
  mkTransaction "t" Transfer 500 "USD" "a" (Some "b") None "2024-01-01" "" "" [] true None None 0 "".

Lemma transfer_conserves_witness : signedFor "a" demo_transfer = -500 /\ signedFor "b" demo_transfer = 500.
Proof.
  destruct (transfer_conserves demo_transfer "a" "b" eq_refl eq_refl eq_refl ltac:(done)) as (H1 & H2 & _).
  by split.
Defined.
