(* ===== verification/Conversion.v ===== *)
(** Converting between currencies ([app/src/app/core/money/conversion.ts]), on
    binary64 rates and integer amounts. *)
From S2P Require Export Money.
#[local] Open Scope string_scope.
#[local] Open Scope Z_scope.

(** * Definitions *)

Definition rateId (base quote date : string) : string :=
  toUpperCase base ++ ":" ++ toUpperCase quote ++ ":" ++ date.

Definition sameCurrency (a b : string) : bool := String.eqb (toUpperCase a) (toUpperCase b).

Definition PRECISION : number := f_of_Z 1000000000.

(** [Math.round] of infinity is infinity, which is no amount. *)
Definition round_Z (x : number) : result Z :=
  match js_round x with
  | Some z => Ok z
  | None => Throw (OutsideModel "an amount past the range of floats")
  end.

Definition roundHalfAwayFromZero (value : number) : result Z :=
  n ← round_Z (f_mul value PRECISION);
  let snapped := f_div (f_of_Z n) PRECISION in
  if f_neg snapped then m ← round_Z (SFopp snapped); mret (- m) else round_Z snapped.

(** The message of the code also prints the rate. *)
Definition bad_rate : exn := JsError "Exchange rate must be a positive number".

Definition convert (amount : Minor) (rate : number) (from to : string) : result Minor :=
  if negb (isFinite rate) || f_nonpos rate then Throw bad_rate
  else if sameCurrency from to then Ok amount
  else
    let scale := pow10 (Z.of_nat (minorUnitExponent to) - Z.of_nat (minorUnitExponent from)) in
    roundHalfAwayFromZero (f_mul (f_mul (f_of_Z amount) rate) scale).

(** [Pick<Transaction, 'amount' | 'currency' | 'rate'>]. *)
Record Priced : Type := mkPriced { pr_amount : Minor; pr_currency : string; pr_rate : option number }.
Definition priced (t : Transaction) : Priced := mkPriced (txn_amount t) (txn_currency t) (txn_rate t).

(** [null] is [None]. *)
Definition inReporting (transaction : Priced) (reporting : string) : result (option Minor) :=
  if sameCurrency (pr_currency transaction) reporting then Ok (Some (pr_amount transaction))
  else match pr_rate transaction with
       | None => Ok None
       | Some rate =>
           Some <$> convert (pr_amount transaction) rate (pr_currency transaction) reporting
       end.

Definition rateFor_step (base quote date : string) (best : option ExchangeRate) (candidate : ExchangeRate)
  : option ExchangeRate :=
  if negb (sameCurrency (er_base candidate) base) || negb (sameCurrency (er_quote candidate) quote)
  then best
  else if String.ltb date (er_date candidate) then best
  else match best with
       | None => Some candidate
       | Some b => if String.ltb (er_date b) (er_date candidate) then Some candidate else best
       end.

Definition rateFor (rates : list ExchangeRate) (base quote date : string) : option ExchangeRate :=
  if sameCurrency base quote then None
  else fold_left (rateFor_step base quote date) rates None.

Definition invertRate (rate : number) : result number :=
  if negb (isFinite rate) || f_nonpos rate then Throw bad_rate else Ok (f_div (f_of_Z 1) rate).

Fixpoint sum_loop (reporting : string) (transactions : list Transaction) (total unconverted : Z)
  : result (Z * Z) :=
  match transactions with
  | [] => Ok (total, unconverted)
  | transaction :: rest =>
      converted ← inReporting (priced transaction) reporting;
      match converted with
      | None => sum_loop reporting rest total (unconverted + 1)
      | Some c => sum_loop reporting rest (total + c) unconverted
      end
  end.

(** The total, and how many could not be converted. *)
Definition sumInReporting (transactions : list Transaction) (reporting : string) : result (Z * Z) :=
  sum_loop reporting transactions 0 0.

(** * Specification *)

(** A quote that answers a question about a pair on a date. *)
Definition quotes (base quote date : string) (r : ExchangeRate) : Prop :=
  sameCurrency (er_base r) base = true /\ sameCurrency (er_quote r) quote = true
  /\ String.leb (er_date r) date = true.

Definition value {A} (d : A) (r : result A) : A := match r with Ok a => a | Throw _ => d end.

(** What a transaction adds to a total, nothing when it does not convert. *)
Definition reporting_value (reporting : string) (t : Transaction) : Z :=
  default 0 (value None (inReporting (priced t) reporting)).

(** * Lemmas *)

Lemma sameCurrency_iff a b : sameCurrency a b = true <-> toUpperCase a = toUpperCase b.
Proof. apply String.eqb_eq. Qed.

Lemma sameCurrency_refl a : sameCurrency a a = true.
Proof. by apply sameCurrency_iff. Qed.

(** ** Signs survive the arithmetic *)

(** [x] has the sign [s], or is zero (or NaN, which no conversion returns). *)
Definition signed (s : bool) (x : number) : Prop :=
  match x with
  | S754_zero _ | S754_nan => True
  | S754_infinity s' | S754_finite s' _ _ => s' = s
  end.

Lemma binary_round_aux_signed s m e l : signed s (binary_round_aux prec emax s m e l).
Proof.
  unfold binary_round_aux. destruct (shr_fexp _ _ m e l) as [mrs e'].
  destruct (shr_fexp _ _ _ e' loc_Exact) as [mrs' e'']. destruct (shr_m mrs'); [done| |done].
  by destruct (e'' <=? emax - prec).
Qed.

Lemma f_of_Z_signed z : signed (z <? 0) (f_of_Z z).
Proof.
  unfold f_of_Z, binary_normalize. destruct z as [|p|p]; [done|..]; unfold binary_round;
    destruct (shl_align _ _ _); apply binary_round_aux_signed.
Qed.

Lemma f_mul_signed s x y : signed s x -> signed false y -> signed s (f_mul x y).
Proof.
  unfold f_mul. intros Hx Hy.
  destruct x as [sx|sx| |sx mx ex], y as [sy|sy| |sy my ey]; simpl in Hx, Hy; try done; rewrite ?Hx ?Hy;
    simpl; rewrite ?xorb_false_r; done || apply binary_round_aux_signed.
Qed.

Lemma f_div_signed s x m e : signed s x -> signed s (f_div x (S754_finite false m e)).
Proof.
  unfold f_div. intros Hx. destruct x as [sx|sx| |sx mx ex]; simpl in Hx; try done; rewrite ?Hx;
    unfold SFdiv; try destruct (SFdiv_core_binary _ _ _ _ _ _) as [[mz ez] lz];
    simpl; rewrite ?xorb_false_r; done || apply binary_round_aux_signed.
Qed.

Lemma js_round_signed s x z : signed s x -> js_round x = Some z -> if s then z <= 0 else 0 <= z.
Proof.
  destruct x as [?|?| |s' m e]; try done; [intros _ [= <-]; by destruct s|]. intros -> [= <-].
  assert (0 < 2 ^ (- e + 1) \/ 0 <= e) as Hp by (destruct (Z.le_gt_cases 0 e); [lia | left; apply Z.pow_pos_nonneg; lia]).
  destruct (Z.leb_spec 0 e).
  - assert (0 < 2 ^ e) by (apply Z.pow_pos_nonneg; lia). destruct s; nia.
  - rewrite Z.pow_add_r in Hp |- *; [|lia..]. change (2 ^ 1) with 2 in *.
    assert (0 < 2 ^ (- e)) by (apply Z.pow_pos_nonneg; lia).
    destruct s; [|apply Z.div_pos; lia].
    enough ((2 * Z.neg m + 2 ^ (- e)) / (2 ^ (- e) * 2) < 1) by lia.
    apply Z.div_lt_upper_bound; lia.
Qed.

Lemma pow10_signed k : -3 <= k <= 3 -> signed false (pow10 k).
Proof.
  intros H. assert (k = -3 \/ k = -2 \/ k = -1 \/ k = 0 \/ k = 1 \/ k = 2 \/ k = 3) as Hk by lia.
  repeat destruct Hk as [->|Hk]; [..|subst k]; vm_compute; done.
Qed.

Lemma minorUnitExponent_bound c : (minorUnitExponent c <= 3)%nat.
Proof.
  unfold minorUnitExponent. destruct (jmap_get _ _) as [n|] eqn:E; [|simpl; lia].
  apply jmap_get_elem in E. unfold EXPONENTS in E. simpl.
  repeat (apply elem_of_cons in E as [[= _ ->]|E]; [lia|]). by apply elem_of_nil in E.
Qed.

Lemma signed_opp s x : signed s x -> signed (negb s) (SFopp x).
Proof. by destruct x as [?|?| |? ? ?]; simpl; [| intros -> | | intros ->]. Qed.

Lemma roundHalf_signed s x z :
  signed s x -> roundHalfAwayFromZero x = Ok z -> if s then z <= 0 else 0 <= z.
Proof.
  intros Hx. unfold roundHalfAwayFromZero, round_Z.
  assert (exists m e, PRECISION = S754_finite false m e) as (m & e & HP) by by eexists _, _.
  destruct (js_round (f_mul x PRECISION)) as [n|] eqn:En; [|done]. cbn [mbind result_bind].
  pose proof (js_round_signed s _ n (f_mul_signed s x PRECISION Hx ltac:(by rewrite HP)) En) as Hn.
  assert (signed s (f_div (f_of_Z n) PRECISION)) as Hsn.
  { rewrite HP. apply f_div_signed. destruct (Z.eq_dec n 0) as [->|]; [done|].
    replace s with (n <? 0) by (destruct s; lia). apply f_of_Z_signed. }
  destruct (f_neg _).
  - destruct (js_round (SFopp _)) as [k|] eqn:Ek; [|done]. intros [= <-].
    pose proof (js_round_signed _ _ k (signed_opp s _ Hsn) Ek). by destruct s; simpl in *; lia.
  - destruct (js_round (f_div _ _)) as [k|] eqn:Ek; [|done]. intros [= <-].
    by apply (js_round_signed s _ k Hsn).
Qed.

(** ** The best quote *)

Lemma quotes_iff base quote date r :
  quotes base quote date r <->
  negb (sameCurrency (er_base r) base) || negb (sameCurrency (er_quote r) quote) = false
  /\ String.ltb date (er_date r) = false.
Proof.
  unfold quotes. rewrite ltb_cmp_string leb_cmp_string.
  pose proof (cmp_antisym (cmp := cmp_string) date (er_date r)).
  destruct (sameCurrency (er_base r) base), (sameCurrency (er_quote r) quote); simpl;
    (split; [intros (?&?&?) | intros [? ?]]); split_and?; try done; lia.
Qed.

Lemma rateFor_fold base quote date rates acc :
  (forall a, acc = Some a -> quotes base quote date a) ->
  match fold_left (rateFor_step base quote date) rates acc with
  | None => acc = None /\ forall r, r ∈ rates -> ~ quotes base quote date r
  | Some b => (b ∈ rates \/ acc = Some b) /\ quotes base quote date b
              /\ (forall r, r ∈ rates -> quotes base quote date r -> String.leb (er_date r) (er_date b) = true)
              /\ (forall a, acc = Some a -> String.leb (er_date a) (er_date b) = true)
  end.
Proof.
  assert (forall a, String.leb a a = true) as Hrefl.
  { intros a. rewrite leb_cmp_string (proj2 (cmp_string_eq a a) eq_refl). done. }
  assert (forall a b, String.ltb a b = false -> String.leb b a = true) as Hflip.
  { intros a b. rewrite ltb_cmp_string leb_cmp_string. pose proof (cmp_antisym (cmp := cmp_string) a b). lia. }
  assert (forall a b, String.ltb a b = true -> String.leb a b = true) as Hlt.
  { intros a b. rewrite ltb_cmp_string leb_cmp_string. lia. }
  assert (forall a b c, String.leb a b = true -> String.leb b c = true -> String.leb a c = true) as Htr.
  { intros a b c. rewrite !leb_cmp_string !Z.leb_le. apply cmp_trans. }
  revert acc. induction rates as [|r rates IH]; intros acc Hacc; cbn [fold_left].
  - destruct acc as [a|]; [|by split; [|set_solver]].
    split_and!; [by right | by apply Hacc | set_solver | by intros ? [= <-]].
  - specialize (IH (rateFor_step base quote date acc r)).
    assert (quotes base quote date r ->
      exists a, rateFor_step base quote date acc r = Some a /\ (a = r \/ acc = Some a)
        /\ quotes base quote date a
        /\ String.leb (er_date r) (er_date a) = true
        /\ (forall b, acc = Some b -> String.leb (er_date b) (er_date a) = true)) as Hyes.
    { intros Hq. destruct (proj1 (quotes_iff _ _ _ _) Hq) as [E1 E2]. unfold rateFor_step. rewrite E1 E2.
      destruct acc as [b|]; [|exists r; split_and!; auto; done].
      destruct (String.ltb (er_date b) (er_date r)) eqn:E.
      - exists r. split_and!; auto. by intros ? [= <-]; apply Hlt.
      - exists b. split_and!; auto. by intros ? [= <-]. }
    assert (~ quotes base quote date r -> rateFor_step base quote date acc r = acc) as Hno.
    { rewrite quotes_iff. unfold rateFor_step. intros Hn.
      destruct (negb _ || negb _); [done|]. by destruct (String.ltb date (er_date r)); [|destruct Hn]. }
    destruct (decide (negb (sameCurrency (er_base r) base) || negb (sameCurrency (er_quote r) quote) = false
                      /\ String.ltb date (er_date r) = false)) as [Hq|Hq]; rewrite -quotes_iff in Hq.
    + destruct (Hyes Hq) as (a & Ea & Hfrom & Hqa & Hra & Hba). rewrite Ea in IH |- *.
      specialize (IH ltac:(by intros ? [= <-])). destruct (fold_left _ rates (Some a)) as [b|]; [|by destruct IH].
      destruct IH as (Hb & Hqb & Hmax & Hab). specialize (Hab a eq_refl). split_and!; [|done|..].
      * destruct Hb as [?|[= <-]]; [left; by constructor|]. destruct Hfrom as [->|?]; [left; constructor | by right].
      * intros r' [->|Hr']%elem_of_cons Hq'; [by eapply Htr | by apply Hmax].
      * intros a' Ha'. eapply Htr; [by apply Hba | done].
    + rewrite (Hno Hq) in IH |- *. specialize (IH Hacc). destruct (fold_left _ rates acc) as [b|].
      * destruct IH as (Hb & Hqb & Hmax & Hab). split_and!; [|done|..|done].
        -- destruct Hb as [?|?]; [left; by constructor | by right].
        -- intros r' [->|Hr']%elem_of_cons Hq'; [done | by apply Hmax].
      * destruct IH as [Ha Hn]. split; [done|]. intros r' [->|Hr']%elem_of_cons; [done | by apply Hn].
Qed.

(** ** Sums *)

Lemma sum_loop_spec reporting ts total unconverted t u :
  sum_loop reporting ts total unconverted = Ok (t, u) ->
  exists values, Forall2 (fun txn v => inReporting (priced txn) reporting = Ok v) ts values
    /\ t = total + sumZ (omap id values)
    /\ u = unconverted + Z.of_nat (length (List.filter (fun v => bool_decide (v = None)) values)).
Proof.
  revert total unconverted. induction ts as [|txn ts IH]; intros total unconverted; cbn [sum_loop].
  - intros [= <- <-]. exists []. simpl. split_and!; [constructor | lia | lia].
  - intros (c & Hc & H)%bind_Ok_inv. destruct c as [c|]; apply IH in H as (vs & Hvs & -> & ->).
    + exists (Some c :: vs). split_and!; [by constructor | | done].
      change (sumZ (omap id (Some c :: vs))) with (c + sumZ (omap id vs)). lia.
    + exists (None :: vs). split_and!; [by constructor | done |].
      cbn [List.filter]. rewrite bool_decide_eq_true_2; [|done]. cbn [length]. lia.
Qed.

(** * Properties *)

(** converting an amount never changes its sign (an expense cannot become
    income, nor a debt an asset), whatever the rate and the two minor units. *)
Theorem convert_keeps_sign amount rate from to z :
  convert amount rate from to = Ok z -> if amount <? 0 then z <= 0 else 0 <= z.
Proof.
  unfold convert. destruct (isFinite rate) eqn:Hf; [|done]. destruct (f_nonpos rate) eqn:Hp; [done|]. cbn [negb orb].
  destruct (sameCurrency from to); [intros [= <-]; destruct (Z.ltb_spec amount 0); lia|].
  apply roundHalf_signed. apply f_mul_signed; [apply f_mul_signed; [apply f_of_Z_signed|]|].
  - destruct (rate_ok_finite rate) as (m & e & ->); [|done]. unfold rate_ok. by rewrite Hf Hp.
  - apply pow10_signed. pose proof (minorUnitExponent_bound from). pose proof (minorUnitExponent_bound to). lia.
Qed.

(** [convert] refuses exactly the rates that are not finite and positive (zero,
    negative, NaN, infinite), and leaves an amount alone between spellings of one
    currency. *)
Theorem convert_refuses_bad_rates amount rate from to :
  (rate_ok rate = false -> convert amount rate from to = Throw bad_rate)
  /\ (rate_ok rate = true -> toUpperCase from = toUpperCase to -> convert amount rate from to = Ok amount)
  /\ (rate_ok rate = true -> convert amount rate from to <> Throw bad_rate).
Proof.
  unfold convert, rate_ok. destruct (isFinite rate), (f_nonpos rate); cbn [negb orb andb]; split_and!; try done.
  - intros _ H. by rewrite (proj2 (sameCurrency_iff from to) H).
  - intros _. destruct (sameCurrency from to); [done|]. unfold roundHalfAwayFromZero, round_Z.
    destruct (js_round (f_mul _ PRECISION)); [|done]. cbn [mbind result_bind].
    destruct (f_neg _); destruct (js_round _); done.
Qed.

(** [rateFor] answers with a quote of the pair dated on or before the day, the
    latest such; a later quote is never used; it answers nothing only when no quote
    of the pair is that old (or the two currencies are the same). *)
Theorem rateFor_latest_known rates base quote date :
  sameCurrency base quote = false ->
  match rateFor rates base quote date with
  | Some b => b ∈ rates /\ quotes base quote date b
              /\ forall r, r ∈ rates -> quotes base quote date r -> String.leb (er_date r) (er_date b) = true
  | None => forall r, r ∈ rates -> ~ quotes base quote date r
  end.
Proof.
  intros Hs. unfold rateFor. rewrite Hs. pose proof (rateFor_fold base quote date rates None ltac:(done)) as H.
  destruct (fold_left _ rates None) as [b|]; [|by destruct H].
  destruct H as ([Hb|?] & Hq & Hmax & _); [|done]. by split_and!.
Qed.

(** a total in the reporting currency is exactly the sum of the transactions
    that convert, and it reports exactly how many did not: nothing is silently
    left out or counted as zero. *)
Theorem sumInReporting_accounts_for_all ts reporting total unconverted :
  sumInReporting ts reporting = Ok (total, unconverted) ->
  exists values, Forall2 (fun txn v => inReporting (priced txn) reporting = Ok v) ts values
    /\ total = sumZ (omap id values)
    /\ unconverted = Z.of_nat (length (List.filter (fun v => bool_decide (v = None)) values)).
Proof. intros H%sum_loop_spec. exact H. Qed.

(** * Witnesses *)

(** 1.1, as a float. *)
Definition demo_rate : number := f_div (f_of_Z 11) (f_of_Z 10).

Lemma convert_keeps_sign_witness : convert (-1000) demo_rate "USD" "JPY" = Ok (-11) /\ -11 <= 0.
Proof. split; [reflexivity|]. by apply (convert_keeps_sign (-1000) demo_rate "USD" "JPY"). Defined.

Lemma convert_refuses_bad_rates_witness : convert 100 (f_of_Z 0) "USD" "EUR" = Throw bad_rate.
Proof. by apply (convert_refuses_bad_rates 100 (f_of_Z 0) "USD" "EUR"). Defined.

Definition demo_quote (date : string) : ExchangeRate :=
  mkExchangeRate (rateId "usd" "eur" date) "USD" "EUR" demo_rate date Manual 0 "".

Lemma rateFor_latest_known_witness :
  rateFor [demo_quote "2024-01-01"; demo_quote "2024-02-01"; demo_quote "2024-03-01"] "usd" "EUR" "2024-02-10"
  = Some (demo_quote "2024-02-01") /\ quotes "usd" "EUR" "2024-02-10" (demo_quote "2024-02-01").
Proof.
  pose proof (rateFor_latest_known
    [demo_quote "2024-01-01"; demo_quote "2024-02-01"; demo_quote "2024-03-01"] "usd" "EUR" "2024-02-10" eq_refl) as H.
  split; [reflexivity|]. exact (proj1 (proj2 H)).
Defined.

Lemma sumInReporting_accounts_for_all_witness :
  exists values, Forall2 (fun txn v => inReporting (priced txn) "EUR" = Ok v) [demo_transfer] values
    /\ 0 = sumZ (omap id values)
    /\ 1 = Z.of_nat (length (List.filter (fun v => bool_decide (v = None)) values)).
Proof. by apply (sumInReporting_accounts_for_all [demo_transfer] "EUR" 0 1). Defined.
