(* ===== verification/Rates.v ===== *)
(** The rates service ([app/src/app/core/repositories/rates.service.ts]): quotes
    and the vault's reporting currency.  A signal reads the tables as they are. *)
From S2P Require Export Conversion Ledger Calendar.
#[local] Open Scope string_scope.
#[local] Open Scope Z_scope.

(** * Definitions *)

Definition DEFAULT_REPORTING_CURRENCY : string := "USD".

Record RateDraft : Type := mkRateDraft {
  rd_base : string; rd_quote : string; rd_rate : number; rd_date : string;
  rd_source : option RateSource }.

Record PairSummary : Type := mkPair {
  ps_base : string; ps_quote : string; ps_rate : number; ps_date : string; ps_count : Z }.

(** [orderBy('date').reverse()] : newest first; the rows come in id order, and so
    from the greatest id down within a date. *)
Definition all_rates (s : App) : list ExchangeRate :=
  rev (js_sort (fun a b => cmp_string (er_date a) (er_date b)) (rates s)).

Definition reportingCurrency (s : App) : string :=
  default DEFAULT_REPORTING_CURRENCY (vs_reportingCurrency <$> settings s).

Definition pair_step (newest : list (string * PairSummary)) (rate : ExchangeRate)
  : list (string * PairSummary) :=
  let key := er_base rate ++ ":" ++ er_quote rate in
  match jmap_get key newest with
  | None => jmap_set key (mkPair (er_base rate) (er_quote rate) (er_rate rate) (er_date rate) 1) newest
  | Some p =>
      jmap_set key
        (if String.ltb (ps_date p) (er_date rate)
         then mkPair (ps_base p) (ps_quote p) (er_rate rate) (er_date rate) (ps_count p + 1)
         else mkPair (ps_base p) (ps_quote p) (ps_rate p) (ps_date p) (ps_count p + 1)) newest
  end.

Definition pairs `{!Locale} (s : App) : list PairSummary :=
  js_sort (fun a b => cmp_or (localeCompare (ps_base a) (ps_base b))
                             (localeCompare (ps_quote a) (ps_quote b)))
    (map snd (fold_left pair_step (all_rates s) [])).

Definition lookup_rate (base quote date : string) (s : App) : option ExchangeRate :=
  rateFor (all_rates s) base quote date.

Definition rateToReporting (base date : string) (s : App) : result (option number) :=
  let reporting := reportingCurrency s in
  if sameCurrency base reporting then Ok (Some (f_of_Z 1))
  else match lookup_rate base reporting date s with
       | Some direct => Ok (Some (er_rate direct))
       | None =>
           match lookup_rate reporting base date s with
           | Some reverse => Some <$> invertRate (er_rate reverse)
           | None => Ok None
           end
       end.

(** [/^[A-Z]{3}$/]. *)
Definition is_currency (code : string) : bool :=
  Nat.eqb (String.length code) 3 && str_forall is_upper code.

Definition assertCurrency (code : string) : result unit :=
  if is_currency code then Ok tt
  else Throw (JsError (dquote ++ code ++ dquote ++ " is not a three-letter currency code")).

(** [existing?.createdAt ?? Date.now()] reads the clock only when there is no row. *)
Definition created_at (existing : option Z) : M App Z :=
  match existing with Some t => mret t | None => Date_now end.

Definition setReportingCurrency (currency : string) : M App unit :=
  let code := toUpperCase (trim currency) in
  _ ← liftR (assertCurrency code);
  existing ← (fun s => (Ok (settings s), s));
  createdAt ← created_at (vs_createdAt <$> existing);
  _ ← put EVaultSettings
        (ASettings (mkVaultSettings code (existing ≫= vs_subcategories) createdAt ""));
  mret tt.

Definition checkRateDraft (draft : RateDraft) (base quote : string) : result unit :=
  _ ← assertCurrency base;
  _ ← assertCurrency quote;
  if sameCurrency base quote then Throw (JsError "A currency is always worth one of itself")
  else if negb (isFinite (rd_rate draft)) || f_nonpos (rd_rate draft)
  then Throw (JsError "The rate must be a positive number")
  else if negb (bool_decide (is_Some (match_ymd (rd_date draft))))
  then Throw (JsError "Date must be YYYY-MM-DD")
  else Ok tt.

Definition save_rate (draft : RateDraft) : M App AnyEntity :=
  let base := toUpperCase (trim (rd_base draft)) in
  let quote := toUpperCase (trim (rd_quote draft)) in
  _ ← liftR (checkRateDraft draft base quote);
  let id := rateId base quote (rd_date draft) in
  existing ← (fun s => (Ok (get_of as_rate ERates id s), s));
  createdAt ← created_at (er_createdAt <$> existing);
  put ERates (ARate (mkExchangeRate id base quote (rd_rate draft) (rd_date draft)
                       (default Manual (rd_source draft)) createdAt "")).

Definition remove_rate (id : string) : M App unit := Ledger.remove ERates id.

Definition history (base quote : string) (s : App) : list ExchangeRate :=
  List.filter (fun rate => sameCurrency (er_base rate) base && sameCurrency (er_quote rate) quote)
    (all_rates s).

(** * Specification *)

(** A quote as the service stores it. *)
Record rate_wf (r : ExchangeRate) : Prop := {
  rw_id : er_id r = rateId (er_base r) (er_quote r) (er_date r);
  rw_base : is_currency (er_base r) = true;
  rw_quote : is_currency (er_quote r) = true;
  rw_pair : er_base r <> er_quote r;
  rw_rate : rate_ok (er_rate r) = true;
  rw_date : is_Some (match_ymd (er_date r)) }.

Definition rates_inv (s : App) : Prop :=
  forall id v, rows s !! (ERates, id) = Some v ->
    exists r, v = ARate r /\ er_id r = id /\ rate_wf r.

(** * Lemmas *)

Lemma is_currency_upper c : is_currency c = true -> toUpperCase c = c.
Proof.
  unfold is_currency. intros [_ H]%andb_prop. unfold toUpperCase. induction c as [|x c IH]; [done|].
  cbn [str_forall str_map] in *. apply andb_prop in H as [Hx Hc]. rewrite IH; [|done]. f_equal.
  by destruct x as [[] [] [] [] [] [] [] []].
Qed.

Lemma sameCurrency_codes a b :
  is_currency a = true -> is_currency b = true -> sameCurrency a b = true <-> a = b.
Proof. intros Ha Hb. by rewrite sameCurrency_iff !is_currency_upper. Qed.

Lemma checkRateDraft_Ok draft base quote u :
  checkRateDraft draft base quote = Ok u ->
  is_currency base = true /\ is_currency quote = true /\ base <> quote
  /\ rate_ok (rd_rate draft) = true /\ is_Some (match_ymd (rd_date draft)).
Proof.
  unfold checkRateDraft, assertCurrency. destruct (is_currency base) eqn:Hb; [|done]. cbn [mbind result_bind].
  destruct (is_currency quote) eqn:Hq; [|done]. cbn [mbind result_bind].
  destruct (sameCurrency base quote) eqn:Hs; [done|]. unfold rate_ok.
  destruct (isFinite _), (f_nonpos _); try done. cbn [negb orb andb].
  case_bool_decide; [|done]. intros _. split_and!; try done. intros ->. by rewrite sameCurrency_refl in Hs.
Qed.

Lemma created_at_rows o s t s' : created_at o s = (Ok t, s') -> rows s' = rows s.
Proof. destruct o; [by intros [= _ <-] | apply Date_now_rows]. Qed.

(** What [save_rate] stores. *)
Lemma save_rate_Ok draft s v s' :
  save_rate draft s = (Ok v, s') ->
  exists r, v = ARate r /\ rate_wf r
    /\ er_base r = toUpperCase (trim (rd_base draft)) /\ er_quote r = toUpperCase (trim (rd_quote draft))
    /\ er_date r = rd_date draft /\ er_rate r = rd_rate draft
    /\ rows s' = <[(ERates, er_id r) := ARate r]> (rows s).
Proof.
  unfold save_rate. set (base := toUpperCase (trim (rd_base draft))).
  set (quote := toUpperCase (trim (rd_quote draft))).
  intros ([] & s1 & E1 & E)%M_bind_Ok_inv. unfold liftR in E1. injection E1 as E1 <-.
  apply checkRateDraft_Ok in E1 as (Hb & Hq & Hne & Hr & Hd).
  apply M_bind_Ok_inv in E as (existing & s2 & [= <- <-] & E).
  apply M_bind_Ok_inv in E as (t & s3 & Ht%created_at_rows & E).
  apply put_rows in E as [-> Hrows]. eexists. split; [reflexivity|].
  cbn [er_id er_base er_quote er_date er_rate]. rewrite Hrows Ht. by split_and!.
Qed.

Lemma elem_of_rates s r : rates_inv s -> r ∈ rates s <-> rows s !! (ERates, er_id r) = Some (ARate r).
Proof.
  intros Hinv. unfold rates. rewrite elem_of_table_of. split.
  - intros (id & v & Hv & Hr). destruct (Hinv id v Hv) as (r' & -> & <- & _). by injection Hr as <-.
  - intros Hr. by exists (er_id r), (ARate r).
Qed.

Lemma elem_of_all_rates s r : r ∈ all_rates s <-> r ∈ rates s.
Proof. unfold all_rates. by rewrite list_elem_of_In -in_rev -list_elem_of_In elem_of_js_sort. Qed.

(** Quotes of one pair and day are one row. *)
Lemma rates_inv_unique s a b :
  rates_inv s -> a ∈ rates s -> b ∈ rates s ->
  sameCurrency (er_base a) (er_base b) = true -> sameCurrency (er_quote a) (er_quote b) = true ->
  er_date a = er_date b -> a = b.
Proof.
  intros Hinv Ha Hb H1 H2 H3.
  rewrite elem_of_rates in Ha; [|done]. rewrite elem_of_rates in Hb; [|done].
  destruct (Hinv _ _ Ha) as (? & [= <-] & _ & Hwa), (Hinv _ _ Hb) as (? & [= <-] & _ & Hwb).
  apply sameCurrency_codes in H1; [|apply Hwa|apply Hwb]. apply sameCurrency_codes in H2; [|apply Hwa|apply Hwb].
  assert (er_id a = er_id b) as Hid by by rewrite (rw_id _ Hwa) (rw_id _ Hwb) H1 H2 H3.
  rewrite Hid in Ha. rewrite Hb in Ha. congruence.
Qed.

Lemma save_rate_inv draft s v s' : rates_inv s -> save_rate draft s = (Ok v, s') -> rates_inv s'.
Proof.
  intros Hinv (r & -> & Hwf & _ & _ & _ & _ & Hrows)%save_rate_Ok id w. rewrite Hrows lookup_insert_Some.
  intros [[[= <-] <-]|[_ Hv]]; [by exists r | by apply Hinv].
Qed.

(** * Properties *)

(** saving a quote and looking the pair up on its day gives back exactly that
    quote, however the codes were typed: a re-entered day is replaced, not kept
    beside its correction, and the table stays a set of well-formed quotes. *)
Theorem save_rate_then_lookup draft s v s' :
  rates_inv s -> save_rate draft s = (Ok v, s') ->
  rates_inv s' /\ exists r, v = ARate r /\ er_rate r = rd_rate draft
    /\ lookup_rate (trim (rd_base draft)) (trim (rd_quote draft)) (rd_date draft) s' = Some r.
Proof.
  intros Hinv E. pose proof (save_rate_inv draft s v s' Hinv E) as Hinv'. split; [done|].
  apply save_rate_Ok in E as (r & -> & Hwf & Hb & Hq & Hd & Hr & Hrows). exists r. split_and!; [done..|].
  assert (r ∈ all_rates s') as Hin.
  { rewrite elem_of_all_rates elem_of_rates; [|done]. by rewrite Hrows lookup_insert_eq. }
  assert (forall x, sameCurrency (toUpperCase x) x = true) as Hup.
  { intros x. apply sameCurrency_iff, toUpperCase_idemp. }
  assert (quotes (trim (rd_base draft)) (trim (rd_quote draft)) (rd_date draft) r) as Hquote.
  { unfold quotes. rewrite Hb Hq Hd !Hup leb_cmp_string (proj2 (cmp_string_eq _ _) eq_refl). done. }
  unfold lookup_rate.
  pose proof (rateFor_fold (trim (rd_base draft)) (trim (rd_quote draft)) (rd_date draft) (all_rates s') None
    ltac:(done)) as Hf. unfold rateFor.
  destruct (sameCurrency (trim (rd_base draft)) (trim (rd_quote draft))) eqn:Hsame.
  { destruct (rw_pair _ Hwf). rewrite Hb Hq. by apply sameCurrency_iff. }
  destruct (fold_left _ _ None) as [b|]; [|by destruct (proj2 Hf r Hin)].
  destruct Hf as ([Hbin|?] & (Hb1 & Hb2 & Hb3) & Hmax & _); [|done]. f_equal.
  apply (rates_inv_unique s'); [done|by apply elem_of_all_rates|by apply elem_of_all_rates|..].
  - rewrite Hb. apply sameCurrency_iff. rewrite toUpperCase_idemp. by apply sameCurrency_iff.
  - rewrite Hq. apply sameCurrency_iff. rewrite toUpperCase_idemp. by apply sameCurrency_iff.
  - specialize (Hmax r Hin Hquote). rewrite Hd in Hmax |- *. apply cmp_string_eq.
    rewrite !leb_cmp_string !Z.leb_le in Hb3, Hmax.
    pose proof (cmp_antisym (cmp := cmp_string) (er_date b) (rd_date draft)). lia.
Qed.

(** a bad quote is refused before anything is written: a malformed code, a pair
    of one currency, a rate that is not finite and positive, or a malformed date
    each throws and leaves the whole application state untouched. *)
Theorem save_rate_refuses draft s :
  let base := toUpperCase (trim (rd_base draft)) in
  let quote := toUpperCase (trim (rd_quote draft)) in
  is_currency base = false \/ is_currency quote = false \/ base = quote
  \/ rate_ok (rd_rate draft) = false \/ match_ymd (rd_date draft) = None ->
  exists x, save_rate draft s = (Throw x, s).
Proof.
  intros base quote Hbad. unfold save_rate. fold base quote.
  destruct (checkRateDraft draft base quote) as [u|x] eqn:E; [|by exists x].
  apply checkRateDraft_Ok in E as (H1 & H2 & H3 & H4 & [p H5]).
  rewrite H1 H2 H4 H5 in Hbad. by destruct Hbad as [?|[?|[?|[?|?]]]].
Qed.

(** changing the reporting currency keeps the rest of the one settings row: the
    subcategories preference and the creation time survive, and no other row moves. *)
Theorem setReportingCurrency_keeps_settings currency s s' :
  setReportingCurrency currency s = (Ok tt, s') ->
  reportingCurrency s' = toUpperCase (trim currency)
  /\ (forall old, settings s = Some old ->
        exists new, settings s' = Some new /\ vs_subcategories new = vs_subcategories old
                    /\ vs_createdAt new = vs_createdAt old)
  /\ (forall e id, e <> EVaultSettings -> rows s' !! (e, id) = rows s !! (e, id)).
Proof.
  unfold setReportingCurrency. intros ([] & s1 & E1 & E)%M_bind_Ok_inv. unfold liftR in E1. injection E1 as _ <-.
  apply M_bind_Ok_inv in E as (existing & s2 & [= <- <-] & E).
  apply M_bind_Ok_inv in E as (t & s3 & Ht & E). pose proof (created_at_rows _ _ _ _ Ht) as Hrows.
  apply M_bind_Ok_inv in E as (v & s4 & [Hv Hr]%put_rows & [= <-]). rewrite Hrows in Hr. cbn in Hr, Hv.
  unfold reportingCurrency, settings at 1 3, get_of, table_get. rewrite Hr lookup_insert_eq Hv. cbn.
  split_and!; [done| |].
  - intros old Hold. change (settings s = Some old) in Hold. rewrite Hold in Ht.
    eexists. split; [reflexivity|]. cbn. rewrite Hold. split; [done|].
    by injection Ht as <-.
  - intros e id He. rewrite lookup_insert_ne; [done | congruence].
Qed.

(** * Witnesses *)

Definition demo_draft : RateDraft := mkRateDraft " usd" "eur" demo_rate "2024-05-01" None.

Lemma demo_rates_inv d : rates_inv (demo_device d).
Proof. intros id v Hv. by vm_compute in Hv. Qed.

Lemma save_rate_then_lookup_witness :
  exists r, ARate r = default demo_category (match fst (save_rate demo_draft (demo_device "a")) with
                                            Ok v => Some v | Throw _ => None end)
    /\ er_rate r = demo_rate
    /\ lookup_rate "usd" "eur" "2024-05-01" (snd (save_rate demo_draft (demo_device "a"))) = Some r.
Proof.
  destruct (save_rate_then_lookup demo_draft (demo_device "a")
    (ARate (mkExchangeRate "USD:EUR:2024-05-01" "USD" "EUR" demo_rate "2024-05-01" Manual 1000
              (encodeHlc (mkHlcState 1000 0) "a")))
    (snd (save_rate demo_draft (demo_device "a"))) (demo_rates_inv "a") ltac:(by vm_compute)) as (_ & r & Hv & Hr & Hl).
  exists r. split_and!; [rewrite -Hv; by vm_compute | exact Hr | exact Hl].
Defined.

Lemma save_rate_refuses_witness :
  exists x, save_rate (mkRateDraft "USD" "usd" demo_rate "2024-05-01" None) (demo_device "a")
            = (Throw x, demo_device "a").
Proof. apply save_rate_refuses. right. right. left. reflexivity. Defined.

Lemma setReportingCurrency_keeps_settings_witness :
  reportingCurrency (snd (setReportingCurrency "eur" (demo_device "a"))) = "EUR".
Proof.
  apply (setReportingCurrency_keeps_settings "eur" (demo_device "a")). by vm_compute.
Defined.
