(* ===== verification/CategoryTree.v ===== *)
(** Arranging categories and rolling a subcategory up to its parent
    ([app/src/app/core/categories/tree.ts]). *)
From S2P Require Export JsString Domain.
#[local] Open Scope string_scope.
#[local] Open Scope Z_scope.

(** * Definitions *)

Record CategoryNode : Type := mkNode { node_category : Category; node_children : list Category }.

(** [x ? ... : undefined] on a nullable string: [null] and the empty string are falsy. *)
Definition truthy_opt (o : option string) : option string :=
  match o with Some s => if truthy s then Some s else None | None => None end.

Section Order.
Context `{!Locale}.

Definition compareCategories (a b : Category) : Z :=
  cmp_or (localeCompare (cat_name a) (cat_name b)) (localeCompare (cat_id a) (cat_id b)).

Definition byId (categories : list Category) : list (string * Category) :=
  jmap_of (map (fun c => (cat_id c, c)) categories).

(** One round of the loop that files each category as a root or under its parent. *)
Definition tree_step (index : list (string * Category))
    (acc : list Category * list (string * list Category)) (category : Category)
  : list Category * list (string * list Category) :=
  let '(roots, children) := acc in
  let parent := truthy_opt (cat_parentId category) ≫= fun p => jmap_get p index in
  match parent with
  | None => ((roots ++ [category])%list, children)
  | Some parent =>
      if decide (cat_parentId parent = None)
      then (roots, jmap_set (cat_id parent)
                     (default [] (jmap_get (cat_id parent) children) ++ [category])%list children)
      else ((roots ++ [category])%list, children)
  end.

Definition buildTree (categories : list Category) (kind : option CategoryKind) : list CategoryNode :=
  let scope := match kind with
               | Some k => List.filter (fun c => bool_decide (cat_kind c = k)) categories
               | None => categories
               end in
  let '(roots, children) := fold_left (tree_step (byId scope)) scope ([], []) in
  map (fun category =>
         mkNode category
           (js_sort compareCategories (default [] (jmap_get (cat_id category) children))))
    (js_sort compareCategories roots).

Definition rootIdOf (categoryId : option string) (categories : list (string * Category)) : option string :=
  match categoryId with
  | None => None
  | Some id =>
      match jmap_get id categories ≫= fun c => truthy_opt (cat_parentId c) with
      | None => Some id
      | Some parent => Some (if jmap_has parent categories then parent else id)
      end
  end.

Definition descendantIds (categoryId : string) (categories : list Category) : list string :=
  map cat_id (List.filter (fun c => bool_decide (cat_parentId c = Some categoryId)) categories).

Definition withDescendants (ids : list string) (categories : list Category) : list string :=
  fold_left (fun wanted category =>
      match truthy_opt (cat_parentId category) with
      | Some p => if decide (p ∈ wanted) then jset_add wanted (cat_id category) else wanted
      | None => wanted
      end) categories (jset_of ids).

Definition rootIds (categories : list Category) : list (string * string) :=
  let index := byId categories in
  fold_left (fun roots category =>
      jmap_set (cat_id category) (default (cat_id category) (rootIdOf (Some (cat_id category)) index)) roots)
    categories [].
End Order.

(** * Specification *)

(** The parent a category is filed under on screen: one in the list that is itself
    top-level.  Anything else makes it a root. *)
Definition parent_in (cats : list Category) (c p : Category) : Prop :=
  p ∈ cats /\ cat_parentId c = Some (cat_id p) /\ truthy (cat_id p) = true /\ cat_parentId p = None.

(** Two levels: a category that names a known parent names a top-level one. *)
Definition two_level (cats : list Category) : Prop :=
  forall c p, c ∈ cats -> p ∈ cats -> cat_parentId c = Some (cat_id p) -> cat_parentId p = None.

Definition ids_ok (cats : list Category) : Prop :=
  NoDup (map cat_id cats) /\ Forall (fun c => truthy (cat_id c) = true) cats.

(** * Lemmas *)

Lemma byId_get cats id c :
  NoDup (map cat_id cats) -> jmap_get id (byId cats) = Some c <-> c ∈ cats /\ cat_id c = id.
Proof.
  intros Hnd. unfold byId. rewrite jmap_of_get.
  - rewrite list_elem_of_fmap. split; [by intros (? & [= -> ->] & ?) | by intros [? <-]; exists c].
  - rewrite map_map. exact Hnd.
Qed.

(** Where the loop files a category. *)
Definition parent_of (index : list (string * Category)) (c : Category) : option Category :=
  truthy_opt (cat_parentId c) ≫= fun p => jmap_get p index.
Definition filed_under (index : list (string * Category)) (c : Category) : option string :=
  match parent_of index c with
  | Some p => if decide (cat_parentId p = None) then Some (cat_id p) else None
  | None => None
  end.
Definition is_root (index : list (string * Category)) (c : Category) : bool :=
  bool_decide (filed_under index c = None).
Definition is_child (index : list (string * Category)) (id : string) (c : Category) : bool :=
  bool_decide (filed_under index c = Some id).

Lemma tree_fold index l roots children :
  let r := fold_left (tree_step index) l (roots, children) in
  r.1 = (roots ++ List.filter (is_root index) l)%list
  /\ forall id, default [] (jmap_get id r.2)
       = (default [] (jmap_get id children) ++ List.filter (is_child index id) l)%list.
Proof.
  revert roots children. induction l as [|c l IH]; intros roots children r.
  - unfold r. cbn. split; [by rewrite app_nil_r | intros; by rewrite app_nil_r].
  - unfold r. cbn [fold_left]. unfold tree_step at 2 4. fold (parent_of index c).
    cbn [List.filter]. unfold is_root at 1, is_child at 1, filed_under.
    destruct (parent_of index c) as [p|] eqn:Ep; [destruct (decide (cat_parentId p = None))|];
      destruct (IH (roots ++ [c])%list children) as [H1 H2];
      try destruct (IH roots (jmap_set (cat_id p)
              (default [] (jmap_get (cat_id p) children) ++ [c])%list children)) as [H3 H4].
    + split; [by rewrite bool_decide_eq_false_2|]. intros id. rewrite H4 jmap_get_set.
      destruct (decide (id = cat_id p)) as [->|Hne].
      * rewrite bool_decide_eq_true_2; [|done]. cbn [default from_option]. by rewrite -app_assoc.
      * rewrite bool_decide_eq_false_2; [done | congruence].
    + split; [by rewrite bool_decide_eq_true_2 // H1 -app_assoc|].
      intros id. by rewrite H2 bool_decide_eq_false_2.
    + split; [by rewrite bool_decide_eq_true_2 // H1 -app_assoc|].
      intros id. by rewrite H2 bool_decide_eq_false_2.
Qed.

Section Lemmas.
Context `{!Locale}.

#[export] Instance compareCategories_comparator : Comparator compareCategories.
Proof.
  apply cmp_or_comparator; [apply (cmp_on_comparator cat_name localeCompare) | apply (cmp_on_comparator cat_id localeCompare)];
    apply localeCompare_order.
Qed.

Definition scope_of (categories : list Category) (kind : option CategoryKind) : list Category :=
  match kind with
  | Some k => List.filter (fun c => bool_decide (cat_kind c = k)) categories
  | None => categories
  end.

(** The loop, as two filters of the scope. *)
Lemma buildTree_spec categories kind :
  let scope := scope_of categories kind in
  let index := byId scope in
  buildTree categories kind
  = map (fun c => mkNode c (js_sort compareCategories (List.filter (is_child index (cat_id c)) scope)))
      (js_sort compareCategories (List.filter (is_root index) scope)).
Proof.
  intros scope index. unfold buildTree. fold (scope_of categories kind). fold scope. fold index.
  destruct (tree_fold index scope [] []) as [H1 H2].
  destruct (fold_left (tree_step index) scope ([], [])) as [roots children]. cbn [fst snd] in *.
  rewrite H1. apply map_ext. intros c. by rewrite H2.
Qed.
End Lemmas.

Lemma scope_ids_ok cats kind : ids_ok cats -> ids_ok (scope_of cats kind).
Proof.
  intros [Hnd Ht]. destruct kind as [k|]; [|done]. unfold scope_of. split.
  - clear Ht. induction cats as [|c cats IH]; [done|]. cbn [map] in Hnd. apply NoDup_cons in Hnd as [Hc Hnd].
    cbn [List.filter]. case_bool_decide; [|by apply IH]. cbn [map]. constructor; [|by apply IH].
    intros (x & Hx & Hin)%list_elem_of_fmap. apply elem_of_filter_b in Hin as [Hin _].
    apply Hc, list_elem_of_fmap. by exists x.
  - apply Forall_forall. intros c [Hc _]%elem_of_filter_b. rewrite ->Forall_forall in Ht. by apply Ht.
Qed.

Lemma filed_under_Some cats c id :
  ids_ok cats -> filed_under (byId cats) c = Some id <->
  exists p, parent_in cats c p /\ cat_id p = id.
Proof.
  intros [Hnd Ht]. unfold filed_under, parent_of, parent_in, truthy_opt. split.
  - destruct (cat_parentId c) as [pid|] eqn:Ec; [|done]. destruct (truthy pid) eqn:Etr; [|done]. cbn.
    destruct (jmap_get pid (byId cats)) as [p|] eqn:Ep; [|done]. apply byId_get in Ep as [Hp <-]; [|done].
    case_decide; [|done]. intros [= <-]. by exists p.
  - intros (p & (Hp & -> & Htr & Hroot) & <-). rewrite Htr. cbn.
    rewrite (proj2 (byId_get cats (cat_id p) p Hnd) (conj Hp eq_refl)). by rewrite decide_True.
Qed.

Lemma is_root_top cats p : cat_parentId p = None -> is_root (byId cats) p = true.
Proof. intros E. unfold is_root, filed_under, parent_of. by rewrite E. Qed.

Lemma filed_under_None cats c :
  ids_ok cats -> (forall p, ~ parent_in cats c p) -> filed_under (byId cats) c = None.
Proof.
  intros Hok Hn. destruct (filed_under (byId cats) c) as [id|] eqn:E; [|done].
  apply filed_under_Some in E as (p & Hp & _); [|done]. by destruct (Hn p).
Qed.

Lemma filed_under_perm cats cats' c :
  ids_ok cats -> ids_ok cats' -> cats ≡ₚ cats' -> filed_under (byId cats) c = filed_under (byId cats') c.
Proof.
  intros H1 H2 Hp. apply option_eq. intros id. rewrite !filed_under_Some; [|done..].
  unfold parent_in. by setoid_rewrite Hp.
Qed.

Lemma ids_ok_perm cats cats' : cats ≡ₚ cats' -> ids_ok cats -> ids_ok cats'.
Proof. intros Hp [H1 H2]. split; by rewrite -Hp. Qed.

Lemma concat_cons_perm {A} (f : A -> list A) l :
  concat (map (fun x => x :: f x) l) ≡ₚ l ++ concat (map f l).
Proof.
  induction l as [|x l IH]; simpl; [done|]. constructor. rewrite IH !app_assoc.
  apply Permutation_app_tail, Permutation_app_comm.
Qed.

Lemma concat_map_perm {A B} (f g : A -> list B) l :
  (forall x, f x ≡ₚ g x) -> concat (map f l) ≡ₚ concat (map g l).
Proof. intros H. induction l as [|x l IH]; simpl; [done|]. by rewrite H IH. Qed.

Lemma partition_scope cats :
  ids_ok cats ->
  let index := byId cats in
  let roots := List.filter (is_root index) cats in
  roots ++ concat (map (fun id => List.filter (is_child index id) cats) (map cat_id roots)) ≡ₚ cats.
Proof.
  intros Hok index roots.
  assert (concat (map (fun id => List.filter (is_child index id) cats) (map cat_id roots))
    ≡ₚ List.filter (fun c => bool_decide (is_Some (filed_under index c))) cats) as ->.
  { apply (filter_groups (filed_under index)); [by apply NoDup_map_filter; destruct Hok|].
    intros c id _ Hf. apply filed_under_Some in Hf as (p & (Hp & _ & _ & Htop) & <-); [|done].
    apply list_elem_of_fmap. exists p. split; [done|]. apply elem_of_filter_b. split; [done|].
    by apply is_root_top. }
  rewrite -(filter_split _ _ (fun _ => true)).
  - clear. induction cats as [|c l IH]; [done|]. cbn. by rewrite IH.
  - intros c _. unfold is_root. by destruct (filed_under index c).
  - intros c _. unfold is_root. by destruct (filed_under index c).
Qed.

(** ** The roll-up *)

Lemma rootIdOf_two_level cats c :
  ids_ok cats -> two_level cats -> c ∈ cats ->
  rootIdOf (Some (cat_id c)) (byId cats) = Some (default (cat_id c) (filed_under (byId cats) c)).
Proof.
  intros Hok Htwo Hc. pose proof Hok as [Hnd Ht]. unfold rootIdOf.
  rewrite (proj2 (byId_get cats (cat_id c) c Hnd) (conj Hc eq_refl)). cbn [mbind option_bind].
  unfold filed_under, parent_of. destruct (truthy_opt (cat_parentId c)) as [pid|] eqn:Ep; [|done].
  cbn [mbind option_bind]. unfold jmap_has.
  destruct (jmap_get pid (byId cats)) as [p|] eqn:Eg; [|done]. apply byId_get in Eg as [Hp <-]; [|done].
  rewrite decide_True; [done|]. apply (Htwo c); [done..|].
  unfold truthy_opt in Ep. destruct (cat_parentId c); [|done]. case_match; congruence.
Qed.

Lemma truthy_opt_Some o s : truthy_opt o = Some s <-> o = Some s /\ truthy s = true.
Proof.
  unfold truthy_opt. destruct o as [t|]; [|by split; [|intros [? ?]]].
  destruct (truthy t) eqn:E; (split; [intros H | intros [[= <-] ?]]); congruence || by injection H as <-.
Qed.

Lemma elem_of_withDescendants ids cats x :
  ids_ok cats -> two_level cats -> (forall i, i ∈ ids -> exists c, c ∈ cats /\ cat_id c = i) ->
  x ∈ withDescendants ids cats <->
  x ∈ ids \/ exists c p, c ∈ cats /\ cat_id c = x /\ cat_parentId c = Some p /\ p ∈ ids.
Proof.
  intros [Hnd Ht] Htwo Hids. unfold withDescendants.
  set (covered := fun y => exists c p, c ∈ cats /\ cat_id c = y /\ cat_parentId c = Some p /\ p ∈ ids).
  set (step := fun wanted category => _).
  assert (forall p, p ∈ ids -> truthy p = true) as Hidt.
  { intros p (c & Hc & <-)%Hids. rewrite ->Forall_forall in Ht. by apply Ht. }
  assert (forall l wanted, (forall c, c ∈ l -> c ∈ cats) ->
    (forall y, y ∈ wanted -> y ∈ ids \/ covered y) -> (forall y, y ∈ ids -> y ∈ wanted) ->
    x ∈ fold_left step l wanted <->
    x ∈ wanted \/ exists c p, c ∈ l /\ cat_id c = x /\ cat_parentId c = Some p /\ p ∈ ids) as H.
  { induction l as [|c l IH]; intros wanted Hl Hw1 Hw2; cbn [fold_left]; [set_solver|].
    assert (c ∈ cats) as Hc by (apply Hl; constructor).
    assert (forall c', c' ∈ l -> c' ∈ cats) as Hl' by (intros; apply Hl; by constructor).
    assert (forall p, cat_parentId c = Some p -> p ∈ wanted -> p ∈ ids) as Hpin.
    { intros p Hp [?|(c' & p' & Hc' & <- & Hp' & _)]%Hw1; [done|]. pose proof (Htwo c c' Hc Hc' Hp). congruence. }
    unfold step at 2. destruct (truthy_opt (cat_parentId c)) as [p|] eqn:Ep; [destruct (decide (p ∈ wanted)) as [Hin|Hnin]|].
    - apply truthy_opt_Some in Ep as [Ep Htr]. pose proof (Hpin p Ep Hin) as Hpids. rewrite IH; [|done|..].
      + rewrite elem_of_jset_add. split.
        * intros [[?| ->]|(c' & p' & ? & ? & ? & ?)]; [by left | right; exists c, p; by split_and!; [constructor|..] |].
          right. exists c', p'. by split_and!; [constructor|..].
        * intros [?|(c' & p' & [ ->|?]%elem_of_cons & ? & ? & ?)]; [by left; left | by left; right |].
          right. by exists c', p'.
      + intros y [?| ->]%elem_of_jset_add; [by apply Hw1|]. right. by exists c, p.
      + intros y Hy. apply elem_of_jset_add. left. by apply Hw2.
    - rewrite IH; [|done..]. apply truthy_opt_Some in Ep as [Ep Htr]. split.
      + intros [?|(c' & p' & ? & ?)]; [by left|]. right. exists c', p'. split; [by constructor|done].
      + intros [?|(c' & p' & [ ->|?]%elem_of_cons & Hx & Hp' & Hpi)]; [by left| |right; by exists c', p'].
        destruct Hnin. apply Hw2. congruence.
    - rewrite IH; [|done..]. split.
      + intros [?|(c' & p' & ? & ?)]; [by left|]. right. exists c', p'. split; [by constructor|done].
      + intros [?|(c' & p' & [ ->|?]%elem_of_cons & Hx & Hp' & Hpi)]; [by left| |right; by exists c', p'].
        exfalso. unfold truthy_opt in Ep. rewrite Hp' (Hidt p' Hpi) in Ep. done. }
  rewrite (H cats (jset_of ids)) ?elem_of_jset_of //; intros y; rewrite elem_of_jset_of; auto.
Qed.

(** * Properties *)

(** the tree shows every category of the list exactly once, as a root or under
    one root: none is dropped (an orphan whose parent is unknown is promoted) and
    none is listed twice. *)
Theorem buildTree_keeps_every_category `{!Locale} cats kind :
  ids_ok cats ->
  concat (map (fun n => node_category n :: node_children n) (buildTree cats kind)) ≡ₚ scope_of cats kind.
Proof.
  intros Hok. pose proof (scope_ids_ok cats kind Hok) as Hs. rewrite buildTree_spec.
  set (scope := scope_of cats kind) in *. rewrite map_map. cbn [node_category node_children].
  etrans; [apply (concat_cons_perm
    (fun c => js_sort compareCategories (List.filter (is_child (byId scope) (cat_id c)) scope)))|].
  etrans; [apply Permutation_app; [reflexivity|]; apply (concat_map_perm _
    (fun c => List.filter (is_child (byId scope) (cat_id c)) scope)); intros c; apply js_sort_perm|].
  rewrite -(map_map cat_id (fun id => List.filter (is_child (byId scope) id) scope)).
  rewrite !js_sort_perm. by apply partition_scope.
Qed.

(** the tree looks the same on every device: it depends on which categories
    there are, not on the order the rows come in, whenever the host's collation
    tells different strings apart. *)
Theorem buildTree_same_on_every_device `{!Locale} cats cats' kind :
  ids_ok cats -> cats ≡ₚ cats' -> separates localeCompare (fun _ => True) ->
  buildTree cats kind = buildTree cats' kind.
Proof.
  intros Hok Hp Hsep. pose proof (ids_ok_perm cats cats' Hp Hok) as Hok'.
  assert (scope_of cats kind ≡ₚ scope_of cats' kind) as Hps.
  { unfold scope_of. destruct kind; [by apply filter_perm | done]. }
  pose proof (scope_ids_ok cats kind Hok) as Hs. pose proof (scope_ids_ok cats' kind Hok') as Hs'.
  rewrite !buildTree_spec. set (scope := scope_of cats kind) in *. set (scope' := scope_of cats' kind) in *.
  assert (forall p l l', (forall c, c ∈ l -> c ∈ scope) -> l ≡ₚ l' ->
    js_sort compareCategories (List.filter p l) = js_sort compareCategories (List.filter p l')) as Hsort.
  { intros p l l' Hl Hll. apply js_sort_unique; [apply _| |by apply filter_perm].
    intros x y [Hx _]%elem_of_filter_b [Hy _]%elem_of_filter_b [_ Heq]%cmp_or_eq.
    apply Hsep in Heq; [|done..]. destruct Hs as [Hnd _].
    apply Hl in Hx, Hy. apply list_elem_of_lookup in Hx as [i Hi], Hy as [j Hj].
    assert (i = j) as ->; [|congruence]. 
    apply (NoDup_lookup (map cat_id scope) i j (cat_id x)); [done| |].
    - by rewrite list_lookup_fmap Hi.
    - by rewrite list_lookup_fmap Hj Heq. }
  assert (forall c, filed_under (byId scope) c = filed_under (byId scope') c) as Hf
    by (intros; by apply filed_under_perm).
  assert (List.filter (is_root (byId scope')) scope' = List.filter (is_root (byId scope)) scope') as ->.
  { apply filter_ext_in_b. intros c _. unfold is_root. by rewrite Hf. }
  rewrite -(Hsort (is_root (byId scope)) scope scope'); [|done..].
  apply map_ext. intros c. f_equal. rewrite (Hsort _ scope scope'); [|done..]. f_equal.
  apply filter_ext_in_b. intros c' _. unfold is_child. by rewrite Hf.
Qed.

(** what a budget on a top-level category covers is exactly what a report rolls
    up to it: [withDescendants] of the category and the transactions whose
    [rootIdOf] is the category are the same categories. *)
Theorem budget_cover_is_report_rollup cats r c :
  ids_ok cats -> two_level cats -> r ∈ cats -> cat_parentId r = None -> c ∈ cats ->
  cat_id c ∈ withDescendants [cat_id r] cats <-> rootIdOf (Some (cat_id c)) (byId cats) = Some (cat_id r).
Proof.
  intros Hok Htwo Hr Htop Hc. pose proof Hok as [Hnd Ht].
  rewrite elem_of_withDescendants; [|done..|intros i ->%list_elem_of_singleton; by exists r].
  assert (forall a b, a ∈ cats -> b ∈ cats -> cat_id a = cat_id b -> a = b) as Hinj.
  { intros a b Ha Hb E. pose proof (proj2 (byId_get cats (cat_id a) a Hnd) (conj Ha eq_refl)) as Ea.
    rewrite E in Ea. rewrite (proj2 (byId_get cats (cat_id b) b Hnd) (conj Hb eq_refl)) in Ea. congruence. }
  rewrite rootIdOf_two_level; [|done..]. split.
  - intros [E%list_elem_of_singleton|(c' & p & Hc' & E & Hp & ->%list_elem_of_singleton)].
    + rewrite (Hinj c r) // filed_under_None; [done..|]. intros p (_ & E' & _). congruence.
    + rewrite (Hinj c' c) // in Hp. assert (filed_under (byId cats) c = Some (cat_id r)) as ->; [|done].
      apply filed_under_Some; [done|]. exists r. split; [|done]. rewrite ->Forall_forall in Ht. by split_and!; auto.
  - destruct (filed_under (byId cats) c) as [id|] eqn:E; intros [= Heq].
    + subst id. apply filed_under_Some in E as (p & (Hp & Ec & _ & _) & Hid); [|done].
      right. exists c, (cat_id p). split_and!; [done..|]. rewrite Hid. constructor.
    + left. rewrite Heq. constructor.
Qed.

(** ** A third level *)

Definition demo_cat (id name : string) (parent : option string) : Category :=
  mkCategory id name CExpense parent "#fff" "tag" false 0 "".

(** Nothing stops two devices from building a third level between them.  Then the
    roll-ups part ways: whether a budget on A covers C depends on the order of the
    rows, the report files C under B, which is no top-level category, and the tree
    shows C as a root of its own. *)
Lemma third_level_disagrees :
  let a := demo_cat "A" "A" None in
  let b := demo_cat "B" "B" (Some "A") in
  let c := demo_cat "C" "C" (Some "B") in
  "C" ∈ withDescendants ["A"] [a; b; c] /\ ~ "C" ∈ withDescendants ["A"] [c; b; a]
  /\ rootIdOf (Some "C") (byId [a; b; c]) = Some "B"
  /\ map (fun n => cat_id (node_category n)) (@buildTree codeunit_locale [a; b; c] None) = ["A"; "C"].
Proof.
  intros a b c. split_and!; [..|reflexivity|reflexivity].
  - by refine (bool_decide_eq_true_1 _ _).
  - by refine (bool_decide_eq_false_1 _ _).
Qed.

(** * Witnesses *)

Definition demo_tree : list Category :=
  [demo_cat "l" "Lunch" (Some "f"); demo_cat "f" "Food" None; demo_cat "x" "Lost" (Some "gone");
   demo_cat "b" "Bus" (Some "t"); demo_cat "t" "Transport" None].

Lemma demo_tree_ok : ids_ok demo_tree.
Proof.
  split; [|by repeat constructor]. apply (bool_decide_eq_true_1 (NoDup (map cat_id demo_tree))). reflexivity.
Qed.

Lemma demo_tree_two_level : two_level demo_tree.
Proof.
  assert (forallb (fun c => forallb (fun p =>
    negb (bool_decide (cat_parentId c = Some (cat_id p))) || bool_decide (cat_parentId p = None)) demo_tree) demo_tree
    = true) as H by reflexivity.
  intros c p Hc Hp E. rewrite ->forallb_forall in H.
  specialize (H c (proj1 (list_elem_of_In _ _) Hc)). rewrite ->forallb_forall in H.
  specialize (H p (proj1 (list_elem_of_In _ _) Hp)). rewrite bool_decide_eq_true_2 // in H.
  by apply bool_decide_eq_true_1 in H.
Qed.

Lemma buildTree_keeps_every_category_witness :
  concat (map (fun n => node_category n :: node_children n) (@buildTree codeunit_locale demo_tree None)) ≡ₚ demo_tree.
Proof. apply (@buildTree_keeps_every_category codeunit_locale demo_tree None), demo_tree_ok. Defined.

Lemma buildTree_same_on_every_device_witness :
  @buildTree codeunit_locale demo_tree None = @buildTree codeunit_locale (rev demo_tree) None.
Proof.
  apply (@buildTree_same_on_every_device codeunit_locale demo_tree (rev demo_tree) None).
  - apply demo_tree_ok.
  - symmetry. rewrite -Permutation_rev. reflexivity.
  - intros x y _ _. apply cmp_string_eq.
Defined.

Lemma budget_cover_is_report_rollup_witness : "l" ∈ withDescendants ["f"] demo_tree.
Proof.
  apply (budget_cover_is_report_rollup demo_tree (demo_cat "f" "Food" None) (demo_cat "l" "Lunch" (Some "f")));
    [apply demo_tree_ok | apply demo_tree_two_level | | reflexivity | | reflexivity];
    unfold demo_tree; set_solver.
Defined.
