(* ===== verification/Categories.v ===== *)
(** The categories service ([app/src/app/core/repositories/categories.service.ts]). *)
From S2P Require Export CategoryTree Rates.
#[local] Open Scope string_scope.
#[local] Open Scope Z_scope.

(** * Definitions *)

Record Starter : Type := mkStarter {
  st_name : string; st_kind : CategoryKind; st_icon : string; st_colour : string }.

Definition STARTER_CATEGORIES : list Starter :=
  [mkStarter "Salary" CIncome "wallet-outline" "#2dd36f";
   mkStarter "Other income" CIncome "trending-up-outline" "#2dd36f";
   mkStarter "Groceries" CExpense "basket-outline" "#ffc409";
   mkStarter "Eating out" CExpense "restaurant-outline" "#ff6b35";
   mkStarter "Transport" CExpense "bus-outline" "#3dc2ff";
   mkStarter "Housing" CExpense "home-outline" "#5260ff";
   mkStarter "Utilities" CExpense "flash-outline" "#3880ff";
   mkStarter "Health" CExpense "medkit-outline" "#eb445a";
   mkStarter "Entertainment" CExpense "film-outline" "#c04df9";
   mkStarter "Other" CExpense "ellipsis-horizontal-outline" "#92949c"].

(** The optional fields of a draft are [None] where absent.  A colour or an icon that
    is left out (only the import does so) is stored as undefined, here the empty text. *)
Record CategoryDraft : Type := mkCategoryDraft {
  cd_id : string; cd_name : string; cd_kind : CategoryKind; cd_colour : string; cd_icon : string;
  cd_parentId : option (option string); cd_archived : option bool; cd_createdAt : option Z }.

(** [orderBy('name')] : code unit order, ids breaking ties. *)
Definition all_categories (s : App) : list Category :=
  js_sort (fun a b => cmp_string (cat_name a) (cat_name b)) (categories s).

Definition active_categories (s : App) : list Category :=
  List.filter (fun c => negb (cat_archived c)) (all_categories s).

Definition subcategoriesEnabled (s : App) : bool :=
  negb (bool_decide (settings s ≫= vs_subcategories = Some false)).

Definition setSubcategoriesEnabled (enabled : bool) : M App unit :=
  existing ← (fun s => (Ok (settings s), s));
  createdAt ← created_at (vs_createdAt <$> existing);
  _ ← put EVaultSettings
        (ASettings (mkVaultSettings (default DEFAULT_REPORTING_CURRENCY (vs_reportingCurrency <$> existing))
                      (Some enabled) createdAt ""));
  mret tt.

Definition forKind (kind : CategoryKind) (s : App) : list Category :=
  List.filter (fun c => bool_decide (cat_kind c = kind)) (active_categories s).

Definition category_byId (id : option string) (s : App) : option Category :=
  match truthy_opt id with
  | Some i => List.find (fun c => String.eqb (cat_id c) i) (all_categories s)
  | None => None
  end.

Section Sorted.
Context `{!Locale}.

Definition category_tree (kind : CategoryKind) (s : App) : list CategoryNode :=
  buildTree (active_categories s) (Some kind).

Definition parents (kind : CategoryKind) (s : App) : list Category :=
  js_sort compareCategories
    (List.filter (fun c => bool_decide (cat_kind c = kind) && bool_decide (cat_parentId c = None))
       (active_categories s)).

Definition childrenOf (categoryId : string) (s : App) : list Category :=
  js_sort compareCategories
    (List.filter (fun c => bool_decide (cat_parentId c = Some categoryId)) (active_categories s)).
End Sorted.

(** The separator of the code is U+203A, here [>]. *)
Definition pathOf (id : option string) (s : App) : string :=
  match category_byId id s with
  | None => ""
  | Some category =>
      match category_byId (cat_parentId category) s with
      | Some parent => cat_name parent ++ " > " ++ cat_name category
      | None => cat_name category
      end
  end.

(** The creation time is read before the draft overrides it. *)
Definition save_category (draft : CategoryDraft) : M App AnyEntity :=
  now ← Date_now;
  put ECategories
    (ACategory (mkCategory (cd_id draft) (cd_name draft) (cd_kind draft)
                  (default None (cd_parentId draft)) (cd_colour draft) (cd_icon draft)
                  (default false (cd_archived draft)) (default now (cd_createdAt draft)) "")).

Definition remove_category (id : string) : M App unit :=
  children ← (fun s => (Ok (descendantIds id (all_categories s)), s));
  _ ← forM_ children (fun childId => Ledger.remove ECategories childId);
  Ledger.remove ECategories id.

Definition category_transactionCount (id : string) (s : App) : nat :=
  let ids := jset_of (id :: descendantIds id (all_categories s)) in
  length (List.filter (fun txn => match txn_categoryId txn with
                                  | Some c => bool_decide (c ∈ ids)
                                  | None => false
                                  end) (transactions s)).

Definition seedIfEmpty : M App unit := fun s =>
  if (0 <? table_count ECategories s)%nat then (Ok tt, s)
  else
    forM_ STARTER_CATEGORIES (fun starter =>
      id ← randomUUID;
      _ ← save_category (mkCategoryDraft id (st_name starter) (st_kind starter) (st_colour starter)
                           (st_icon starter) None None None);
      mret tt) s.

(** * Lemmas *)

(** The categories table holds categories, each under its own id. *)
Definition categories_inv (s : App) : Prop :=
  forall id v, rows s !! (ECategories, id) = Some v -> exists c, v = ACategory c /\ cat_id c = id.

Lemma elem_of_categories s c :
  categories_inv s -> c ∈ categories s <-> rows s !! (ECategories, cat_id c) = Some (ACategory c).
Proof.
  intros Hinv. unfold categories. rewrite elem_of_table_of. split.
  - intros (id & v & Hv & Hc). destruct (Hinv id v Hv) as (c' & -> & <-). by injection Hc as <-.
  - intros Hc. by exists (cat_id c), (ACategory c).
Qed.

Lemma elem_of_all_categories s c : c ∈ all_categories s <-> c ∈ categories s.
Proof. apply elem_of_js_sort. Qed.

Lemma remove_all_rows e ids s s' :
  forM_ ids (fun id => Ledger.remove e id) s = (Ok tt, s') ->
  forall e' k, rows s' !! (e', k) = if decide (e' = e /\ k ∈ ids) then None else rows s !! (e', k).
Proof.
  revert s. induction ids as [|id ids IH]; intros s E e' k.
  - injection E as <-. rewrite decide_False; [done | set_solver].
  - cbn [forM_] in E. apply M_bind_Ok_inv in E as ([] & s1 & Hr%remove_rows & E).
    rewrite (IH s1 E) Hr. destruct (decide (e' = e /\ k ∈ ids)), (decide (e' = e /\ k ∈ id :: ids)); try done.
    + set_solver.
    + rewrite lookup_delete. case_decide; [done|]. set_solver.
    + rewrite lookup_delete_ne; [done | set_solver].
Qed.

Lemma save_category_rows draft s v s' :
  save_category draft s = (Ok v, s') ->
  exists c, v = ACategory c /\ cat_id c = cd_id draft /\ rows s' = <[(ECategories, cat_id c) := v]> (rows s).
Proof.
  unfold save_category. intros (t & s1 & Ht%Date_now_rows & [-> Hr]%put_rows)%M_bind_Ok_inv.
  eexists. split; [reflexivity|]. split; [done|]. by rewrite Hr Ht.
Qed.

(** * Properties *)

(** deleting a top-level category takes its subcategories with it: when it
    returns, neither the category nor any category filed under it is left, and
    every other row (the transactions filed against them included) is as it was. *)
Theorem remove_category_leaves_no_orphan id s s' :
  categories_inv s -> remove_category id s = (Ok tt, s') ->
  (forall c, c ∈ categories s' -> cat_id c <> id /\ cat_parentId c <> Some id)
  /\ (forall e k, rows s' !! (e, k) = rows s !! (e, k)
        \/ (e = ECategories /\ rows s' !! (e, k) = None
            /\ (k = id \/ exists c, c ∈ categories s /\ cat_id c = k /\ cat_parentId c = Some id))).
Proof.
  intros Hinv. unfold remove_category. intros (children & s1 & [= <- <-] & E)%M_bind_Ok_inv.
  apply M_bind_Ok_inv in E as ([] & s2 & Hloop & Hlast%remove_rows).
  pose proof (remove_all_rows _ _ _ _ Hloop) as Hrows.
  assert (forall k, k ∈ descendantIds id (all_categories s) <->
            exists c, c ∈ categories s /\ cat_id c = k /\ cat_parentId c = Some id) as Hdesc.
  { intros k. unfold descendantIds. rewrite list_elem_of_fmap. split.
    - intros (c & -> & [Hc Hp%bool_decide_eq_true_1]%elem_of_filter_b). exists c. by rewrite -elem_of_all_categories.
    - intros (c & Hc & <- & Hp). exists c. split; [done|]. apply elem_of_filter_b.
      rewrite elem_of_all_categories. by rewrite bool_decide_eq_true_2. }
  assert (forall e k, rows s' !! (e, k) = if decide (e = ECategories /\ (k = id \/ k ∈ descendantIds id (all_categories s)))
            then None else rows s !! (e, k)) as H.
  { intros e k. rewrite Hlast. destruct (decide ((ECategories, id) = (e, k))) as [[= <- <-]|Hne].
    - rewrite lookup_delete_eq. by rewrite decide_True; [|auto].
    - rewrite lookup_delete_ne // Hrows. repeat case_decide; naive_solver. }
  split.
  - intros c (k & v & Hv & Hc)%elem_of_table_of. rewrite H in Hv. case_decide as Hk; [done|].
    destruct (Hinv k v Hv) as (c' & -> & <-). injection Hc as ->. split; [naive_solver|].
    intros Hp. apply Hk. split; [done|]. right. apply Hdesc. exists c. split; [|done].
    by apply elem_of_categories.
  - intros e k. rewrite H. case_decide as Hk; [right | by left]. destruct Hk as [-> [->|Hk]]; [by auto|].
    split_and!; [done..|]. right. by apply Hdesc.
Qed.

(** seeding never adds to a vault that has categories: it is the identity then,
    so a device that joined a vault does not duplicate the starter set. *)
Theorem seedIfEmpty_idempotent s s' :
  seedIfEmpty s = (Ok tt, s') -> seedIfEmpty s' = (Ok tt, s').
Proof.
  intros E. enough ((0 <? table_count ECategories s')%nat = true) as H by (unfold seedIfEmpty; by rewrite H).
  unfold seedIfEmpty in E. destruct (0 <? table_count ECategories s)%nat eqn:Hn; [by injection E as <-|].
  apply Nat.ltb_lt. unfold table_count.
  assert (exists v, v ∈ table_rows ECategories s') as [v Hv].
  { refine (forM_establishes (fun s => exists v, v ∈ table_rows ECategories s) _ _ _ _ _ (or_intror _) E); [|done].
    intros st s1 s2 H. apply M_bind_Ok_inv in H as (id & s3 & _ & H).
    apply M_bind_Ok_inv in H as (w & s4 & Hw & [= ->]).
    apply save_category_rows in Hw as (c & -> & _ & Hr). exists (ACategory c).
    apply elem_of_table_rows. exists (cat_id c). by rewrite Hr lookup_insert_eq. }
  destruct (table_rows ECategories s'); [by apply not_elem_of_nil in Hv | simpl; lia].
Qed.

(** turning subcategories on or off writes only the preference: the reporting
    currency and creation time of the settings row survive, and no category moves. *)
Theorem setSubcategoriesEnabled_only_preference enabled s s' :
  setSubcategoriesEnabled enabled s = (Ok tt, s') ->
  subcategoriesEnabled s' = enabled /\ reportingCurrency s' = reportingCurrency s
  /\ (forall e id, e <> EVaultSettings -> rows s' !! (e, id) = rows s !! (e, id)).
Proof.
  unfold setSubcategoriesEnabled. intros (existing & s2 & [= <- <-] & E)%M_bind_Ok_inv.
  apply M_bind_Ok_inv in E as (t & s3 & Ht%created_at_rows & E).
  apply M_bind_Ok_inv in E as (v & s4 & [Hv Hr]%put_rows & [= <-]). rewrite Ht in Hr. cbn in Hr, Hv.
  assert (settings s4 = Some (mkVaultSettings (default DEFAULT_REPORTING_CURRENCY (vs_reportingCurrency <$> settings s))
                      (Some enabled) t (entity_updatedAt v))) as Hs.
  { unfold settings, get_of, table_get. by rewrite Hr lookup_insert_eq Hv. }
  unfold subcategoriesEnabled, reportingCurrency. rewrite Hs. cbn. split_and!.
  - by destruct enabled.
  - done.
  - intros e id He. rewrite Hr lookup_insert_ne; [done | congruence].
Qed.

(** * Witnesses *)

Definition demo_tree_app : App :=
  foldr (fun c s => set_rows <[(ECategories, cat_id c) := ACategory c]> s) (demo_device "a") demo_tree.

Lemma demo_tree_inv : categories_inv demo_tree_app.
Proof.
  unfold demo_tree_app, demo_tree. cbn [foldr].
  intros id v H. cbn [set_rows rows] in H. repeat (apply lookup_insert_Some in H as [[[= <-] <-]|[_ H]]; [by eexists|]).
  by vm_compute in H.
Qed.

Lemma remove_category_leaves_no_orphan_witness :
  Forall (fun c => cat_id c <> "f" /\ cat_parentId c <> Some "f") (categories (snd (remove_category "f" demo_tree_app))).
Proof.
  apply Forall_forall.
  refine (proj1 (remove_category_leaves_no_orphan "f" demo_tree_app (snd (remove_category "f" demo_tree_app)) _ _));
    [apply demo_tree_inv | by vm_compute].
Defined.

Lemma seedIfEmpty_idempotent_witness :
  let s' := snd (seedIfEmpty (set_reads 0 (mkApp ∅ ∅ ∅ None None None (Some (newClock "a" None)) (fun _ => 1000) 0
                     (fun n => num_to_string (Z.of_nat n)) 0))) in
  seedIfEmpty s' = (Ok tt, s').
Proof.
  intros s'. refine (seedIfEmpty_idempotent (set_reads 0 (mkApp ∅ ∅ ∅ None None None (Some (newClock "a" None)) (fun _ => 1000) 0
                     (fun n => num_to_string (Z.of_nat n)) 0)) s' _). by vm_compute.
Defined.

Lemma setSubcategoriesEnabled_only_preference_witness :
  subcategoriesEnabled (snd (setSubcategoriesEnabled false (demo_device "a"))) = false.
Proof.
  refine (proj1 (setSubcategoriesEnabled_only_preference false (demo_device "a") _ _)). by vm_compute.
Defined.
