(* ===== verification/Accounts.v ===== *)
(** Accounts: the service ([app/src/app/core/repositories/accounts.service.ts]),
    what counts ([core/accounts/totals.ts], [classification.ts]) and the balance
    sheet ([core/accounts/sections.ts]). *)
From S2P Require Export Rates.
#[local] Open Scope string_scope.
#[local] Open Scope Z_scope.

(** * Definitions *)

(** ** totals.ts, classification.ts *)

Definition countsInTotals (account : Account) : bool :=
  negb (bool_decide (acc_excludedFromTotals account = Some true)).

Inductive BalanceSheetSide : Type := Asset | Liability.

Definition sideOfType (type : AccountGroupType) : BalanceSheetSide :=
  match type with GCreditCard | GLoan => Liability | GDefault | GDebitCard => Asset end.

Definition sideOf (account : Account) (group : option AccountGroup) : BalanceSheetSide :=
  match group with Some g => sideOfType (ag_type g) | None => Asset end.

Definition readsAsOwed (type : AccountGroupType) : bool :=
  match sideOfType type with Liability => true | Asset => false end.

(** ** class AccountsService *)

Definition convertBalance (amount : Minor) (rate : number) (from to : string) : result Minor :=
  v ← inReporting (mkPriced amount from (Some rate)) to;
  mret (default 0 v).

Definition all_accounts (s : App) : list Account :=
  js_sort (fun a b => cmp_string (acc_name a) (acc_name b)) (accounts s).
Definition active_accounts (s : App) : list Account :=
  List.filter (fun a => negb (acc_archived a)) (all_accounts s).
Definition counted (s : App) : list Account := List.filter countsInTotals (active_accounts s).

(** One account id of one transaction. *)
Definition balance_step (txn : Transaction) (totals : list (string * Z)) (id : option string)
  : list (string * Z) :=
  match id with
  | None => totals
  | Some i =>
      if negb (truthy i) || negb (jmap_has i totals) then totals
      else jmap_set i (default 0 (jmap_get i totals) + signedFor i txn) totals
  end.

Definition balances (s : App) : list (string * Z) :=
  fold_left (fun totals txn =>
      fold_left (balance_step txn) [Some (txn_accountId txn); txn_counterAccountId txn] totals)
    (transactions s)
    (jmap_of (map (fun a => (acc_id a, acc_openingBalance a)) (accounts s))).

Record NetWorth : Type := mkNetWorth {
  nw_total : Z; nw_unconverted : list string; nw_currency : string; nw_excluded : Z }.

Fixpoint netWorth_loop (balances : list (string * Z)) (reporting : string)
    (rateToReporting : string -> result (option number)) (accounts : list Account)
    (total : Z) (unconverted : list string) : result (Z * list string) :=
  match accounts with
  | [] => Ok (total, unconverted)
  | account :: rest =>
      let balance := default 0 (jmap_get (acc_id account) balances) in
      let continue := netWorth_loop balances reporting rateToReporting rest in
      if sameCurrency (acc_currency account) reporting
      then continue (total + balance) unconverted
      else
        rate ← rateToReporting (acc_currency account);
        match rate with
        | None => continue total (unconverted ++ [acc_currency account])%list
        | Some r =>
            c ← convertBalance balance r (acc_currency account) reporting;
            continue (total + c) unconverted
        end
  end.

(** [today] is the date [rateToReporting] defaults to. *)
Definition netWorthDetail (today : string) (s : App) : result NetWorth :=
  let reporting := reportingCurrency s in
  '(total, unconverted) ← netWorth_loop (balances s) reporting
                            (fun c => rateToReporting c today s) (counted s) 0 [];
  mret (mkNetWorth total (jset_of unconverted) reporting
          (Z.of_nat (length (active_accounts s)) - Z.of_nat (length (counted s)))).

Definition set_excluded (x : option bool) (a : Account) : Account :=
  mkAccount (acc_id a) (acc_name a) (acc_kind a) (acc_currency a) (acc_openingBalance a) (acc_archived a)
    (acc_colour a) (acc_icon a) (acc_groupId a) (acc_creditLimit a) (acc_statementDay a) (acc_dueDay a)
    x (acc_createdAt a) (acc_updatedAt a).
Definition set_acc_archived (x : bool) (a : Account) : Account :=
  mkAccount (acc_id a) (acc_name a) (acc_kind a) (acc_currency a) (acc_openingBalance a) x
    (acc_colour a) (acc_icon a) (acc_groupId a) (acc_creditLimit a) (acc_statementDay a) (acc_dueDay a)
    (acc_excludedFromTotals a) (acc_createdAt a) (acc_updatedAt a).
Definition set_acc_groupId (x : option string) (a : Account) : Account :=
  mkAccount (acc_id a) (acc_name a) (acc_kind a) (acc_currency a) (acc_openingBalance a) (acc_archived a)
    (acc_colour a) (acc_icon a) x (acc_creditLimit a) (acc_statementDay a) (acc_dueDay a)
    (acc_excludedFromTotals a) (acc_createdAt a) (acc_updatedAt a).

Definition get_account (id : string) (s : App) : option Account := get_of as_account EAccounts id s.

(** Read an account and write it back changed; nothing when there is none. *)
Definition update_account (id : string) (f : Account -> Account) : M App unit := fun s =>
  match get_account id s with
  | None => (Ok tt, s)
  | Some account => (_ ← put EAccounts (AnAccount (f account)); mret tt) s
  end.

Definition setCountedInTotals (id : string) (counted : bool) : M App unit :=
  update_account id (set_excluded (Some (negb counted))).
Definition setArchived (id : string) (archived : bool) : M App unit :=
  update_account id (set_acc_archived archived).

(** [draft] is the caller's whole account; a draft without a creation time gets now. *)
Definition save_account (draft : Account) (createdAt : option Z) : M App AnyEntity :=
  now ← Date_now;
  put EAccounts (AnAccount (mkAccount (acc_id draft) (acc_name draft) (acc_kind draft) (acc_currency draft)
    (acc_openingBalance draft) (acc_archived draft) (acc_colour draft) (acc_icon draft) (acc_groupId draft)
    (acc_creditLimit draft) (acc_statementDay draft) (acc_dueDay draft) (acc_excludedFromTotals draft)
    (default now createdAt) "")).

Definition account_byId (id : string) (s : App) : option Account :=
  List.find (fun a => String.eqb (acc_id a) id) (all_accounts s).

Definition account_transactionCount (id : string) (s : App) : nat :=
  (length (List.filter (fun t => String.eqb (txn_accountId t) id) (transactions s))
   + length (List.filter (fun t => bool_decide (txn_counterAccountId t = Some id)) (transactions s)))%nat.

Definition remove_account (id : string) : M App unit := Ledger.remove EAccounts id.

(** ** sections.ts *)

Record AccountSection : Type := mkSection {
  sec_group : option AccountGroup; sec_accounts : list Account; sec_subtotal : Minor; sec_owed : bool;
  sec_side : BalanceSheetSide; sec_unconverted : list string; sec_excluded : Z }.

Record SectionInput : Type := mkInput {
  in_accounts : list Account; in_groups : list AccountGroup; in_balances : list (string * Minor);
  in_reporting : string; in_rateFor : string -> result (option number) }.

Definition displayBalance (balance : Minor) (owed : bool) : Minor :=
  if negb owed then balance else if balance =? 0 then 0 else - balance.

Fixpoint section_loop (input : SectionInput) (inSection : list Account)
    (total excluded : Z) (missing : list string) : result (Z * Z * list string) :=
  match inSection with
  | [] => Ok (total, excluded, missing)
  | account :: rest =>
      if negb (countsInTotals account) then section_loop input rest total (excluded + 1) missing
      else
        let balance := default (acc_openingBalance account) (jmap_get (acc_id account) (in_balances input)) in
        if sameCurrency (acc_currency account) (in_reporting input)
        then section_loop input rest (total + balance) excluded missing
        else
          rate ← in_rateFor input (acc_currency account);
          match rate with
          | None => section_loop input rest total excluded (missing ++ [toUpperCase (acc_currency account)])%list
          | Some r =>
              c ← convert balance r (acc_currency account) (in_reporting input);
              section_loop input rest (total + c) excluded missing
          end
  end.

Definition sectionFor (input : SectionInput) (group : option AccountGroup) (inSection : list Account)
    (side : BalanceSheetSide) : result AccountSection :=
  let owed := match group with Some g => readsAsOwed (ag_type g) | None => false end in
  '(total, excluded, missing) ← section_loop input inSection 0 0 [];
  mret (mkSection group inSection (displayBalance total owed) owed side (jset_of missing) excluded).

Definition member_step (byId : list (string * AccountGroup))
    (acc : list (string * list Account) * list Account) (account : Account)
  : list (string * list Account) * list Account :=
  let '(members, ungrouped) := acc in
  match (match acc_groupId account with
         | Some g => if truthy g then jmap_get g byId else None
         | None => None
         end) with
  | Some group =>
      (jmap_set (ag_id group) (default [] (jmap_get (ag_id group) members) ++ [account])%list members, ungrouped)
  | None => (members, (ungrouped ++ [account])%list)
  end.

Fixpoint group_sections (input : SectionInput) (members : list (string * list Account))
    (groups : list AccountGroup) : result (list AccountSection) :=
  match groups with
  | [] => Ok []
  | group :: rest =>
      match default [] (jmap_get (ag_id group) members) with
      | [] => group_sections input members rest
      | inGroup =>
          section ← sectionFor input (Some group) inGroup (sideOfType (ag_type group));
          sections ← group_sections input members rest;
          mret (section :: sections)
      end
  end.

Definition buildSections (input : SectionInput) : result (list AccountSection) :=
  let byId := jmap_of (map (fun g => (ag_id g, g)) (in_groups input)) in
  let members := jmap_of (map (fun g => (ag_id g, [])) (in_groups input)) in
  let '(members, ungrouped) := fold_left (member_step byId) (in_accounts input) (members, []) in
  sections ← group_sections input members (in_groups input);
  match ungrouped with
  | [] => mret sections
  | _ => tail ← sectionFor input None ungrouped Asset; mret (sections ++ [tail])%list
  end.

Record BalanceSheet : Type := mkSheet { bs_assets : Minor; bs_liabilities : Minor; bs_net : Minor }.

Definition balanceSheet (sections : list AccountSection) : BalanceSheet :=
  let '(assets, liabilities) :=
    fold_left (fun acc section =>
        match sec_side section with
        | Liability => (acc.1, acc.2 + sec_subtotal section)
        | Asset => (acc.1 + sec_subtotal section, acc.2)
        end) sections (0, 0) in
  mkSheet assets liabilities (assets - liabilities).

(** * Specification *)

(** What a transaction adds to an account's balance. *)
Definition txn_effect (id : string) (txn : Transaction) : Z :=
  (if String.eqb (txn_accountId txn) id then signedFor id txn else 0)
  + (if bool_decide (txn_counterAccountId txn = Some id) then signedFor id txn else 0).

(** What a transaction adds to the ledger as a whole: a transfer moves money only. *)
Definition txn_net (txn : Transaction) : Z :=
  match txn_kind txn with Income => txn_amount txn | Expense => - txn_amount txn | Transfer => 0 end.

(** A transaction as the service stores it: a transfer has another, known account on
    its far side, the other kinds have none. *)
Definition txn_accounts_ok (ids : list string) (txn : Transaction) : Prop :=
  txn_accountId txn ∈ ids
  /\ match txn_kind txn with
     | Transfer => exists dst, txn_counterAccountId txn = Some dst /\ dst ∈ ids /\ dst <> txn_accountId txn
     | _ => txn_counterAccountId txn = None
     end.

(** The accounts kept in a currency, and the transactions of a group of accounts. *)
Definition kept_in (currency : string) (s : App) : list Account :=
  List.filter (fun a => sameCurrency (acc_currency a) currency) (accounts s).
Definition made_on (l : list Account) (txn : Transaction) : bool := bool_decide (txn_accountId txn ∈ map acc_id l).

(** A transfer with both its ends in one currency. *)
Definition one_currency (s : App) (txn : Transaction) : Prop :=
  txn_kind txn = Transfer -> forall a b, a ∈ accounts s -> b ∈ accounts s ->
    acc_id a = txn_accountId txn -> txn_counterAccountId txn = Some (acc_id b) ->
    sameCurrency (acc_currency a) (acc_currency b) = true.

Definition accounts_inv (s : App) : Prop :=
  forall id v, rows s !! (EAccounts, id) = Some v ->
    exists a, v = AnAccount a /\ acc_id a = id /\ truthy id = true.

(** What an account adds to a total in the reporting currency. *)
Definition contribution (balance : Account -> Z) (reporting : string)
    (rateFor : string -> result (option number)) (a : Account) : result Z :=
  if negb (countsInTotals a) then Ok 0
  else if sameCurrency (acc_currency a) reporting then Ok (balance a)
  else
    rate ← rateFor (acc_currency a);
    match rate with None => Ok 0 | Some r => convert (balance a) r (acc_currency a) reporting end.

(** * Lemmas *)

(** ** Balances *)

Lemma balance_step_get txn totals id i :
  truthy i = true ->
  jmap_get i (balance_step txn totals id)
  = (fun b => b + if bool_decide (id = Some i) then signedFor i txn else 0) <$> jmap_get i totals.
Proof.
  intros Hi. unfold balance_step, jmap_has. destruct id as [j|].
  - destruct (decide (j = i)) as [->|Hne].
    + rewrite Hi. cbn [negb orb]. rewrite bool_decide_eq_true_2 //.
      destruct (jmap_get i totals) as [b|] eqn:E; cbn [negb]; [by rewrite jmap_get_set_eq | by rewrite E].
    + rewrite bool_decide_eq_false_2; [|congruence].
      assert (jmap_get i totals = (fun b => b + 0) <$> jmap_get i totals) as Hid.
      { destruct (jmap_get i totals) as [b|]; [|done]. cbn. f_equal. lia. }
      destruct (negb (truthy j) || _); [done|]. rewrite jmap_get_set_ne; [done | congruence].
  - rewrite bool_decide_eq_false_2; [|done]. destruct (jmap_get i totals) as [b|]; [|done]. cbn. f_equal. lia.
Qed.

Lemma balance_txn_get txn totals i :
  truthy i = true ->
  jmap_get i (fold_left (balance_step txn) [Some (txn_accountId txn); txn_counterAccountId txn] totals)
  = (fun b => b + txn_effect i txn) <$> jmap_get i totals.
Proof.
  intros Hi. cbn [fold_left]. rewrite !balance_step_get; [|done..]. unfold txn_effect.
  destruct (jmap_get i totals) as [b|]; [|done]. cbn. f_equal.
  destruct (String.eqb_spec (txn_accountId txn) i) as [->|Hne].
  - rewrite (bool_decide_eq_true_2 (Some i = Some i)); [lia|done].
  - rewrite (bool_decide_eq_false_2 (Some (txn_accountId txn) = Some i)); [|congruence].
    lia.
Qed.

Lemma balances_fold_get txns totals i :
  truthy i = true ->
  jmap_get i (fold_left (fun totals txn =>
      fold_left (balance_step txn) [Some (txn_accountId txn); txn_counterAccountId txn] totals) txns totals)
  = (fun b => b + sumZ (map (txn_effect i) txns)) <$> jmap_get i totals.
Proof.
  intros Hi. revert totals. induction txns as [|t txns IH]; intros totals.
  - cbn. destruct (jmap_get i totals) as [b|]; [|done]. cbn. f_equal. lia.
  - cbn [fold_left map]. rewrite IH sumZ_cons.
    pose proof (balance_txn_get t totals i Hi) as H. cbn [fold_left] in H. rewrite H.
    destruct (jmap_get i totals) as [b|]; [|done]. cbn [fmap option_fmap option_map]. f_equal. lia.
Qed.

Lemma elem_of_accounts s a :
  accounts_inv s -> a ∈ accounts s <-> rows s !! (EAccounts, acc_id a) = Some (AnAccount a).
Proof.
  intros Hinv. unfold accounts. rewrite elem_of_table_of. split.
  - intros (id & v & Hv & Ha). destruct (Hinv id v Hv) as (a' & -> & <- & _). by injection Ha as <-.
  - intros Ha. by exists (acc_id a), (AnAccount a).
Qed.

(** Row ids are distinct in a table. *)
Lemma table_of_NoDup {A} (as_ : AnyEntity -> option A) (idf : A -> string) e s :
  (forall id v a, rows s !! (e, id) = Some v -> as_ v = Some a -> idf a = id) ->
  NoDup (map idf (table_of as_ e s)).
Proof.
  intros Hid. unfold table_of, table_rows.
  set (l := omap _ (map_to_list (rows s))).
  assert (NoDup (map fst l)) as Hnd.
  { unfold l. assert (NoDup (map fst (map_to_list (rows s)))) as Hk by apply NoDup_fst_map_to_list.
    revert Hk. generalize (map_to_list (rows s)) as m. intros m. induction m as [|[[e' k] v] m IH]; [intros; constructor|].
    cbn [map fst]. intros [Hk Hm]%NoDup_cons. cbn [omap list_omap]. cbn [fst snd].
    destruct (decide (e' = e)) as [->|]; [|by apply IH]. cbn [map fst]. constructor; [|by apply IH].
    intros (x & Hx & Hin)%list_elem_of_fmap. apply list_elem_of_omap in Hin as ([[e1 k1] v1] & Hin & E).
    cbn in E. case_decide as He; [|done]. injection E as <-. cbn in Hx. subst k1 e1.
    apply Hk, list_elem_of_fmap. by exists ((e, k), v1). }
  assert (forall kv, kv ∈ l -> rows s !! (e, kv.1) = Some kv.2) as Hl.
  { intros kv ([[e1 k1] v1] & Hin%elem_of_map_to_list & E)%list_elem_of_omap.
    cbn in E. case_decide; [|done]. injection E as <-. cbn. by subst. }
  set (l' := js_sort _ l).
  assert (NoDup (map fst l')) as Hnd' by (unfold l'; by rewrite js_sort_perm).
  assert (forall kv, kv ∈ l' -> rows s !! (e, kv.1) = Some kv.2) as Hl' by (intros kv; unfold l'; rewrite elem_of_js_sort; apply Hl).
  clearbody l'. clear Hnd Hl l. induction l' as [|[k v] l' IH]; [constructor|].
  cbn [map snd omap list_omap]. cbn [map fst] in Hnd'. apply NoDup_cons in Hnd' as [Hk Hnd'].
  assert (NoDup (map idf (omap as_ (map snd l')))) as IH' by (apply IH; [done | intros; apply Hl'; by constructor]).
  destruct (as_ v) as [a|] eqn:Ea; [|done]. cbn [map]. constructor; [|done].
  intros (b & Hb & Hin)%list_elem_of_fmap. apply list_elem_of_omap in Hin as (w & Hw & Eb).
  apply list_elem_of_fmap in Hw as ([k' w'] & -> & Hin). cbn in Eb.
  rewrite (Hid k v a (Hl' (k, v) ltac:(constructor)) Ea) in Hb.
  rewrite (Hid k' w' b (Hl' (k', w') ltac:(by constructor)) Eb) in Hb.
  apply Hk, list_elem_of_fmap. by exists (k', w').
Qed.

Lemma accounts_NoDup s : accounts_inv s -> NoDup (map acc_id (accounts s)).
Proof.
  intros Hinv. apply table_of_NoDup. intros id v a Hv Ha.
  destruct (Hinv id v Hv) as (a' & -> & <- & _). by injection Ha as <-.
Qed.

Lemma balances_get s a :
  accounts_inv s -> a ∈ accounts s ->
  jmap_get (acc_id a) (balances s)
  = Some (acc_openingBalance a + sumZ (map (txn_effect (acc_id a)) (transactions s))).
Proof.
  intros Hinv Ha. assert (truthy (acc_id a) = true) as Ht.
  { rewrite elem_of_accounts in Ha; [|done]. by destruct (Hinv _ _ Ha) as (? & _ & _ & ?). }
  unfold balances. rewrite balances_fold_get; [|done].
  assert (jmap_get (acc_id a) (jmap_of (map (fun a => (acc_id a, acc_openingBalance a)) (accounts s)))
    = Some (acc_openingBalance a)) as ->; [|done].
  apply jmap_of_get.
  - rewrite map_map. by apply accounts_NoDup.
  - apply list_elem_of_fmap. by exists a.
Qed.

Lemma sumZ_map_add {A} (f g : A -> Z) l : sumZ (map (fun x => f x + g x) l) = sumZ (map f l) + sumZ (map g l).
Proof. induction l as [|x l IH]; simpl; [done | lia]. Qed.

Lemma sumZ_exchange {A B} (f : A -> B -> Z) l k :
  sumZ (map (fun a => sumZ (map (f a) k)) l) = sumZ (map (fun b => sumZ (map (fun a => f a b) l)) k).
Proof.
  induction l as [|a l IH]; simpl.
  - induction k as [|b k IHk]; simpl; lia.
  - rewrite IH -sumZ_map_add. done.
Qed.

Lemma sumZ_indicator (ids : list string) i v :
  NoDup ids -> sumZ (map (fun j => if bool_decide (j = i) then v else 0) ids) = if bool_decide (i ∈ ids) then v else 0.
Proof.
  induction ids as [|j ids IH]; intros Hnd; simpl; [done|]. apply NoDup_cons in Hnd as [Hj Hnd]. rewrite IH; [|done].
  destruct (decide (j = i)) as [->|Hne].
  - rewrite bool_decide_eq_true_2 // bool_decide_eq_false_2 // bool_decide_eq_true_2; [lia | constructor].
  - rewrite (bool_decide_eq_false_2 (j = i)) //.
    rewrite (bool_decide_ext (i ∈ j :: ids) (i ∈ ids)); [lia|]. rewrite elem_of_cons. naive_solver.
Qed.

(** A well-formed transaction adds its net, split over the accounts. *)
Lemma txn_effect_total ids txn :
  NoDup ids -> txn_accounts_ok ids txn -> sumZ (map (fun i => txn_effect i txn) ids) = txn_net txn.
Proof.
  intros Hnd [Hacc Hctr]. unfold txn_net.
  assert (forall v w (dst : option string),
    (forall i, txn_effect i txn = (if bool_decide (i = txn_accountId txn) then v else 0)
                                  + (if bool_decide (Some i = dst) then w else 0)) ->
    sumZ (map (fun i => txn_effect i txn) ids)
    = v + sumZ (map (fun i => if bool_decide (Some i = dst) then w else 0) ids)) as Hsum.
  { intros v w dst H. rewrite (map_ext _ _ H) sumZ_map_add sumZ_indicator; [|done]. by rewrite bool_decide_eq_true_2. }
  assert (forall i, String.eqb (txn_accountId txn) i = bool_decide (i = txn_accountId txn)) as Heqb.
  { intros i. destruct (String.eqb_spec (txn_accountId txn) i); symmetry;
      [by apply bool_decide_eq_true_2 | apply bool_decide_eq_false_2; congruence]. }
  assert (sumZ (map (fun i => if bool_decide (Some i = @None string) then 0 else 0) ids) = 0) as Hzero.
  { clear. induction ids as [|j ids IH]; [done|]. cbn [map]. rewrite sumZ_cons. exact IH. }
  destruct (txn_kind txn) eqn:Ek.
  1,2: rewrite (Hsum (signedFor (txn_accountId txn) txn) 0 None);
    [rewrite Hzero; unfold signedFor; rewrite Ek String.eqb_refl; lia|];
    intros i; unfold txn_effect; rewrite Hctr !Heqb; unfold signedFor; rewrite Ek Heqb String.eqb_refl;
    rewrite (bool_decide_eq_false_2 (None = Some i)) // (bool_decide_eq_false_2 (Some i = None)) //;
    by case_bool_decide; lia.
  destruct Hctr as (dst & Hd & Hdin & Hne).
  rewrite (Hsum (- txn_amount txn) (txn_amount txn) (Some dst)).
  - rewrite (map_ext _ (fun i => if bool_decide (i = dst) then txn_amount txn else 0)).
    + rewrite sumZ_indicator // bool_decide_eq_true_2 //. lia.
    + intros i. f_equal. rewrite (bool_decide_ext (Some i = Some dst) (i = dst)); [done|]. naive_solver.
  - intros i. unfold txn_effect, signedFor. rewrite Ek Hd !Heqb.
    destruct (decide (i = txn_accountId txn)) as [->|Hi].
    + rewrite bool_decide_eq_true_2 // !bool_decide_eq_false_2; [lia | congruence..].
    + rewrite bool_decide_eq_false_2 //. destruct (decide (i = dst)) as [->|Hid].
      * rewrite !bool_decide_eq_true_2 //. rewrite decide_True; [lia|done].
      * rewrite !bool_decide_eq_false_2; [lia | congruence..].
Qed.

Lemma sum_filter {A} (f : A -> Z) (p : A -> bool) l :
  sumZ (map f (List.filter p l)) = sumZ (map (fun x => if p x then f x else 0) l).
Proof.
  induction l as [|x l IH]; [done|]. cbn [List.filter map]. rewrite sumZ_cons -IH. destruct (p x); [|lia].
  cbn [map]. by rewrite sumZ_cons.
Qed.

(** A transaction of other accounts changes none of these. *)
Lemma txn_effect_none ids txn :
  txn_accountId txn ∉ ids -> (forall dst, txn_counterAccountId txn = Some dst -> dst ∉ ids) ->
  sumZ (map (fun i => txn_effect i txn) ids) = 0.
Proof.
  intros Ha Hc. induction ids as [|i ids IH]; [done|]. cbn [map]. rewrite sumZ_cons IH; [|set_solver..].
  unfold txn_effect. destruct (String.eqb_spec (txn_accountId txn) i) as [<-|_]; [set_solver|].
  case_bool_decide as E; [|done]. destruct (Hc i E). constructor.
Qed.

Lemma sameCurrency_l a b c : sameCurrency a b = true -> sameCurrency a c = sameCurrency b c.
Proof. unfold sameCurrency. by intros ->%String.eqb_eq. Qed.

Lemma kept_in_ids currency s i :
  i ∈ map acc_id (kept_in currency s) <-> exists a, a ∈ accounts s /\ acc_id a = i /\ sameCurrency (acc_currency a) currency = true.
Proof.
  unfold kept_in. rewrite list_elem_of_fmap. split.
  - intros (a & -> & [Ha Hs]%elem_of_filter_b). by exists a.
  - intros (a & Ha & <- & Hs). exists a. split; [done|]. by apply elem_of_filter_b.
Qed.

(** What a transaction adds to the accounts of one currency. *)
Lemma kept_in_effect currency s t :
  accounts_inv s -> txn_accounts_ok (map acc_id (accounts s)) t -> one_currency s t ->
  sumZ (map (fun i => txn_effect i t) (map acc_id (kept_in currency s))) = if made_on (kept_in currency s) t then txn_net t else 0.
Proof.
  intros Hinv [Hacc Hctr] Hone. pose proof (accounts_NoDup s Hinv) as Hnd.
  assert (NoDup (map acc_id (kept_in currency s))) as Hnd' by (by apply NoDup_map_filter).
  assert (forall dst, txn_counterAccountId t = Some dst ->
    (dst ∈ map acc_id (kept_in currency s) <-> txn_accountId t ∈ map acc_id (kept_in currency s))) as Hboth.
  { intros dst Hd. destruct (txn_kind t) eqn:Ek; [congruence..|]. destruct Hctr as (d & Hd' & Hin & _).
    rewrite Hd in Hd'. injection Hd' as <-. apply list_elem_of_fmap in Hacc as (a & Ea & Ha), Hin as (b & Eb & Hb).
    rewrite !kept_in_ids. rewrite Eb in Hd. pose proof (sameCurrency_l _ _ currency (Hone Ek a b Ha Hb (eq_sym Ea) Hd)) as Hs.
    split; intros (c & Hc & Hci & Hcc).
    - exists a. assert (c = b) as -> by (eapply NoDup_map_unique; [exact Hnd|..]; congruence). split_and!; congruence.
    - exists b. assert (c = a) as -> by (eapply NoDup_map_unique; [exact Hnd|..]; congruence). split_and!; congruence. }
  unfold made_on. case_bool_decide as Hin.
  - apply txn_effect_total; [done|]. split; [done|]. destruct (txn_kind t); [done..|].
    destruct Hctr as (d & Hd & _ & Hne). exists d. split_and!; [done|by apply (Hboth d Hd)|done].
  - apply txn_effect_none; [done|]. intros d Hd Hd'. by apply Hin, (Hboth d Hd).
Qed.

(** ** Sections *)

Definition input_balance (input : SectionInput) (a : Account) : Z :=
  default (acc_openingBalance a) (jmap_get (acc_id a) (in_balances input)).
Definition input_contribution (input : SectionInput) (a : Account) : Z :=
  value 0 (contribution (input_balance input) (in_reporting input) (in_rateFor input) a).

Lemma section_loop_spec input l total excluded missing t e m :
  section_loop input l total excluded missing = Ok (t, e, m) ->
  t = total + sumZ (map (input_contribution input) l).
Proof.
  revert total excluded missing. induction l as [|a l IH]; intros total excluded missing; cbn [section_loop map].
  - intros [= <- _ _]. simpl. lia.
  - rewrite sumZ_cons. unfold input_contribution at 1, contribution.
    destruct (negb (countsInTotals a)); [intros H%IH; simpl; lia|]. fold (input_balance input a).
    destruct (sameCurrency _ _); [intros H%IH; simpl; lia|].
    intros (rate & -> & H)%bind_Ok_inv. cbn [mbind result_bind]. destruct rate as [r|]; [|apply IH in H; simpl; lia].
    apply bind_Ok_inv in H as (c & -> & H%IH). simpl. lia.
Qed.

Lemma sectionFor_spec input group l side sec :
  sectionFor input group l side = Ok sec ->
  sec_group sec = group /\ sec_accounts sec = l /\ sec_side sec = side
  /\ sec_owed sec = (match group with Some g => readsAsOwed (ag_type g) | None => false end)
  /\ sec_subtotal sec = (if sec_owed sec then - sumZ (map (input_contribution input) l)
                         else sumZ (map (input_contribution input) l)).
Proof.
  unfold sectionFor. intros ([[t e] m] & H%section_loop_spec & [= <-])%bind_Ok_inv. cbn.
  split_and!; [done..|]. unfold displayBalance.
  destruct (match group with Some g => _ | None => _ end); cbn [negb]; [|lia].
  destruct (Z.eqb_spec t 0); lia.
Qed.

(** A section's share of the net. *)
Definition section_net (sec : AccountSection) : Z :=
  match sec_side sec with Liability => - sec_subtotal sec | Asset => sec_subtotal sec end.

Lemma balanceSheet_net secs : bs_net (balanceSheet secs) = sumZ (map section_net secs).
Proof.
  unfold balanceSheet. set (step := fun acc section => _).
  assert (forall acc, let r := fold_left step secs acc in r.1 - r.2 = acc.1 - acc.2 + sumZ (map section_net secs)) as H.
  { induction secs as [|sec secs IH]; intros acc; [simpl; lia|]. cbn [fold_left map]. rewrite sumZ_cons.
    rewrite IH. unfold step, section_net at 2. destruct (sec_side sec); cbn [fst snd]; lia. }
  specialize (H (0, 0)). cbn in H. destruct (fold_left step secs (0, 0)) as [x y]. cbn in *. lia.
Qed.

Definition group_key (byId : list (string * AccountGroup)) (a : Account) : option string :=
  ag_id <$> match acc_groupId a with
            | Some g => if truthy g then jmap_get g byId else None
            | None => None
            end.

Lemma member_fold byId l members ungrouped :
  let r := fold_left (member_step byId) l (members, ungrouped) in
  (forall id, default [] (jmap_get id r.1)
     = (default [] (jmap_get id members) ++ List.filter (fun a => bool_decide (group_key byId a = Some id)) l)%list)
  /\ r.2 = (ungrouped ++ List.filter (fun a => bool_decide (group_key byId a = None)) l)%list.
Proof.
  revert members ungrouped. induction l as [|a l IH]; intros members ungrouped r.
  - unfold r. cbn. split; [intros; by rewrite app_nil_r | by rewrite app_nil_r].
  - unfold r. cbn [fold_left List.filter]. unfold member_step at 2 4.
    assert (group_key byId a = ag_id <$> match acc_groupId a with
            | Some g => if truthy g then jmap_get g byId else None
            | None => None end) as Hk by done.
    destruct (match acc_groupId a with Some g => _ | None => _ end) as [g|]; cbn [fmap option_fmap option_map] in Hk.
    + destruct (IH (jmap_set (ag_id g) (default [] (jmap_get (ag_id g) members) ++ [a])%list members) ungrouped) as [H1 H2].
      split; [|rewrite H2 bool_decide_eq_false_2 //; congruence]. intros id. rewrite H1 jmap_get_set.
      destruct (decide (id = ag_id g)) as [->|Hne].
      * rewrite bool_decide_eq_true_2; [|done]. cbn [default from_option]. by rewrite -app_assoc.
      * rewrite bool_decide_eq_false_2; [done | congruence].
    + destruct (IH members (ungrouped ++ [a])%list) as [H1 H2].
      split; [|by rewrite H2 bool_decide_eq_true_2 // -app_assoc]. intros id.
      rewrite H1 bool_decide_eq_false_2; [done | congruence].
Qed.

Lemma group_sections_spec input members groups secs :
  group_sections input members groups = Ok secs ->
  let in_group g := default [] (jmap_get (ag_id g) members) in
  concat (map sec_accounts secs) = concat (map in_group groups)
  /\ sumZ (map section_net secs) = sumZ (map (input_contribution input) (concat (map in_group groups))).
Proof.
  intros H in_group. revert secs H. induction groups as [|g groups IH]; intros secs H.
  - by injection H as <-.
  - cbn [group_sections] in H. cbn [map concat]. fold (in_group g) in H. rewrite map_app sumZ_app.
    destruct (in_group g) as [|a l] eqn:Eg.
    + destruct (IH secs H) as [-> ->]. split; [done | simpl; lia].
    + apply bind_Ok_inv in H as (sec & Hs & H). apply bind_Ok_inv in H as (rest & Hrest & [= <-]).
      destruct (IH rest Hrest) as [IH1 IH2]. apply sectionFor_spec in Hs as (_ & Ha & Hside & Hw & Hsub).
      cbn [map concat]. rewrite sumZ_cons IH1 IH2 Ha. split; [done|]. f_equal.
      unfold section_net. rewrite Hside Hsub Hw. unfold readsAsOwed. cbn [map]. destruct (sideOfType (ag_type g)); lia.
Qed.

(** The sections partition the accounts, and their net is what the accounts contribute. *)
Lemma buildSections_spec input secs :
  NoDup (map ag_id (in_groups input)) -> buildSections input = Ok secs ->
  concat (map sec_accounts secs) ≡ₚ in_accounts input
  /\ bs_net (balanceSheet secs) = sumZ (map (input_contribution input) (in_accounts input)).
Proof.
  intros Hnd. unfold buildSections. set (byId := jmap_of (map (fun g => (ag_id g, g)) (in_groups input))).
  set (members0 := jmap_of _).
  destruct (member_fold byId (in_accounts input) members0 []) as [H1 H2].
  destruct (fold_left (member_step byId) (in_accounts input) (members0, [])) as [members ungrouped]. cbn [fst snd] in *.
  intros (sections & Hs & H)%bind_Ok_inv. apply group_sections_spec in Hs as [Hacc Hnet].
  set (grouped := concat (map (fun g => default [] (jmap_get (ag_id g) members)) (in_groups input))) in *.
  assert (forall id, default [] (jmap_get id members0) = []) as Hm0.
  { intros id. unfold members0. destruct (jmap_get id _) as [v|] eqn:E; [|done].
    apply jmap_of_get in E; [|by rewrite map_map]. apply list_elem_of_fmap in E as (g & [= _ <-] & _). done. }
  assert (grouped ++ ungrouped ≡ₚ in_accounts input) as Hpart.
  { assert (grouped = concat (map (fun id => List.filter (fun a => bool_decide (group_key byId a = Some id))
      (in_accounts input)) (map ag_id (in_groups input)))) as ->.
    { unfold grouped. rewrite map_map. f_equal. apply map_ext. intros g. by rewrite H1 Hm0. }
    etrans; [apply Permutation_app; [apply (filter_groups (group_key byId)); [done|]|reflexivity]|].
    - intros a k _. unfold group_key. destruct (match acc_groupId a with Some g => _ | None => _ end) as [g|] eqn:Eg; [|done].
      intros [= <-]. destruct (acc_groupId a) as [gid|]; [|done]. destruct (truthy gid); [|done].
      apply jmap_of_get in Eg; [|by rewrite map_map].
      apply list_elem_of_fmap in Eg as (g' & [= _ ->] & Hg). apply list_elem_of_fmap. by exists g'.
    - rewrite H2. cbn [app]. rewrite -(filter_split _ _ (fun _ => true)).
      + clear. induction (in_accounts input) as [|a l IH]; [done|]. cbn. by rewrite IH.
      + intros a _. by destruct (group_key byId a).
      + intros a _. by destruct (group_key byId a). }
  rewrite balanceSheet_net (sumZ_perm (map (input_contribution input) (in_accounts input))
    (map (input_contribution input) (grouped ++ ungrouped))); [|by apply Permutation_map; symmetry].
  rewrite -Hpart map_app sumZ_app -Hnet -Hacc.
  destruct ungrouped as [|a l] eqn:Eu.
  - injection H as <-. rewrite app_nil_r. split; [done | simpl; lia].
  - apply bind_Ok_inv in H as (tail & Ht & [= <-]).
    apply sectionFor_spec in Ht as (_ & Ha & Hside & Hw & Hsub).
    rewrite !map_app concat_app sumZ_app. cbn [map concat]. rewrite sumZ_cons Ha app_nil_r. split; [done|].
    unfold section_net. rewrite Hside Hsub Hw. simpl. lia.
Qed.

Lemma convertBalance_convert amount r from to :
  sameCurrency from to = false -> convertBalance amount r from to = convert amount r from to.
Proof.
  intros Hs. unfold convertBalance, inReporting. cbn [pr_currency pr_rate pr_amount]. rewrite Hs.
  by destruct (convert amount r from to).
Qed.

Lemma netWorth_loop_spec bals reporting rateFor l total unconverted t u :
  netWorth_loop bals reporting rateFor l total unconverted = Ok (t, u) ->
  Forall (fun a => countsInTotals a = true) l ->
  t = total + sumZ (map (fun a => value 0 (contribution (fun a => default 0 (jmap_get (acc_id a) bals)) reporting rateFor a)) l).
Proof.
  revert total unconverted. induction l as [|a l IH]; intros total unconverted H Hc; cbn [netWorth_loop map] in *.
  - injection H as <- _. simpl. lia.
  - apply Forall_cons in Hc as [Ha Hc]. rewrite sumZ_cons. unfold contribution at 1. rewrite Ha. cbn [negb].
    destruct (sameCurrency (acc_currency a) reporting) eqn:Es; [apply IH in H; [simpl; lia | done]|].
    apply bind_Ok_inv in H as (rate & -> & H). cbn [mbind result_bind]. destruct rate as [r|]; [|apply IH in H; [simpl; lia | done]].
    apply bind_Ok_inv in H as (c & Ec & H). rewrite convertBalance_convert // in Ec. rewrite Ec.
    apply IH in H; [simpl; lia | done].
Qed.

Lemma sum_counted f l :
  (forall a, countsInTotals a = false -> f a = 0) -> sumZ (map f (List.filter countsInTotals l)) = sumZ (map f l).
Proof.
  intros Hf. induction l as [|a l IH]; [done|]. cbn [List.filter map]. rewrite sumZ_cons.
  destruct (countsInTotals a) eqn:E.
  - cbn [map]. rewrite sumZ_cons IH. done.
  - rewrite (Hf a E) IH. lia.
Qed.

Lemma update_account_rows id f s s' :
  update_account id f s = (Ok tt, s') ->
  rows s' = rows s \/ exists a v, get_account id s = Some a /\ v = set_updatedAt (entity_updatedAt v) (AnAccount (f a))
    /\ rows s' = <[(EAccounts, acc_id (f a)) := v]> (rows s).
Proof.
  unfold update_account. destruct (get_account id s) as [a|]; [|intros [= <-]; by left].
  intros (v & s1 & [Hv Hr]%put_rows & [= <-])%M_bind_Ok_inv. right. by exists a, v.
Qed.

(** * Properties *)

(** an account's balance is its opening balance plus the signed amounts of its
    transactions, as source or as destination, and nothing else. *)
Theorem balance_is_opening_plus_transactions s a :
  accounts_inv s -> a ∈ accounts s ->
  Forall (fun t => txn_counterAccountId t <> Some (txn_accountId t)) (transactions s) ->
  jmap_get (acc_id a) (balances s)
  = Some (acc_openingBalance a + sumZ (map (signedFor (acc_id a)) (transactions s))).
Proof.
  intros Hinv Ha Hself. rewrite balances_get; [|done..]. do 2 f_equal.
  induction Hself as [|t l Ht _ IH]; [done|]. cbn [map]. rewrite !sumZ_cons IH. f_equal.
  unfold txn_effect. destruct (String.eqb_spec (txn_accountId t) (acc_id a)) as [E|Hne].
  - rewrite bool_decide_eq_false_2; [lia | congruence].
  - case_bool_decide as Hc; [lia|]. unfold signedFor.
    destruct (String.eqb_spec (txn_accountId t) (acc_id a)); [done|]. rewrite decide_False //. by destruct (txn_kind t).
Qed.

(** C39: Money is conserved in each currency, where no transfer leaves it: the balances of the
    accounts kept in a currency add up to their opening balances plus the income less the
    expense made on them; the transfers between them cancel out exactly.  A transfer
    between accounts of two currencies moves one raw amount and is left out, as it is of
    the program's own bill payments. *)
Theorem balances_conserve_money currency s :
  accounts_inv s -> Forall (txn_accounts_ok (map acc_id (accounts s))) (transactions s) ->
  Forall (one_currency s) (transactions s) ->
  sumZ (map (fun a => default 0 (jmap_get (acc_id a) (balances s))) (kept_in currency s))
  = sumZ (map acc_openingBalance (kept_in currency s))
    + sumZ (map txn_net (List.filter (made_on (kept_in currency s)) (transactions s))).
Proof.
  intros Hinv Hok Hone. rewrite (map_ext_in _ (fun a => acc_openingBalance a + sumZ (map (txn_effect (acc_id a)) (transactions s)))).
  - rewrite sumZ_map_add. f_equal. rewrite (sumZ_exchange (fun a t => txn_effect (acc_id a) t)) sum_filter. f_equal.
    apply map_ext_in. intros t Ht%list_elem_of_In. rewrite -(map_map acc_id (fun i => txn_effect i t)).
    rewrite ->Forall_forall in Hok, Hone. by apply kept_in_effect; [|apply Hok|apply Hone].
  - intros a Ha%list_elem_of_In. rewrite balances_get //. by apply elem_of_filter_b in Ha as [Ha _].
Qed.

(** the balance sheet explains net worth without changing it: assets minus
    liabilities over the sections is the net worth of the same accounts, converted
    and rounded alike, however the accounts are grouped. *)
Theorem balance_sheet_is_net_worth input sections total unconverted :
  NoDup (map ag_id (in_groups input)) ->
  (forall a, a ∈ in_accounts input -> is_Some (jmap_get (acc_id a) (in_balances input))) ->
  buildSections input = Ok sections ->
  netWorth_loop (in_balances input) (in_reporting input) (in_rateFor input)
    (List.filter countsInTotals (in_accounts input)) 0 [] = Ok (total, unconverted) ->
  bs_net (balanceSheet sections) = total.
Proof.
  intros Hnd Hbal Hs Hn. apply buildSections_spec in Hs; [|done]. apply netWorth_loop_spec in Hn.
  - destruct Hs as [_ ->]. rewrite Hn sum_counted.
    + rewrite Z.add_0_l. f_equal. apply map_ext_in. intros a Ha%list_elem_of_In.
      destruct (Hbal a Ha) as [b Hb]. unfold input_contribution, contribution, input_balance. by rewrite Hb.
    + intros a Ha. unfold contribution. by rewrite Ha.
  - apply Forall_forall. by intros a [_ ?]%elem_of_filter_b.
Qed.

(** the accounts screen shows every account exactly once, in its group or in the
    ungrouped tail; an account whose group is unknown here is not lost. *)
Theorem sections_show_every_account input sections :
  NoDup (map ag_id (in_groups input)) -> buildSections input = Ok sections ->
  concat (map sec_accounts sections) ≡ₚ in_accounts input.
Proof. intros Hnd Hs. by destruct (buildSections_spec input sections Hnd Hs). Qed.

(** archiving an account, or leaving it out of totals, changes that one field of
    that one row (and its stamp): no balance, other account or transaction moves. *)
Theorem account_flags_touch_one_row id b s s' :
  accounts_inv s ->
  setArchived id b s = (Ok tt, s') \/ setCountedInTotals id b s = (Ok tt, s') ->
  accounts_inv s' /\ (forall e k, (e, k) <> (EAccounts, id) -> rows s' !! (e, k) = rows s !! (e, k))
  /\ (forall a, get_account id s = Some a -> exists a', get_account id s' = Some a'
        /\ acc_openingBalance a' = acc_openingBalance a /\ acc_currency a' = acc_currency a).
Proof.
  intros Hinv H.
  assert (rows s' = rows s \/ exists a a', get_account id s = Some a
     /\ acc_id a' = acc_id a /\ acc_openingBalance a' = acc_openingBalance a /\ acc_currency a' = acc_currency a
     /\ rows s' = <[(EAccounts, acc_id a) := AnAccount a']> (rows s)) as Hr.
  { destruct H as [[?|(a & v & Ha & Hv & Hr)]%update_account_rows|[?|(a & v & Ha & Hv & Hr)]%update_account_rows];
      auto; right; exists a; rewrite Hv in Hr; cbn in Hr; eexists; by split_and!; [..|exact Hr]. }
  destruct Hr as [Hr|(a & a' & Ha & Hid & Hop & Hcur & Hr)].
  - split_and!; [intros ??; rewrite Hr; apply Hinv | by intros; rewrite Hr |].
    intros a Ha. exists a. unfold get_account, get_of, table_get in *. by rewrite Hr.
  - assert (acc_id a = id /\ truthy id = true) as [<- Ht].
    { unfold get_account, get_of, table_get in Ha. destruct (rows s !! (EAccounts, id)) as [v|] eqn:E; [|done].
      destruct (Hinv id v E) as (a1 & -> & <- & ?). by injection Ha as <-. }
    split_and!.
    + intros k v. rewrite Hr lookup_insert_Some. intros [[[= <-] <-]|[_ Hv]]; [by exists a' | by apply Hinv].
    + intros e k Hne. rewrite Hr lookup_insert_ne; [done | congruence].
    + intros a0 Ha0. rewrite Ha in Ha0. injection Ha0 as <-. exists a'. split; [|done].
      unfold get_account, get_of, table_get. by rewrite Hr lookup_insert_eq.
Qed.

(** * Witnesses *)

Definition demo_account (id cur : string) (opening : Z) (group : option string) : Account :=
  mkAccount id ("Account " ++ id) Kbank cur opening false "#fff" "card" group None None None None 0 "".
Definition demo_txn (id : string) (kind : TransactionKind) (amount : Z) (acc : string) (ctr : option string)
  : Transaction := mkTransaction id kind amount "USD" acc ctr None "2024-01-05" "" "" [] true None None 0 "".
Definition demo_bank : App :=
  set_rows (fun _ =>
    list_to_map [((EAccounts, "a"), AnAccount (demo_account "a" "USD" 1000 None));
                 ((EAccounts, "c"), AnAccount (demo_account "c" "usd" 0 (Some "cards")));
                 ((ETransactions, "1"), ATransaction (demo_txn "1" Income 500 "a" None));
                 ((ETransactions, "2"), ATransaction (demo_txn "2" Expense 300 "c" None));
                 ((ETransactions, "3"), ATransaction (demo_txn "3" Transfer 100 "a" (Some "c")))])
    (demo_device "d").

Lemma demo_bank_inv : accounts_inv demo_bank.
Proof.
  intros id v H. apply elem_of_list_to_map_2 in H.
  repeat (apply elem_of_cons in H as [H|H]; [first [discriminate H | injection H as -> ->; by eexists]|]).
  by apply not_elem_of_nil in H.
Qed.

Lemma demo_bank_rows :
  accounts demo_bank = [demo_account "a" "USD" 1000 None; demo_account "c" "usd" 0 (Some "cards")]
  /\ transactions demo_bank = [demo_txn "1" Income 500 "a" None; demo_txn "2" Expense 300 "c" None;
                               demo_txn "3" Transfer 100 "a" (Some "c")].
Proof. split; by vm_compute. Qed.

Lemma balance_is_opening_plus_transactions_witness :
  jmap_get "c" (balances demo_bank) = Some (0 + sumZ (map (signedFor "c") (transactions demo_bank))).
Proof.
  apply (balance_is_opening_plus_transactions demo_bank (demo_account "c" "usd" 0 (Some "cards"))).
  - apply demo_bank_inv.
  - rewrite (proj1 demo_bank_rows). set_solver.
  - rewrite (proj2 demo_bank_rows). by repeat constructor.
Defined.

(** A bank with an account of another currency, on which a purchase was made. *)
Definition demo_two_currencies : App :=
  set_rows (fun m => <[(EAccounts, "e") := AnAccount (demo_account "e" "EUR" 70 None)]>
                       (<[(ETransactions, "4") := ATransaction (demo_txn "4" Expense 20 "e" None)]> m)) demo_bank.

Lemma demo_two_currencies_rows :
  accounts demo_two_currencies = [demo_account "a" "USD" 1000 None; demo_account "c" "usd" 0 (Some "cards");
                                  demo_account "e" "EUR" 70 None]
  /\ transactions demo_two_currencies = [demo_txn "1" Income 500 "a" None; demo_txn "2" Expense 300 "c" None;
                               demo_txn "3" Transfer 100 "a" (Some "c"); demo_txn "4" Expense 20 "e" None].
Proof. split; by vm_compute. Qed.

Lemma demo_two_currencies_inv : accounts_inv demo_two_currencies.
Proof.
  intros id v H. change (rows demo_two_currencies) with
    (<[(EAccounts, "e") := AnAccount (demo_account "e" "EUR" 70 None)]>
       (<[(ETransactions, "4") := ATransaction (demo_txn "4" Expense 20 "e" None)]> (rows demo_bank))) in H.
  apply lookup_insert_Some in H as [[[= <-] <-]|[_ [[[=] _]|[_ H]]%lookup_insert_Some]]; [by eexists|by apply demo_bank_inv].
Qed.

Lemma balances_conserve_money_witness :
  sumZ (map (fun a => default 0 (jmap_get (acc_id a) (balances demo_two_currencies))) (kept_in "USD" demo_two_currencies)) = 1000 + 500 - 300
  /\ sumZ (map (fun a => default 0 (jmap_get (acc_id a) (balances demo_two_currencies))) (kept_in "EUR" demo_two_currencies)) = 70 - 20.
Proof.
  assert (Forall (txn_accounts_ok (map acc_id (accounts demo_two_currencies))) (transactions demo_two_currencies)) as H1.
  { destruct demo_two_currencies_rows as [-> ->].
    repeat constructor; unfold txn_accounts_ok; simpl; split_and?; try set_solver. }
  assert (Forall (one_currency demo_two_currencies) (transactions demo_two_currencies)) as H2.
  { unfold one_currency. destruct demo_two_currencies_rows as [-> ->].
    repeat constructor; intros Hk; try discriminate Hk. intros a b Ha Hb Ea Eb.
    apply elem_of_cons in Ha as [->|[->|[->|[]%not_elem_of_nil]%elem_of_cons]%elem_of_cons];
    apply elem_of_cons in Hb as [->|[->|[->|[]%not_elem_of_nil]%elem_of_cons]%elem_of_cons].
    all: first [discriminate Ea|discriminate Eb|reflexivity]. }
  split; rewrite (balances_conserve_money _ _ demo_two_currencies_inv H1 H2); by vm_compute.
Defined.

(** A card group that owes, a foreign account with a rate and one without. *)
Definition demo_input : SectionInput :=
  mkInput [demo_account "a" "USD" 1000 None; demo_account "c" "usd" 0 (Some "cards");
           demo_account "e" "EUR" 0 (Some "gone"); demo_account "y" "JPY" 0 None]
    [mkAccountGroup "cards" "Cards" GCreditCard 0 "#fff" "card" false 0 ""]
    [("a", 1400); ("c", -200); ("e", 1000); ("y", 77)] "USD"
    (fun c => if String.eqb c "EUR" then Ok (Some demo_rate) else Ok None).

Lemma balance_sheet_is_net_worth_witness :
  exists sections, buildSections demo_input = Ok sections /\ bs_net (balanceSheet sections) = 2300.
Proof.
  eexists. split; [by vm_compute|].
  apply (balance_sheet_is_net_worth demo_input _ 2300 ["JPY"]).
  - refine (bool_decide_eq_true_1 _ _). reflexivity.
  - intros a Ha. unfold demo_input in Ha |- *. cbn [in_accounts in_balances] in *.
    repeat (apply elem_of_cons in Ha as [->|Ha]; [by eexists|]). by apply not_elem_of_nil in Ha.
  - by vm_compute.
  - by vm_compute.
Defined.

Lemma sections_show_every_account_witness :
  exists sections, buildSections demo_input = Ok sections
    /\ concat (map sec_accounts sections) ≡ₚ in_accounts demo_input.
Proof.
  eexists. split; [by vm_compute|]. apply sections_show_every_account; [|by vm_compute].
  refine (bool_decide_eq_true_1 _ _). reflexivity.
Defined.

Lemma account_flags_touch_one_row_witness :
  accounts_inv (snd (setArchived "a" true demo_bank)).
Proof.
  apply (account_flags_touch_one_row "a" true demo_bank); [apply demo_bank_inv | left; by vm_compute].
Defined.
