(* ===== verification/Groups.v ===== *)
(** Account groups ([app/src/app/core/repositories/account-groups.service.ts]). *)
From S2P Require Export Accounts CategoryTree.
#[local] Open Scope string_scope.
#[local] Open Scope Z_scope.

(** * Definitions *)

Record StarterGroup : Type := mkStarterGroup {
  sg_name : string; sg_type : AccountGroupType; sg_icon : string;
  sg_accounts : list (string * AccountKind * string) }.

Definition STARTER_GROUPS : list StarterGroup :=
  [mkStarterGroup "Everyday" GDefault "folder-outline"
     [("Cash", Kcash, "cash-outline"); ("Current account", Kbank, "business-outline")];
   mkStarterGroup "Savings" GDefault "folder-outline" [("Savings", Ksavings, "save-outline")];
   mkStarterGroup "Credit cards" GCreditCard "card-outline" [("Credit card", Kcard, "card-outline")];
   mkStarterGroup "Debit cards" GDebitCard "card-outline" [("Debit card", Kcard, "card-outline")];
   mkStarterGroup "Loans" GLoan "trending-down-outline" [("Loan", Kbank, "trending-down-outline")]].

Record AccountGroupDraft : Type := mkGroupDraft {
  gd_id : string; gd_name : string; gd_type : AccountGroupType; gd_order : option Z;
  gd_colour : option string; gd_icon : option string; gd_archived : option bool;
  gd_createdAt : option Z }.

Definition compareGroups `{!Locale} (a b : AccountGroup) : Z :=
  cmp_or (ag_order a - ag_order b)
    (cmp_or (localeCompare (ag_name a) (ag_name b)) (localeCompare (ag_id a) (ag_id b))).

Definition ordered_groups `{!Locale} (s : App) : list AccountGroup := js_sort compareGroups (groups s).
Definition active_groups `{!Locale} (s : App) : list AccountGroup :=
  List.filter (fun g => negb (ag_archived g)) (ordered_groups s).

Definition group_byId (id : option string) (s : App) : option AccountGroup :=
  match truthy_opt id with
  | Some i => List.find (fun g => String.eqb (ag_id g) i) (groups s)
  | None => None
  end.

Definition typeOf (account : Account) (s : App) : AccountGroupType :=
  default GDefault (ag_type <$> group_byId (acc_groupId account) s).
Definition isCreditCard (account : Account) (s : App) : bool :=
  bool_decide (typeOf account s = GCreditCard).
Definition isLiability (account : Account) (s : App) : bool :=
  match sideOf account (group_byId (acc_groupId account) s) with Liability => true | Asset => false end.

Definition accountsIn (groupId : string) (s : App) : list Account :=
  List.filter (fun a => bool_decide (acc_groupId a = Some groupId)) (all_accounts s).

Definition ungrouped (s : App) : list Account :=
  let known := map ag_id (groups s) in
  List.filter (fun a => match truthy_opt (acc_groupId a) with
                        | None => true
                        | Some g => bool_decide (g ∉ known)
                        end) (all_accounts s).

Definition nextOrder (s : App) : Z :=
  match groups s with
  | [] => 0
  | g :: gs => fold_left Z.max (map ag_order gs) (ag_order g) + 1
  end.

Definition save_group (draft : AccountGroupDraft) : M App AnyEntity :=
  order ← (fun s => (Ok (nextOrder s), s));
  now ← Date_now;
  put EAccountGroups
    (AnAccountGroup (mkAccountGroup (gd_id draft) (gd_name draft) (gd_type draft)
       (default order (gd_order draft)) (default "#3880ff" (gd_colour draft))
       (default "folder-outline" (gd_icon draft)) (default false (gd_archived draft))
       (default now (gd_createdAt draft)) "")).

Definition get_group (id : string) (s : App) : option AccountGroup := get_of as_group EAccountGroups id s.

Definition set_group_archived (x : bool) (g : AccountGroup) : AccountGroup :=
  mkAccountGroup (ag_id g) (ag_name g) (ag_type g) (ag_order g) (ag_colour g) (ag_icon g) x
    (ag_createdAt g) (ag_updatedAt g).
Definition set_order (x : Z) (g : AccountGroup) : AccountGroup :=
  mkAccountGroup (ag_id g) (ag_name g) (ag_type g) x (ag_colour g) (ag_icon g) (ag_archived g)
    (ag_createdAt g) (ag_updatedAt g).

Definition setArchived_group (id : string) (archived : bool) : M App unit := fun s =>
  match get_group id s with
  | None => (Ok tt, s)
  | Some g => (_ ← put EAccountGroups (AnAccountGroup (set_group_archived archived g)); mret tt) s
  end.

Definition remove_group (id : string) : M App unit :=
  members ← (fun s => (Ok (accountsIn id s), s));
  _ ← forM_ members (fun account =>
        _ ← put EAccounts (AnAccount (set_acc_groupId None account)); mret tt);
  Ledger.remove EAccountGroups id.

Definition seed_starter (currency : string) (order : Z) (starter : StarterGroup) : M App unit :=
  id ← randomUUID;
  group ← save_group (mkGroupDraft id (sg_name starter) (sg_type starter) (Some order) None
                        (Some (sg_icon starter)) None None);
  forM_ (sg_accounts starter) (fun account =>
    let '(name, kind, icon) := account in
    aid ← randomUUID;
    _ ← save_account (mkAccount aid name kind currency 0 false "#3880ff" icon (Some (entity_id group))
                        None None None None 0 "") None;
    mret tt).

Definition seed_groupsIfEmpty : M App unit := fun s =>
  if (0 <? table_count EAccountGroups s)%nat || (0 <? table_count EAccounts s)%nat then (Ok tt, s)
  else
    let currency := reportingCurrency s in
    forM_ (imap (fun i starter => (Z.of_nat i, starter)) STARTER_GROUPS)
      (fun entry => seed_starter currency entry.1 entry.2) s.

Definition moveAccount (accountId : string) (groupId : option string) : M App unit := fun s =>
  match get_account accountId s with
  | None => (Ok tt, s)
  | Some account =>
      if decide (acc_groupId account = groupId) then (Ok tt, s)
      else (_ ← put EAccounts (AnAccount (set_acc_groupId groupId account)); mret tt) s
  end.

Definition reorder_step (entry : Z * string) : M App unit := fun s =>
  match group_byId (Some entry.2) s with
  | None => (Ok tt, s)
  | Some group =>
      if ag_order group =? entry.1 then (Ok tt, s)
      else (_ ← put EAccountGroups (AnAccountGroup (set_order entry.1 group)); mret tt) s
  end.

Definition reorder (ids : list string) : M App unit :=
  forM_ (imap (fun i id => (Z.of_nat i, id)) ids) reorder_step.

(** * Specification *)

Definition groups_inv (s : App) : Prop :=
  forall id v, rows s !! (EAccountGroups, id) = Some v ->
    exists g, v = AnAccountGroup g /\ ag_id g = id /\ truthy id = true.

(** * Lemmas *)

#[export] Instance cmp_sub_comparator {A} (f : A -> Z) : Comparator (fun a b => f a - f b).
Proof. split; intros *; lia. Qed.

#[export] Instance compareGroups_comparator `{!Locale} : Comparator compareGroups.
Proof.
  apply cmp_or_comparator; [apply (cmp_sub_comparator ag_order)|].
  apply cmp_or_comparator; [apply (cmp_on_comparator ag_name localeCompare) | apply (cmp_on_comparator ag_id localeCompare)];
    apply localeCompare_order.
Qed.

Lemma elem_of_groups s g :
  groups_inv s -> g ∈ groups s <-> rows s !! (EAccountGroups, ag_id g) = Some (AnAccountGroup g).
Proof.
  intros Hinv. unfold groups. rewrite elem_of_table_of. split.
  - intros (id & v & Hv & Ha). destruct (Hinv id v Hv) as (a' & -> & <- & _). by injection Ha as <-.
  - intros Ha. by exists (ag_id g), (AnAccountGroup g).
Qed.

Lemma groups_NoDup s : groups_inv s -> NoDup (map ag_id (groups s)).
Proof.
  intros Hinv. apply table_of_NoDup. intros id v a Hv Ha.
  destruct (Hinv id v Hv) as (a' & -> & <- & _). by injection Ha as <-.
Qed.

Lemma find_by_id {A} (idf : A -> string) l i a :
  NoDup (map idf l) -> List.find (fun x => String.eqb (idf x) i) l = Some a <-> a ∈ l /\ idf a = i.
Proof.
  intros Hnd. split.
  - intros [Hin Heq]%find_some. split; [by apply list_elem_of_In | by apply String.eqb_eq].
  - intros [Hin <-]. induction l as [|x l IH]; [by apply not_elem_of_nil in Hin|].
    cbn [map] in Hnd. apply NoDup_cons in Hnd as [Hx Hnd]. cbn [List.find].
    apply elem_of_cons in Hin as [->|Hin]; [by rewrite String.eqb_refl|].
    destruct (String.eqb_spec (idf x) (idf a)) as [E|]; [|by apply IH].
    destruct Hx. rewrite E. by apply list_elem_of_fmap_2.
Qed.

Lemma group_byId_row s id :
  groups_inv s -> group_byId (Some id) s = if truthy id then get_group id s else None.
Proof.
  intros Hinv. unfold group_byId, truthy_opt. destruct (truthy id) eqn:Ht; [|done].
  apply option_eq. intros g. rewrite (find_by_id ag_id); [|by apply groups_NoDup].
  rewrite elem_of_groups; [|done]. unfold get_group, get_of, table_get. split.
  - by intros [E <-]; rewrite E.
  - destruct (rows s !! (EAccountGroups, id)) as [v|] eqn:E; [|done]. cbn.
    destruct (Hinv id v E) as (g' & -> & <- & _). by intros [= <-].
Qed.

Lemma reorder_step_rows i id s s' :
  groups_inv s -> reorder_step (i, id) s = (Ok tt, s') ->
  groups_inv s' /\ (forall e k, (e, k) <> (EAccountGroups, id) -> rows s' !! (e, k) = rows s !! (e, k))
  /\ (forall g, get_group id s = Some g -> exists g', get_group id s' = Some g' /\ ag_order g' = i
          /\ (ag_name g' = ag_name g /\ ag_archived g' = ag_archived g)
        /\ (ag_order g = i -> g' = g))
  /\ (get_group id s = None -> rows s' = rows s).
Proof.
  intros Hinv. unfold reorder_step. cbn [fst snd]. rewrite group_byId_row; [|done].
  destruct (truthy id) eqn:Ht.
  - destruct (get_group id s) as [g|] eqn:Eg; [|by intros [= <-]].
    destruct (Z.eqb_spec (ag_order g) i) as [Ei|Hi].
    + intros [= <-]. split_and!; [done..| |done]. intros ? [= <-]. exists g. by split_and!.
    + intros (v & s1 & [Hv Hr]%put_rows & [= <-])%M_bind_Ok_inv. cbn in Hr, Hv.
      assert (ag_id g = id) as Hid.
      { unfold get_group, get_of, table_get in Eg. destruct (rows s !! (EAccountGroups, id)) as [w|] eqn:E; [|done].
        destruct (Hinv id w E) as (g' & -> & ? & _). by injection Eg as <-. }
      rewrite Hid in Hr. split_and!; [| | |done].
      * intros k w. rewrite Hr lookup_insert_Some. intros [[[= <-] <-]|[_ Hw]]; [|by apply Hinv].
        rewrite Hv. by eexists.
      * intros e k Hne. rewrite Hr lookup_insert_ne; [done | congruence].
      * intros ? [= <-]. unfold get_group, get_of, table_get. rewrite Hr lookup_insert_eq Hv. cbn.
        eexists. split_and!; [reflexivity|done..|]. intros E. by destruct Hi.
  - intros [= <-]. split_and!; [done..| |done]. intros g Hg. exfalso.
    unfold get_group, get_of, table_get in Hg. destruct (rows s !! (EAccountGroups, id)) as [w|] eqn:E; [|done].
    destruct (Hinv id w E) as (_ & _ & _ & ?). congruence.
Qed.

Lemma reorder_loop n ids : forall s s',
  groups_inv s -> NoDup ids ->
  forM_ (imap (fun i id => (Z.of_nat (n + i), id)) ids) reorder_step s = (Ok tt, s') ->
  groups_inv s'
  /\ (forall e k, e <> EAccountGroups \/ k ∉ ids -> rows s' !! (e, k) = rows s !! (e, k))
  /\ (forall i id g, ids !! i = Some id -> get_group id s = Some g ->
        exists g', get_group id s' = Some g' /\ ag_order g' = Z.of_nat (n + i)
          /\ (ag_name g' = ag_name g /\ ag_archived g' = ag_archived g)
          /\ (ag_order g = Z.of_nat (n + i) -> g' = g)).
Proof.
  revert n. induction ids as [|id ids IH]; intros n s s' Hinv Hnd E.
  - injection E as <-. by split_and!.
  - apply NoDup_cons in Hnd as [Hid Hnd]. cbn [imap forM_] in E. apply M_bind_Ok_inv in E as ([] & s1 & E1 & E).
    apply reorder_step_rows in E1 as (Hinv1 & Hr1 & Hg1 & _); [|done].
    assert (forM_ (imap (fun i id => (Z.of_nat (S n + i), id)) ids) reorder_step s1 = (Ok tt, s')) as E'.
    { rewrite -E. f_equal. apply imap_ext. intros i x _. cbn. do 2 f_equal. lia. }
    destruct (IH (S n) s1 s' Hinv1 Hnd E') as (Hinv' & Hr & Hg). split_and!; [done| |].
    + intros e k Hk. rewrite Hr; [|set_solver]. apply Hr1. intros [= -> ->]. set_solver.
    + intros [|i] x g Hx Hgx; cbn in Hx.
      * injection Hx as <-. destruct (Hg1 g Hgx) as (g' & Hg' & Ho & [Hname Harch] & Hsame).
        exists g'. rewrite Nat.add_0_r in Ho, Hsame |- *. split_and!; [|done..].
        unfold get_group, get_of, table_get in *. by rewrite Hr; [|right].
      * assert (x <> id) as Hxid by (intros ->; apply Hid; by eapply list_elem_of_lookup_2).
        rewrite Nat.add_succ_r -Nat.add_succ_l. apply Hg; [done|].
        unfold get_group, get_of, table_get in *. rewrite Hr1; [done | congruence].
Qed.

Lemma ungroup_loop members : forall s s',
  accounts_inv s -> NoDup (map acc_id members) ->
  (forall a, a ∈ members -> rows s !! (EAccounts, acc_id a) = Some (AnAccount a)) ->
  forM_ members (fun account => _ ← put EAccounts (AnAccount (set_acc_groupId None account)); mret tt) s = (Ok tt, s') ->
  (forall e k, e <> EAccounts \/ k ∉ map acc_id members -> rows s' !! (e, k) = rows s !! (e, k))
  /\ (forall a, a ∈ members -> exists stamp,
        rows s' !! (EAccounts, acc_id a) = Some (set_updatedAt stamp (AnAccount (set_acc_groupId None a)))).
Proof.
  induction members as [|a members IH]; intros s s' Hinv Hnd Hrow E.
  - injection E as <-. split; [done | intros a Ha; by apply not_elem_of_nil in Ha].
  - cbn [map] in Hnd. apply NoDup_cons in Hnd as [Ha Hnd]. cbn [forM_] in E.
    apply M_bind_Ok_inv in E as ([] & s1 & E1 & E).
    apply M_bind_Ok_inv in E1 as (v & s2 & [Hv Hr]%put_rows & [= ->]). cbn [entity_id set_acc_groupId acc_id] in Hr.
    assert (accounts_inv s1) as Hinv1.
    { intros k w. rewrite Hr lookup_insert_Some. intros [[[= <-] <-]|[_ Hw]]; [|by apply Hinv].
      destruct (Hinv _ _ (Hrow a ltac:(constructor))) as (? & [= <-] & _ & Ht). rewrite Hv. by eexists. }
    destruct (IH s1 s' Hinv1 Hnd) as [H1 H2]; [|done|].
    { intros b Hb. rewrite Hr lookup_insert_ne; [apply Hrow; by constructor|].
      intros [= Heq]. apply Ha. rewrite Heq. by apply list_elem_of_fmap_2. }
    split.
    + intros e k Hk. rewrite H1; [|set_solver]. rewrite Hr lookup_insert_ne; [done|]. intros [= <- <-]. set_solver.
    + intros b [->|Hb]%elem_of_cons; [|by apply H2]. exists (entity_updatedAt v).
      rewrite H1; [|by right]. by rewrite Hr lookup_insert_eq -Hv.
Qed.

(** * Properties *)

(** deleting a group deletes no account: its members stay, changed only in that
    they are filed nowhere (and restamped); the group's row is the only one gone,
    and every other row is untouched. *)
Theorem remove_group_keeps_accounts id s s' :
  accounts_inv s -> remove_group id s = (Ok tt, s') ->
  rows s' !! (EAccountGroups, id) = None
  /\ (forall a, a ∈ accounts s ->
        if decide (acc_groupId a = Some id)
        then exists stamp, rows s' !! (EAccounts, acc_id a) = Some (set_updatedAt stamp (AnAccount (set_acc_groupId None a)))
        else rows s' !! (EAccounts, acc_id a) = Some (AnAccount a))
  /\ (forall e k, e <> EAccounts -> (e, k) <> (EAccountGroups, id) -> rows s' !! (e, k) = rows s !! (e, k)).
Proof.
  intros Hinv. unfold remove_group. intros (members & s1 & [= <- <-] & E)%M_bind_Ok_inv.
  apply M_bind_Ok_inv in E as ([] & s2 & Hloop & Hlast%remove_rows).
  assert (forall a, a ∈ accountsIn id s <-> a ∈ accounts s /\ acc_groupId a = Some id) as Hin.
  { intros a. unfold accountsIn, all_accounts. rewrite elem_of_filter_b elem_of_js_sort bool_decide_eq_true. done. }
  destruct (ungroup_loop (accountsIn id s) s s2 Hinv) as [H1 H2]; [| |done|].
  - unfold accountsIn, all_accounts.
    assert (NoDup (map acc_id (js_sort (fun a b => cmp_string (acc_name a) (acc_name b)) (accounts s)))) as Hnd.
    { rewrite js_sort_perm. by apply accounts_NoDup. }
    revert Hnd. generalize (js_sort (fun a b => cmp_string (acc_name a) (acc_name b)) (accounts s)) as l.
    induction l as [|a l IH]; [done|]. cbn [map List.filter]. intros [Ha Hnd]%NoDup_cons.
    case_bool_decide; [|by apply IH]. cbn [map]. constructor; [|by apply IH].
    intros (x & Hx & [Hxl _]%elem_of_filter_b)%list_elem_of_fmap. apply Ha, list_elem_of_fmap. by exists x.
  - intros a [Ha _]%Hin. by apply elem_of_accounts.
  - rewrite Hlast. split_and!.
    + apply lookup_delete_eq.
    + intros a Ha. rewrite lookup_delete_ne; [|done]. case_decide as Hg.
      * apply H2, Hin. done.
      * rewrite H1; [by apply elem_of_accounts|]. right. intros (b & Hb & [Hbin Hbg]%Hin)%list_elem_of_fmap.
        rewrite elem_of_accounts in Ha; [|done]. rewrite elem_of_accounts in Hbin; [|done]. rewrite Hb in Ha. congruence.
    + intros e k He Hk. rewrite lookup_delete_ne; [|congruence]. apply H1. by left.
Qed.

(** reordering writes exactly the display order asked for: each listed group's
    position is its index, a group already in place is not rewritten (its stamp
    included), and no other row moves. *)
Theorem reorder_sets_positions ids s s' :
  groups_inv s -> NoDup ids -> reorder ids s = (Ok tt, s') ->
  (forall i id g, ids !! i = Some id -> get_group id s = Some g ->
     exists g', get_group id s' = Some g' /\ ag_order g' = Z.of_nat i /\ ag_name g' = ag_name g
       /\ (ag_order g = Z.of_nat i -> g' = g))
  /\ (forall e k, e <> EAccountGroups \/ k ∉ ids -> rows s' !! (e, k) = rows s !! (e, k)).
Proof.
  intros Hinv Hnd E. destruct (reorder_loop 0 ids s s' Hinv Hnd E) as (_ & H1 & H2). split; [|done].
  intros i id g Hi Hg. destruct (H2 i id g Hi Hg) as (g' & ? & ? & [? _] & ?). by exists g'.
Qed.

(** two devices with the same groups list them in the same order, even when both
    gave a group the same position while offline. *)
Theorem group_order_same_on_every_device `{!Locale} l k :
  NoDup (map ag_id l) -> l ≡ₚ k -> separates localeCompare (fun _ => True) ->
  js_sort compareGroups l = js_sort compareGroups k.
Proof.
  intros Hnd Hp Hsep. apply js_sort_unique; [apply _| |done].
  intros x y Hx Hy [_ [_ Heq]%cmp_or_eq]%cmp_or_eq. apply Hsep in Heq; [|done..].
  apply list_elem_of_lookup in Hx as [i Hi], Hy as [j Hj].
  assert (i = j) as ->; [|congruence]. apply (NoDup_lookup (map ag_id l) i j (ag_id x)); [done| |].
  - by rewrite list_lookup_fmap Hi.
  - by rewrite list_lookup_fmap Hj Heq.
Qed.

(** * Witnesses *)

Definition demo_group (id name : string) (order : Z) : AccountGroup :=
  mkAccountGroup id name GCreditCard order "#fff" "card" false 0 "".
Definition demo_grouped : App :=
  set_rows (fun r => <[(EAccountGroups, "cards") := AnAccountGroup (demo_group "cards" "Cards" 0)]>
                     (<[(EAccountGroups, "b") := AnAccountGroup (demo_group "b" "Bank" 1)]> r)) demo_bank.

Lemma demo_grouped_inv : groups_inv demo_grouped /\ accounts_inv demo_grouped.
Proof.
  split; intros id v H; unfold demo_grouped in H; cbn [set_rows rows] in H.
  - apply lookup_insert_Some in H as [[[= <-] <-]|[_ H]]; [by eexists|].
    apply lookup_insert_Some in H as [[[= <-] <-]|[_ H]]; [by eexists|].
    apply elem_of_list_to_map_2 in H.
    repeat (apply elem_of_cons in H as [H|H]; [discriminate H|]). by apply not_elem_of_nil in H.
  - do 2 (apply lookup_insert_Some in H as [[[=] _]|[_ H]]). exact (demo_bank_inv id v H).
Qed.

Lemma remove_group_keeps_accounts_witness :
  rows (snd (remove_group "cards" demo_grouped)) !! (EAccountGroups, "cards") = None.
Proof.
  refine (proj1 (remove_group_keeps_accounts "cards" demo_grouped (snd (remove_group "cards" demo_grouped)) _ _));
    [apply demo_grouped_inv | by vm_compute].
Defined.

Lemma reorder_sets_positions_witness :
  exists g', get_group "b" (snd (reorder ["b"; "cards"] demo_grouped)) = Some g' /\ ag_order g' = 0.
Proof.
  pose proof (reorder_sets_positions ["b"; "cards"] demo_grouped (snd (reorder ["b"; "cards"] demo_grouped))
    (proj1 demo_grouped_inv)) as H.
  destruct H as [H _]; [by refine (bool_decide_eq_true_1 _ _) | by vm_compute|].
  destruct (H 0%nat "b" (demo_group "b" "Bank" 1)) as (g' & Hg & Ho & _); [done | by vm_compute|].
  exists g'. split; [exact Hg | exact Ho].
Defined.

Lemma group_order_same_on_every_device_witness :
  js_sort (@compareGroups codeunit_locale) [demo_group "x" "A" 1; demo_group "y" "A" 1]
  = js_sort (@compareGroups codeunit_locale) [demo_group "y" "A" 1; demo_group "x" "A" 1].
Proof.
  apply (@group_order_same_on_every_device codeunit_locale).
  - by refine (bool_decide_eq_true_1 _ _).
  - constructor.
  - intros x y _ _. apply cmp_string_eq.
Defined.
