(* ===== verification/Transactions.v ===== *)
(** Transactions ([app/src/app/core/repositories/transactions.service.ts]). *)
From S2P Require Export Accounts Categories.
#[local] Open Scope string_scope.
#[local] Open Scope Z_scope.

(** * Definitions *)

(** The optional fields of a draft are [None] where absent. *)
Record TransactionDraft : Type := mkTxnDraft {
  td_id : string; td_kind : TransactionKind; td_amount : Minor; td_currency : string;
  td_accountId : string; td_date : string; td_counterAccountId : option (option string);
  td_categoryId : option (option string); td_payee : string; td_note : option string;
  td_tags : option (list string); td_cleared : option bool; td_rate : option number;
  td_rateDate : option string; td_createdAt : option Z }.

Record TransactionFilter : Type := mkFilter {
  f_range : DateRange; f_accountId : option string; f_categoryId : option string; f_search : string }.

(** The date window comes from the index; [sortBy] on the reversed collection gives
    the newest first, the greater id first within a day. *)
Definition in_window (range : DateRange) (s : App) : list Transaction :=
  rev (js_sort (fun a b => cmp_string (txn_date a) (txn_date b))
         (List.filter (fun t => within (txn_date t) range) (transactions s))).

Definition matches (f : TransactionFilter) (txn : Transaction) : bool :=
  let needle := toLowerCase (trim (f_search f)) in
  (match truthy_opt (f_accountId f) with
   | Some a => String.eqb (txn_accountId txn) a || bool_decide (txn_counterAccountId txn = Some a)
   | None => true
   end)
  && (match truthy_opt (f_categoryId f) with
      | Some c => bool_decide (txn_categoryId txn = Some c)
      | None => true
      end)
  && (if truthy needle
      then includes (toLowerCase (txn_payee txn ++ " " ++ txn_note txn ++ " " ++ join " " (txn_tags txn))) needle
      else true).

Definition visible (f : TransactionFilter) (s : App) : list Transaction :=
  List.filter (matches f) (in_window (f_range f) s).

Record Totals : Type := mkTotals { tt_income : Z; tt_expense : Z; tt_net : Z; tt_unconverted : Z; tt_currency : string }.

Fixpoint totals_loop (reporting : string) (txns : list Transaction) (income expense unconverted : Z)
  : result (Z * Z * Z) :=
  match txns with
  | [] => Ok (income, expense, unconverted)
  | txn :: rest =>
      match txn_kind txn with
      | Transfer => totals_loop reporting rest income expense unconverted
      | kind =>
          amount ← inReporting (priced txn) reporting;
          match amount with
          | None => totals_loop reporting rest income expense (unconverted + 1)
          | Some a =>
              match kind with
              | Income => totals_loop reporting rest (income + a) expense unconverted
              | _ => totals_loop reporting rest income (expense + a) unconverted
              end
          end
      end
  end.

Definition totals (f : TransactionFilter) (s : App) : result Totals :=
  let reporting := reportingCurrency s in
  '(income, expense, unconverted) ← totals_loop reporting (visible f s) 0 0 0;
  mret (mkTotals income expense (income - expense) unconverted reporting).

Definition group_push {A} (key : A -> string) (groups : list (string * list A)) (x : A) : list (string * list A) :=
  jmap_set (key x) (default [] (jmap_get (key x) groups) ++ [x])%list groups.
Definition byDay (f : TransactionFilter) (s : App) : list (string * list Transaction) :=
  fold_left (group_push txn_date) (visible f s) [].

Fixpoint spend_loop (reporting : string) (roots : list (string * string)) (txns : list Transaction)
    (totals : list (string * Z)) : result (list (string * Z)) :=
  match txns with
  | [] => Ok totals
  | txn :: rest =>
      match txn_kind txn with
      | Expense =>
          amount ← inReporting (priced txn) reporting;
          match amount with
          | None => spend_loop reporting roots rest totals
          | Some a =>
              let key := match txn_categoryId txn with
                         | Some c => default c (jmap_get c roots)
                         | None => "uncategorised"
                         end in
              spend_loop reporting roots rest (jmap_set key (default 0 (jmap_get key totals) + a) totals)
          end
      | _ => spend_loop reporting roots rest totals
      end
  end.

Definition txn_spendByCategory (f : TransactionFilter) (s : App) : result (list (string * Z)) :=
  totals ← spend_loop (reportingCurrency s) (rootIds (all_categories s)) (visible f s) [];
  mret (js_sort (fun a b => b.2 - a.2) totals).

Definition setRange (range : DateRange) (f : TransactionFilter) : TransactionFilter :=
  mkFilter range (f_accountId f) (f_categoryId f) (f_search f).

(** The loop stops once the set has reached the limit, after the row that filled it. *)
Fixpoint payees_loop (limit : nat) (rows : list Transaction) (seen : list string) : list string :=
  match rows with
  | [] => seen
  | row :: rest =>
      let seen := if truthy (txn_payee row) then jset_add seen (txn_payee row) else seen in
      if (limit <=? length seen)%nat then seen else payees_loop limit rest seen
  end.

Definition recentPayees (limit : nat) (s : App) : list string :=
  payees_loop limit
    (take 200 (rev (js_sort (fun a b => cmp_string (txn_date a) (txn_date b)) (transactions s)))) [].

Definition assertValid (txn : Transaction) : result unit :=
  if txn_amount txn <=? 0 then Throw (JsError "Amount must be greater than zero")
  else if negb (truthy (txn_accountId txn)) then Throw (JsError "An account is required")
  else if negb (bool_decide (is_Some (match_ymd (txn_date txn)))) then Throw (JsError "Date must be YYYY-MM-DD")
  else match txn_kind txn with
       | Transfer =>
           match truthy_opt (txn_counterAccountId txn) with
           | None => Throw (JsError "A transfer needs a destination account")
           | Some c => if String.eqb c (txn_accountId txn)
                       then Throw (JsError "A transfer needs two different accounts") else Ok tt
           end
       | _ => Ok tt
       end.

Definition fill_draft (now : Z) (draft : TransactionDraft) : Transaction :=
  mkTransaction (td_id draft) (td_kind draft) (Z.abs (td_amount draft)) (td_currency draft)
    (td_accountId draft) (default None (td_counterAccountId draft)) (default None (td_categoryId draft))
    (td_date draft) (td_payee draft) (default "" (td_note draft)) (default [] (td_tags draft))
    (default true (td_cleared draft)) (td_rate draft) (td_rateDate draft) (default now (td_createdAt draft)) "".

Definition save_transaction (draft : TransactionDraft) : M App AnyEntity :=
  now ← Date_now;
  let transaction := fill_draft now draft in
  _ ← liftR (assertValid transaction);
  put ETransactions (ATransaction transaction).

Definition remove_transaction (id : string) : M App unit := Ledger.remove ETransactions id.

(** * Specification *)

(** What every stored transaction satisfies. *)
Record txn_wf (t : Transaction) : Prop := {
  tw_amount : 0 < txn_amount t;
  tw_account : truthy (txn_accountId t) = true;
  tw_date : is_Some (match_ymd (txn_date t));
  tw_transfer : txn_kind t = Transfer ->
    exists c, txn_counterAccountId t = Some c /\ truthy c = true /\ c <> txn_accountId t }.

Definition transactions_inv (s : App) : Prop :=
  forall id v, rows s !! (ETransactions, id) = Some v ->
    exists t, v = ATransaction t /\ txn_id t = id /\ txn_wf t.

(** * Lemmas *)

Lemma assertValid_iff t : assertValid t = Ok tt <-> txn_wf t.
Proof.
  unfold assertValid. split.
  - destruct (Z.leb_spec (txn_amount t) 0); [done|]. destruct (truthy (txn_accountId t)) eqn:Ha; [|done].
    case_bool_decide as Hd; [|done]. cbn [negb]. intros H1. split; [done..|]. intros Ek. rewrite Ek in H1.
    destruct (truthy_opt (txn_counterAccountId t)) as [c|] eqn:Ec; [|done]. apply truthy_opt_Some in Ec as [Ec Hc].
    destruct (String.eqb_spec c (txn_accountId t)); [done|]. by exists c.
  - intros [Hamt Ha Hd Ht]. destruct (Z.leb_spec (txn_amount t) 0); [lia|]. rewrite Ha bool_decide_eq_true_2 //. cbn [negb].
    destruct (txn_kind t); [done..|]. destruct (Ht eq_refl) as (c & -> & Hc & Hne). cbn. rewrite Hc.
    by destruct (String.eqb_spec c (txn_accountId t)).
Qed.

Lemma assertValid_cases t : assertValid t = Ok tt \/ exists m, assertValid t = Throw (JsError m).
Proof. unfold assertValid. repeat case_match; eauto. Qed.

Lemma save_transaction_rows draft s v s' :
  save_transaction draft s = (Ok v, s') ->
  exists t now, v = ATransaction t /\ txn_wf t
    /\ v = set_updatedAt (entity_updatedAt v) (ATransaction (fill_draft now draft))
    /\ rows s' = <[(ETransactions, td_id draft) := v]> (rows s).
Proof.
  unfold save_transaction. intros (now & s1 & Hnow & E)%M_bind_Ok_inv.
  apply M_bind_Ok_inv in E as ([] & s2 & E1 & E). unfold liftR in E1. injection E1 as E1 <-.
  apply assertValid_iff in E1. apply put_rows in E as [Hv Hr]. eexists _, now.
  split; [exact Hv|]. split; [by destruct E1|]. split; [done|]. by rewrite Hr (Date_now_rows _ _ _ Hnow).
Qed.

Lemma elem_of_transactions s t :
  transactions_inv s -> t ∈ transactions s <-> rows s !! (ETransactions, txn_id t) = Some (ATransaction t).
Proof.
  intros Hinv. unfold transactions. rewrite elem_of_table_of. split.
  - intros (id & v & Hv & Ha). destruct (Hinv id v Hv) as (a' & -> & <- & _). by injection Ha as <-.
  - intros Ha. by exists (txn_id t), (ATransaction t).
Qed.

Lemma in_window_elem range s t : t ∈ in_window range s <-> t ∈ transactions s /\ within (txn_date t) range = true.
Proof. unfold in_window. by rewrite list_elem_of_In -in_rev -list_elem_of_In elem_of_js_sort elem_of_filter_b. Qed.

(** ** Grouping by a key *)

Lemma group_push_get {A} (key : A -> string) l groups k :
  default [] (jmap_get k (fold_left (group_push key) l groups))
  = (default [] (jmap_get k groups) ++ List.filter (fun x => String.eqb (key x) k) l)%list.
Proof.
  revert groups. induction l as [|x l IH]; intros groups; cbn [fold_left List.filter]; [by rewrite app_nil_r|].
  rewrite IH. unfold group_push. rewrite jmap_get_set. destruct (decide (k = key x)) as [->|Hne].
  - rewrite String.eqb_refl. cbn. by rewrite -app_assoc.
  - destruct (String.eqb_spec (key x) k); [congruence | done].
Qed.

Lemma group_push_keys {A} (key : A -> string) l groups k :
  k ∈ map fst (fold_left (group_push key) l groups) <-> k ∈ map fst groups \/ exists x, x ∈ l /\ key x = k.
Proof.
  revert groups. induction l as [|x l IH]; intros groups; cbn [fold_left].
  - split; [by left | intros [?|(x & Hx & _)]; [done | by apply not_elem_of_nil in Hx]].
  - rewrite IH. unfold group_push. rewrite jmap_set_keys. case_decide as Hk.
    + split; [intros [?|(y & ? & ?)]; [by left | right; exists y; by split; [constructor|]] |].
      intros [?|(y & [->|Hy]%elem_of_cons & <-)]; [by left | by left | right; by exists y].
    + rewrite elem_of_app list_elem_of_singleton. split.
      * intros [[?| ->]|(y & ? & ?)]; [by left | right; exists x; by split; [constructor|]
                                      | right; exists y; by split; [constructor|]].
      * intros [?|(y & [->|Hy]%elem_of_cons & <-)]; [by left; left | by left; right | right; by exists y].
Qed.

Lemma jmap_set_NoDup {K V} `{EqDecision K} (m : list (K * V)) k v :
  NoDup (map fst m) -> NoDup (map fst (jmap_set k v m)).
Proof.
  intros Hnd. rewrite jmap_set_keys. case_decide; [done|]. apply NoDup_app. split_and!; [done| |apply NoDup_singleton].
  intros x Hx ->%list_elem_of_singleton. done.
Qed.

Lemma group_push_NoDup {A} (key : A -> string) l groups :
  NoDup (map fst groups) -> NoDup (map fst (fold_left (group_push key) l groups)).
Proof.
  revert groups. induction l as [|x l IH]; intros groups Hnd; [done|]. apply IH. by apply jmap_set_NoDup.
Qed.

Lemma jmap_elem_get {K V} `{EqDecision K} (m : list (K * V)) k v :
  NoDup (map fst m) -> (k, v) ∈ m -> jmap_get k m = Some v.
Proof.
  induction m as [|[k1 v1] m IH]; intros Hnd Hin; [by apply not_elem_of_nil in Hin|].
  cbn [map fst] in Hnd. apply NoDup_cons in Hnd as [Hk Hnd]. cbn [jmap_get].
  apply elem_of_cons in Hin as [[= <- <-]|Hin]; [by rewrite decide_True|].
  rewrite decide_False; [by apply IH|]. intros ->. apply Hk, list_elem_of_fmap. by exists (k1, v).
Qed.

(** ** Totals *)

Definition kind_total (reporting : string) (k : TransactionKind) (txns : list Transaction) : Z :=
  sumZ (map (reporting_value reporting) (List.filter (fun t => bool_decide (txn_kind t = k)) txns)).

Lemma totals_loop_spec reporting txns income expense unconverted i e u :
  totals_loop reporting txns income expense unconverted = Ok (i, e, u) ->
  i = income + kind_total reporting Income txns /\ e = expense + kind_total reporting Expense txns.
Proof.
  unfold kind_total. revert income expense unconverted.
  induction txns as [|t txns IH]; intros income expense unconverted; cbn [totals_loop List.filter].
  - intros [= <- <- _]. simpl. lia.
  - destruct (txn_kind t) eqn:Ek; decide_closed; [..|apply IH];
      intros (a & Ha & H)%bind_Ok_inv; assert (reporting_value reporting t = default 0 a) as Hv
        by (unfold reporting_value; by rewrite Ha); cbn [map]; rewrite sumZ_cons;
      destruct a as [a|]; apply IH in H as [-> ->]; simpl in Hv; rewrite Hv; split; ring.
Qed.

(** * Properties *)

(** whatever the draft, a transaction that is stored is well formed: a positive
    amount (the sign typed is dropped: the kind carries the direction), an account,
    a real date form, and for a transfer a second, different account. *)
Theorem saved_transaction_is_wellformed draft s v s' :
  transactions_inv s -> save_transaction draft s = (Ok v, s') ->
  transactions_inv s'
  /\ (exists t, v = ATransaction t /\ txn_wf t /\ txn_amount t = Z.abs (td_amount draft)
        /\ rows s' = <[(ETransactions, td_id draft) := v]> (rows s)).
Proof.
  intros Hinv E. apply save_transaction_rows in E as (t & now & -> & Hwf & Hv & Hr).
  injection Hv as Hv. assert (txn_id t = td_id draft /\ txn_amount t = Z.abs (td_amount draft)) as [Hid Hamt]
    by by rewrite Hv.
  split; [|by exists t]. intros id w. rewrite Hr lookup_insert_Some.
  intros [[[= <-] <-]|[_ Hw]]; [by exists t | by apply Hinv].
Qed.

(** a draft that would store an ill-formed transaction is refused with a message,
    and no row or log entry is written. *)
Theorem bad_transaction_is_refused draft s :
  ~ txn_wf (fill_draft (nows s (reads s)) draft) ->
  exists m s', save_transaction draft s = (Throw (JsError m), s') /\ rows s' = rows s /\ oplog s' = oplog s.
Proof.
  intros Hbad. unfold save_transaction, mbind at 1, M_bind at 1, Date_now.
  destruct (assertValid_cases (fill_draft (nows s (reads s)) draft)) as [H|[m H]].
  - by destruct Hbad; apply assertValid_iff.
  - exists m. unfold mbind, M_bind, liftR. rewrite H. by eexists.
Qed.

(** the transactions screen shows exactly the transactions in the window that
    match the filter, each once, newest day first. *)
Theorem visible_is_the_filtered_window f s :
  (forall t, t ∈ visible f s <->
     t ∈ transactions s /\ within (txn_date t) (f_range f) = true /\ matches f t = true)
  /\ StronglySorted (fun a b => String.leb (txn_date b) (txn_date a) = true) (visible f s).
Proof.
  split.
  - intros t. unfold visible. rewrite elem_of_filter_b in_window_elem. tauto.
  - unfold visible, in_window. apply StronglySorted_filter.
    apply (StronglySorted_rev (fun a b => String.leb (txn_date a) (txn_date b) = true)).
    eapply StronglySorted_mono; [|apply (js_sort_sorted (fun a b => cmp_string (txn_date a) (txn_date b)))].
    intros a b H. rewrite leb_cmp_string. by apply Z.leb_le.
Qed.

(** the day list is the visible list cut into days: each day once, holding
    exactly that day's transactions in the same order. *)
Theorem byDay_groups_by_date f s :
  NoDup (map fst (byDay f s))
  /\ forall d items, (d, items) ∈ byDay f s ->
       items = List.filter (fun t => String.eqb (txn_date t) d) (visible f s).
Proof.
  unfold byDay. split; [apply group_push_NoDup; constructor|]. intros d items Hin.
  apply jmap_elem_get in Hin; [|apply group_push_NoDup; constructor].
  pose proof (group_push_get txn_date (visible f s) [] d) as H. by rewrite Hin in H.
Qed.

(** the totals card is exact: income and expense are the sums of the converted
    visible transactions of each kind, transfers in neither. *)
Theorem totals_are_exact f s t :
  totals f s = Ok t ->
  tt_income t = kind_total (reportingCurrency s) Income (visible f s)
  /\ tt_expense t = kind_total (reportingCurrency s) Expense (visible f s)
  /\ tt_net t = tt_income t - tt_expense t.
Proof.
  unfold totals. intros ([[i e] u] & [-> ->]%totals_loop_spec & [= <-])%bind_Ok_inv. cbn. lia.
Qed.

(** * Witnesses *)

Definition demo_txn_draft : TransactionDraft :=
  mkTxnDraft "t1" Transfer (-250) "USD" "a" "2024-03-01" (Some (Some "b")) None "" None None None None None None.

Lemma saved_transaction_is_wellformed_witness :
  transactions_inv (snd (save_transaction demo_txn_draft (demo_device "d"))).
Proof.
  refine (proj1 (saved_transaction_is_wellformed demo_txn_draft (demo_device "d")
    (ATransaction (mkTransaction "t1" Transfer 250 "USD" "a" (Some "b") None "2024-03-01" "" "" [] true None None
                     1000 (encodeHlc (mkHlcState 1000 0) "d"))) _ _ _)).
  - intros id v H. by vm_compute in H.
  - by vm_compute.
Defined.

Lemma bad_transaction_is_refused_witness :
  exists m s', save_transaction (mkTxnDraft "t" Expense 0 "USD" "a" "2024-03-01" None None "" None None None None None None)
                 (demo_device "d") = (Throw (JsError m), s').
Proof.
  destruct (bad_transaction_is_refused
    (mkTxnDraft "t" Expense 0 "USD" "a" "2024-03-01" None None "" None None None None None None) (demo_device "d"))
    as (m & s' & H & _); [|by exists m, s'].
  intros [H _ _ _]. simpl in H. lia.
Defined.

Lemma totals_are_exact_witness :
  let f := mkFilter (mkRange "2024-01-01" "2024-01-31") None None "" in
  kind_total "USD" Income (visible f demo_bank) = 500 /\ kind_total "USD" Expense (visible f demo_bank) = 300.
Proof.
  intros f. destruct (totals_are_exact f demo_bank (mkTotals 500 300 200 0 "USD") ltac:(by vm_compute)) as (H1 & H2 & _).
  by split.
Defined.
