(* ===== verification/Period.v ===== *)
(** Budget windows ([app/src/app/core/budgets/period.ts]): every window is counted
    from the budget's start date, and the windows tile the calendar. *)
From S2P Require Export Calendar Domain.
#[local] Open Scope string_scope.
#[local] Open Scope Z_scope.

(** * Definitions *)

Record BudgetWindow : Type := mkWindow { win_from : string; win_to : string; win_index : Z }.

(** [Pick<Budget, 'period' | 'startDate'>]. *)
Record Anchor : Type := mkAnchor { an_period : BudgetPeriod; an_startDate : string }.

Definition parseDate (date : string) : result Ymd := parts date.
Definition formatDate (p : Ymd) : string := format (year p) (month p) (day p).

Definition windowStart (anchor : Anchor) (index : Z) : result string :=
  match an_period anchor with
  | Weekly => addDays (an_startDate anchor) (index * 7)
  | Monthly => addMonths (an_startDate anchor) index
  | Yearly => addMonths (an_startDate anchor) (index * 12)
  end.

Definition dayBefore (date : string) : result string := addDays date (-1).

Definition windowByIndex (anchor : Anchor) (index : Z) : result BudgetWindow :=
  from ← windowStart anchor index;
  next ← windowStart anchor (index + 1);
  to ← dayBefore next;
  mret (mkWindow from to index).

(** Day counts; a [Date.UTC] past the range of dates is NaN in the code. *)
Definition estimateIndex (anchor : Anchor) (date : string) : result Z :=
  start ← parseDate (an_startDate anchor);
  target ← parseDate date;
  match an_period anchor with
  | Weekly =>
      let days := date_utc (year target) (month target - 1) (day target)
                  - date_utc (year start) (month start - 1) (day start) in
      mret (days / 7)
  | period =>
      let months := (year target - year start) * 12 + (month target - month start) in
      mret (match period with Monthly => months | _ => months / 12 end)
  end.

(** The two correction loops of [windowFor].  Each runs at most once on real dates;
    [fuel] bounds them, and running out of it is outside the model. *)
Fixpoint step_back (fuel : nat) (anchor : Anchor) (date : string) (index : Z) : result Z :=
  if 0 <? index then
    start ← windowStart anchor index;
    if String.ltb date start then
      match fuel with
      | O => Throw (OutsideModel "windowFor keeps stepping back")
      | S f => step_back f anchor date (index - 1)
      end
    else mret index
  else mret index.

Fixpoint step_forward (fuel : nat) (anchor : Anchor) (date : string) (index : Z) : result Z :=
  next ← windowStart anchor (index + 1);
  if String.leb next date then
    match fuel with
    | O => Throw (OutsideModel "windowFor keeps stepping forward")
    | S f => step_forward f anchor date (index + 1)
    end
  else mret index.

Definition correction_fuel : nat := 4.

Definition windowFor (anchor : Anchor) (date : string) : result (option BudgetWindow) :=
  if String.ltb date (an_startDate anchor) then Ok None
  else
    index ← estimateIndex anchor date;
    index ← step_back correction_fuel anchor date index;
    index ← step_forward correction_fuel anchor date index;
    Some <$> windowByIndex anchor index.

Definition periodIndexFor (anchor : Anchor) (date : string) : result (option Z) :=
  w ← windowFor anchor date; mret (option_map win_index w).

(** * Specification *)

(** The day window [i] begins on, and when that is a date the program can write. *)
Definition window_ymd (period : BudgetPeriod) (p : Ymd) (i : Z) : Ymd :=
  match period with
  | Weekly => ymd_of_day (day_number p + i * 7)
  | Monthly => add_months p i
  | Yearly => add_months p (i * 12)
  end.
Definition window_in_range (period : BudgetPeriod) (p : Ymd) (i : Z) : Prop :=
  match period with
  | Weekly => day_in_range (day_number p + i * 7)
  | Monthly => month_in_range (month_index p + i)
  | Yearly => month_in_range (month_index p + i * 12)
  end.

(** The last day of window [i]. *)
Definition window_last (period : BudgetPeriod) (p : Ymd) (i : Z) : Ymd :=
  ymd_of_day (day_number (window_ymd period p (i + 1)) - 1).

(** * Lemmas *)

Lemma add_months_zero p : ymd_valid p -> add_months p 0 = p.
Proof.
  intros (Hy & Hm & Hd)%ymd_valid_length. unfold add_months, month_index.
  replace ((year p * 12 + (month p - 1) + 0) / 12) with (year p) by div_lia.
  replace ((year p * 12 + (month p - 1) + 0) mod 12 + 1) with (month p) by div_lia.
  destruct p as [y m d]; cbn [year month day] in *. f_equal. lia.
Qed.

Section Windows.
Context (period : BudgetPeriod) (p : Ymd) (Hp : ymd_valid p).

Let anchor : Anchor := mkAnchor period (ymd_text p).
Let W (i : Z) : Ymd := window_ymd period p i.

Lemma window_valid i : window_in_range period p i -> ymd_valid (W i).
Proof.
  unfold W, window_ymd, window_in_range. destruct period; [apply ymd_of_day_valid | by apply add_months_valid..].
Qed.

Lemma windowStart_text i : window_in_range period p i -> windowStart anchor i = Ok (ymd_text (W i)).
Proof.
  unfold W, anchor, windowStart, window_ymd, window_in_range. cbn [an_period an_startDate].
  destruct period; [by apply addDays_text | by apply addMonths_text..].
Qed.

Lemma window_mono i j :
  window_in_range period p i -> window_in_range period p j -> i < j -> day_number (W i) < day_number (W j).
Proof.
  intros Hi Hj Hij. pose proof (window_valid i Hi) as Vi. pose proof (window_valid j Hj) as Vj.
  revert Hi Hj Vi Vj. unfold W, window_in_range, window_ymd. destruct period; intros Hi Hj Vi Vj.
  - rewrite !make_day_of_ymd. lia.
  - apply day_number_month_lt; [done..|]. rewrite !month_index_add_months. lia.
  - apply day_number_month_lt; [done..|]. rewrite !month_index_add_months. lia.
Qed.

Lemma window_zero : W 0 = p.
Proof.
  unfold W, window_ymd. destruct period; rewrite ?Z.mul_0_l ?Z.add_0_r;
    [by apply ymd_of_day_number | by apply add_months_zero..].
Qed.

Lemma day_in_range_between a b d : day_in_range a -> day_in_range b -> a <= d <= b -> day_in_range d.
Proof. unfold day_in_range. lia. Qed.

(** Windows between two in range are in range. *)
Lemma window_range_between i j k :
  window_in_range period p i -> window_in_range period p k -> i <= j <= k -> window_in_range period p j.
Proof. unfold window_in_range, day_in_range, month_in_range. destruct period; lia. Qed.

Lemma window_zero_range : window_in_range period p 0.
Proof.
  unfold window_in_range. destruct period; rewrite ?Z.mul_0_l ?Z.add_0_r;
    [by apply day_number_range | by apply month_index_range..].
Qed.

Lemma windowByIndex_text i :
  0 <= i -> window_in_range period p (i + 1) ->
  windowByIndex anchor i = Ok (mkWindow (ymd_text (W i)) (ymd_text (window_last period p i)) i)
  /\ ymd_valid (window_last period p i)
  /\ day_number (window_last period p i) = day_number (W (i + 1)) - 1
  /\ day_number (W i) <= day_number (window_last period p i).
Proof.
  intros Hi Hr. assert (window_in_range period p i) as Hri
    by (apply (window_range_between 0 i (i + 1)); [apply window_zero_range | done | lia]).
  pose proof (window_mono i (i + 1) Hri Hr ltac:(lia)) as Hlt.
  pose proof (day_number_range _ (window_valid i Hri)) as D1.
  pose proof (day_number_range _ (window_valid (i + 1) Hr)) as D2.
  assert (day_in_range (day_number (W (i + 1)) - 1)) as D by (apply (day_in_range_between _ _ _ D1 D2); lia).
  unfold windowByIndex, dayBefore. rewrite !windowStart_text // !bind_Ok addDays_text; [|by apply window_valid|done].
  rewrite bind_Ok. unfold window_last. fold (W (i + 1)). rewrite make_day_of_ymd. split_and!; [done | | done | lia].
  by apply ymd_of_day_valid.
Qed.

(** ** Finding the window *)

Lemma step_back_S f date index start :
  0 < index -> windowStart anchor index = Ok start -> String.ltb date start = true ->
  step_back (S f) anchor date index = step_back f anchor date (index - 1).
Proof.
  intros Hi Hs Hlt. cbn [step_back]. destruct (Z.ltb_spec 0 index); [|lia]. by rewrite Hs bind_Ok Hlt.
Qed.

Context (q : Ymd) (Hq : ymd_valid q) (Hyear : year q <= 9990) (Hpq : day_number p <= day_number q).

Lemma estimate_spec :
  exists e, estimateIndex anchor (ymd_text q) = Ok e /\ 0 <= e /\ window_in_range period p (e + 1)
    /\ day_number q < day_number (W (e + 1))
    /\ (day_number (W e) <= day_number q \/ (0 < e /\ day_number (W (e - 1)) <= day_number q < day_number (W e))).
Proof.
  unfold estimateIndex, parseDate, anchor. cbn [an_startDate an_period].
  rewrite !parts_text // !bind_Ok. pose proof (month_index_range p Hp) as Mp.
  assert (month_index p <= month_index q) as Hmonth.
  { destruct (Z.le_gt_cases (month_index p) (month_index q)); [done|].
    pose proof (day_number_month_lt q p Hq Hp). lia. }
  assert (month_index q < 9991 * 12) as Hmq by (unfold month_index; destruct Hq as (_ & ? & _); lia).
  assert (forall k, month_in_range (month_index p + k) -> month_index q < month_index p + k ->
            day_number q < day_number (add_months p k)) as Hafter.
  { intros k Hk Hlt. apply day_number_month_lt; [done | by apply add_months_valid | by rewrite month_index_add_months]. }
  assert (forall k, month_in_range (month_index p + k) -> month_index p + k < month_index q ->
            day_number (add_months p k) < day_number q) as Hbefore.
  { intros k Hk Hlt. apply day_number_month_lt; [by apply add_months_valid | done | by rewrite month_index_add_months]. }
  unfold month_in_range in *. unfold W, window_in_range, window_ymd, month_in_range. destruct period; cbn [mret result_ret].
  - pose proof (day_number_range q Hq) as Rq. pose proof (day_number_range p Hp) as Rp.
    assert (date_utc (year q) (month q - 1) (day q) = day_number q) as ->.
    { unfold date_utc, day_number. rewrite full_year_id; [done | destruct Hq; lia]. }
    assert (date_utc (year p) (month p - 1) (day p) = day_number p) as ->.
    { unfold date_utc, day_number. rewrite full_year_id; [done | destruct Hp; lia]. }
    set (n := day_number q - day_number p) in *.
    pose proof (Z_div_mod_eq_full n 7). pose proof (Z.mod_pos_bound n 7).
    assert (0 <= n / 7) by (apply Z.div_pos; lia).
    assert (day_number q < day_from_year 9991) as Hfar.
    { pose proof (day_number_in_year q Hq). pose proof (day_from_year_mono (year q + 1) 9991). lia. }
    assert (day_from_year 9991 + 7 < day_from_year 10000) by (vm_compute; done).
    exists (n / 7). pose proof (make_day_of_ymd (day_number p + (n / 7 + 1) * 7)) as E1.
    pose proof (make_day_of_ymd (day_number p + n / 7 * 7)) as E2. unfold day_in_range in *.
    split_and!; [done|lia|lia|lia|lia|left; lia].
  - exists ((year q - year p) * 12 + (month q - month p)).
    assert ((year q - year p) * 12 + (month q - month p) = month_index q - month_index p) as -> by (unfold month_index; lia).
    split_and!; [done|lia|lia|lia|apply Hafter; lia|].
    destruct (Z.le_gt_cases (day_number (add_months p (month_index q - month_index p))) (day_number q)) as [|Hgt]; [by left|].
    right. destruct (Z.eq_dec (month_index q - month_index p) 0) as [E0|].
    + exfalso. rewrite E0 add_months_zero // in Hgt. lia.
    + split; [lia|]. split; [|done]. apply Z.lt_le_incl, Hbefore; lia.
  - assert ((year q - year p) * 12 + (month q - month p) = month_index q - month_index p) as -> by (unfold month_index; lia).
    set (n := month_index q - month_index p) in *.
    pose proof (Z_div_mod_eq_full n 12). pose proof (Z.mod_pos_bound n 12).
    assert (0 <= n / 12) by (apply Z.div_pos; lia).
    exists (n / 12). split_and!; [done|lia|lia|lia|apply Hafter; lia|].
    destruct (Z.le_gt_cases (day_number (add_months p (n / 12 * 12))) (day_number q)) as [|Hgt]; [by left|].
    right. destruct (Z.eq_dec (n / 12) 0) as [E0|].
    + exfalso. rewrite E0 Z.mul_0_l add_months_zero // in Hgt. lia.
    + split; [lia|]. split; [|done]. apply Z.lt_le_incl, Hbefore; lia.
Qed.

Lemma windowFor_text :
  exists i, windowFor anchor (ymd_text q)
    = Ok (Some (mkWindow (ymd_text (W i)) (ymd_text (window_last period p i)) i))
    /\ 0 <= i /\ window_in_range period p (i + 1)
    /\ day_number (W i) <= day_number q < day_number (W (i + 1)).
Proof.
  destruct estimate_spec as (e & He & Hpos & Hr & Hnext & Hcase).
  assert (forall i, 0 <= i -> i <= e + 1 -> window_in_range period p i) as Hrange.
  { intros i H1 H2. apply (window_range_between 0 i (e + 1)); [apply window_zero_range | done | lia]. }
  assert (forall i, 0 <= i -> i <= e + 1 -> ymd_valid (W i)) as Hvalid by (intros; by apply window_valid, Hrange).
  assert (forall i, 0 <= i -> i <= e -> day_number (W i) <= day_number q ->
            day_number q < day_number (W (i + 1)) ->
            exists j, windowByIndex anchor i = Ok j
              /\ j = mkWindow (ymd_text (W i)) (ymd_text (window_last period p i)) i
              /\ step_forward correction_fuel anchor (ymd_text q) i = Ok i
              /\ (forall f, step_back f anchor (ymd_text q) i = Ok i)) as Hfound.
  { intros i Hi Hie Hle Hlt. destruct (windowByIndex_text i Hi) as [-> _]; [apply Hrange; lia|].
    eexists. split_and!; [done..| |].
    - assert (windowStart anchor (i + 1) = Ok (ymd_text (W (i + 1)))) as Hs by (apply windowStart_text, Hrange; lia).
      unfold correction_fuel. cbn [step_forward]. rewrite Hs bind_Ok.
      rewrite leb_text; [|apply Hvalid; lia|done]. destruct (Z.leb_spec (day_number (W (i + 1))) (day_number q)); [lia|done].
    - intros f. assert (windowStart anchor i = Ok (ymd_text (W i))) as Hs by (apply windowStart_text, Hrange; lia).
      assert (String.ltb (ymd_text q) (ymd_text (W i)) = false) as Hb.
      { rewrite ltb_text; [lia | done | apply Hvalid; lia]. }
      destruct f; cbn [step_back]; destruct (0 <? i); rewrite ?Hs ?bind_Ok ?Hb; done. }
  unfold windowFor, anchor. cbn [an_startDate]. rewrite ltb_text; [|done..].
  destruct (Z.ltb_spec (day_number q) (day_number p)); [lia|]. fold anchor. rewrite He bind_Ok.
  destruct Hcase as [Hle|(He0 & Hle & Hgt)].
  - destruct (Hfound e Hpos ltac:(lia) Hle Hnext) as (j & Hj & -> & Hf & Hb).
    exists e. rewrite Hb bind_Ok Hf bind_Ok Hj. by split_and!.
  - destruct (Hfound (e - 1) ltac:(lia) ltac:(lia) Hle) as (j & Hj & -> & Hf & Hb).
    { by replace (e - 1 + 1) with e by lia. }
    exists (e - 1).
    assert (windowStart anchor e = Ok (ymd_text (W e))) as Hse by (apply windowStart_text, Hrange; lia).
    assert (String.ltb (ymd_text q) (ymd_text (W e)) = true) as Hlt
      by (rewrite ltb_text; [lia | done | apply Hvalid; lia]).
    unfold correction_fuel at 1. rewrite (step_back_S 3 _ e _ He0 Hse Hlt).
    rewrite Hb bind_Ok Hf bind_Ok Hj. replace (e - 1 + 1) with e by lia.
    split_and!; [done|lia|apply Hrange; lia|done|done].
Qed.
End Windows.

(** * Properties *)

(** C40: from its start date on, a budget has a window for every day, and the window
    found holds the day (also when the anchor day does not exist in the month): the
    estimate and its two correction loops end there. *)
Theorem windowFor_holds_the_day period p q :
  ymd_valid p -> ymd_valid q -> year q <= 9990 -> day_number p <= day_number q ->
  exists w a b, windowFor (mkAnchor period (ymd_text p)) (ymd_text q) = Ok (Some w)
    /\ 0 <= win_index w /\ win_from w = ymd_text a /\ win_to w = ymd_text b
    /\ ymd_valid a /\ ymd_valid b /\ day_number a <= day_number q <= day_number b.
Proof.
  intros Hp Hq Hy Hle. destruct (windowFor_text period p Hp q Hq Hy Hle) as (i & -> & Hi & Hr & H1 & H2).
  destruct (windowByIndex_text period p Hp i Hi Hr) as (_ & Hv & Hd & _).
  exists (mkWindow (ymd_text (window_ymd period p i)) (ymd_text (window_last period p i)) i),
    (window_ymd period p i), (window_last period p i).
  split_and!; try done; [|lia]. apply window_valid; [done|].
  apply (window_range_between period p 0 i (i + 1)); [by apply window_zero_range | done | lia].
Qed.

(** windows tile the calendar: each is nonempty and the next begins the day after
    it ends, so no day is in two windows and none falls between. *)
Theorem windows_tile period p i :
  ymd_valid p -> 0 <= i -> window_in_range period p (i + 2) ->
  exists w w' a b c, windowByIndex (mkAnchor period (ymd_text p)) i = Ok w
    /\ windowByIndex (mkAnchor period (ymd_text p)) (i + 1) = Ok w'
    /\ win_from w = ymd_text a /\ win_to w = ymd_text b /\ win_from w' = ymd_text c
    /\ day_number a <= day_number b /\ day_number c = day_number b + 1
    /\ addDays (win_to w) 1 = Ok (win_from w').
Proof.
  intros Hp Hi Hr. assert (window_in_range period p (i + 1)) as Hr1.
  { apply (window_range_between period p 0 (i + 1) (i + 2)); [by apply window_zero_range | done | lia]. }
  destruct (windowByIndex_text period p Hp i Hi Hr1) as (H1 & Hv & Hd & Hle).
  destruct (windowByIndex_text period p Hp (i + 1)) as (H2 & _); [lia|by replace (i + 1 + 1) with (i + 2) by lia|].
  pose proof (window_valid period p Hp (i + 1) Hr1) as Hv'.
  eexists _, _, (window_ymd period p i), (window_last period p i), (window_ymd period p (i + 1)).
  split_and!; [exact H1 | exact H2 | done.. | lia |]. cbn [win_to win_from].
  rewrite addDays_text //; rewrite Hd; replace (day_number (window_ymd period p (i + 1)) - 1 + 1)
    with (day_number (window_ymd period p (i + 1))) by lia; [by rewrite ymd_of_day_number | by apply day_number_range].
Qed.

(** * Witnesses *)

Lemma windowFor_holds_the_day_witness :
  windowFor (mkAnchor Monthly "2023-01-31") "2024-02-29" = Ok (Some (mkWindow "2024-02-29" "2024-03-30" 13))
  /\ exists w a b, windowFor (mkAnchor Monthly (ymd_text (mkYmd 2023 1 31))) (ymd_text (mkYmd 2024 2 29)) = Ok (Some w)
    /\ 0 <= win_index w /\ win_from w = ymd_text a /\ win_to w = ymd_text b
    /\ ymd_valid a /\ ymd_valid b /\ day_number a <= day_number (mkYmd 2024 2 29) <= day_number b.
Proof.
  split; [by vm_compute|]. apply windowFor_holds_the_day; [by apply ymd_valid_example.. | | ]; bounds.
Defined.

Lemma windows_tile_witness :
  exists w w' a b c, windowByIndex (mkAnchor Yearly (ymd_text (mkYmd 2024 2 29))) 0 = Ok w
    /\ windowByIndex (mkAnchor Yearly (ymd_text (mkYmd 2024 2 29))) 1 = Ok w'
    /\ win_from w = ymd_text a /\ win_to w = ymd_text b /\ win_from w' = ymd_text c
    /\ day_number a <= day_number b /\ day_number c = day_number b + 1
    /\ addDays (win_to w) 1 = Ok (win_from w').
Proof. apply (windows_tile Yearly (mkYmd 2024 2 29) 0); [by apply ymd_valid_example | done | bounds]. Defined.
