(* ===== verification/Budgets.v ===== *)
(** Budget progress ([app/src/app/core/budgets/spend.ts]) and the budgets service
    ([core/repositories/budgets.service.ts]). *)
From S2P Require Export Period Categories.
#[local] Open Scope string_scope.
#[local] Open Scope Z_scope.

(** * Definitions *)

Record BudgetProgress : Type := mkProgress {
  bp_budget : Budget; bp_unconverted : Z; bp_window : BudgetWindow; bp_limit : Minor;
  bp_carried : Minor; bp_allowance : Minor; bp_spent : Minor; bp_remaining : Minor;
  bp_share : Z; bp_over : bool }.

Definition anchor_of (b : Budget) : Anchor := mkAnchor (bud_period b) (bud_startDate b).

Definition countsTowards (budget : Budget) (transaction : Transaction) (covered : option (list string)) : bool :=
  match txn_kind transaction, txn_categoryId transaction with
  | Expense, Some c =>
      match covered with
      | Some cs => bool_decide (c ∈ cs)
      | None => bool_decide (c ∈ bud_categoryIds budget)
      end
  | _, _ => false
  end.

Fixpoint detail_loop (budget : Budget) (window : BudgetWindow) (covered : option (list string))
    (transactions : list Transaction) (spent unconverted : Z) : result (Z * Z) :=
  match transactions with
  | [] => Ok (spent, unconverted)
  | transaction :: rest =>
      if negb (countsTowards budget transaction covered) then detail_loop budget window covered rest spent unconverted
      else if String.ltb (txn_date transaction) (win_from window) || String.ltb (win_to window) (txn_date transaction)
      then detail_loop budget window covered rest spent unconverted
      else
        amount ← inReporting (priced transaction) (bud_currency budget);
        match amount with
        | None => detail_loop budget window covered rest spent (unconverted + 1)
        | Some a => detail_loop budget window covered rest (spent + a) unconverted
        end
  end.

Definition spendDetail (budget : Budget) (window : BudgetWindow) (transactions : list Transaction)
    (covered : option (list string)) : result (Z * Z) :=
  detail_loop budget window covered transactions 0 0.

Definition spendIn (budget : Budget) (window : BudgetWindow) (transactions : list Transaction)
    (covered : option (list string)) : result Minor :=
  fst <$> spendDetail budget window transactions covered.

(** [count] periods from [period] on. *)
Fixpoint carry_loop (budget : Budget) (transactions : list Transaction) (covered : option (list string))
    (count : nat) (period : Z) (carry : Z) : result Z :=
  match count with
  | O => Ok carry
  | S n =>
      window ← windowByIndex (anchor_of budget) period;
      spent ← spendIn budget window transactions covered;
      carry_loop budget transactions covered n (period + 1) (carry + (bud_amount budget - spent))
  end.

Definition carriedInto (budget : Budget) (index : Z) (transactions : list Transaction)
    (covered : option (list string)) : result Minor :=
  if negb (bud_rollover budget) || (index <=? 0) then Ok 0
  else carry_loop budget transactions covered (Z.to_nat index) 0 0.

Definition progressFor (budget : Budget) (transactions : list Transaction) (asOf : string)
    (covered : option (list string)) : result (option BudgetProgress) :=
  window ← windowFor (anchor_of budget) asOf;
  match window with
  | None => Ok None
  | Some window =>
      carried ← carriedInto budget (win_index window) transactions covered;
      let allowance := bud_amount budget + carried in
      '(spent, unconverted) ← spendDetail budget window transactions covered;
      let remaining := allowance - spent in
      share ← (if 0 <? allowance
               then n ← round_Z (f_mul (f_div (f_of_Z spent) (f_of_Z allowance)) (f_of_Z 100));
                    mret (Z.min 100 n)
               else mret 100);
      mret (Some (mkProgress budget unconverted window (bud_amount budget) carried allowance spent
                    remaining share (remaining <? 0)))
  end.

Definition staleCategoryIds (budget : Budget) (knownCategoryIds : list string) : list string :=
  List.filter (fun id => negb (bool_decide (id ∈ knownCategoryIds))) (bud_categoryIds budget).

(** ** class BudgetsService *)

Record BudgetDraft : Type := mkBudgetDraft {
  bd_id : string; bd_name : string; bd_categoryIds : list string; bd_period : BudgetPeriod;
  bd_amount : Minor; bd_currency : string; bd_startDate : string;
  bd_rollover : option bool; bd_archived : option bool; bd_createdAt : option Z }.

Record BudgetStatus : Type := mkStatus {
  bst_budget : Budget; bst_progress : option BudgetProgress; bst_stale : list string }.

Definition all_budgets `{!Locale} (s : App) : list Budget :=
  js_sort (fun a b => localeCompare (bud_name a) (bud_name b)) (budgets s).
Definition active_budgets `{!Locale} (s : App) : list Budget :=
  List.filter (fun b => negb (bud_archived b)) (all_budgets s).

Fixpoint statuses_loop (today : string) (transactions : list Transaction) (categories : list Category)
    (budgets : list Budget) : result (list BudgetStatus) :=
  match budgets with
  | [] => Ok []
  | budget :: rest =>
      progress ← progressFor budget transactions today (Some (withDescendants (bud_categoryIds budget) categories));
      statuses ← statuses_loop today transactions categories rest;
      mret (mkStatus budget progress (staleCategoryIds budget (jset_of (map cat_id categories))) :: statuses)
  end.

Definition statuses (today : string) (s : App) : result (list BudgetStatus) :=
  statuses_loop today (transactions s) (categories s) (List.filter (fun b => negb (bud_archived b)) (budgets s)).

Definition byUrgency (statuses : list BudgetStatus) : list BudgetStatus :=
  let share st := default 0 (bp_share <$> bst_progress st) in
  js_sort (fun a b => share b - share a)
    (List.filter (fun st => bool_decide (is_Some (bp_share <$> bst_progress st))) statuses).
Definition overspent (statuses : list BudgetStatus) : list BudgetStatus :=
  List.filter (fun st => default false (bp_over <$> bst_progress st)) statuses.
Definition needingAttention (statuses : list BudgetStatus) : list BudgetStatus :=
  List.filter (fun st => (0 <? length (bst_stale st))%nat) statuses.

Definition get_budget (id : string) (s : App) : option Budget := get_of as_budget EBudgets id s.
Definition budget_byId `{!Locale} (id : string) (s : App) : option Budget :=
  List.find (fun b => String.eqb (bud_id b) id) (all_budgets s).

Definition assertValid_budget (b : Budget) : result unit :=
  if negb (truthy (trim (bud_name b))) then Throw (JsError "A budget needs a name")
  else if bud_amount b <=? 0 then Throw (JsError "The budget amount must be greater than zero")
  else if (length (bud_categoryIds b) =? 0)%nat then Throw (JsError "Choose at least one category")
  else if negb (bool_decide (is_Some (match_ymd (bud_startDate b)))) then Throw (JsError "Start date must be YYYY-MM-DD")
  else Ok tt.

Definition save_budget (draft : BudgetDraft) : M App AnyEntity :=
  now ← Date_now;
  let budget := mkBudget (bd_id draft) (bd_name draft) (jset_of (bd_categoryIds draft)) (bd_period draft)
                  (bd_amount draft) (bd_currency draft) (bd_startDate draft)
                  (default false (bd_rollover draft)) (default false (bd_archived draft))
                  (default now (bd_createdAt draft)) "" in
  _ ← liftR (assertValid_budget budget);
  put EBudgets (ABudget budget).

Definition set_bud_archived (x : bool) (b : Budget) : Budget :=
  mkBudget (bud_id b) (bud_name b) (bud_categoryIds b) (bud_period b) (bud_amount b) (bud_currency b)
    (bud_startDate b) (bud_rollover b) x (bud_createdAt b) (bud_updatedAt b).
Definition set_categoryIds (x : list string) (b : Budget) : Budget :=
  mkBudget (bud_id b) (bud_name b) x (bud_period b) (bud_amount b) (bud_currency b)
    (bud_startDate b) (bud_rollover b) (bud_archived b) (bud_createdAt b) (bud_updatedAt b).

Definition setArchived_budget (id : string) (archived : bool) : M App unit := fun s =>
  match get_budget id s with
  | None => (Ok tt, s)
  | Some b => (_ ← put EBudgets (ABudget (set_bud_archived archived b)); mret tt) s
  end.

Definition remove_budget (id : string) : M App unit := Ledger.remove EBudgets id.

Definition pruneStaleCategories (id : string) : M App (option AnyEntity) := fun s =>
  match get_budget id s with
  | None => (Ok None, s)
  | Some budget =>
      let known := jset_of (map cat_id (categories s)) in
      let kept := List.filter (fun c => bool_decide (c ∈ known)) (bud_categoryIds budget) in
      if (length kept =? length (bud_categoryIds budget))%nat then (Ok (Some (ABudget budget)), s)
      else if (length kept =? 0)%nat
      then (Throw (JsError "Every category this budget tracks has been deleted; edit or delete it"), s)
      else (v ← put EBudgets (ABudget (set_categoryIds kept budget)); mret (Some v)) s
  end.

(** * Specification *)

(** The counted spending dated from the start of window 0 to [upto], in the budget's currency. *)
Definition spent_between (budget : Budget) (covered : option (list string)) (first last : Z)
    (dated : list (Ymd * Transaction)) : Z :=
  sumZ (map (fun dt => reporting_value (bud_currency budget) dt.2)
    (List.filter (fun dt => countsTowards budget dt.2 covered
                            && (first <=? day_number dt.1) && (day_number dt.1 <=? last)) dated)).

(** Transactions on existing days, each paired with its day. *)
Definition dated_ok (dated : list (Ymd * Transaction)) : Prop :=
  Forall (fun dt => ymd_valid dt.1 /\ txn_date dt.2 = ymd_text dt.1) dated.

(** * Lemmas *)

Lemma detail_loop_spec budget window covered dated spent unconverted s u a b :
  dated_ok dated -> win_from window = ymd_text a -> win_to window = ymd_text b -> ymd_valid a -> ymd_valid b ->
  detail_loop budget window covered (map snd dated) spent unconverted = Ok (s, u) ->
  s = spent + spent_between budget covered (day_number a) (day_number b) dated.
Proof.
  intros Hok Hf Ht Ha Hb. unfold spent_between. revert spent unconverted.
  induction Hok as [|[d t] l [Hd Htd] _ IH]; intros spent unconverted; cbn [map detail_loop List.filter snd fst] in *.
  - intros [= <- _]. simpl. lia.
  - destruct (countsTowards budget t covered); cbn [negb andb]; [|apply IH].
    rewrite Htd Hf Ht !ltb_text //. rewrite (Z.leb_antisym (day_number d) (day_number a)) (Z.leb_antisym (day_number b) (day_number d)).
    destruct (day_number d <? day_number a); cbn [negb andb orb]; [apply IH|].
    destruct (day_number b <? day_number d); cbn [negb]; [apply IH|].
    intros (v & Hv & H)%bind_Ok_inv. cbn [map snd]. rewrite sumZ_cons. unfold reporting_value at 1. rewrite Hv.
    destruct v as [v|]; apply IH in H; simpl in *; lia.
Qed.

(** Days between, cut in two. *)
Lemma spent_between_split budget covered a b c dated :
  a <= b + 1 -> b <= c ->
  spent_between budget covered a c dated
  = spent_between budget covered a b dated + spent_between budget covered (b + 1) c dated.
Proof.
  intros Hab Hbc. unfold spent_between.
  rewrite -sumZ_app -map_app. apply sumZ_perm, Permutation_map, filter_split.
  - intros [d t] _. cbn. destruct (countsTowards budget t covered); cbn [andb]; [|done].
    destruct (Z.leb_spec a (day_number d)), (Z.leb_spec (day_number d) c), (Z.leb_spec (day_number d) b),
      (Z.leb_spec (b + 1) (day_number d)); cbn; try done; lia.
  - intros [d t] _. cbn. destruct (countsTowards budget t covered); cbn [andb]; [|done].
    destruct (Z.leb_spec a (day_number d)), (Z.leb_spec (day_number d) c), (Z.leb_spec (day_number d) b),
      (Z.leb_spec (b + 1) (day_number d)); cbn; try done; lia.
Qed.

Section Rollover.
Context (budget : Budget) (p : Ymd) (Hp : ymd_valid p) (Hstart : bud_startDate budget = ymd_text p).
Context (covered : option (list string)) (dated : list (Ymd * Transaction)) (Hok : dated_ok dated).

Let W (i : Z) : Ymd := window_ymd (bud_period budget) p i.
Let L (i : Z) : Ymd := window_last (bud_period budget) p i.

Lemma anchor_text : anchor_of budget = mkAnchor (bud_period budget) (ymd_text p).
Proof. unfold anchor_of. by rewrite Hstart. Qed.

Lemma window_spent i w s u :
  0 <= i -> window_in_range (bud_period budget) p (i + 1) ->
  windowByIndex (anchor_of budget) i = Ok w -> spendDetail budget w (map snd dated) covered = Ok (s, u) ->
  s = spent_between budget covered (day_number (W i)) (day_number (L i)) dated.
Proof.
  intros Hi Hr Hw Hs. rewrite anchor_text in Hw.
  destruct (windowByIndex_text (bud_period budget) p Hp i Hi Hr) as (E & Hv & _). rewrite E in Hw. injection Hw as <-.
  apply (detail_loop_spec _ _ _ _ _ _ _ _ (W i) (L i)) in Hs; try done.
  apply window_valid; [done|]. apply (window_range_between _ p 0 i (i + 1)); [by apply window_zero_range | done | lia].
Qed.

(** The carry is what the limits of the past periods leave after their spending. *)
Lemma carry_loop_spec n i carry c :
  0 <= i -> window_in_range (bud_period budget) p (i + Z.of_nat n) ->
  carry_loop budget (map snd dated) covered n i carry = Ok c ->
  c = carry + Z.of_nat n * bud_amount budget
      - spent_between budget covered (day_number (W i)) (day_number (W (i + Z.of_nat n)) - 1) dated.
Proof.
  revert i carry. induction n as [|n IH]; intros i carry Hi Hr.
  - cbn [carry_loop]. intros [= <-]. replace (i + Z.of_nat 0) with i by lia.
    assert (spent_between budget covered (day_number (W i)) (day_number (W i) - 1) dated = 0) as ->; [|lia].
    unfold spent_between. rewrite (filter_ext_in_b _ (fun _ => false)).
    + clear. by induction dated.
    + intros [d t] _. cbn. destruct (Z.leb_spec (day_number (W i)) (day_number d)),
        (Z.leb_spec (day_number d) (day_number (W i) - 1)); rewrite ?andb_false_r //; lia.
  - rewrite Nat2Z.inj_succ in Hr |- *. intros H. cbn [carry_loop] in H.
    apply bind_Ok_inv in H as (w & Hw & H). apply bind_Ok_inv in H as (s & Hs & H).
    assert (window_in_range (bud_period budget) p (i + 1)) as Hr1.
    { apply (window_range_between _ p 0 (i + 1) (i + Z.succ (Z.of_nat n))); [by apply window_zero_range | done | lia]. }
    unfold spendIn in Hs. destruct (spendDetail budget w (map snd dated) covered) as [[s' u]|] eqn:Ed; [|done].
    injection Hs as <-. apply (window_spent i w s' u Hi Hr1 Hw) in Ed as ->.
    apply IH in H; [|lia|by replace (i + 1 + Z.of_nat n) with (i + Z.succ (Z.of_nat n)) by lia].
    replace (i + 1 + Z.of_nat n) with (i + Z.succ (Z.of_nat n)) in H by lia.
    destruct (windowByIndex_text (bud_period budget) p Hp i Hi Hr1) as (_ & _ & Hd & Hle).
    fold (L i) (W i) (W (i + 1)) in Hd, Hle.
    rewrite (spent_between_split _ _ (day_number (W i)) (day_number (L i))); [| lia |].
    + cbn [fst] in H. rewrite H. replace (day_number (L i) + 1) with (day_number (W (i + 1))) by lia. lia.
    + destruct n as [|n]; [rewrite Hd; replace (i + Z.succ (Z.of_nat 0)) with (i + 1) by lia; lia|].
      pose proof (window_mono (bud_period budget) p Hp (i + 1) (i + Z.succ (Z.of_nat (S n))) Hr1 Hr ltac:(lia)) as Hm.
      cbv beta in Hm. fold (W (i + 1)) (W (i + Z.succ (Z.of_nat (S n)))) in Hm. lia.
Qed.
End Rollover.

(** * Properties *)

(** C33: rollover tells the truth: with rollover on, what remains today is one limit
    per period begun, minus all the counted spending from the budget's first day to
    the end of the current window, every transaction counted once: neither surplus
    nor overspend of an earlier period is ever lost or counted twice. *)
Theorem rollover_remaining budget p q covered dated pr :
  ymd_valid p -> bud_startDate budget = ymd_text p -> ymd_valid q -> year q <= 9990 ->
  dated_ok dated -> bud_rollover budget = true ->
  progressFor budget (map snd dated) (ymd_text q) covered = Ok (Some pr) ->
  exists last, win_to (bp_window pr) = ymd_text last /\ ymd_valid last /\ day_number q <= day_number last
    /\ bp_remaining pr = (win_index (bp_window pr) + 1) * bud_amount budget
         - spent_between budget covered (day_number p) (day_number last) dated.
Proof.
  intros Hp Hs Hq Hy Hok Hroll H. unfold progressFor in H. apply bind_Ok_inv in H as (w & Hw & H).
  destruct w as [w|]; [|done]. rewrite (anchor_text budget p Hs) in Hw.
  assert (day_number p <= day_number q) as Hle.
  { unfold windowFor in Hw. cbn [an_startDate] in Hw. rewrite ltb_text // in Hw.
    destruct (Z.ltb_spec (day_number q) (day_number p)); [done|lia]. }
  destruct (windowFor_text (bud_period budget) p Hp q Hq Hy Hle) as (i & E & Hi & Hr & H1 & H2).
  rewrite E in Hw. injection Hw as <-. apply bind_Ok_inv in H as (carried & Hc & H).
  apply bind_Ok_inv in H as ([spent u] & Hd & H). apply bind_Ok_inv in H as (share & _ & [= <-]).
  destruct (windowByIndex_text (bud_period budget) p Hp i Hi Hr) as (Ew & Hv & Hlast & Hlw).
  exists (window_last (bud_period budget) p i). cbn [bp_window bp_remaining win_to win_index].
  split_and!; [done..|lia|].
  apply (window_spent budget p Hp Hs covered dated Hok i _ spent u Hi Hr) in Hd; [|by rewrite (anchor_text budget p Hs)].
  cbn [win_index] in Hc. unfold carriedInto in Hc. rewrite Hroll in Hc. cbn [negb orb] in Hc.
  assert (window_in_range (bud_period budget) p i) as Hri.
  { apply (window_range_between _ p 0 i (i + 1)); [by apply window_zero_range | done | lia]. }
  assert (window_ymd (bud_period budget) p 0 = p) as Hz by by apply window_zero.
  destruct (Z.leb_spec i 0).
  - injection Hc as <-. assert (i = 0) as -> by lia. rewrite Hz in Hd. rewrite Hd. lia.
  - apply (carry_loop_spec budget p Hp Hs covered dated Hok) in Hc; [|lia|by rewrite Z2Nat.id; [rewrite Z.add_0_l|lia]].
    rewrite Z2Nat.id in Hc; [|lia]. rewrite !Z.add_0_l Hz in Hc. rewrite Hc Hd.
    pose proof (window_mono (bud_period budget) p Hp 0 i (window_zero_range _ p Hp) Hri ltac:(lia)) as Hm. cbv beta in Hm. rewrite Hz in Hm.
    rewrite (spent_between_split budget covered (day_number p) (day_number (window_ymd (bud_period budget) p i) - 1)
      (day_number (window_last (bud_period budget) p i))); [|lia..].
    replace (day_number (window_ymd (bud_period budget) p i) - 1 + 1) with (day_number (window_ymd (bud_period budget) p i)) by lia.
    lia.
Qed.

(** without rollover each period stands alone: the allowance is the limit, and
    what remains is the limit minus the counted spending dated inside the window. *)
Theorem no_rollover_remaining budget p q covered dated pr :
  ymd_valid p -> bud_startDate budget = ymd_text p -> ymd_valid q -> year q <= 9990 ->
  dated_ok dated -> bud_rollover budget = false ->
  progressFor budget (map snd dated) (ymd_text q) covered = Ok (Some pr) ->
  exists first last, win_from (bp_window pr) = ymd_text first /\ win_to (bp_window pr) = ymd_text last
    /\ day_number first <= day_number q <= day_number last /\ bp_allowance pr = bud_amount budget
    /\ bp_remaining pr = bud_amount budget - spent_between budget covered (day_number first) (day_number last) dated.
Proof.
  intros Hp Hs Hq Hy Hok Hroll H. unfold progressFor in H. apply bind_Ok_inv in H as (w & Hw & H).
  destruct w as [w|]; [|done]. rewrite (anchor_text budget p Hs) in Hw.
  assert (day_number p <= day_number q) as Hle.
  { unfold windowFor in Hw. cbn [an_startDate] in Hw. rewrite ltb_text // in Hw.
    destruct (Z.ltb_spec (day_number q) (day_number p)); [done|lia]. }
  destruct (windowFor_text (bud_period budget) p Hp q Hq Hy Hle) as (i & E & Hi & Hr & H1 & H2).
  rewrite E in Hw. injection Hw as <-. unfold carriedInto in H. rewrite Hroll in H. cbn [negb orb] in H.
  rewrite bind_Ok in H. apply bind_Ok_inv in H as ([spent u] & Hd & H). apply bind_Ok_inv in H as (share & _ & [= <-]).
  destruct (windowByIndex_text (bud_period budget) p Hp i Hi Hr) as (Ew & Hv & Hlast & Hlw).
  exists (window_ymd (bud_period budget) p i), (window_last (bud_period budget) p i).
  cbn [bp_window bp_remaining bp_allowance win_to win_from].
  apply (window_spent budget p Hp Hs covered dated Hok i _ spent u Hi Hr) in Hd; [|by rewrite (anchor_text budget p Hs)].
  split_and!; [done..|lia|lia|lia|lia].
Qed.

(** pruning drops exactly the references to deleted categories and nothing else,
    refuses to leave a budget with no category, and does not rewrite a budget that
    has no stale reference. *)
Theorem pruneStaleCategories_keeps_known id budget s r s' :
  get_budget id s = Some budget -> bud_id budget = id -> pruneStaleCategories id s = (Ok r, s') ->
  exists b', get_budget id s' = Some b'
    /\ (forall c, c ∈ bud_categoryIds b' <-> c ∈ bud_categoryIds budget /\ c ∈ map cat_id (categories s))
    /\ (staleCategoryIds budget (map cat_id (categories s)) = [] -> s' = s).
Proof.
  intros Hb Hid. unfold pruneStaleCategories. rewrite Hb.
  set (kept := List.filter _ (bud_categoryIds budget)).
  assert (forall c, c ∈ kept <-> c ∈ bud_categoryIds budget /\ c ∈ map cat_id (categories s)) as Hkept.
  { intros c. unfold kept. by rewrite elem_of_filter_b bool_decide_eq_true elem_of_jset_of. }
  destruct (Nat.eqb_spec (length kept) (length (bud_categoryIds budget))) as [Hlen|Hlen].
  - intros [= _ <-]. exists budget. split_and!; [done| |done]. intros c. rewrite -Hkept.
    assert (kept = bud_categoryIds budget) as ->; [|done].
    unfold kept in *. clear -Hlen. induction (bud_categoryIds budget) as [|x l IH]; [done|].
    cbn [List.filter] in *. destruct (bool_decide _).
    + f_equal. apply IH. cbn in Hlen. lia.
    + exfalso. pose proof (filter_length_le (fun c => bool_decide (c ∈ jset_of (map cat_id (categories s)))) l).
      simpl in Hlen. lia.
  - destruct (Nat.eqb_spec (length kept) 0); [done|].
    intros (v & s1 & [Hv Hr]%put_rows & [= _ ->])%M_bind_Ok_inv. cbn [entity_id set_categoryIds bud_id] in Hr.
    assert (exists st, v = set_updatedAt st (ABudget (set_categoryIds kept budget))) as [st ->] by by eexists.
    eexists. split; [|split].
    + unfold get_budget, get_of, table_get. rewrite Hr Hid lookup_insert_eq. reflexivity.
    + exact Hkept.
    + intros Hstale. exfalso. apply Hlen. unfold kept. unfold staleCategoryIds in Hstale.
      clear -Hstale. induction (bud_categoryIds budget) as [|x l IH]; [done|]. cbn [List.filter] in *.
      destruct (decide (x ∈ map cat_id (categories s))) as [Hx|Hx].
      * rewrite bool_decide_eq_true_2 // in Hstale. rewrite bool_decide_eq_true_2; [|by rewrite elem_of_jset_of].
        cbn. f_equal. by apply IH.
      * by rewrite bool_decide_eq_false_2 in Hstale.
Qed.

(** * Witnesses *)

Definition demo_budget (rollover : bool) : Budget :=
  mkBudget "b" "Food" ["f"] Monthly 10000 "USD" "2024-01-31" rollover false 0 "".
Definition demo_spend (id date : string) (amount : Z) : Transaction :=
  mkTransaction id Expense amount "USD" "a" None (Some "f") date "" "" [] true None None 0 "".
Definition demo_dated : list (Ymd * Transaction) :=
  [(mkYmd 2024 2 10, demo_spend "1" "2024-02-10" 12500); (mkYmd 2024 3 1, demo_spend "2" "2024-03-01" 2000)].

Lemma demo_dated_ok : dated_ok demo_dated.
Proof. repeat constructor; by apply ymd_valid_example. Qed.

Lemma rollover_remaining_witness :
  exists pr, progressFor (demo_budget true) (map snd demo_dated) (ymd_text (mkYmd 2024 3 15)) None = Ok (Some pr)
    /\ bp_remaining pr = 5500
    /\ exists last, win_to (bp_window pr) = ymd_text last /\ ymd_valid last /\ day_number (mkYmd 2024 3 15) <= day_number last
         /\ bp_remaining pr = (win_index (bp_window pr) + 1) * 10000
              - spent_between (demo_budget true) None (day_number (mkYmd 2024 1 31)) (day_number last) demo_dated.
Proof.
  eexists. split; [by vm_compute|]. split; [reflexivity|].
  apply (rollover_remaining (demo_budget true) (mkYmd 2024 1 31) (mkYmd 2024 3 15) None demo_dated);
    [by apply ymd_valid_example | reflexivity | by apply ymd_valid_example | bounds | apply demo_dated_ok
    | reflexivity | by vm_compute].
Defined.

Lemma no_rollover_remaining_witness :
  exists pr first last, progressFor (demo_budget false) (map snd demo_dated) (ymd_text (mkYmd 2024 3 15)) None = Ok (Some pr)
    /\ win_from (bp_window pr) = ymd_text first /\ bp_remaining pr = 8000
    /\ bp_remaining pr = 10000 - spent_between (demo_budget false) None (day_number first) (day_number last) demo_dated.
Proof.
  eexists. destruct (no_rollover_remaining (demo_budget false) (mkYmd 2024 1 31) (mkYmd 2024 3 15) None demo_dated
    (mkProgress (demo_budget false) 0 (mkWindow "2024-02-29" "2024-03-30" 1) 10000 0 10000 2000 8000 20 false))
    as (first & last & H1 & H2 & H3 & H4 & H5);
    [by apply ymd_valid_example | reflexivity | by apply ymd_valid_example | bounds | apply demo_dated_ok
    | reflexivity | by vm_compute |].
  exists first, last. split; [by vm_compute|]. split_and!; [exact H1 | reflexivity | exact H5].
Defined.

Definition demo_budget_app : App :=
  set_rows (fun r => <[(EBudgets, "b") := ABudget (set_categoryIds ["f"; "gone"] (demo_budget true))]> r) demo_tree_app.

Lemma pruneStaleCategories_keeps_known_witness :
  exists b', get_budget "b" (snd (pruneStaleCategories "b" demo_budget_app)) = Some b' /\ ~ "gone" ∈ bud_categoryIds b'.
Proof.
  destruct (pruneStaleCategories_keeps_known "b" (set_categoryIds ["f"; "gone"] (demo_budget true)) demo_budget_app
    (match fst (pruneStaleCategories "b" demo_budget_app) with Ok r => r | Throw _ => None end)
    (snd (pruneStaleCategories "b" demo_budget_app))) as (b' & H1 & H2 & _); [by vm_compute | reflexivity | by vm_compute |].
  exists b'. split; [exact H1|]. intros [_ H]%H2. revert H.
  assert (bool_decide ("gone" ∈ map cat_id (categories demo_budget_app)) = false) as Hd by by vm_compute.
  by apply bool_decide_eq_false_1 in Hd.
Defined.
