(* ===== verification/Schedule.v ===== *)
(** When a recurring rule falls due ([app/src/app/core/recurring/schedule.ts]). *)
From S2P Require Export Calendar Domain.
#[local] Open Scope string_scope.
#[local] Open Scope Z_scope.

(** * Definitions *)

Definition MAX_OCCURRENCES_PER_RUN : nat := 500.
Definition MAX_SCAN : nat := Z.to_nat 25000.

Definition occurrenceAt (schedule : RecurringRule) (index : Z) : result string :=
  let step := rule_interval schedule * index in
  match rule_unit schedule with
  | UDay => addDays (rule_startDate schedule) step
  | UWeek => addDays (rule_startDate schedule) (step * 7)
  | UMonth => addMonths (rule_startDate schedule) step
  | UYear => addMonths (rule_startDate schedule) (step * 12)
  end.

Definition withinLimits (schedule : RecurringRule) (index : Z) (date : string) : bool :=
  (match rule_maxOccurrences schedule with Some m => index <? m | None => true end)
  && (match rule_endDate schedule with Some e => String.leb date e | None => true end).

(** The dates the loop collects from [index] on, with room for [room] more. *)
Fixpoint occurrences_loop (schedule : RecurringRule) (asOf : string) (after : option string)
    (fuel room : nat) (index : Z) : result (list string) :=
  match fuel with
  | O => Ok []
  | S f =>
      date ← occurrenceAt schedule index;
      if String.ltb asOf date then Ok []
      else if negb (withinLimits schedule index date) then Ok []
      else if (match after with Some a => String.leb date a | None => false end)
           || bool_decide (date ∈ rule_skipped schedule)
      then occurrences_loop schedule asOf after f room (index + 1)
      else if (room <=? 1)%nat then Ok [date]
      else
        rest ← occurrences_loop schedule asOf after f (room - 1) (index + 1);
        mret (date :: rest)
  end.

Definition occurrencesUpTo (schedule : RecurringRule) (asOf : string) (limit : nat) (after : option string)
  : result (list string) :=
  if (rule_interval schedule <? 1) || (limit <? 1)%nat then Ok []
  else occurrences_loop schedule asOf after MAX_SCAN limit 0.

Fixpoint next_loop (schedule : RecurringRule) (asOf : string) (fuel : nat) (index : Z) : result (option string) :=
  match fuel with
  | O => Ok None
  | S f =>
      date ← occurrenceAt schedule index;
      if negb (withinLimits schedule index date) then Ok None
      else if String.ltb asOf date && negb (bool_decide (date ∈ rule_skipped schedule)) then Ok (Some date)
      else next_loop schedule asOf f (index + 1)
  end.

Definition nextOccurrence (schedule : RecurringRule) (asOf : string) : result (option string) :=
  if rule_interval schedule <? 1 then Ok None
  else next_loop schedule asOf MAX_OCCURRENCES_PER_RUN 0.

Definition occurrenceId (ruleId date : string) : string := ruleId ++ ":" ++ date.

(** [/^(.+):(\d{4}-\d{2}-\d{2})$/] : the last ten characters are the date, and [.]
    matches no line terminator. *)
Definition not_newline (c : ascii) : bool := negb (code c =? 10) && negb (code c =? 13).
Definition parseOccurrenceId (id : string) : option (string * string) :=
  let n := String.length id in
  if (n <? 12)%nat then None
  else
    let date := js_slice_from id (n - 10) in
    if bool_decide (char_at id (n - 11) = Some ":"%char) && bool_decide (is_Some (match_ymd date))
       && str_forall not_newline (js_slice id 0 (n - 11))
    then Some (js_slice id 0 (n - 11), date) else None.

(** * Specification *)

(** The day of an occurrence, and when the program can write it. *)
Definition occ_ymd (schedule : RecurringRule) (p : Ymd) (i : Z) : Ymd :=
  let step := rule_interval schedule * i in
  match rule_unit schedule with
  | UDay => ymd_of_day (day_number p + step)
  | UWeek => ymd_of_day (day_number p + step * 7)
  | UMonth => add_months p step
  | UYear => add_months p (step * 12)
  end.
Definition occ_in_range (schedule : RecurringRule) (p : Ymd) (i : Z) : Prop :=
  let step := rule_interval schedule * i in
  match rule_unit schedule with
  | UDay => day_in_range (day_number p + step)
  | UWeek => day_in_range (day_number p + step * 7)
  | UMonth => month_in_range (month_index p + step)
  | UYear => month_in_range (month_index p + step * 12)
  end.

(** A schedule that starts on an existing day [p], and is past [asOf] by occurrence [n]. *)
Record schedule_ok (schedule : RecurringRule) (p asOf : Ymd) (n : nat) : Prop := {
  so_start : ymd_valid p;
  so_text : rule_startDate schedule = ymd_text p;
  so_asOf : ymd_valid asOf;
  so_interval : 1 <= rule_interval schedule;
  so_range : occ_in_range schedule p (Z.of_nat n);
  so_past : day_number asOf < day_number (occ_ymd schedule p (Z.of_nat n)) }.

(** Whether occurrence [i] is due: not past [asOf], within the rule's limits, after
    the resume point, and not skipped. *)
Definition is_due (schedule : RecurringRule) (p asOf : Ymd) (after : option string) (i : Z) : bool :=
  let date := ymd_text (occ_ymd schedule p i) in
  (day_number (occ_ymd schedule p i) <=? day_number asOf)
  && withinLimits schedule i date
  && negb ((match after with Some a => String.leb date a | None => false end)
           || bool_decide (date ∈ rule_skipped schedule)).

(** The dates that are due among the first [n] occurrences. *)
Definition due_dates (schedule : RecurringRule) (p asOf : Ymd) (after : option string) (n : nat) : list string :=
  map (fun i => ymd_text (occ_ymd schedule p i))
    (List.filter (is_due schedule p asOf after) (seqZ 0 (Z.of_nat n))).

(** Date texts in increasing order. *)
Definition increasing : list string -> Prop := StronglySorted (fun a b => String.ltb a b = true).

(** * Lemmas *)

Lemma increasing_take_drop k (l1 l2 : list string) d :
  increasing (l1 ++ d :: l2) -> length l1 = k ->
  List.filter (fun x => negb (String.leb x d)) (l1 ++ d :: l2) = l2.
Proof.
  intros Hs _. unfold increasing in Hs. rewrite List.filter_app. cbn [List.filter].
  apply StronglySorted_app in Hs as (Hcross & _ & Hs2). apply StronglySorted_cons in Hs2 as [Hd _].
  rw Forall_forall in Hd. rw string_leb_refl. cbn [negb].
  rw (filter_ext_in_b _ (fun _ => false) l1).
  - rw (filter_ext_in_b _ (fun _ => true) l2).
    + clear. induction l1 as [|x l1 IH]; cbn; [induction l2; cbn; congruence|done].
    + intros x Hx%Hd. by rw -ltb_negb_leb.
  - intros x Hx. specialize (Hcross x d Hx ltac:(set_solver)). rw ltb_negb_leb in Hcross.
    rw leb_cmp_string. rw leb_cmp_string in Hcross. pose proof (cmp_antisym (cmp := cmp_string) x d). lia.
Qed.

Section Occurrences.
Context (schedule : RecurringRule) (p asOf : Ymd) (n : nat) (Hok : schedule_ok schedule p asOf n).

Let O (i : Z) : Ymd := occ_ymd schedule p i.

Lemma occ_range i : 0 <= i <= Z.of_nat n -> occ_in_range schedule p i.
Proof.
  intros Hi. pose proof (so_range _ _ _ _ Hok) as Hr. pose proof (so_interval _ _ _ _ Hok).
  pose proof (so_start _ _ _ _ Hok) as Hp. pose proof (day_number_range p Hp). pose proof (month_index_range p Hp).
  unfold occ_in_range, day_in_range, month_in_range in *. cbv zeta in *.
  assert (0 <= rule_interval schedule * i <= rule_interval schedule * Z.of_nat n) by nia.
  destruct (rule_unit schedule); lia.
Qed.

Lemma occ_valid i : 0 <= i <= Z.of_nat n -> ymd_valid (O i).
Proof.
  intros Hi%occ_range. pose proof (so_start _ _ _ _ Hok). revert Hi. unfold O, occ_ymd, occ_in_range. cbv zeta.
  destruct (rule_unit schedule); try apply ymd_of_day_valid; by apply add_months_valid.
Qed.

Lemma occurrenceAt_text i : 0 <= i <= Z.of_nat n -> occurrenceAt schedule i = Ok (ymd_text (O i)).
Proof.
  intros Hi%occ_range. pose proof (so_start _ _ _ _ Hok). revert Hi.
  unfold O, occurrenceAt, occ_ymd, occ_in_range. cbv zeta. rewrite (so_text _ _ _ _ Hok).
  destruct (rule_unit schedule); first [by apply addDays_text | by apply addMonths_text].
Qed.

Lemma occ_mono i j : 0 <= i -> i < j <= Z.of_nat n -> day_number (O i) < day_number (O j).
Proof.
  intros Hi Hj. pose proof (occ_valid i ltac:(lia)) as Vi. pose proof (occ_valid j ltac:(lia)) as Vj.
  pose proof (so_interval _ _ _ _ Hok). assert (rule_interval schedule * i < rule_interval schedule * j) as Hlt by nia.
  revert Vi Vj. unfold O, occ_ymd. cbv zeta.
  destruct (rule_unit schedule); intros Vi Vj.
  - pose proof (make_day_of_ymd (day_number p + rule_interval schedule * i)) as E1.
    pose proof (make_day_of_ymd (day_number p + rule_interval schedule * j)) as E2. lia.
  - pose proof (make_day_of_ymd (day_number p + rule_interval schedule * i * 7)) as E1.
    pose proof (make_day_of_ymd (day_number p + rule_interval schedule * j * 7)) as E2. lia.
  - apply day_number_month_lt; [done..|]. rewrite !month_index_add_months. lia.
  - apply day_number_month_lt; [done..|]. rewrite !month_index_add_months. lia.
Qed.

(** Past the end of the rule there is nothing more. *)
Lemma withinLimits_mono i j :
  0 <= i -> i <= j <= Z.of_nat n ->
  withinLimits schedule i (ymd_text (O i)) = false -> withinLimits schedule j (ymd_text (O j)) = false.
Proof.
  intros Hi Hj. destruct (Z.eq_dec i j) as [<-|Hne]; [done|].
  pose proof (occ_mono i j Hi ltac:(lia)) as Hlt. unfold withinLimits. rewrite !andb_false_iff. intros [H|H].
  - left. destruct (rule_maxOccurrences schedule); [lia|done].
  - right. destruct (rule_endDate schedule) as [e|]; [|done].
    assert (String.ltb (ymd_text (O i)) (ymd_text (O j)) = true) as Hs.
    { rewrite ltb_text; [lia | apply occ_valid; lia..]. }
    rewrite ->ltb_cmp_string, Z.ltb_lt in Hs. rewrite ->leb_cmp_string, Z.leb_gt in *.
    pose proof (cmp_trans (cmp := cmp_string) (ymd_text (O i)) (ymd_text (O j)) e ltac:(lia)). lia.
Qed.

Lemma occurrences_loop_spec fuel room i :
  0 <= i -> (Z.of_nat n <= i + Z.of_nat fuel) -> i <= Z.of_nat n -> (1 <= room)%nat -> forall after,
  occurrences_loop schedule (ymd_text asOf) after fuel room i
  = Ok (take room (map (fun j => ymd_text (O j))
          (List.filter (is_due schedule p asOf after) (seqZ i (Z.of_nat n - i))))).
Proof.
  intros Hi Hf Hin Hroom after. revert room i Hi Hf Hin Hroom.
  assert (forall i, 0 <= i -> is_due schedule p asOf after i = true ->
     day_number (O i) <= day_number asOf /\ withinLimits schedule i (ymd_text (O i)) = true) as Hdue.
  { intros i Hi. unfold is_due. fold (O i). rewrite !andb_true_iff Z.leb_le. tauto. }
  assert (forall i, 0 <= i -> (forall j, i <= j < Z.of_nat n -> is_due schedule p asOf after j = false) ->
     List.filter (is_due schedule p asOf after) (seqZ i (Z.of_nat n - i)) = []) as Hnone.
  { intros i Hi H. rewrite (filter_ext_in_b _ (fun _ => false)).
    - clear. by induction (seqZ _ _).
    - intros j Hj%elem_of_seqZ. apply H. lia. }
  induction fuel as [|f IH]; intros room i Hi Hf Hin Hroom.
  - cbn [occurrences_loop]. replace (Z.of_nat n - i) with 0 by lia. rewrite seqZ_nil; [|lia]. by rw take_nil.
  - cbn [occurrences_loop]. rewrite occurrenceAt_text; [|lia]. rewrite bind_Ok.
    rewrite ltb_text; [|apply (so_asOf _ _ _ _ Hok)|apply occ_valid; lia].
    destruct (Z.ltb_spec (day_number asOf) (day_number (O i))) as [Hpast|Hle].
    { rewrite Hnone; [by rw take_nil|done|]. intros j Hj. apply not_true_iff_false. intros [Hd _]%Hdue; [|lia].
      destruct (Z.eq_dec i j) as [<-|]; [lia|]. pose proof (occ_mono i j). lia. }
    assert (i < Z.of_nat n) as Hlt.
    { destruct (Z.eq_dec i (Z.of_nat n)) as [->|]; [|lia]. pose proof (so_past _ _ _ _ Hok). unfold O in Hle. lia. }
    destruct (withinLimits schedule i (ymd_text (O i))) eqn:Ew; cbn [negb].
    2:{ rewrite Hnone; [by rw take_nil|done|]. intros j Hj. apply not_true_iff_false. intros [_ Hw]%Hdue; [|lia].
        pose proof (withinLimits_mono i j Hi ltac:(lia) Ew). congruence. }
    rewrite seqZ_cons; [|lia]. cbn [List.filter].
    assert (is_due schedule p asOf after i
            = negb ((match after with Some a => String.leb (ymd_text (O i)) a | None => false end)
                    || bool_decide (ymd_text (O i) ∈ rule_skipped schedule))) as Edue.
    { unfold is_due. fold (O i). rewrite Ew. destruct (Z.leb_spec (day_number (O i)) (day_number asOf)); [done|lia]. }
    rewrite Edue.
    replace (Z.pred (Z.of_nat n - i)) with (Z.of_nat n - Z.succ i) by lia.
    destruct ((match after with Some a => _ | None => _ end) || _); cbn [negb].
    + replace (i + 1) with (Z.succ i) by lia. rewrite IH; [|lia..]. done.
    + destruct (Nat.leb_spec room 1).
      * assert (room = 1%nat) as -> by lia. done.
      * replace (i + 1) with (Z.succ i) by lia. rewrite IH; [|lia..]. destruct room as [|room]; [lia|].
        replace (S room - 1)%nat with room by lia. done.
Qed.

Lemma occurrencesUpTo_spec limit after :
  (n <= MAX_SCAN)%nat -> (1 <= limit)%nat ->
  occurrencesUpTo schedule (ymd_text asOf) limit after = Ok (take limit (due_dates schedule p asOf after n)).
Proof.
  intros Hn Hl. unfold occurrencesUpTo. pose proof (so_interval _ _ _ _ Hok).
  destruct (Z.ltb_spec (rule_interval schedule) 1); [lia|]. destruct (Nat.ltb_spec limit 1); [lia|]. cbn [orb].
  rewrite occurrences_loop_spec; [|lia..]. unfold due_dates. by rewrite Z.sub_0_r.
Qed.

Lemma elem_of_due_dates after d :
  d ∈ due_dates schedule p asOf after n <->
  exists i, 0 <= i < Z.of_nat n /\ is_due schedule p asOf after i = true /\ d = ymd_text (O i).
Proof.
  unfold due_dates. rewrite list_elem_of_In in_map_iff. setoid_rewrite <-list_elem_of_In.
  setoid_rewrite elem_of_filter_b. setoid_rewrite elem_of_seqZ. unfold O. naive_solver lia.
Qed.

Lemma due_dates_increasing after : increasing (due_dates schedule p asOf after n).
Proof.
  unfold due_dates, increasing. set (f := fun i => ymd_text _).
  assert (forall a k, 0 <= a -> 0 <= k -> a + k <= Z.of_nat n ->
    StronglySorted (fun i j => String.ltb (f i) (f j) = true)
      (List.filter (is_due schedule p asOf after) (seqZ a k))) as H.
  { intros a k Ha Hk Hak. apply StronglySorted_filter. revert a Ha Hak. pattern k. apply natlike_ind; [|clear k Hk|done].
    { intros a _ _. rewrite seqZ_nil; [constructor|lia]. }
    intros k Hk IH a Ha Hak. rewrite seqZ_cons; [|lia]. rewrite Z.pred_succ. constructor; [apply IH; lia|].
    apply Forall_forall. intros j Hj%elem_of_seqZ. unfold f. rewrite ltb_text; [|apply occ_valid; lia..].
    apply Z.ltb_lt, occ_mono; lia. }
  specialize (H 0 (Z.of_nat n) ltac:(lia) ltac:(lia) ltac:(lia)). revert H.
  generalize (List.filter (is_due schedule p asOf after) (seqZ 0 (Z.of_nat n))). intros l Hl.
  induction Hl; cbn [map]; constructor; [done|]. by apply Forall_map.
Qed.

Lemma due_dates_resume d :
  due_dates schedule p asOf (Some d) n
  = List.filter (fun x => negb (String.leb x d)) (due_dates schedule p asOf None n).
Proof.
  unfold due_dates. set (f := fun i => ymd_text _). generalize (seqZ 0 (Z.of_nat n)) as l. intros l.
  induction l as [|i l IH]; [done|]. cbn [List.filter].
  assert (is_due schedule p asOf (Some d) i = is_due schedule p asOf None i && negb (String.leb (f i) d)) as ->.
  { unfold is_due, f. by destruct (_ <=? _), (withinLimits _ _ _), (String.leb _ d), (bool_decide _). }
  destruct (is_due schedule p asOf None i); cbn [andb map List.filter]; [|done].
  destruct (String.leb (f i) d); cbn [negb map]; by rewrite IH.
Qed.
End Occurrences.

Lemma parse_occurrenceId ruleId p :
  ruleId <> "" -> str_forall not_newline ruleId = true -> ymd_valid p ->
  parseOccurrenceId (occurrenceId ruleId (ymd_text p)) = Some (ruleId, ymd_text p).
Proof.
  intros Hr Hn Hp. unfold parseOccurrenceId, occurrenceId.
  assert (String.length (ymd_text p) = 10)%nat as Hl.
  { pose proof (ymd_valid_small p Hp). unfold ymd_text. rewrite format_fixed; [|lia..].
    rw !length_fixed. done. }
  assert (1 <= String.length ruleId)%nat by (destruct ruleId; cbn; [done|lia]).
  rw (length_str_app ruleId (":" ++ ymd_text p)) (length_str_app ":" (ymd_text p)) Hl.
  change (String.length ":") with 1%nat. set (k := String.length ruleId) in *.
  destruct (Nat.ltb_spec (k + (1 + 10)) 12); [lia|].
  replace (k + (1 + 10) - 10)%nat with (String.length (ruleId ++ ":")) by (rewrite length_str_app; cbn; lia).
  replace (k + (1 + 10) - 11)%nat with k by lia.
  assert (ruleId ++ ":" ++ ymd_text p = (ruleId ++ ":") ++ ymd_text p) as -> by by rewrite str_app_assoc.
  rewrite slice_app_r match_ymd_text; [|done]. rewrite (bool_decide_eq_true_2 (is_Some _)); [|done].
  rewrite str_app_assoc.
  assert (char_at (ruleId ++ ":" ++ ymd_text p) k = Some ":"%char) as ->.
  { unfold k, char_at. clear. induction ruleId; [done|by cbn]. }
  rewrite bool_decide_eq_true_2; [|done]. cbn [andb]. rewrite slice_app_l. by rw Hn.
Qed.

(** * Properties *)

(** C10: The occurrences handed out are exactly the due dates of the schedule: of the [n]
    occurrences up to the first past [asOf], found within the indices the loop looks at, those that
    are within the limits of the rule, after the resume point and not skipped, each measured
    from the rule's start so that a month-length clamp is never carried forward, in
    increasing order, up to the run's limit. *)
Theorem occurrencesUpTo_lists_due_dates schedule p asOf n limit after :
  schedule_ok schedule p asOf n -> (n <= MAX_SCAN)%nat -> (1 <= limit)%nat ->
  occurrencesUpTo schedule (ymd_text asOf) limit after = Ok (take limit (due_dates schedule p asOf after n))
  /\ increasing (due_dates schedule p asOf after n)
  /\ (forall d, d ∈ due_dates schedule p asOf after n <->
       exists i, 0 <= i < Z.of_nat n /\ is_due schedule p asOf after i = true
                 /\ d = ymd_text (occ_ymd schedule p i)).
Proof.
  intros Hok Hn Hl. split; [by apply (occurrencesUpTo_spec _ _ _ _ Hok)|]. split.
  - by apply due_dates_increasing.
  - intros d. by apply elem_of_due_dates.
Qed.

(** Catching up in batches loses and repeats nothing: a run that resumes after the
    last date of a full batch returns what an unbounded run would have returned next. *)
Theorem catch_up_continues schedule p asOf n limit batch d :
  schedule_ok schedule p asOf n -> (n <= MAX_SCAN)%nat -> (1 <= limit)%nat ->
  occurrencesUpTo schedule (ymd_text asOf) limit None = Ok (batch ++ [d])%list ->
  occurrencesUpTo schedule (ymd_text asOf) limit (Some d)
  = Ok (take limit (drop (length batch + 1) (due_dates schedule p asOf None n))).
Proof.
  intros Hok Hn Hl. rw !(occurrencesUpTo_spec _ _ _ _ Hok); [|done..]. intros [= Hb].
  pose proof (due_dates_increasing _ _ _ _ Hok None) as Hs.
  rw (due_dates_resume schedule p asOf n). f_equal. f_equal.
  assert (due_dates schedule p asOf None n
          = (batch ++ d :: drop limit (due_dates schedule p asOf None n))%list) as E.
  { rewrite <-(take_drop limit (due_dates schedule p asOf None n)) at 1. by rewrite ->Hb, <-app_assoc. }
  rw E in Hs. rw {1}E. rewrite ->(increasing_take_drop (length batch)); [|done|done].
  rw {2}E. rw drop_app_ge; [|lia]. by replace (length batch + 1 - length batch)%nat with 1%nat by lia.
Qed.

(** The id of an occurrence names its rule and its date, so that no two rules and
    no two dates of a rule share a transaction. *)
Theorem occurrenceId_identifies ruleId p :
  ruleId <> "" -> str_forall not_newline ruleId = true -> ymd_valid p ->
  parseOccurrenceId (occurrenceId ruleId (ymd_text p)) = Some (ruleId, ymd_text p).
Proof. apply parse_occurrenceId. Qed.

(** * Witnesses *)

Definition demo_rule (unit : RecurrenceUnit) (start : string) : RecurringRule :=
  mkRule "rent" "Rent" Expense 120000 "USD" "acc" None None "" "" [] 1 unit start None None [] false 0 "".

Definition demo_start : Ymd := mkYmd 2026 1 31.
Definition demo_asOf : Ymd := mkYmd 2026 4 30.

Lemma demo_schedule_ok : schedule_ok (demo_rule UMonth "2026-01-31") demo_start demo_asOf 4.
Proof. split; first [done | by apply ymd_valid_example | bounds]. Qed.

Lemma occurrencesUpTo_lists_due_dates_witness :
  occurrencesUpTo (demo_rule UMonth "2026-01-31") "2026-04-30" 500 None
  = Ok ["2026-01-31"; "2026-02-28"; "2026-03-31"; "2026-04-30"].
Proof.
  destruct (occurrencesUpTo_lists_due_dates _ _ _ 4 500 None demo_schedule_ok) as [H _];
    [unfold MAX_SCAN; lia | lia|].
  etrans; [exact H | by vm_compute].
Defined.

Lemma catch_up_continues_witness :
  occurrencesUpTo (demo_rule UMonth "2026-01-31") "2026-04-30" 2 (Some "2026-02-28")
  = Ok ["2026-03-31"; "2026-04-30"].
Proof.
  etrans; [apply (catch_up_continues _ _ _ 4 2 ["2026-01-31"] "2026-02-28" demo_schedule_ok); [unfold MAX_SCAN; lia | lia | by vm_compute]|].
  by vm_compute.
Defined.

Lemma occurrenceId_identifies_witness :
  parseOccurrenceId "rent:2026-01-31" = Some ("rent", "2026-01-31").
Proof. apply (occurrenceId_identifies "rent" demo_start); [done | done | by apply ymd_valid_example]. Defined.

(** The look-ahead for the next date starts from the rule's first occurrence and
    gives up after five hundred, so a daily rule that has run for longer is shown
    as finished although it still produces occurrences. *)
Lemma old_daily_rule_shown_as_finished :
  nextOccurrence (demo_rule UDay "2020-01-01") "2026-01-01" = Ok None
  /\ occurrencesUpTo (demo_rule UDay "2020-01-01") "2026-01-02" 500 (Some "2026-01-01") = Ok ["2026-01-02"].
Proof. by vm_compute. Qed.
