(* ===== verification/Recurring.v ===== *)
(** Recurring rules: the service that keeps them
    ([app/src/app/core/repositories/recurring.service.ts]) and the materialiser that
    turns them into transactions ([core/recurring/materialiser.service.ts]). *)
From S2P Require Export Schedule Transactions.
#[local] Open Scope string_scope.
#[local] Open Scope Z_scope.

(** * Definitions *)

(** ** class MaterialiserService *)

Record MaterialisationResult : Type := mkMatResult { mr_created : Z; mr_incomplete : list string }.

Definition toTransaction (now : Z) (rule : RecurringRule) (id date : string) : Transaction :=
  mkTransaction id (rule_kind rule) (rule_amount rule) (rule_currency rule) (rule_accountId rule)
    (rule_counterAccountId rule) (rule_categoryId rule) date
    (if truthy (trim (rule_payee rule)) then trim (rule_payee rule) else rule_name rule)
    (rule_note rule) (rule_tags rule) false None None now "".

(** One date of the inner loop. *)
Definition run_date (rule : RecurringRule) (created : Z) (date : string) : M App Z :=
  let id := occurrenceId (rule_id rule) date in
  s ← getS;
  if hasHistory ETransactions id s then mret created
  else
    now ← Date_now;
    _ ← put ETransactions (ATransaction (toTransaction now rule id date));
    mret (created + 1).

(** The date a rule resumes after. *)
Definition resume_after (rule : RecurringRule) (s : App) : option string :=
  match latestEntityIdWithPrefix ETransactions (rule_id rule ++ ":") s with
  | Some furthest => if truthy furthest then snd <$> parseOccurrenceId furthest else None
  | None => None
  end.

(** One rule of the outer loop. *)
Definition run_rule (asOf : string) (limit : nat) (acc : Z * list string) (rule : RecurringRule)
  : M App (Z * list string) :=
  s ← getS;
  due ← liftR (occurrencesUpTo rule asOf limit (resume_after rule s));
  let incomplete := if (length due =? limit)%nat then (acc.2 ++ [rule_id rule])%list else acc.2 in
  created ← foldM (run_date rule) acc.1 due;
  mret (created, incomplete).

Definition run (asOf : string) (limit : nat) : M App MaterialisationResult :=
  s ← getS;
  r ← foldM (run_rule asOf limit) (0, []) (List.filter (fun rule => negb (rule_archived rule)) (rules s));
  mret (mkMatResult r.1 r.2).

Definition set_skipped (skipped : list string) (r : RecurringRule) : RecurringRule :=
  mkRule (rule_id r) (rule_name r) (rule_kind r) (rule_amount r) (rule_currency r) (rule_accountId r)
    (rule_counterAccountId r) (rule_categoryId r) (rule_payee r) (rule_note r) (rule_tags r)
    (rule_interval r) (rule_unit r) (rule_startDate r) (rule_endDate r) (rule_maxOccurrences r)
    skipped (rule_archived r) (rule_createdAt r) (rule_updatedAt r).

Definition skip (ruleId date : string) : M App unit :=
  s ← getS;
  match get_of as_rule ERecurringRules ruleId s with
  | None => mret tt
  | Some rule =>
      if bool_decide (date ∈ rule_skipped rule) then mret tt
      else
        _ ← put ERecurringRules
              (ARule (set_skipped (js_sort cmp_string (rule_skipped rule ++ [date])%list) rule));
        s ← getS;
        let id := occurrenceId ruleId date in
        match table_get ETransactions id s with
        | Some _ => Ledger.remove ETransactions id
        | None => mret tt
        end
  end.

(** ** class RecurringService *)

(** The optional fields of a draft are [None] where absent. *)
Record RecurringDraft : Type := mkRuleDraft {
  rd_id : string; rd_name : string; rd_kind : TransactionKind; rd_amount : Minor;
  rd_currency : string; rd_accountId : string; rd_interval : Z; rd_unit : RecurrenceUnit;
  rd_startDate : string; rd_counterAccountId : option (option string);
  rd_categoryId : option (option string); rd_payee : option string; rd_note : option string;
  rd_tags : option (list string); rd_endDate : option (option string);
  rd_maxOccurrences : option (option Z); rd_skipped : option (list string);
  rd_archived : option bool; rd_createdAt : option Z }.

Record RuleStatus : Type := mkRuleStatus { rs_rule : RecurringRule; rs_next : option string }.

Definition all_rules `{!Locale} (s : App) : list RecurringRule :=
  js_sort (fun a b => localeCompare (rule_name a) (rule_name b)) (rules s).
Definition active_rules `{!Locale} (s : App) : list RecurringRule :=
  List.filter (fun r => negb (rule_archived r)) (all_rules s).
Definition archived_rules `{!Locale} (s : App) : list RecurringRule :=
  List.filter rule_archived (all_rules s).

Fixpoint rule_statuses (today : string) (rs : list RecurringRule) : result (list RuleStatus) :=
  match rs with
  | [] => Ok []
  | rule :: rest =>
      next ← nextOccurrence rule today;
      others ← rule_statuses today rest;
      mret (mkRuleStatus rule next :: others)
  end.

Definition next_cmp `{!Locale} (a b : RuleStatus) : Z :=
  match rs_next a, rs_next b with
  | None, None => 0
  | None, Some _ => 1
  | Some _, None => -1
  | Some x, Some y => localeCompare x y
  end.

Definition upcoming `{!Locale} (today : string) (s : App) : result (list RuleStatus) :=
  statuses ← rule_statuses today (active_rules s);
  mret (js_sort next_cmp statuses).

Definition rule_byId `{!Locale} (id : string) (s : App) : option RecurringRule :=
  List.find (fun r => String.eqb (rule_id r) id) (all_rules s).

(** The next [count] occurrences after [cursor]. *)
Fixpoint preview (rule : RecurringRule) (count : nat) (cursor : string) : result (list string) :=
  match count with
  | O => Ok []
  | S n =>
      next ← nextOccurrence rule cursor;
      match next with
      | None => Ok []
      | Some next => rest ← preview rule n next; mret (next :: rest)
      end
  end.

Definition countSoFar (rule : RecurringRule) (today : string) : result nat :=
  length <$> occurrencesUpTo rule today 1000 None.

Definition fill_rule (now : Z) (d : RecurringDraft) : RecurringRule :=
  mkRule (rd_id d) (rd_name d) (rd_kind d) (Z.abs (rd_amount d)) (rd_currency d) (rd_accountId d)
    (default None (rd_counterAccountId d)) (default None (rd_categoryId d)) (default "" (rd_payee d))
    (default "" (rd_note d)) (default [] (rd_tags d)) (rd_interval d) (rd_unit d) (rd_startDate d)
    (default None (rd_endDate d)) (default None (rd_maxOccurrences d)) (default [] (rd_skipped d))
    (default false (rd_archived d)) (default now (rd_createdAt d)) "".

Definition assertValid_rule (rule : RecurringRule) : result unit :=
  if negb (truthy (trim (rule_name rule))) then Throw (JsError "A rule needs a name")
  else if rule_amount rule <=? 0 then Throw (JsError "The amount must be greater than zero")
  else if negb (truthy (rule_accountId rule)) then Throw (JsError "An account is required")
  else if rule_interval rule <? 1 then Throw (JsError "The interval must be at least one")
  else if negb (bool_decide (is_Some (match_ymd (rule_startDate rule))))
  then Throw (JsError "Start date must be YYYY-MM-DD")
  else if match rule_endDate rule with Some e => String.ltb e (rule_startDate rule) | None => false end
  then Throw (JsError "The end date cannot be before the start date")
  else if match rule_maxOccurrences rule with Some m => m <? 1 | None => false end
  then Throw (JsError "The occurrence limit must be at least one")
  else match rule_kind rule with
       | Transfer =>
           match truthy_opt (rule_counterAccountId rule) with
           | None => Throw (JsError "A transfer needs a destination account")
           | Some c => if String.eqb c (rule_accountId rule)
                       then Throw (JsError "A transfer needs two different accounts") else Ok tt
           end
       | _ => Ok tt
       end.

Definition save_rule (draft : RecurringDraft) : M App AnyEntity :=
  now ← Date_now;
  let rule := fill_rule now draft in
  _ ← liftR (assertValid_rule rule);
  put ERecurringRules (ARule rule).

Definition set_rule_archived (archived : bool) (r : RecurringRule) : RecurringRule :=
  mkRule (rule_id r) (rule_name r) (rule_kind r) (rule_amount r) (rule_currency r) (rule_accountId r)
    (rule_counterAccountId r) (rule_categoryId r) (rule_payee r) (rule_note r) (rule_tags r)
    (rule_interval r) (rule_unit r) (rule_startDate r) (rule_endDate r) (rule_maxOccurrences r)
    (rule_skipped r) archived (rule_createdAt r) (rule_updatedAt r).

Definition setArchived_rule (id : string) (archived : bool) : M App unit :=
  s ← getS;
  match get_of as_rule ERecurringRules id s with
  | None => mret tt
  | Some rule => _ ← put ERecurringRules (ARule (set_rule_archived archived rule)); mret tt
  end.

Definition remove_rule (id : string) : M App unit := Ledger.remove ERecurringRules id.

(** * Specification *)

(** [s'] is [s] with [n] new transactions, each for one of the pairs [ids] of a rule
    and a date whose id the ledger had never seen; nothing else differs. *)
Record materialised (ids : list (RecurringRule * string)) (n : Z) (s s' : App) : Prop := {
  ma_live : live s';
  ma_seen : forall e id, seen e id s' <->
    seen e id s \/ (e = ETransactions /\ exists r d, (r, d) ∈ ids /\ id = occurrenceId (rule_id r) d);
  ma_kept : forall e id, seen e id s -> rows s' !! (e, id) = rows s !! (e, id);
  ma_new : forall id, ~ seen ETransactions id s -> seen ETransactions id s' ->
    exists r d now st, (r, d) ∈ ids /\ id = occurrenceId (rule_id r) d
      /\ rows s' !! (ETransactions, id) = Some (set_updatedAt st (ATransaction (toTransaction now r id d)));
  ma_count : Z.of_nat (size (rows s')) = Z.of_nat (size (rows s)) + n }.

(** A rule the scheduler can walk up to [asOf], with an id as the editor draws them. *)
Definition rule_runs (asOf : Ymd) (r : RecurringRule) : Prop :=
  rule_id r <> "" /\ str_forall (fun c => negb (Ascii.eqb c ":")) (rule_id r) = true
  /\ str_forall not_newline (rule_id r) = true
  /\ exists p n, schedule_ok r p asOf n /\ (n <= MAX_SCAN)%nat.

(** What every rule the editor saved satisfies. *)
Record rule_wf (r : RecurringRule) : Prop := {
  rw_name : truthy (trim (rule_name r)) = true;
  rw_amount : 0 < rule_amount r;
  rw_account : truthy (rule_accountId r) = true;
  rw_interval : 1 <= rule_interval r;
  rw_start : is_Some (match_ymd (rule_startDate r));
  rw_end : forall e, rule_endDate r = Some e -> String.leb (rule_startDate r) e = true;
  rw_max : forall m, rule_maxOccurrences r = Some m -> 1 <= m;
  rw_transfer : rule_kind r = Transfer ->
    exists c, rule_counterAccountId r = Some c /\ truthy c = true /\ c <> rule_accountId r }.

(** * Lemmas *)

(** ** Validation *)

Lemma assertValid_rule_iff r : assertValid_rule r = Ok tt <-> rule_wf r.
Proof.
  unfold assertValid_rule. split.
  - destruct (truthy (trim _)) eqn:Hn; [|done]. destruct (Z.leb_spec (rule_amount r) 0); [done|].
    destruct (truthy (rule_accountId r)) eqn:Ha; [|done]. destruct (Z.ltb_spec (rule_interval r) 1); [done|].
    case_bool_decide as Hd; [|done]. cbn [negb].
    destruct (match rule_endDate r with Some _ => _ | None => _ end) eqn:He; [done|].
    destruct (match rule_maxOccurrences r with Some _ => _ | None => _ end) eqn:Hm; [done|]. intros H1. split; try done.
    + intros e Ee. rw Ee in He. rw ltb_negb_leb in He. by apply negb_false_iff in He.
    + intros m Em. rw Em in Hm. lia.
    + intros Ek. rw Ek in H1. destruct (truthy_opt _) as [c|] eqn:Ec; [|done]. apply truthy_opt_Some in Ec as [Ec Hc].
      destruct (String.eqb_spec c (rule_accountId r)); [done|]. by exists c.
  - intros [Hn Hamt Ha Hi Hd He Hm Ht]. rw Hn Ha bool_decide_eq_true_2 //. cbn [negb].
    destruct (Z.leb_spec (rule_amount r) 0); [lia|]. destruct (Z.ltb_spec (rule_interval r) 1); [lia|].
    assert ((match rule_endDate r with Some e => String.ltb e (rule_startDate r) | None => false end) = false) as ->.
    { destruct (rule_endDate r) as [e|]; [|done]. rw ltb_negb_leb. by rw (He e eq_refl). }
    assert ((match rule_maxOccurrences r with Some m => m <? 1 | None => false end) = false) as ->.
    { destruct (rule_maxOccurrences r) as [m|]; [|done]. specialize (Hm m eq_refl). lia. }
    destruct (rule_kind r); [done..|]. destruct (Ht eq_refl) as (c & -> & Hc & Hne). cbn. rw Hc.
    by destruct (String.eqb_spec c (rule_accountId r)).
Qed.

Lemma assertValid_rule_cases r : assertValid_rule r = Ok tt \/ exists m, assertValid_rule r = Throw (JsError m).
Proof. unfold assertValid_rule. repeat case_match; eauto. Qed.

(** ** One run, step by step *)

Lemma materialised_refl s : live s -> materialised [] 0 s s.
Proof. intros Hl. split; [done|set_solver|done|done|lia]. Qed.

Lemma materialised_trans ids1 ids2 n1 n2 s s1 s2 :
  materialised ids1 n1 s s1 -> materialised ids2 n2 s1 s2 -> materialised (ids1 ++ ids2) (n1 + n2) s s2.
Proof.
  intros [L1 S1 K1 N1 C1] [L2 S2 K2 N2 C2]. split; [done| | | |lia].
  - intros e id. rw S2 S1. setoid_rewrite elem_of_app. naive_solver.
  - intros e id Hs. rw K2; [by apply K1|]. apply S1. by left.
  - intros id Hn Hs. destruct (decide (hasHistory ETransactions id s1 = true)) as [Hh|Hh];
      rw (hasHistory_seen s1 ETransactions id L1) in Hh.
    + destruct (N1 id Hn Hh) as (r & d & now & st & Hin & Hid & Hrow). exists r, d, now, st.
      split_and!; [set_solver|done|]. by rw K2.
    + destruct (N2 id Hh Hs) as (r & d & now & st & Hin & Hid & Hrow). exists r, d, now, st.
      split_and!; [set_solver|done|done].
Qed.

Lemma run_date_materialised r n d s m s' :
  live s -> run_date r n d s = (Ok m, s') -> materialised [(r, d)] (m - n) s s'.
Proof.
  intros Hl. unfold run_date. intros (s0 & s1 & [= <- <-] & E)%M_bind_Ok_inv.
  set (id := occurrenceId _ _) in *.
  destruct (hasHistory ETransactions id s) eqn:Eh.
  - injection E as <- <-. apply hasHistory_seen in Eh; [|done]. rw Z.sub_diag. split; [done| |done|done|lia].
    intros e i. split; [by left|]. intros [Hs|(-> & r' & d' & Hin & ->)]; [done|].
    apply list_elem_of_singleton in Hin as [= -> ->]. done.
  - assert (~ seen ETransactions id s) as Hns.
    { intros H%hasHistory_seen; [congruence|done]. }
    apply M_bind_Ok_inv in E as (now & s1 & Hnow & E). apply M_bind_Ok_inv in E as (v & s2 & Hput & [= <- <-]).
    destruct (put_live _ _ _ _ _ (Date_now_live _ _ _ Hnow Hl) Hput) as (L & [st Hv] & Hr & Hs).
    pose proof (Date_now_rows _ _ _ Hnow) as Hr0. cbn [entity_id txn_id toTransaction] in Hr, Hs.
    assert (forall e i, seen e i s2 <-> seen e i s \/ (e, i) = (ETransactions, id)) as Hs'.
    { intros e i. rw Hs. by rw (Date_now_seen _ _ _ _ _ Hnow). }
    split; [done| | | |].
    + intros e i. rw Hs'. split; intros [H|H]; [by left | | by left | ].
      * injection H as -> ->. right. split; [done|]. exists r, d. split; [set_solver|done].
      * destruct H as (-> & r' & d' & Hin & ->). right. apply list_elem_of_singleton in Hin as [= -> ->]. done.
    + intros e i Hi. rw Hr Hr0. rewrite ->lookup_insert_ne; [done|]. intros [= <- <-]. done.
    + intros i Hn [H|[= ->]]%Hs'; [done|]. exists r, d, now, st. split_and!; [set_solver|done|].
      rw Hr. by rewrite ->lookup_insert_eq, Hv.
    + rw Hr Hr0. rewrite ->map_size_insert_None; [lia | by apply live_fresh_row].
Qed.

Lemma foldM_run_date r ds : forall n s m s',
  live s -> foldM (run_date r) n ds s = (Ok m, s') -> materialised (map (pair r) ds) (m - n) s s'.
Proof.
  induction ds as [|d ds IH]; intros n s m s' Hl; cbn [foldM map].
  - intros [= <- <-]. rw Z.sub_diag. by apply materialised_refl.
  - intros (m1 & s1 & E1 & E)%M_bind_Ok_inv. pose proof (run_date_materialised _ _ _ _ _ _ Hl E1) as H1.
    replace (m - n) with ((m1 - n) + (m - m1)) by lia. apply (materialised_trans [_] _ _ _ _ s1); [done|].
    apply IH; [by destruct H1|done].
Qed.

(** ** Where a rule resumes *)

Lemma max_string_fold l acc :
  let m := fold_left (fun latest id => match latest with
             | Some l => if String.ltb l id then Some id else latest | None => Some id end) l acc in
  (forall x, x ∈ l \/ acc = Some x -> exists y, m = Some y /\ String.leb x y = true)
  /\ (forall y, m = Some y -> y ∈ l \/ acc = Some y).
Proof.
  revert acc. induction l as [|x l IH]; intros acc; cbn [fold_left].
  - split; [intros x [Hx|Hx]; [set_solver|exists x; split; [done|apply string_leb_refl]] | by right].
  - set (acc' := match acc with Some a => _ | None => _ end). destruct (IH acc') as [H1 H2]. split.
    + intros y Hy. assert (exists z, acc' = Some z /\ String.leb y z = true \/ y ∈ l) as (z & Hz).
      { destruct Hy as [[->|Hy]%elem_of_cons|Hy]; [|exists "";by right|].
        - unfold acc'. destruct acc as [a|]; [|exists x; left; split; [done|apply string_leb_refl]].
          destruct (String.ltb a x) eqn:E; [exists x; left; split; [done|apply string_leb_refl]|].
          exists a. left. split; [done|]. rw ltb_negb_leb in E. by destruct (String.leb x a).
        - unfold acc'. rw Hy. destruct (String.ltb y x) eqn:E.
          + exists x. left. split; [done|]. rw ltb_cmp_string in E. rw leb_cmp_string. lia.
          + exists y. left. split; [done|]. apply string_leb_refl. }
      destruct Hz as [[Hz Hyz]|Hy']; [|by apply H1; left].
      destruct (H1 z (or_intror Hz)) as (w & Hw & Hzw). exists w. split; [done|].
      rw leb_cmp_string in Hyz. rw leb_cmp_string in Hzw. rw leb_cmp_string.
      pose proof (cmp_trans (cmp := cmp_string) y z w). lia.
    + intros y [Hy|Hy]%H2; [left; by constructor|]. unfold acc' in Hy.
      destruct acc as [a|]; [destruct (String.ltb a x)|]; simplify_eq; [left; constructor | by right | left; constructor].
Qed.

Lemma latest_prefix_spec e prefix s :
  (forall id, seen e id s -> startsWith id prefix = true ->
     exists m, latestEntityIdWithPrefix e prefix s = Some m /\ String.leb id m = true)
  /\ (forall m, latestEntityIdWithPrefix e prefix s = Some m -> seen e m s /\ startsWith m prefix = true).
Proof.
  unfold latestEntityIdWithPrefix. set (l := omap _ _).
  assert (forall id, id ∈ l <-> seen e id s /\ startsWith id prefix = true) as Hl.
  { intros id. unfold l. rw list_elem_of_omap. setoid_rewrite elem_of_oplog_sorted. split.
    - intros (lop & (k & Hk) & E). case_decide; [|done]. destruct (startsWith _ _) eqn:Ep; [|done].
      injection E as <-. split; [|done]. by exists k, lop.
    - intros [(k & lop & Hk & He & <-) Hp]. exists lop. split; [by exists k|]. rewrite ->decide_True by done. by rw Hp. }
  destruct (max_string_fold l None) as [H1 H2]. split.
  - intros id Hs Hp. apply H1. left. by apply Hl.
  - intros m [Hm|?]%H2; [by apply Hl | done].
Qed.

Lemma string_leb_antisym a b : String.leb a b = true -> String.leb b a = true -> a = b.
Proof.
  rw !leb_cmp_string. intros H1 H2. apply cmp_string_eq.
  pose proof (cmp_antisym (cmp := cmp_string) a b). lia.
Qed.

(** The watermark depends only on what has been seen under the prefix. *)
Lemma latest_prefix_ext e prefix s s' :
  (forall id, startsWith id prefix = true -> seen e id s' <-> seen e id s) ->
  latestEntityIdWithPrefix e prefix s' = latestEntityIdWithPrefix e prefix s.
Proof.
  intros H. destruct (latest_prefix_spec e prefix s) as [A B], (latest_prefix_spec e prefix s') as [A' B'].
  destruct (latestEntityIdWithPrefix e prefix s') as [m'|] eqn:E', (latestEntityIdWithPrefix e prefix s) as [m|] eqn:E;
    [|destruct (B' m' eq_refl) as [Hs Hp]; apply H in Hs; [|done]; by destruct (A m' Hs Hp) as (? & ? & _)
     |destruct (B m eq_refl) as [Hs Hp]; apply H in Hs; [|done]; by destruct (A' m Hs Hp) as (? & ? & _)|done].
  destruct (B' m' eq_refl) as [Hs' Hp'], (B m eq_refl) as [Hs Hp].
  destruct (A m' (proj1 (H m' Hp') Hs') Hp') as (? & [= <-] & L1).
  destruct (A' m (proj2 (H m Hp) Hs) Hp) as (? & [= <-] & L2).
  f_equal. by apply string_leb_antisym.
Qed.

Lemma prefix_cons c s c' t : String.prefix (String c s) (String c' t) = true <-> c = c' /\ String.prefix s t = true.
Proof. cbn [String.prefix]. destruct (ascii_dec c c'); naive_solver. Qed.

Lemma prefix_colon r r' d :
  str_forall (fun c => negb (Ascii.eqb c ":")) r = true -> str_forall (fun c => negb (Ascii.eqb c ":")) r' = true ->
  startsWith (occurrenceId r' d) (r ++ ":") = true -> r' = r.
Proof.
  unfold startsWith, occurrenceId.
  revert r'. induction r as [|c r IH]; intros [|c' r'] Hr Hr'; cbn [append str_forall] in *; rw prefix_cons; [done| | |].
  - intros [<- _]. by rw Ascii.eqb_refl in Hr'.
  - intros [-> _]. by rw Ascii.eqb_refl in Hr.
  - apply andb_true_iff in Hr as [_ Hr], Hr' as [_ Hr']. intros [-> H]. f_equal. by apply IH.
Qed.

Lemma prefix_own r d : startsWith (occurrenceId r d) (r ++ ":") = true.
Proof.
  unfold startsWith, occurrenceId. induction r as [|c r IH]; cbn [append]; apply prefix_cons; [by destruct d | done].
Qed.

Lemma occurrenceId_inj r r' d d' :
  str_forall (fun c => negb (Ascii.eqb c ":")) r = true -> str_forall (fun c => negb (Ascii.eqb c ":")) r' = true ->
  occurrenceId r d = occurrenceId r' d' -> r = r' /\ d = d'.
Proof.
  intros Hr Hr' E. assert (r = r') as ->.
  { apply (prefix_colon r' r d); [done..|]. rw E. apply prefix_own. }
  split; [done|]. unfold occurrenceId in E. clear Hr Hr'. induction r' as [|c r IH]; cbn [append] in E; [congruence|].
  injection E as E. auto.
Qed.

(** ** What a rule hands out *)

Lemma occurrences_loop_sound r asOf after fuel : forall room i ds d,
  occurrences_loop r asOf after fuel room i = Ok ds -> d ∈ ds ->
  String.leb d asOf = true /\ d ∉ rule_skipped r
  /\ match after with Some a => String.ltb a d = true | None => True end.
Proof.
  induction fuel as [|f IH]; intros room i ds d; cbn [occurrences_loop]; [intros [= <-]; set_solver|].
  intros (x & _ & E)%bind_Ok_inv Hd. destruct (String.ltb asOf x) eqn:Ex; [injection E as <-; set_solver|].
  destruct (negb (withinLimits r i x)); [injection E as <-; set_solver|].
  destruct ((match after with Some a => _ | None => _ end) || _) eqn:Eskip; [by eapply IH|].
  apply orb_false_iff in Eskip as [Ea Es%bool_decide_eq_false_1].
  assert (String.leb x asOf = true /\ x ∉ rule_skipped r
    /\ match after with Some a => String.ltb a x = true | None => True end) as Hx.
  { rw ltb_negb_leb in Ex. apply negb_false_iff in Ex. split_and!; [done..|].
    destruct after as [a|]; [|done]. rw ltb_negb_leb. by rw Ea. }
  destruct (room <=? 1)%nat; [injection E as <-; apply list_elem_of_singleton in Hd as ->; done|].
  apply bind_Ok_inv in E as (rest & Hrest & [= <-]). apply elem_of_cons in Hd as [->|Hd]; [done|]. by eapply IH.
Qed.

Lemma occurrencesUpTo_sound r asOf limit after ds d :
  occurrencesUpTo r asOf limit after = Ok ds -> d ∈ ds ->
  String.leb d asOf = true /\ d ∉ rule_skipped r
  /\ match after with Some a => String.ltb a d = true | None => True end.
Proof.
  unfold occurrencesUpTo. destruct (_ || _); [intros [= <-]; set_solver|]. apply occurrences_loop_sound.
Qed.

(** ** A whole run *)

Lemma run_rule_materialised asOf limit acc r s acc' s' :
  live s -> run_rule asOf limit acc r s = (Ok acc', s') ->
  exists due, occurrencesUpTo r asOf limit (resume_after r s) = Ok due
    /\ materialised (map (pair r) due) (acc'.1 - acc.1) s s'
    /\ acc'.2 = if (length due =? limit)%nat then (acc.2 ++ [rule_id r])%list else acc.2.
Proof.
  intros Hl. unfold run_rule. intros (s0 & s1 & [= <- <-] & E)%M_bind_Ok_inv.
  apply M_bind_Ok_inv in E as (due & s1 & E1 & E). unfold liftR in E1. injection E1 as E1 <-.
  apply M_bind_Ok_inv in E as (m & s2 & E2 & [= <- <-]). exists due. split; [done|]. split; [|done].
  by apply foldM_run_date.
Qed.

Definition allowed (asOf : string) (rs : list RecurringRule) (ids : list (RecurringRule * string)) : Prop :=
  forall r d, (r, d) ∈ ids -> r ∈ rs /\ String.leb d asOf = true /\ d ∉ rule_skipped r.

Lemma foldM_run_rule asOf limit rs : forall acc s acc' s',
  live s -> foldM (run_rule asOf limit) acc rs s = (Ok acc', s') ->
  exists ids, materialised ids (acc'.1 - acc.1) s s' /\ allowed asOf rs ids.
Proof.
  induction rs as [|r rs IH]; intros acc s acc' s' Hl; cbn [foldM].
  - intros [= <- <-]. exists []. rw Z.sub_diag. split; [by apply materialised_refl | intros ? ?; set_solver].
  - intros (acc1 & s1 & E1 & E)%M_bind_Ok_inv.
    destruct (run_rule_materialised _ _ _ _ _ _ _ Hl E1) as (due & Hdue & H1 & _).
    destruct (IH acc1 s1 acc' s') as (ids & H2 & Hall); [by destruct H1|done|].
    exists (map (pair r) due ++ ids)%list. split.
    + replace (acc'.1 - acc.1) with ((acc1.1 - acc.1) + (acc'.1 - acc1.1)) by lia. by apply (materialised_trans _ _ _ _ _ s1).
    + intros r' d [Hin|Hin]%elem_of_app.
      * apply list_elem_of_fmap in Hin as (d' & [= -> ->] & Hd).
        destruct (occurrencesUpTo_sound _ _ _ _ _ _ Hdue Hd) as (? & ? & _). split; [constructor|done].
      * destruct (Hall r' d Hin). split; [by constructor|done].
Qed.

Lemma run_materialised asOf limit s res s' :
  live s -> run asOf limit s = (Ok res, s') ->
  exists ids, materialised ids (mr_created res) s s'
    /\ allowed asOf (List.filter (fun rule => negb (rule_archived rule)) (rules s)) ids.
Proof.
  intros Hl. unfold run. intros (s0 & s1 & [= <- <-] & E)%M_bind_Ok_inv.
  apply M_bind_Ok_inv in E as (acc & s1 & E & [= <- <-]). cbn [mr_created].
  destruct (foldM_run_rule _ _ _ _ _ _ _ Hl E) as (ids & H & Ha). exists ids. by rw Z.sub_0_r in H.
Qed.

(** ** Running again *)

(** [after'] resumes no earlier than [after]. *)
Definition resumes_later (after after' : option string) : Prop :=
  match after with None => True | Some a => exists b, after' = Some b /\ String.leb a b = true end.

Lemma resumes_later_refl after : resumes_later after after.
Proof. destruct after as [a|]; [|done]. exists a. split; [done | apply string_leb_refl]. Qed.

Lemma due_dates_later r p asOf n after after' :
  resumes_later after after' ->
  (length (due_dates r p asOf after' n) <= length (due_dates r p asOf after n))%nat
  /\ forall d, d ∈ due_dates r p asOf after' n -> d ∈ due_dates r p asOf after n.
Proof.
  intros Hle. unfold due_dates. rw !length_map. set (f := fun i => ymd_text _).
  assert (forall i, is_due r p asOf after' i = true -> is_due r p asOf after i = true) as Himp.
  { intros i. unfold is_due. rw !andb_true_iff !negb_true_iff !orb_false_iff. intros [[H1 H2] [H3 H4]].
    refine (conj (conj H1 H2) (conj _ H4)). destruct after as [a|]; [|done]. destruct Hle as (b & -> & Hab).
    fold (f i) in H3 |- *. rw leb_cmp_string in Hab. rw leb_cmp_string in H3. rw leb_cmp_string.
    pose proof (cmp_trans (cmp := cmp_string) (f i) a b). lia. }
  generalize (seqZ 0 (Z.of_nat n)) as l. intros l. split.
  - induction l as [|i l IH]; cbn [List.filter length]; [lia|]. specialize (Himp i).
    destruct (is_due r p asOf after' i), (is_due r p asOf after i); cbn [length]; first [lia | exfalso; by eauto].
  - intros d. rw !list_elem_of_fmap. intros (i & -> & Hi). exists i. split; [done|].
    apply elem_of_filter_b in Hi as [Hi Hd]. apply elem_of_filter_b. auto.
Qed.

(** Everything the rule owes up to [asOf] has been produced, and fits one run. *)
Definition caught_up (asOf : Ymd) (limit : nat) (r : RecurringRule) (s : App) : Prop :=
  exists p n, schedule_ok r p asOf n /\ (n <= MAX_SCAN)%nat
    /\ (length (due_dates r p asOf (resume_after r s) n) < limit)%nat
    /\ forall d, d ∈ due_dates r p asOf (resume_after r s) n -> seen ETransactions (occurrenceId (rule_id r) d) s.

Lemma foldM_run_date_seen r ds : forall n s,
  live s -> (forall d, d ∈ ds -> seen ETransactions (occurrenceId (rule_id r) d) s) ->
  foldM (run_date r) n ds s = (Ok n, s).
Proof.
  induction ds as [|d ds IH]; intros n s Hl Hs; [done|]. cbn [foldM]. unfold mbind, M_bind at 1.
  assert (run_date r n d s = (Ok n, s)) as ->.
  { unfold run_date, mbind, M_bind, getS. by rewrite ->(proj2 (hasHistory_seen _ _ _ Hl) (Hs d ltac:(constructor))). }
  apply IH; [done|]. intros x Hx. apply Hs. by constructor.
Qed.

Lemma caught_up_run asOf limit r s acc :
  live s -> caught_up asOf limit r s -> run_rule (ymd_text asOf) limit acc r s = (Ok acc, s).
Proof.
  intros Hl (p & n & Hok & Hn & Hlen & Hseen). unfold run_rule, mbind, M_bind, getS, liftR.
  rewrite ->(occurrencesUpTo_spec _ _ _ _ Hok) by lia. rewrite ->take_ge by lia.
  rewrite ->foldM_run_date_seen by done. destruct (Nat.eqb_spec (length (due_dates r p asOf (resume_after r s) n)) limit); [lia|].
  by destruct acc.
Qed.

Lemma foldM_caught_up asOf limit rs : forall s acc,
  live s -> (forall r, r ∈ rs -> caught_up asOf limit r s) ->
  foldM (run_rule (ymd_text asOf) limit) acc rs s = (Ok acc, s).
Proof.
  induction rs as [|r rs IH]; intros s acc Hl H; [done|]. cbn [foldM]. unfold mbind, M_bind.
  rewrite ->caught_up_run; [|done|apply H; constructor]. apply IH; [done|]. intros x Hx. apply H. by constructor.
Qed.

(** The watermark of a rule after a batch of it. *)
Lemma resume_after_own asOf r due n s s' :
  rule_runs asOf r -> live s -> materialised (map (pair r) due) n s s' ->
  (forall d, d ∈ due -> (exists q, ymd_valid q /\ d = ymd_text q)
     /\ match resume_after r s with Some a => String.ltb a d = true | None => True end) ->
  resumes_later (resume_after r s) (resume_after r s').
Proof.
  intros (Hne & Hc & Hnl & _) Hl [_ Hs _ _ _] Hdue.
  unfold resumes_later. destruct (resume_after r s) as [a|] eqn:Ea; [|done].
  unfold resume_after in Ea. destruct (latestEntityIdWithPrefix ETransactions (rule_id r ++ ":") s) as [m|] eqn:Em; [|done].
  destruct (latest_prefix_spec ETransactions (rule_id r ++ ":") s) as [A B].
  destruct (latest_prefix_spec ETransactions (rule_id r ++ ":") s') as [A' B'].
  destruct (B m Em) as [Hm Hp].
  destruct (A' m) as (m' & Em' & Hmm'); [apply Hs; by left|done|].
  destruct (B' m' Em') as [Hm' Hp'].
  apply Hs in Hm' as [Hm'|(_ & r' & d & Hin & ->)].
  - destruct (A m' Hm' Hp') as (m2 & Em2 & Hle). rw Em in Em2. injection Em2 as <-.
    assert (m' = m) as -> by by apply string_leb_antisym.
    exists a. split; [|apply string_leb_refl]. unfold resume_after. by rw Em'.
  - apply list_elem_of_fmap in Hin as (d' & [= -> ->] & Hd). destruct (Hdue d' Hd) as [(q & Hq & ->) Hlt].
    exists (ymd_text q). split.
    + unfold resume_after. rw Em'. rewrite ->parse_occurrenceId by done.
      destruct (truthy (occurrenceId (rule_id r) (ymd_text q))) eqn:Et; [done|].
      exfalso. revert Et. unfold truthy, occurrenceId. by destruct (rule_id r).
    + rw ltb_cmp_string in Hlt. rw leb_cmp_string. lia.
Qed.

Lemma due_dates_text r p asOf n after d :
  schedule_ok r p asOf n -> d ∈ due_dates r p asOf after n ->
  (exists q, ymd_valid q /\ d = ymd_text q)
  /\ match after with Some a => String.ltb a d = true | None => True end.
Proof.
  intros Hok (i & Hi & Hdue & ->)%elem_of_due_dates. split.
  - exists (occ_ymd r p i). split; [|done]. apply (occ_valid _ _ _ _ Hok). lia.
  - unfold is_due in Hdue. rw !andb_true_iff !negb_true_iff !orb_false_iff in Hdue.
    destruct Hdue as [_ [Ha _]]. destruct after as [a|]; [|done]. by rw ltb_negb_leb Ha.
Qed.

Lemma rule_catches_up asOf limit acc r s acc' s' :
  live s -> rule_runs asOf r -> (1 <= limit)%nat ->
  run_rule (ymd_text asOf) limit acc r s = (Ok acc', s') -> acc'.2 = acc.2 -> caught_up asOf limit r s'.
Proof.
  intros Hl Hr Hlim E Hinc. destruct (run_rule_materialised _ _ _ _ _ _ _ Hl E) as (due & Hdue & Hmat & Hacc).
  pose proof Hr as (_ & _ & _ & p & n & Hok & Hn). exists p, n. split; [done|]. split; [done|].
  rewrite ->(occurrencesUpTo_spec _ _ _ _ Hok) in Hdue by lia. injection Hdue as <-.
  set (D := due_dates r p asOf (resume_after r s) n) in *.
  assert (length D < limit)%nat as Hlen.
  { rw Hinc in Hacc. destruct (Nat.eqb_spec (length (take limit D)) limit) as [He|Hne].
    - apply (f_equal length) in Hacc. rw length_app in Hacc. cbn in Hacc. lia.
    - rw length_take in Hne. lia. }
  rewrite ->take_ge in Hmat by lia.
  assert (resumes_later (resume_after r s) (resume_after r s')) as Hle.
  { eapply resume_after_own; [exact Hr|done|exact Hmat|]. intros d Hd. by eapply due_dates_text. }
  destruct (due_dates_later r p asOf n _ _ Hle) as [Hlen' Hsub]. split; [by eapply Nat.le_lt_trans|].
  intros d Hd. destruct Hmat as [_ Hs _ _ _]. apply Hs. right. split; [done|]. exists r, d. split; [|done].
  apply list_elem_of_fmap. exists d. split; [done | by apply Hsub].
Qed.

Lemma caught_up_other asOf limit r ids n s s' :
  rule_runs asOf r -> materialised ids n s s' ->
  (forall r' d, (r', d) ∈ ids -> rule_runs asOf r' /\ rule_id r' <> rule_id r) ->
  caught_up asOf limit r s -> caught_up asOf limit r s'.
Proof.
  intros (_ & Hc & _) [_ Hs _ _ _] Hids (p & m & Hok & Hm & Hlen & Hseen).
  assert (resume_after r s' = resume_after r s) as Hres.
  { unfold resume_after. rewrite ->(latest_prefix_ext _ _ s); [done|]. intros id Hp. rw Hs.
    split; [|by left]. intros [H|(_ & r' & d & Hin & ->)]; [done|]. exfalso.
    destruct (Hids r' d Hin) as [(_ & Hc' & _) Hne]. by apply Hne, (prefix_colon _ _ d). }
  exists p, m. rw Hres. split_and!; [done..|]. intros d Hd. apply Hs. left. by apply Hseen.
Qed.

Lemma foldM_catches_up asOf limit rs : forall acc s acc' s',
  live s -> Forall (rule_runs asOf) rs -> NoDup (map rule_id rs) -> (1 <= limit)%nat ->
  foldM (run_rule (ymd_text asOf) limit) acc rs s = (Ok acc', s') ->
  (exists more, acc'.2 = acc.2 ++ more)%list
  /\ (acc'.2 = acc.2 -> forall r, r ∈ rs -> caught_up asOf limit r s').
Proof.
  induction rs as [|r rs IH]; intros acc s acc' s' Hl Hruns Hnd Hlim; cbn [foldM].
  - intros [= <- <-]. split; [exists []; by rw app_nil_r | set_solver].
  - intros (acc1 & s1 & E1 & E)%M_bind_Ok_inv. apply Forall_cons in Hruns as [Hr Hruns].
    cbn [map] in Hnd. apply NoDup_cons in Hnd as [Hnin Hnd].
    destruct (run_rule_materialised _ _ _ _ _ _ _ Hl E1) as (due & _ & Hmat & Hacc).
    assert (live s1) as Hl1 by by destruct Hmat.
    destruct (IH acc1 s1 acc' s' Hl1 Hruns Hnd Hlim E) as [(more & Hmore) Hcu].
    destruct (foldM_run_rule _ _ _ _ _ _ _ Hl1 E) as (ids & Hids & Hall).
    assert (exists m0, acc1.2 = acc.2 ++ m0)%list as (m0 & Hm0).
    { rw Hacc. case_match; [by eexists | exists []; by rw app_nil_r]. }
    split; [exists (m0 ++ more)%list; rw Hmore Hm0; by rw app_assoc|]. intros Hinc.
    assert (m0 = [] /\ more = []) as [-> ->].
    { rw Hmore Hm0 in Hinc. apply (f_equal length) in Hinc. rw !length_app in Hinc.
      destruct m0, more; cbn in Hinc; [done|lia..]. }
    rw app_nil_r in Hm0. rw app_nil_r in Hmore.
    intros x [->|Hx]%elem_of_cons; [|by apply Hcu].
    apply (caught_up_other asOf limit r ids (acc'.1 - acc1.1) s1); [done|done| |].
    + intros r' d Hin. destruct (Hall r' d Hin) as [Hr' _]. rw Forall_forall in Hruns. split; [by apply Hruns|].
      intros He. apply Hnin. rw -He. apply list_elem_of_fmap. by exists r'.
    + eapply rule_catches_up; [exact Hl|exact Hr|exact Hlim|exact E1|exact Hm0].
Qed.

(** ** Two devices *)

Lemma run_date_seen_alike r n d s1 s2 m1 m2 s1' s2' :
  live s1 -> live s2 -> (forall id, seen ETransactions id s1 <-> seen ETransactions id s2) ->
  run_date r n d s1 = (Ok m1, s1') -> run_date r n d s2 = (Ok m2, s2') -> m1 = m2.
Proof.
  intros L1 L2 H. unfold run_date.
  intros (x1 & y1 & [= <- <-] & E1)%M_bind_Ok_inv (x2 & y2 & [= <- <-] & E2)%M_bind_Ok_inv.
  assert (hasHistory ETransactions (occurrenceId (rule_id r) d) s1
          = hasHistory ETransactions (occurrenceId (rule_id r) d) s2) as Hh.
  { apply eq_true_iff_eq. rw !hasHistory_seen; [|done..]. apply H. }
  rw Hh in E1. unfold mret, M_ret in *. destruct (hasHistory _ _ s2); [congruence|].
  apply M_bind_Ok_inv in E1 as (? & ? & _ & E1). apply M_bind_Ok_inv in E1 as (? & ? & _ & E1).
  apply M_bind_Ok_inv in E2 as (? & ? & _ & E2). apply M_bind_Ok_inv in E2 as (? & ? & _ & E2).
  congruence.
Qed.

Lemma seen_alike_after ids n1 n2 s1 s2 s1' s2' :
  (forall id, seen ETransactions id s1 <-> seen ETransactions id s2) ->
  materialised ids n1 s1 s1' -> materialised ids n2 s2 s2' ->
  forall id, seen ETransactions id s1' <-> seen ETransactions id s2'.
Proof. intros H [_ S1 _ _ _] [_ S2 _ _ _] id. rw S1 S2. by rw H. Qed.

Lemma foldM_run_date_alike r ds : forall n s1 s2 m1 m2 s1' s2',
  live s1 -> live s2 -> (forall id, seen ETransactions id s1 <-> seen ETransactions id s2) ->
  foldM (run_date r) n ds s1 = (Ok m1, s1') -> foldM (run_date r) n ds s2 = (Ok m2, s2') -> m1 = m2.
Proof.
  induction ds as [|d ds IH]; intros n s1 s2 m1 m2 s1' s2' L1 L2 H; cbn [foldM]; [by intros [= <- _] [= <- _]|].
  intros (k1 & t1 & E1 & F1)%M_bind_Ok_inv (k2 & t2 & E2 & F2)%M_bind_Ok_inv.
  pose proof (run_date_seen_alike _ _ _ _ _ _ _ _ _ L1 L2 H E1 E2) as <-.
  pose proof (run_date_materialised _ _ _ _ _ _ L1 E1) as M1.
  pose proof (run_date_materialised _ _ _ _ _ _ L2 E2) as M2.
  eapply IH; [by destruct M1|by destruct M2| |exact F1|exact F2]. by eapply seen_alike_after.
Qed.

Lemma resume_after_alike r s1 s2 :
  (forall id, seen ETransactions id s1 <-> seen ETransactions id s2) -> resume_after r s1 = resume_after r s2.
Proof. intros H. unfold resume_after. by rewrite ->(latest_prefix_ext ETransactions _ s2 s1) by (intros; apply H). Qed.

Lemma foldM_run_rule_alike asOf limit rs : forall acc s1 s2 a1 a2 s1' s2',
  live s1 -> live s2 -> (forall id, seen ETransactions id s1 <-> seen ETransactions id s2) ->
  foldM (run_rule asOf limit) acc rs s1 = (Ok a1, s1') -> foldM (run_rule asOf limit) acc rs s2 = (Ok a2, s2') ->
  a1 = a2 /\ forall id, seen ETransactions id s1' <-> seen ETransactions id s2'.
Proof.
  induction rs as [|r rs IH]; intros acc s1 s2 a1 a2 s1' s2' L1 L2 H; cbn [foldM].
  { intros [= <- <-] [= <- <-]. done. }
  intros (k1 & t1 & E1 & F1)%M_bind_Ok_inv (k2 & t2 & E2 & F2)%M_bind_Ok_inv.
  destruct (run_rule_materialised _ _ _ _ _ _ _ L1 E1) as (due & D1 & M1 & I1).
  destruct (run_rule_materialised _ _ _ _ _ _ _ L2 E2) as (due2 & D2 & M2 & I2).
  assert (due2 = due) as ->. { rewrite <-(resume_after_alike r s1 s2 H) in D2. congruence. }
  assert (k1 = k2) as <-.
  { destruct k1 as [n1 i1], k2 as [n2 i2]. cbn [snd fst] in *. f_equal; [|congruence].
    unfold run_rule in E1, E2.
    apply M_bind_Ok_inv in E1 as (x1 & y1 & [= <- <-] & E1). apply M_bind_Ok_inv in E2 as (x2 & y2 & [= <- <-] & E2).
    apply M_bind_Ok_inv in E1 as (d1 & z1 & G1 & E1). apply M_bind_Ok_inv in E2 as (d2 & z2 & G2 & E2).
    unfold liftR in G1, G2. injection G1 as G1 <-. injection G2 as G2 <-.
    assert (d1 = due) as -> by congruence. assert (d2 = due) as -> by congruence.
    apply M_bind_Ok_inv in E1 as (m1 & w1 & K1 & E1). apply M_bind_Ok_inv in E2 as (m2 & w2 & K2 & E2).
    injection E1 as <- _ _. injection E2 as <- _ _. idtac.
    eapply (foldM_run_date_alike r due acc.1 s1 s2); [exact L1|exact L2|exact H|exact K1|exact K2]. }
  eapply IH; [by destruct M1|by destruct M2| |exact F1|exact F2]. by eapply seen_alike_after.
Qed.

Lemma run_fold asOf limit s res s' :
  run asOf limit s = (Ok res, s') <->
  foldM (run_rule asOf limit) (0, []) (List.filter (fun rule => negb (rule_archived rule)) (rules s)) s
  = (Ok (mr_created res, mr_incomplete res), s').
Proof.
  unfold run, mbind, M_bind, getS. destruct (foldM _ _ _ s) as [[[n l]|e] s1]; split; intros H; simplify_eq; try done.
  - by injection H as <- <-.
  - by destruct res.
Qed.

(** ** The rules of a live device *)

(** Ids as the editor draws them. *)
Definition rule_plain (r : RecurringRule) : Prop :=
  str_forall (fun c => negb (Ascii.eqb c ":")) (rule_id r) = true.

Lemma elem_of_rules s r : live s -> r ∈ rules s <-> rows s !! (ERecurringRules, rule_id r) = Some (ARule r).
Proof.
  intros Hl. unfold rules. rw elem_of_table_of. split.
  - intros (id & v & Hv & Hr). destruct (live_row _ _ _ _ Hl Hv) as [_ Hid]. destruct v; try done.
    injection Hr as ->. cbn in Hid. by rw Hid.
  - intros H. by exists (rule_id r), (ARule r).
Qed.

Lemma get_rule s id r :
  live s -> get_of as_rule ERecurringRules id s = Some r -> rule_id r = id /\ r ∈ rules s.
Proof.
  intros Hl. unfold get_of, table_get. destruct (rows s !! (ERecurringRules, id)) as [v|] eqn:E; [|done]. cbn.
  intros Hr. destruct (live_row _ _ _ _ Hl E) as [_ Hid]. destruct v; try done. injection Hr as ->. cbn in Hid.
  split; [done|]. apply elem_of_rules; [done|]. by rw Hid.
Qed.

Lemma rules_NoDup s : live s -> NoDup (map rule_id (rules s)).
Proof.
  intros Hl. apply table_of_NoDup. intros id v r Hv Hr. destruct (live_row _ _ _ _ Hl Hv) as [_ Hid].
  destruct v; try done. by injection Hr as ->.
Qed.

Lemma active_rules_NoDup s :
  live s -> NoDup (map rule_id (List.filter (fun rule => negb (rule_archived rule)) (rules s))).
Proof.
  intros Hl%rules_NoDup. induction (rules s) as [|r l IH]; [done|]. cbn [map] in Hl. apply NoDup_cons in Hl as [Hn Hl].
  cbn [List.filter]. destruct (negb _); [|auto]. cbn [map]. apply NoDup_cons. split; [|auto].
  intros (x & He & [Hx _]%elem_of_filter_b)%list_elem_of_fmap. apply Hn. rw He. apply list_elem_of_fmap. by exists x.
Qed.

Lemma active_rules_run asOf s :
  (forall r, r ∈ rules s -> rule_archived r = false -> rule_runs asOf r) ->
  Forall (rule_runs asOf) (List.filter (fun rule => negb (rule_archived rule)) (rules s)).
Proof. intros H. apply Forall_forall. intros r [Hr Ha%negb_true_iff]%elem_of_filter_b. auto. Qed.

Lemma materialised_rules ids n s s' : materialised ids n s s' -> live s -> rules s' = rules s.
Proof.
  intros [L S K _ _] Hl. unfold rules, table_of. f_equal. apply table_rows_ext. intros id.
  destruct (decide (hasHistory ERecurringRules id s = true)) as [H|H]; rw (hasHistory_seen s _ id Hl) in H.
  - by apply K.
  - rewrite ->!live_fresh_row; [done|done|done|done|]. rw S. naive_solver.
Qed.

(** The effect of a skip that records a new date. *)
Lemma skip_spec ruleId date s s1 rule :
  live s -> get_of as_rule ERecurringRules ruleId s = Some rule -> date ∉ rule_skipped rule ->
  skip ruleId date s = (Ok tt, s1) ->
  exists rule', live s1 /\ rule_id rule' = ruleId
    /\ rule_skipped rule' = js_sort cmp_string (rule_skipped rule ++ [date])%list
    /\ rows s1 !! (ERecurringRules, ruleId) = Some (ARule rule')
    /\ (forall id, id <> ruleId -> rows s1 !! (ERecurringRules, id) = rows s !! (ERecurringRules, id))
    /\ rows s1 !! (ETransactions, occurrenceId ruleId date) = None.
Proof.
  intros Hl Hget Hnew. destruct (get_rule _ _ _ Hl Hget) as [Hid _].
  unfold skip. intros (s0 & t & [= <- <-] & E)%M_bind_Ok_inv. rw Hget in E.
  rewrite ->bool_decide_eq_false_2 in E by done.
  set (v := ARule (set_skipped _ rule)) in *.
  apply M_bind_Ok_inv in E as (v' & s2 & Hput & E). destruct (put_live _ _ _ _ _ Hl Hput) as (L2 & [st ->] & Hr & _).
  assert (entity_id v = ruleId) as Hev by done. rw Hev in Hr.
  apply M_bind_Ok_inv in E as (s2' & t & [= <- <-] & E).
  assert (exists rule', set_updatedAt st v = ARule rule' /\ rule_id rule' = ruleId
    /\ rule_skipped rule' = js_sort cmp_string (rule_skipped rule ++ [date])%list) as (rule' & Hv' & Hid' & Hsk').
  { by eexists. }
  rw Hv' in Hr. exists rule'.
  assert (live s1 /\ rows s1 = delete (ETransactions, occurrenceId ruleId date) (rows s2)) as [L1 Hr1].
  { unfold table_get in E. destruct (rows s2 !! (ETransactions, _)) eqn:Et.
    - destruct (remove_live _ _ _ _ L2 E) as (? & ? & _). done.
    - injection E as <-. split; [done|]. by rewrite ->delete_id. }
  rw Hr1 Hr. split_and!; [done..| | |].
  - rewrite ->lookup_delete_ne by done. apply lookup_insert_eq.
  - intros id Hne. rewrite ->lookup_delete_ne by done. apply lookup_insert_ne. congruence.
  - apply lookup_delete_eq.
Qed.

(** A run leaves the place of an occurrence alone if the ledger has seen it, or if the rule
    leaves its date out. *)
Lemma run_spares ruleId date asOf limit s res s' :
  live s -> (forall r, r ∈ rules s -> rule_plain r) -> str_forall (fun c => negb (Ascii.eqb c ":")) ruleId = true ->
  seen ETransactions (occurrenceId ruleId date) s
  \/ (forall r, r ∈ rules s -> rule_id r = ruleId -> date ∈ rule_skipped r) ->
  run asOf limit s = (Ok res, s') ->
  rows s' !! (ETransactions, occurrenceId ruleId date) = rows s !! (ETransactions, occurrenceId ruleId date).
Proof.
  intros Hl Hplain Hid Hcase E. destruct (run_materialised _ _ _ _ _ Hl E) as (ids & [L' S K N C] & Hall).
  destruct (decide (hasHistory ETransactions (occurrenceId ruleId date) s = true)) as [Hh|Hh];
    rw (hasHistory_seen s ETransactions (occurrenceId ruleId date) Hl) in Hh; [by apply K|].
  destruct Hcase as [?|Hskip]; [done|].
  rewrite (live_fresh_row s) //. apply live_fresh_row; [done|]. intros Hs.
  destruct (N _ Hh Hs) as (r & d & now & st & Hrd & Hoid & _).
  destruct (Hall r d Hrd) as ([Hr _]%elem_of_filter_b & _ & Hsk).
  apply occurrenceId_inj in Hoid as [He Hd]; [|done|by apply Hplain]. subst d. apply Hsk. by apply Hskip.
Qed.

(** A device that has heard of more has seen more. *)
Lemma seen_more s h s' h' e id :
  device_history s h -> unique_stamps h -> device_history s' h' -> unique_stamps h' ->
  (forall op, op ∈ h -> exists o, o ∈ h' /\ same_key (op_entity op) (op_entityId op) o) -> seen e id s -> seen e id s'.
Proof.
  intros D U D' U' Hsub Hs. pose proof (device_live s h D U) as Hl. pose proof (device_live s' h' D' U') as Hl'.
  destruct (device_inv s h D U) as (c & Hi & _). destruct (device_inv s' h' D' U') as (c' & Hi' & _).
  apply hasHistory_seen; [done|]. apply hasHistory_seen in Hs; [|done]. apply (hasHistory_iff s h) in Hs as (op & Hop & He & Hid); [|done].
  destruct (Hsub op Hop) as (o & Ho & Heo & Hio). apply (hasHistory_iff s' h'); [done|]. exists o. split; [done|].
  split; congruence.
Qed.

(** What a run wrote under an id is the occurrence of one rule and date. *)
Lemma written_alike asOf limit ids1 n1 s1 s1' ids2 n2 s2 s2' id :
  live s1 -> live s2 -> rules s1 = rules s2 -> (forall r, r ∈ rules s1 -> rule_plain r) ->
  materialised ids1 n1 s1 s1' -> materialised ids2 n2 s2 s2' ->
  allowed asOf (List.filter (fun rule => negb (rule_archived rule)) (rules s1)) ids1 ->
  allowed limit (List.filter (fun rule => negb (rule_archived rule)) (rules s2)) ids2 ->
  ~ seen ETransactions id s1 -> seen ETransactions id s1' -> ~ seen ETransactions id s2 -> seen ETransactions id s2' ->
  exists r d now1 now2 st1 st2,
    rows s1' !! (ETransactions, id) = Some (set_updatedAt st1 (ATransaction (toTransaction now1 r id d)))
    /\ rows s2' !! (ETransactions, id) = Some (set_updatedAt st2 (ATransaction (toTransaction now2 r id d))).
Proof.
  intros L1 L2 Hr Hplain [_ _ _ N1 _] [_ _ _ N2 _] A1 A2 H1 H1' H2 H2'.
  destruct (N1 id H1 H1') as (r1 & d1 & now1 & st1 & Hin1 & Hid1 & Hw1). destruct (N2 id H2 H2') as (r2 & d2 & now2 & st2 & Hin2 & Hid2 & Hw2).
  destruct (A1 _ _ Hin1) as ([Hr1 _]%elem_of_filter_b & _). destruct (A2 _ _ Hin2) as ([Hr2 _]%elem_of_filter_b & _). rewrite -Hr in Hr2.
  pose proof Hid2 as E. rewrite Hid1 in E. apply occurrenceId_inj in E as [He ->]; [|by apply Hplain..].
  assert (r1 = r2) as -> by (apply elem_of_rules in Hr1, Hr2; [congruence|done..]).
  exists r2, d2, now1, now2, st1, st2. by split.
Qed.

(** * Properties *)

(** C30: A run adds to the ledger exactly [created] transactions, each copied from an
    active rule for a date that is due and not skipped, under an id the ledger had
    never seen; a transaction the user edited or deleted, and every other row, is
    left as it was. *)
Theorem run_adds_only_unseen_occurrences s h asOf limit res s' :
  device_history s h -> unique_stamps h -> run asOf limit s = (Ok res, s') ->
  Z.of_nat (size (rows s')) = Z.of_nat (size (rows s)) + mr_created res
  /\ (forall e id, hasHistory e id s = true -> rows s' !! (e, id) = rows s !! (e, id))
  /\ (forall e id, hasHistory e id s = false -> hasHistory e id s' = true ->
       e = ETransactions /\ exists r d now st,
         r ∈ rules s /\ rule_archived r = false /\ String.leb d asOf = true /\ d ∉ rule_skipped r
         /\ id = occurrenceId (rule_id r) d
         /\ rows s' !! (e, id) = Some (set_updatedAt st (ATransaction (toTransaction now r id d)))).
Proof.
  intros H Hu E. pose proof (device_live s h H Hu) as Hl.
  destruct (run_materialised _ _ _ _ _ Hl E) as (ids & [L S K N C] & Hall). split; [lia|]. split.
  - intros e id Hs. apply K. by apply hasHistory_seen.
  - intros e id Hn Hs. assert (~ seen e id s) as Hns by (rw -hasHistory_seen; [congruence|done]).
    apply hasHistory_seen in Hs; [|done]. pose proof Hs as [?|(-> & _)]%S; [done|]. split; [done|].
    destruct (N id Hns Hs) as (r & d & now & st & Hin & Hid & Hrow). exists r, d, now, st.
    destruct (Hall r d Hin) as ([Hr Ha]%elem_of_filter_b & Hd & Hsk).
    split_and!; [done|by apply negb_true_iff|done..].
Qed.

(** The materialiser may run any number of times: after a run that reached the end
    of every rule, running again for the same day creates nothing and leaves the
    whole application state as it is. *)
Theorem run_again_changes_nothing s h asOf limit n s' :
  device_history s h -> unique_stamps h -> (1 <= limit)%nat ->
  (forall r, r ∈ rules s -> rule_archived r = false -> rule_runs asOf r) ->
  run (ymd_text asOf) limit s = (Ok (mkMatResult n []), s') ->
  run (ymd_text asOf) limit s' = (Ok (mkMatResult 0 []), s').
Proof.
  intros H Hu Hlim Hruns E. pose proof (device_live s h H Hu) as Hl.
  apply run_fold in E. cbn [mr_created mr_incomplete] in E.
  destruct (foldM_run_rule _ _ _ _ _ _ _ Hl E) as (ids & Hmat & _).
  destruct (foldM_catches_up _ _ _ _ _ _ _ Hl (active_rules_run asOf s Hruns) (active_rules_NoDup s Hl) Hlim E) as [_ Hcu].
  apply run_fold. rw (materialised_rules _ _ _ _ Hmat Hl). apply foldM_caught_up; [by destruct Hmat|]. by apply Hcu.
Qed.

(** C31: Two devices with the same rules and the same knowledge of past transactions
    create the same transactions on the same day: as many, the same rules left
    unfinished, and afterwards the same transaction ids known; and under a new id both have
    written the occurrence of the same rule on the same date, alike but for the time of
    creation and the stamp. *)
Theorem devices_materialise_alike s1 h1 s2 h2 asOf limit r1 r2 s1' s2' :
  device_history s1 h1 -> unique_stamps h1 -> device_history s2 h2 -> unique_stamps h2 ->
  rules s1 = rules s2 -> (forall r, r ∈ rules s1 -> rule_plain r) ->
  (forall id, hasHistory ETransactions id s1 = hasHistory ETransactions id s2) ->
  run asOf limit s1 = (Ok r1, s1') -> run asOf limit s2 = (Ok r2, s2') ->
  r1 = r2 /\ (forall id, hasHistory ETransactions id s1' = hasHistory ETransactions id s2')
  /\ forall id, hasHistory ETransactions id s1 = false -> hasHistory ETransactions id s1' = true ->
       exists r d now1 now2 st1 st2,
         rows s1' !! (ETransactions, id) = Some (set_updatedAt st1 (ATransaction (toTransaction now1 r id d)))
         /\ rows s2' !! (ETransactions, id) = Some (set_updatedAt st2 (ATransaction (toTransaction now2 r id d))).
Proof.
  intros D1 U1 D2 U2 Hr Hplain Hh E1 E2.
  pose proof (device_live _ _ D1 U1) as L1. pose proof (device_live _ _ D2 U2) as L2.
  destruct (run_materialised _ _ _ _ _ L1 E1) as (ids1 & M1 & A1). pose proof (ma_live _ _ _ _ M1) as L1'.
  destruct (run_materialised _ _ _ _ _ L2 E2) as (ids2 & M2 & A2). pose proof (ma_live _ _ _ _ M2) as L2'.
  apply run_fold in E1, E2. rw Hr in E1.
  assert (forall id, seen ETransactions id s1 <-> seen ETransactions id s2) as Hse.
  { intros id. rewrite <-(hasHistory_seen s1 _ _ L1), <-(hasHistory_seen s2 _ _ L2). by rw Hh. }
  destruct (foldM_run_rule_alike _ _ _ _ _ _ _ _ _ _ L1 L2 Hse E1 E2) as [He Hs].
  split_and!; [destruct r1, r2; cbn in He; congruence| |].
  - intros id. apply eq_true_iff_eq. rw !hasHistory_seen; [|done..]. apply Hs.
  - intros id Hn Hy. apply hasHistory_seen in Hy; [|done].
    assert (~ seen ETransactions id s1) as Hn1 by (intros H%hasHistory_seen; [congruence|done]).
    eapply (written_alike asOf asOf ids1 _ s1 s1' ids2 _ s2 s2'); try done; [by rewrite -Hse|by apply Hs].
Qed.

(** C32: A skip is final.  Once an occurrence is skipped its transaction is gone and the
    skip is on the rule.  From then on no run brings it back, on this device or on any that
    has heard of as much, however many runs and whatever edits and merges came between: if
    the transaction had been created before, because its id is remembered, even by a rule
    that no longer lists the skip; if it had not, as long as the rule lists it. *)
Theorem skip_is_final s h ruleId date rule s1 :
  device_history s h -> unique_stamps h ->
  get_of as_rule ERecurringRules ruleId s = Some rule -> date ∉ rule_skipped rule -> rule_plain rule ->
  skip ruleId date s = (Ok tt, s1) ->
  (rows s1 !! (ETransactions, occurrenceId ruleId date) = None
   /\ exists r, rows s1 !! (ERecurringRules, ruleId) = Some (ARule r)
        /\ rule_skipped r = js_sort cmp_string (rule_skipped rule ++ [date])%list)
  /\ forall s2 h2 asOf limit res s3,
       device_history s2 h2 -> unique_stamps h2 ->
       (forall op, op ∈ h -> exists o, o ∈ h2 /\ same_key (op_entity op) (op_entityId op) o) ->
       (forall r, r ∈ rules s2 -> rule_plain r) ->
       hasHistory ETransactions (occurrenceId ruleId date) s = true
       \/ (forall r, r ∈ rules s2 -> rule_id r = ruleId -> date ∈ rule_skipped r) ->
       run asOf limit s2 = (Ok res, s3) ->
       rows s3 !! (ETransactions, occurrenceId ruleId date) = rows s2 !! (ETransactions, occurrenceId ruleId date).
Proof.
  intros H Hu Hget Hnew Hp E. pose proof (device_live s h H Hu) as Hl. destruct (get_rule _ _ _ Hl Hget) as [Hid _].
  destruct (skip_spec _ _ _ _ _ Hl Hget Hnew E) as (rule' & _ & _ & Hsk' & Hrow & _ & Htx). split; [by split; [|exists rule']|].
  intros s2 h2 asOf limit res s3 H2 Hu2 Hsub Hplain Hcase. apply run_spares; [by eapply device_live|done|by rewrite -Hid|].
  destruct Hcase as [Hh|?]; [left|by right]. apply hasHistory_seen in Hh; [|done]. by eapply (seen_more s h s2 h2).
Qed.

(** Saving a rule either stores exactly the draft with its defaults and a positive
    amount, and then the stored rule can be scheduled, or refuses it with a message
    and writes nothing. *)
Theorem save_rule_stores_or_refuses draft s :
  let rule := fill_rule (nows s (reads s)) draft in
  (rule_wf rule ->
     forall v s', save_rule draft s = (Ok v, s') ->
       (exists st, v = set_updatedAt st (ARule rule))
       /\ rows s' = <[(ERecurringRules, rd_id draft) := v]> (rows s))
  /\ (~ rule_wf rule ->
     exists m s', save_rule draft s = (Throw (JsError m), s') /\ rows s' = rows s /\ oplog s' = oplog s).
Proof.
  intros rule. split.
  - intros Hwf v s'. unfold save_rule. intros (now & s1 & [= <- <-] & E)%M_bind_Ok_inv. fold rule in E.
    unfold mbind, M_bind, liftR in E. rewrite ->(proj2 (assertValid_rule_iff rule) Hwf) in E.
    apply put_rows in E as [Hv Hr]. split; [by eexists|]. exact Hr.
  - intros Hbad. destruct (assertValid_rule_cases rule) as [H%assertValid_rule_iff|[m H]]; [done|].
    exists m. unfold save_rule, mbind, M_bind, Date_now, liftR. fold rule. rw H. by eexists.
Qed.

(** * Witnesses *)

(** A device with one monthly rule, run on the last day of April. *)
Definition demo_rule_entity : AnyEntity := ARule (demo_rule UMonth "2026-01-31").
Definition demoR : App := snd (put ERecurringRules demo_rule_entity (demo_device "a")).
Definition demoR_op : Operation :=
  mkOp (encodeHlc (mkHlcState 1000 0) "a") ERecurringRules "rent" Put
    (Some (set_updatedAt (encodeHlc (mkHlcState 1000 0) "a") demo_rule_entity)) "a".
Definition demoR_ran : App := snd (run "2026-04-30" 500 demoR).
Definition demoR_skipped : App := snd (skip "rent" "2026-02-28" demoR).

Lemma demoR_history : device_history demoR [demoR_op].
Proof.
  refine (dh_put (demo_device "a") [] ERecurringRules demo_rule_entity
    (set_updatedAt (encodeHlc (mkHlcState 1000 0) "a") demo_rule_entity) demoR (demo_device_history "a" eq_refl) _).
  by vm_compute.
Qed.

Lemma demoR_unique : unique_stamps [demoR_op].
Proof. apply demo_unique. by vm_compute. Qed.

Lemma demoR_run : run "2026-04-30" 500 demoR = (Ok (mkMatResult 4 []), demoR_ran).
Proof. by vm_compute. Qed.

Lemma run_adds_only_unseen_occurrences_witness :
  Z.of_nat (size (rows demoR_ran)) = Z.of_nat (size (rows demoR)) + mr_created (mkMatResult 4 []).
Proof.
  exact (proj1 (run_adds_only_unseen_occurrences demoR [demoR_op] "2026-04-30" 500 (mkMatResult 4 []) demoR_ran
    demoR_history demoR_unique demoR_run)).
Defined.

Lemma demoR_rules r : r ∈ rules demoR -> rule_runs demo_asOf r /\ rule_plain r.
Proof.
  assert (rules demoR = [mkRule "rent" "Rent" Expense 120000 "USD" "acc" None None "" "" [] 1 UMonth "2026-01-31"
                           None None [] false 0 (encodeHlc (mkHlcState 1000 0) "a")]) as -> by by vm_compute.
  intros ->%list_elem_of_singleton. split; [|done]. split_and!; [done..|]. exists demo_start, 4%nat.
  split; [|unfold MAX_SCAN; lia]. destruct demo_schedule_ok. by split.
Qed.

Lemma run_again_changes_nothing_witness :
  run (ymd_text demo_asOf) 500 demoR_ran = (Ok (mkMatResult 0 []), demoR_ran).
Proof.
  apply (run_again_changes_nothing demoR [demoR_op] demo_asOf 500 4 demoR_ran demoR_history demoR_unique);
    [lia | intros r Hr _; by apply demoR_rules | exact demoR_run].
Defined.

(** The other device learns the rule and materialises it on its own, at its own time. *)
Definition demoRb0 : App := snd (observeStamps [op_hlc demoR_op] (demo_device "b")).
Definition demoRb : App := snd (Ledger.merge [demoR_op] demoRb0).
Definition demoRb_ran : App := snd (run "2026-04-30" 500 demoRb).

Lemma demoRb_history : device_history demoRb ([demoR_op] ++ [])%list.
Proof.
  assert (exists r d, hlc_ok r /\ no_dash d = true /\ op_hlc demoR_op = encodeHlc r d) as Hst.
  { exists (mkHlcState 1000 0), "a". by split_and!; try (unfold hlc_ok; simpl; lia). }
  refine (dh_receive (demo_device "b") [] [op_hlc demoR_op] [demoR_op] demoRb0 demoRb 1 (demo_device_history "b" eq_refl) _ _ _ _ _);
    [by vm_compute..| | |].
  - constructor; [|constructor]. split; [exact Hst|by eexists].
  - constructor; [exact Hst|constructor].
  - constructor; [|constructor]. exists (op_hlc demoR_op). split; [constructor|by vm_compute].
Qed.

Lemma demoRb_run : run "2026-04-30" 500 demoRb = (Ok (mkMatResult 4 []), demoRb_ran).
Proof. by vm_compute. Qed.

Lemma demoRb_knows id : hasHistory ETransactions id demoR = hasHistory ETransactions id demoRb.
Proof.
  destruct (device_inv _ _ demoR_history demoR_unique) as (c & Hi & _). destruct (device_inv _ _ demoRb_history demoR_unique) as (c' & Hi' & _).
  pose proof (hasHistory_iff _ _ ETransactions id Hi) as H1. pose proof (hasHistory_iff _ _ ETransactions id Hi') as H2.
  apply eq_true_iff_eq. tauto.
Qed.

Lemma devices_materialise_alike_witness :
  hasHistory ETransactions (occurrenceId "rent" "2026-02-28") demoRb_ran = true
  /\ rows demoR_ran !! (ETransactions, occurrenceId "rent" "2026-02-28")
     <> rows demoRb_ran !! (ETransactions, occurrenceId "rent" "2026-02-28")
  /\ exists t, rows demoRb_ran !! (ETransactions, occurrenceId "rent" "2026-02-28") = Some (ATransaction t).
Proof.
  destruct (devices_materialise_alike demoR [demoR_op] demoRb ([demoR_op] ++ [])%list "2026-04-30" 500 (mkMatResult 4 []) (mkMatResult 4 []) demoR_ran demoRb_ran
    demoR_history demoR_unique demoRb_history demoR_unique) as (_ & Hh & Hw).
  - by vm_compute.
  - intros r Hr. by apply demoR_rules.
  - exact demoRb_knows.
  - exact demoR_run.
  - exact demoRb_run.
  - split_and!; [rewrite -Hh; by vm_compute|by vm_compute|].
    destruct (Hw (occurrenceId "rent" "2026-02-28")) as (r & d & now1 & now2 & st1 & st2 & E1 & E2); [by vm_compute..|].
    rewrite E2. eexists. reflexivity.
Defined.

Definition demo_rule_stored : RecurringRule :=
  mkRule "rent" "Rent" Expense 120000 "USD" "acc" None None "" "" [] 1 UMonth "2026-01-31"
    None None [] false 0 (encodeHlc (mkHlcState 1000 0) "a").
Lemma demoR_skip :
  get_of as_rule ERecurringRules "rent" demoR = Some demo_rule_stored
  /\ skip "rent" "2026-02-28" demoR = (Ok tt, demoR_skipped).
Proof. by vm_compute. Qed.

(** An occurrence is there, and is skipped; then an older copy of the rule is written over
    it, as another device may.  The run that follows does not bring the occurrence back. *)
Definition rent_paid : AnyEntity := ATransaction (toTransaction 0 demo_rule_stored "rent:2026-02-28" "2026-02-28").
Definition rule_skipping : AnyEntity := ARule (set_skipped ["2026-02-28"] demo_rule_stored).
Definition put_value (e : EntityName) (v : AnyEntity) (s : App) : AnyEntity := match fst (put e v s) with Ok w => w | Throw _ => v end.
Definition put_op (e : EntityName) (v : AnyEntity) (s : App) : Operation :=
  let w := put_value e v s in mkOp (entity_updatedAt w) e (entity_id w) Put (Some w) (device_of s).
Definition demoR_paid : App := snd (put ETransactions rent_paid demoR).
Definition demoR_marked : App := snd (put ERecurringRules rule_skipping demoR_paid).
Definition demoR_gone : App := snd (Ledger.remove ETransactions "rent:2026-02-28" demoR_marked).
Definition gone_op : Operation :=
  mkOp match clock demoR_gone with Some c => encodeHlc (clock_state c) (clock_device c) | None => "" end
    ETransactions "rent:2026-02-28" Domain.Delete None (device_of demoR_marked).
Definition demoR_edited : App := snd (put ERecurringRules demo_rule_entity demoR_gone).
Definition paid_ops : list Operation := [put_op ETransactions rent_paid demoR; demoR_op].
Definition edited_ops : list Operation :=
  [put_op ERecurringRules demo_rule_entity demoR_gone; gone_op; put_op ERecurringRules rule_skipping demoR_paid]
  ++ paid_ops.

Lemma paid_history : device_history demoR_paid paid_ops.
Proof. refine (dh_put demoR [demoR_op] ETransactions rent_paid (put_value ETransactions rent_paid demoR) demoR_paid demoR_history _). by vm_compute. Qed.

Lemma edited_history : device_history demoR_edited edited_ops.
Proof.
  refine (dh_put demoR_gone (gone_op :: put_op ERecurringRules rule_skipping demoR_paid :: paid_ops) ERecurringRules demo_rule_entity
    (put_value ERecurringRules demo_rule_entity demoR_gone) demoR_edited _ _); [|by vm_compute].
  refine (dh_remove demoR_marked (put_op ERecurringRules rule_skipping demoR_paid :: paid_ops) ETransactions "rent:2026-02-28" demoR_gone _ _);
    [|by vm_compute].
  refine (dh_put demoR_paid paid_ops ERecurringRules rule_skipping (put_value ERecurringRules rule_skipping demoR_paid) demoR_marked paid_history _).
  by vm_compute.
Qed.

Lemma demoR_gone_run : skip "rent" "2026-02-28" demoR_paid = (Ok tt, demoR_gone).
Proof. by vm_compute. Qed.

Definition demoR_edited_ran : result MaterialisationResult * App := run "2026-06-30" 500 demoR_edited.
Lemma demoR_edited_run : demoR_edited_ran = (Ok (mkMatResult 4 []), snd demoR_edited_ran).
Proof. by vm_compute. Qed.

Lemma only_id l r i : map rule_id l = [i] -> r ∈ l -> rule_id r = i.
Proof. intros E Hr. assert (rule_id r ∈ map rule_id l) as H by (apply list_elem_of_fmap; by exists r). rewrite E in H. by apply list_elem_of_singleton in H. Qed.
Lemma demoR_edited_ids : map rule_id (rules demoR_edited) = ["rent"].
Proof. by vm_compute. Qed.

Lemma skip_is_final_witness :
  map rule_skipped (rules demoR_edited) = [[]]
  /\ rows (snd demoR_edited_ran) !! (ETransactions, occurrenceId "rent" "2026-02-28") = None.
Proof.
  split; [by vm_compute|].
  destruct (skip_is_final demoR_paid paid_ops "rent" "2026-02-28" demo_rule_stored demoR_gone paid_history) as [_ H].
  - apply demo_unique. by vm_compute.
  - by vm_compute.
  - apply not_elem_of_nil.
  - done.
  - exact demoR_gone_run.
  - rewrite (H demoR_edited edited_ops "2026-06-30" 500%nat (mkMatResult 4 []) (snd demoR_edited_ran) edited_history).
    + by vm_compute.
    + apply demo_unique. by vm_compute.
    + intros op Hop. exists op. split; [by do 3 right|by split].
    + intros r Hr. unfold rule_plain. rewrite (only_id (rules demoR_edited) r "rent" demoR_edited_ids Hr). reflexivity.
    + left. by vm_compute.
    + exact demoR_edited_run.
Defined.

(** A skip of an occurrence that was not there yet does not survive such a copy. *)
Lemma an_edit_can_drop_a_skip :
  let s := snd (put ERecurringRules demo_rule_entity demoR_skipped) in
  rows (snd (run "2026-04-30" 500 s)) !! (ETransactions, occurrenceId "rent" "2026-02-28") <> None.
Proof. vm_compute. discriminate. Qed.
