(* ===== verification/Cards.v ===== *)
(** Credit cards ([app/src/app/core/cards]): the statement cycle and what is owed
    ([statement.ts]), paying a bill ([pay-bill.service.ts]) and the list of bills
    ([card-bills.service.ts]). *)
From S2P Require Export Transactions Groups.
#[local] Open Scope string_scope.
#[local] Open Scope Z_scope.

(** * Definitions *)

(** ** statement.ts *)

Definition dayOfMonth (year month day : Z) : string :=
  let clamped := Z.min (Z.max day 1) (daysInMonth year month) in
  padStart (num_to_string year) 4 "0" ++ "-" ++ padStart (num_to_string month) 2 "0"
  ++ "-" ++ padStart (num_to_string clamped) 2 "0".

(** The statement closing in the month containing [date]. *)
Definition statementClose (statementDay : Z) (date : string) : result string :=
  p ← parts date; mret (dayOfMonth (year p) (month p) statementDay).

Definition lastStatementDate (statementDay : Z) (asOf : string) : result string :=
  p ← parts asOf;
  let thisMonth := dayOfMonth (year p) (month p) statementDay in
  if String.leb thisMonth asOf then mret thisMonth
  else before ← addMonths thisMonth (-1); statementClose statementDay before.

Definition dueDateFor (dueDay : Z) (statementDate : string) : result string :=
  p ← parts statementDate;
  let sameMonth := dayOfMonth (year p) (month p) dueDay in
  if String.ltb statementDate sameMonth then mret sameMonth
  else
    next ← addMonths statementDate 1;
    q ← parts next;
    mret (dayOfMonth (year q) (month q) dueDay).

(** The two days of a cycle, when the account has both. *)
Definition cycle_of (account : Account) : option (Z * Z) :=
  match acc_statementDay account, acc_dueDay account with
  | Some statementDay, Some dueDay => Some (statementDay, dueDay)
  | _, _ => None
  end.
Definition hasCycle (account : Account) : bool :=
  match cycle_of account with Some _ => true | None => false end.

Definition availableCredit (balance : Minor) (creditLimit : option Minor) : option Minor :=
  (fun limit => limit + balance) <$> creditLimit.

Record StatementSummary : Type := mkSummary {
  ss_closedOn : string; ss_dueOn : string; ss_statementBalance : Minor; ss_paidSince : Minor;
  ss_remaining : Minor; ss_currentBalance : Minor }.

Definition owed (balance : Minor) : Minor := if balance =? 0 then 0 else - balance.

Fixpoint balance_loop (id : string) (transactions : list Transaction) (date : string) (total : Minor) : Minor :=
  match transactions with
  | [] => total
  | txn :: rest =>
      balance_loop id rest date (if String.ltb date (txn_date txn) then total else total + signedFor id txn)
  end.

Definition balanceAsOf (account : Account) (transactions : list Transaction) (date : string) : Minor :=
  balance_loop (acc_id account) transactions date (acc_openingBalance account).

Fixpoint paid_loop (id : string) (transactions : list Transaction) (closedOn asOf : string) (paidSince : Minor) : Minor :=
  match transactions with
  | [] => paidSince
  | txn :: rest =>
      paid_loop id rest closedOn asOf
        (if String.leb (txn_date txn) closedOn || String.ltb asOf (txn_date txn) then paidSince
         else let effect := signedFor id txn in if 0 <? effect then paidSince + effect else paidSince)
  end.

Definition summariseStatement (account : Account) (transactions : list Transaction) (asOf : string)
  : result (option StatementSummary) :=
  match cycle_of account with
  | None => Ok None
  | Some (statementDay, dueDay) =>
      closedOn ← lastStatementDate statementDay asOf;
      dueOn ← dueDateFor dueDay closedOn;
      let statementBalance := owed (balanceAsOf account transactions closedOn) in
      let currentBalance := owed (balanceAsOf account transactions asOf) in
      let paidSince := paid_loop (acc_id account) transactions closedOn asOf 0 in
      mret (Some (mkSummary closedOn dueOn statementBalance paidSince
                    (Z.max (statementBalance - paidSince) 0) currentBalance))
  end.

(** [date.split('-').map(Number)] of a date. *)
Definition split_date (date : string) : result Ymd :=
  match split_on "-" date with
  | y :: m :: d :: _ =>
      match slice_number y, slice_number m, slice_number d with
      | Some y, Some m, Some d => Ok (mkYmd y m d)
      | _, _, _ => Throw (OutsideModel "daysBetween of a string that is not a date")
      end
  | _ => Throw (OutsideModel "daysBetween of a string that is not a date")
  end.

(** The quotient is of whole days, so [Math.round] leaves it as it is. *)
Definition daysBetween (from to : string) : result Z :=
  f ← split_date from;
  t ← split_date to;
  mret (date_utc (year t) (month t - 1) (day t) - date_utc (year f) (month f - 1) (day f)).

Definition isDueSoon (summary : StatementSummary) (days : Z) (asOf : string) : result bool :=
  if ss_remaining summary <=? 0 then Ok false
  else if String.leb asOf (ss_dueOn summary) then
    n ← daysBetween asOf (ss_dueOn summary); mret (n <=? days)
  else Ok false.

(** ** pay-bill.service.ts *)

Record PayBillRequest : Type := mkPayBill {
  pb_card : Account; pb_from : Account; pb_amount : Minor; pb_date : option string; pb_note : option string }.

Definition touches (card : Account) (txn : Transaction) : bool :=
  String.eqb (txn_accountId txn) (acc_id card) || bool_decide (txn_counterAccountId txn = Some (acc_id card)).

Definition summarise (card : Account) (asOf : string) (s : App) : result (option StatementSummary) :=
  summariseStatement card (List.filter (touches card) (transactions s)) asOf.

Definition payment (today id : string) (request : PayBillRequest) : TransactionDraft :=
  mkTxnDraft id Transfer (pb_amount request) (acc_currency (pb_card request)) (acc_id (pb_from request))
    (default today (pb_date request)) (Some (Some (acc_id (pb_card request)))) (Some None)
    (acc_name (pb_card request)) (Some (default "" (pb_note request))) None (Some true) None None None.

Definition pay (today : string) (request : PayBillRequest) : M App AnyEntity :=
  let card := pb_card request in
  let from := pb_from request in
  if pb_amount request <=? 0 then throwM (JsError "A payment has to be more than nothing")
  else if String.eqb (acc_id from) (acc_id card) then throwM (JsError "A card cannot pay its own bill")
  else if negb (String.eqb (toUpperCase (acc_currency from)) (toUpperCase (acc_currency card))) then
    throwM (JsError (acc_name from ++ " is in " ++ acc_currency from ++ " and " ++ acc_name card ++ " is in "
                     ++ acc_currency card ++ ". Pay from an account in the same currency."))
  else
    id ← randomUUID;
    save_transaction (payment today id request).

(** ** card-bills.service.ts *)

Definition DUE_SOON_DAYS : Z := 14.

Record CardBill : Type := mkBill { cb_card : Account; cb_summary : StatementSummary }.

Fixpoint bills_loop (today : string) (transactions : list Transaction) (cards : list Account) : result (list CardBill) :=
  match cards with
  | [] => Ok []
  | card :: rest =>
      summary ← summariseStatement card transactions today;
      others ← bills_loop today transactions rest;
      mret (match summary with Some summary => mkBill card summary :: others | None => others end)
  end.

Definition bills `{!Locale} (today : string) (s : App) : result (list CardBill) :=
  let cards := List.filter (fun a => negb (acc_archived a) && isCreditCard a s) (accounts s) in
  found ← bills_loop today (transactions s) cards;
  mret (js_sort (fun a b => localeCompare (ss_dueOn (cb_summary a)) (ss_dueOn (cb_summary b))) found).

Fixpoint soon_loop (today : string) (bs : list CardBill) : result (list CardBill) :=
  match bs with
  | [] => Ok []
  | bill :: rest =>
      soon ← isDueSoon (cb_summary bill) DUE_SOON_DAYS today;
      others ← soon_loop today rest;
      mret (if soon : bool then bill :: others else others)
  end.

Definition dueSoon `{!Locale} (today : string) (s : App) : result (list CardBill) :=
  found ← bills today s; soon_loop today found.

(** * Specification *)

(** A date that carries a day of the month, the last day standing in for one the
    month does not have. *)
Definition carries (d : Z) (q : Ymd) : Prop := day q = Z.min (Z.max d 1) (daysInMonth (year q) (month q)).

(** What an account is charged by a transaction. *)
Definition charge (id : string) (txn : Transaction) : Z := Z.max (- signedFor id txn) 0.

Definition between (closedOn asOf : string) (txn : Transaction) : bool :=
  String.ltb closedOn (txn_date txn) && String.leb (txn_date txn) asOf.

(** * Lemmas *)

Section Cycle.
Context (a d : Z) (Ha : month_in_range a).

Lemma cycle_day_carries : carries d (cycle_day a d).
Proof. unfold carries. by rewrite cycle_day_length. Qed.

Lemma carries_cycle_day q : ymd_valid q -> carries d q -> month_index q = a -> q = cycle_day a d.
Proof.
  intros (Hy & Hm & Hd) Hq Hi. unfold carries in Hq. revert Hi. unfold month_index, cycle_day. intros Hi.
  assert (a / 12 = year q) as -> by div_lia. assert (a mod 12 + 1 = month q) as -> by div_lia.
  rewrite daysInMonth_length in Hq; [|lia..]. destruct q; cbn in *. by rewrite Hq.
Qed.

Lemma dayOfMonth_text q : month_index q = a -> 1 <= month q <= 12 -> dayOfMonth (year q) (month q) d = ymd_text (cycle_day a d).
Proof.
  revert Ha. unfold month_index, month_in_range. intros Hr Hi Hm.
  assert (a / 12 = year q) as E1 by div_lia. assert (a mod 12 + 1 = month q) as E2 by div_lia.
  unfold dayOfMonth, ymd_text, format, cycle_day. cbn [year month day].
  rewrite E1 E2 daysInMonth_length; [done|lia|done].
Qed.
End Cycle.

(** The closing date of a statement is the latest date carrying its day. *)
Lemma lastStatementDate_text sd p :
  ymd_valid p -> month_in_range (month_index p - 1) ->
  exists c, lastStatementDate sd (ymd_text p) = Ok (ymd_text c) /\ ymd_valid c /\ carries sd c
    /\ day_number c <= day_number p
    /\ (forall q, ymd_valid q -> carries sd q -> day_number q <= day_number p -> day_number q <= day_number c)
    /\ month_index p - 1 <= month_index c <= month_index p.
Proof.
  intros Hp Hr. set (a := month_index p) in *. pose proof (month_index_range p Hp) as Ha. fold a in Ha.
  assert (1 <= month p <= 12) as Hm by (by destruct Hp as (_ & ? & _)).
  pose proof (cycle_day_valid a sd Ha) as Vt. pose proof (cycle_day_valid (a - 1) sd Hr) as Vb.
  unfold lastStatementDate. rewrite parts_text // bind_Ok. cbv beta zeta. rewrite (dayOfMonth_text a sd Ha p eq_refl Hm) leb_text //.
  destruct (Z.leb_spec (day_number (cycle_day a sd)) (day_number p)) as [Hle|Hgt].
  - exists (cycle_day a sd). rewrite cycle_day_month. split_and!; [done|done|by apply cycle_day_carries|done| |lia..].
    intros q Hq Hc Hqp. destruct (Z.lt_trichotomy (month_index q) a) as [Hlt|[E|Hlt]].
    + apply Z.lt_le_incl, day_number_month_lt; [done..|by rewrite cycle_day_month].
    + by rewrite (carries_cycle_day a sd q Hq Hc E).
    + pose proof (day_number_month_lt p q Hp Hq Hlt). lia.
  - exists (cycle_day (a - 1) sd). rewrite cycle_day_month.
    assert (addMonths (ymd_text (cycle_day a sd)) (-1) = Ok (ymd_text (add_months (cycle_day a sd) (-1)))) as ->
      by (apply addMonths_text; [done|rewrite cycle_day_month; exact Hr]).
    assert (month_index (add_months (cycle_day a sd) (-1)) = a - 1) as Ei by (rewrite month_index_add_months cycle_day_month; lia).
    assert (ymd_valid (add_months (cycle_day a sd) (-1))) as Va by (apply add_months_valid; [done|rewrite cycle_day_month; exact Hr]).
    rewrite bind_Ok. unfold statementClose. rewrite parts_text // bind_Ok. cbv beta.
    rewrite (dayOfMonth_text (a - 1) sd Hr _ Ei); [|by destruct Va as (_ & ? & _)].
    assert (day_number (cycle_day (a - 1) sd) < day_number p) as Hlt
      by (apply day_number_month_lt; [done..|rewrite cycle_day_month; lia]).
    split_and!; [done|done|by apply cycle_day_carries|lia| |lia..].
    intros q Hq Hc Hqp. destruct (Z.lt_trichotomy (month_index q) (a - 1)) as [Hl|[E|Hl]].
    + apply Z.lt_le_incl, day_number_month_lt; [done..|by rewrite cycle_day_month].
    + by rewrite (carries_cycle_day (a - 1) sd q Hq Hc E).
    + destruct (Z.eq_dec (month_index q) a) as [E|Hne].
      * rewrite (carries_cycle_day a sd q Hq Hc E) in Hqp. lia.
      * pose proof (day_number_month_lt p q Hp Hq ltac:(lia)). lia.
Qed.

(** The due date is the first date after the close that carries its day. *)
Lemma dueDateFor_text dd c :
  ymd_valid c -> month_in_range (month_index c + 1) ->
  exists d, dueDateFor dd (ymd_text c) = Ok (ymd_text d) /\ ymd_valid d /\ carries dd d
    /\ day_number c < day_number d
    /\ (forall q, ymd_valid q -> carries dd q -> day_number c < day_number q -> day_number d <= day_number q).
Proof.
  intros Hc Hr. set (a := month_index c) in *. pose proof (month_index_range c Hc) as Ha. fold a in Ha.
  assert (1 <= month c <= 12) as Hm by (by destruct Hc as (_ & ? & _)).
  pose proof (cycle_day_valid a dd Ha) as Vt. pose proof (cycle_day_valid (a + 1) dd Hr) as Vn.
  unfold dueDateFor. rewrite parts_text // bind_Ok. cbv beta zeta. rewrite (dayOfMonth_text a dd Ha c eq_refl Hm) ltb_text //.
  destruct (Z.ltb_spec (day_number c) (day_number (cycle_day a dd))) as [Hlt|Hge].
  - exists (cycle_day a dd). split_and!; [done|done|by apply cycle_day_carries|done|].
    intros q Hq Hcq Hqc. destruct (Z.lt_trichotomy (month_index q) a) as [Hl|[E|Hl]].
    + pose proof (day_number_month_lt q c Hq Hc Hl). lia.
    + by rewrite (carries_cycle_day a dd q Hq Hcq E).
    + apply Z.lt_le_incl, day_number_month_lt; [done..|by rewrite cycle_day_month].
  - exists (cycle_day (a + 1) dd).
    rewrite (addMonths_text c 1 Hc Hr) bind_Ok.
    assert (month_index (add_months c 1) = a + 1) as Ei by by rewrite month_index_add_months.
    pose proof (add_months_valid c 1 Hc Hr) as Va. rewrite parts_text // bind_Ok. cbv beta.
    rewrite (dayOfMonth_text (a + 1) dd Hr _ Ei); [|by destruct Va as (_ & ? & _)].
    split_and!; [done|done|by apply cycle_day_carries| |].
    + apply day_number_month_lt; [done..|]. rewrite cycle_day_month. unfold a. lia.
    + intros q Hq Hcq Hqc. destruct (Z.lt_trichotomy (month_index q) (a + 1)) as [Hl|[E|Hl]].
      * destruct (Z.eq_dec (month_index q) a) as [E|Hne].
        -- rewrite (carries_cycle_day a dd q Hq Hcq E) in Hqc. lia.
        -- pose proof (day_number_month_lt q c Hq Hc ltac:(lia)). lia.
      * by rewrite (carries_cycle_day (a + 1) dd q Hq Hcq E).
      * apply Z.lt_le_incl, day_number_month_lt; [done..|by rewrite cycle_day_month].
Qed.

(** ** Sums over the ledger *)

Lemma balance_loop_sum id txns date total :
  balance_loop id txns date total
  = total + sumZ (map (signedFor id) (List.filter (fun t => String.leb (txn_date t) date) txns)).
Proof.
  revert total. induction txns as [|t txns IH]; intros total; cbn [balance_loop List.filter]; [simpl; lia|].
  rewrite IH ltb_negb_leb. destruct (String.leb (txn_date t) date); cbn [negb map]; [rewrite sumZ_cons|]; lia.
Qed.

Lemma paid_loop_sum id txns closedOn asOf paid :
  paid_loop id txns closedOn asOf paid
  = paid + sumZ (map (fun t => Z.max (signedFor id t) 0) (List.filter (between closedOn asOf) txns)).
Proof.
  revert paid. induction txns as [|t txns IH]; intros paid; cbn [paid_loop List.filter]; [simpl; lia|].
  rewrite IH. unfold between at 2. rewrite !ltb_negb_leb.
  destruct (String.leb (txn_date t) closedOn), (String.leb (txn_date t) asOf); cbn [orb negb andb map]; try lia.
  rewrite sumZ_cons. destruct (Z.ltb_spec 0 (signedFor id t)); lia.
Qed.

Lemma owed_opp b : owed b = - b.
Proof. unfold owed. destruct (Z.eqb_spec b 0); lia. Qed.

Lemma sum_until_split id txns closedOn asOf :
  String.leb closedOn asOf = true ->
  sumZ (map (signedFor id) (List.filter (fun t => String.leb (txn_date t) asOf) txns))
  = sumZ (map (signedFor id) (List.filter (fun t => String.leb (txn_date t) closedOn) txns))
    + sumZ (map (fun t => Z.max (signedFor id t) 0) (List.filter (between closedOn asOf) txns))
    - sumZ (map (charge id) (List.filter (between closedOn asOf) txns)).
Proof.
  intros Hle. induction txns as [|t txns IH]; cbn [List.filter]; [done|]. unfold between, charge in *. rewrite ltb_negb_leb.
  destruct (String.leb (txn_date t) closedOn) eqn:Ec; cbn [negb andb].
  - rewrite (string_leb_trans _ _ _ Ec Hle). cbn [map]. rewrite !sumZ_cons. lia.
  - destruct (String.leb (txn_date t) asOf); cbn [andb map]; [rewrite !sumZ_cons|]; lia.
Qed.

Lemma summariseStatement_Ok account txns asOf b :
  summariseStatement account txns asOf = Ok (Some b) ->
  exists sd dd, cycle_of account = Some (sd, dd)
    /\ lastStatementDate sd asOf = Ok (ss_closedOn b) /\ dueDateFor dd (ss_closedOn b) = Ok (ss_dueOn b)
    /\ ss_statementBalance b = - balanceAsOf account txns (ss_closedOn b)
    /\ ss_currentBalance b = - balanceAsOf account txns asOf
    /\ ss_paidSince b = paid_loop (acc_id account) txns (ss_closedOn b) asOf 0
    /\ ss_remaining b = Z.max (ss_statementBalance b - ss_paidSince b) 0.
Proof.
  unfold summariseStatement. destruct (cycle_of account) as [[sd dd]|]; [|done].
  intros (c & Hc & (d & Hd & [= <-])%bind_Ok_inv)%bind_Ok_inv. exists sd, dd. cbn. by rewrite !owed_opp.
Qed.

(** A payment is one more transaction of the ledger. *)
Lemma transactions_cons s s' t :
  transactions_inv s -> transactions_inv s' -> rows s !! (ETransactions, txn_id t) = None ->
  rows s' = <[(ETransactions, txn_id t) := ATransaction t]> (rows s) ->
  transactions s' ≡ₚ t :: transactions s.
Proof.
  intros Hs Hs' Hnone Hr.
  assert (forall x, transactions_inv x -> NoDup (transactions x)) as Hnd.
  { intros x Hx. apply (NoDup_fmap_1 txn_id), table_of_NoDup. intros id v a Hv Ha.
    destruct (Hx id v Hv) as (a' & -> & <- & _). by injection Ha as <-. }
  apply NoDup_Permutation; [by apply Hnd| |].
  - constructor; [|by apply Hnd]. intros Hin%elem_of_transactions; [|done]. congruence.
  - intros x. rewrite elem_of_cons !elem_of_transactions // Hr lookup_insert_Some. split.
    + intros [[_ [= <-]]|[_ H]]; [by left|by right].
    + intros [->|H]; [by left|]. destruct (decide (txn_id t = txn_id x)) as [E|Hne]; [|right; split; congruence].
      rewrite -E Hnone in H. done.
Qed.

Lemma balanceAsOf_perm account l k date : l ≡ₚ k -> balanceAsOf account l date = balanceAsOf account k date.
Proof. intros H. unfold balanceAsOf. rewrite !balance_loop_sum. by rewrite H. Qed.

Lemma paid_loop_perm id l k closedOn asOf : l ≡ₚ k -> paid_loop id l closedOn asOf 0 = paid_loop id k closedOn asOf 0.
Proof. intros H. rewrite !paid_loop_sum. by rewrite H. Qed.

Lemma pay_Ok today request s v s' :
  transactions_inv s -> pay today request s = (Ok v, s') ->
  exists t, v = ATransaction t /\ transactions_inv s' /\ txn_id t = uuids s (drawn s)
    /\ rows s' = <[(ETransactions, txn_id t) := ATransaction t]> (rows s)
    /\ 0 < pb_amount request /\ acc_id (pb_from request) <> acc_id (pb_card request)
    /\ toUpperCase (acc_currency (pb_from request)) = toUpperCase (acc_currency (pb_card request))
    /\ txn_kind t = Transfer /\ txn_amount t = pb_amount request /\ txn_accountId t = acc_id (pb_from request)
    /\ txn_counterAccountId t = Some (acc_id (pb_card request)) /\ txn_date t = default today (pb_date request)
    /\ txn_currency t = acc_currency (pb_card request).
Proof.
  unfold pay. intros Hinv. destruct (Z.leb_spec (pb_amount request) 0) as [|Hpos]; [done|].
  destruct (String.eqb_spec (acc_id (pb_from request)) (acc_id (pb_card request))) as [|Hne]; [done|].
  destruct (String.eqb_spec (toUpperCase (acc_currency (pb_from request))) (toUpperCase (acc_currency (pb_card request))))
    as [Hcur|]; [|done]. cbn [negb]. intros (id & s1 & E1 & E)%M_bind_Ok_inv.
  unfold randomUUID in E1. injection E1 as <- <-.
  apply save_transaction_rows in E as (t & now & -> & Hwf & Hv & Hr). injection Hv as Hv.
  assert (txn_id t = uuids s (drawn s)) as Hid by by rewrite Hv.
  cbn [rows set_drawn td_id payment] in Hr. rewrite -Hid in Hr. exists t.
  split; [done|]. split.
  { intros i w. rewrite Hr lookup_insert_Some. intros [[[= <-] <-]|[_ Hw]]; [by exists t|by apply Hinv]. }
  split_and!; try done; rewrite Hv; cbn; first [done | by apply Z.abs_eq; lia | lia].
Qed.

(** The card sees a payment as money arriving. *)
Lemma payment_effect t card src amount :
  txn_kind t = Transfer -> txn_amount t = amount -> txn_accountId t = src -> src <> card ->
  txn_counterAccountId t = Some card -> signedFor card t = amount.
Proof.
  intros Hk Ha Hs Hne Hc. unfold signedFor. rewrite Hk Hs Hc. destruct (String.eqb_spec src card); [done|].
  by rewrite decide_True.
Qed.

Lemma pay_balance id txns t date :
  balance_loop id (t :: txns) date 0
  = balance_loop id txns date 0 + (if String.leb (txn_date t) date then signedFor id t else 0).
Proof.
  rewrite !balance_loop_sum. cbn [List.filter]. destruct (String.leb (txn_date t) date); cbn [map]; [rewrite sumZ_cons|]; lia.
Qed.

(** * Properties *)

(** a card's cycle on any day: the statement closed on the latest date, up to that
    day, that carries the statement day, and its bill falls due on the first date after
    the close that carries the due day; a month too short for a day uses its last. *)
Theorem statement_cycle_dates sd dd p :
  ymd_valid p -> 101 <= year p <= 9998 ->
  exists c d, lastStatementDate sd (ymd_text p) = Ok (ymd_text c) /\ dueDateFor dd (ymd_text c) = Ok (ymd_text d)
    /\ (carries sd c /\ day_number c <= day_number p
        /\ forall q, ymd_valid q -> carries sd q -> day_number q <= day_number p -> day_number q <= day_number c)
    /\ (carries dd d /\ day_number c < day_number d
        /\ forall q, ymd_valid q -> carries dd q -> day_number c < day_number q -> day_number d <= day_number q).
Proof.
  intros Hp Hy. assert (1 <= month p <= 12) as Hm by (by destruct Hp as (_ & ? & _)).
  destruct (lastStatementDate_text sd p Hp) as (c & Ec & Vc & Cc & Hle & Hmax & Hi).
  { unfold month_in_range, month_index. lia. }
  destruct (dueDateFor_text dd c Vc) as (d & Ed & Vd & Cd & Hlt & Hmin).
  { unfold month_in_range, month_index in *. lia. }
  exists c, d. by split_and!.
Qed.

(** the figures of a statement add up: it owes what the ledger owed at the close,
    the balance now is that, plus what was charged and less what was paid since, and
    what remains to pay is never negative and never counts spending after the close. *)
Theorem statement_adds_up account txns p b :
  ymd_valid p -> 101 <= year p <= 9998 ->
  summariseStatement account txns (ymd_text p) = Ok (Some b) ->
  let since := List.filter (between (ss_closedOn b) (ymd_text p)) txns in
  ss_statementBalance b
    = - (acc_openingBalance account
         + sumZ (map (signedFor (acc_id account)) (List.filter (fun t => String.leb (txn_date t) (ss_closedOn b)) txns)))
  /\ ss_paidSince b = sumZ (map (fun t => Z.max (signedFor (acc_id account) t) 0) since)
  /\ ss_currentBalance b = ss_statementBalance b + sumZ (map (charge (acc_id account)) since) - ss_paidSince b
  /\ ss_remaining b = Z.max (ss_statementBalance b - ss_paidSince b) 0.
Proof.
  intros Hp Hy E since. apply summariseStatement_Ok in E as (sd & dd & _ & Ec & _ & Hst & Hcur & Hpaid & Hrem).
  assert (1 <= month p <= 12) as Hm by (by destruct Hp as (_ & ? & _)).
  destruct (lastStatementDate_text sd p Hp) as (c & Ec' & Vc & _ & Hle & _).
  { unfold month_in_range, month_index. lia. }
  rewrite Ec in Ec'. injection Ec' as Hc.
  assert (String.leb (ss_closedOn b) (ymd_text p) = true) as Hbefore by (rewrite Hc leb_text //; lia).
  rewrite paid_loop_sum Z.add_0_l in Hpaid. unfold balanceAsOf in Hst, Hcur. rewrite balance_loop_sum in Hst.
  rewrite balance_loop_sum (sum_until_split _ _ _ _ Hbefore) in Hcur. split_and!; [done|done| |done].
  rewrite Hcur Hst Hpaid. unfold since. lia.
Qed.

(** C37: paying a bill settles it: the payment is stored as a transfer of the same
    amount, the statement's dates do not move, what remains falls by the amount (to zero
    when all of it is paid) and so does what is owed today, whether the payment is dated
    before or after the close. *)
Theorem paying_settles_the_bill today request asOf s v s' b :
  transactions_inv s -> rows s !! (ETransactions, uuids s (drawn s)) = None ->
  pay today request s = (Ok v, s') ->
  String.leb (default today (pb_date request)) asOf = true ->
  summariseStatement (pb_card request) (transactions s) asOf = Ok (Some b) ->
  exists b', summariseStatement (pb_card request) (transactions s') asOf = Ok (Some b')
    /\ ss_closedOn b' = ss_closedOn b /\ ss_dueOn b' = ss_dueOn b
    /\ ss_remaining b' = Z.max (ss_statementBalance b - ss_paidSince b - pb_amount request) 0
    /\ ss_currentBalance b' = ss_currentBalance b - pb_amount request.
Proof.
  intros Hinv Hfresh Hpay Hdate E.
  destruct (pay_Ok _ _ _ _ _ Hinv Hpay) as (t & -> & Hinv' & Hid & Hr & Hpos & Hne & _ & Hk & Ham & Hsrc & Hctr & Hd & _).
  rewrite -Hid in Hfresh. pose proof (transactions_cons s s' t Hinv Hinv' Hfresh Hr) as Hperm.
  pose proof (payment_effect t _ _ _ Hk Ham Hsrc Hne Hctr) as Heff. rewrite -Hd in Hdate.
  apply summariseStatement_Ok in E as (sd & dd & Hcy & Ec & Ed & Hst & Hcur & Hpaid & Hrem).
  unfold summariseStatement. rewrite Hcy Ec bind_Ok Ed bind_Ok. eexists. split; [done|]. cbn.
  rewrite !owed_opp !(balanceAsOf_perm _ _ _ _ Hperm) (paid_loop_perm _ _ _ _ _ Hperm) Hst Hcur Hpaid.
  unfold balanceAsOf. rewrite !balance_loop_sum !paid_loop_sum. cbn [List.filter]. unfold between. rewrite ltb_negb_leb Hdate.
  destruct (String.leb (txn_date t) (ss_closedOn b)); cbn [negb andb map]; rewrite !sumZ_cons !Heff; split_and!; try done; lia.
Qed.

(** A payment that cannot be a transfer between two accounts of one currency, or is not
    positive, is refused before anything is read or written. *)
Theorem bad_payment_is_refused today request s :
  pb_amount request <= 0 \/ acc_id (pb_from request) = acc_id (pb_card request)
  \/ toUpperCase (acc_currency (pb_from request)) <> toUpperCase (acc_currency (pb_card request)) ->
  exists m, pay today request s = (Throw (JsError m), s).
Proof.
  intros H. unfold pay, throwM. destruct (Z.leb_spec (pb_amount request) 0); [by eexists|].
  destruct (String.eqb_spec (acc_id (pb_from request)) (acc_id (pb_card request))); [by eexists|].
  destruct (String.eqb_spec (toUpperCase (acc_currency (pb_from request))) (toUpperCase (acc_currency (pb_card request))));
    [|by eexists]. exfalso. destruct H as [?|[?|?]]; [lia|done|done].
Qed.

(** * Witnesses *)

Lemma statement_cycle_dates_witness :
  exists c d, lastStatementDate 31 (ymd_text (mkYmd 2024 3 30)) = Ok (ymd_text c) /\ dueDateFor 15 (ymd_text c) = Ok (ymd_text d)
    /\ carries 31 c /\ day_number c < day_number d.
Proof.
  destruct (statement_cycle_dates 31 15 (mkYmd 2024 3 30)) as (c & d & Ec & Ed & (Cc & _) & _ & Hlt & _);
    [by apply ymd_valid_example|bounds|].
  exists c, d. exact (conj Ec (conj Ed (conj Cc Hlt))).
Defined.

Definition demo_card : Account :=
  mkAccount "c" "Card" Kcard "usd" 0 false "#fff" "card" (Some "cards") (Some 100000) (Some 3) (Some 20) None 0 "".
Definition demo_charged : App :=
  set_rows <[(ETransactions, "0") := ATransaction
    (mkTransaction "0" Expense 250 "USD" "c" None None "2024-01-02" "" "" [] true None None 0 "")]> demo_bank.
Definition demo_payment : PayBillRequest :=
  mkPayBill demo_card (demo_account "a" "USD" 1000 None) 150 (Some "2024-01-10") None.
Definition demo_bill : StatementSummary := mkSummary "2024-01-03" "2024-01-20" 250 100 150 450.
Definition demo_pay : result AnyEntity * App := pay "2024-01-12" demo_payment demo_charged.
Definition demo_paid : AnyEntity :=
  ATransaction (mkTransaction "u" Transfer 150 "usd" "a" (Some "c") None "2024-01-10" "Card" "" [] true None None 1000
                  (encodeHlc (mkHlcState 1000 0) "d")).

Lemma demo_charged_summary :
  summariseStatement demo_card (transactions demo_charged) (ymd_text (mkYmd 2024 1 12)) = Ok (Some demo_bill).
Proof. vm_compute. reflexivity. Qed.

Lemma demo_charged_inv : transactions_inv demo_charged.
Proof.
  intros id v H. unfold demo_charged, demo_bank in H. cbn [rows set_rows] in H.
  apply lookup_insert_Some in H as [[[= <-] <-]|[_ H]].
  - eexists. split; [done|]. split; [done|]. by split; [done|done|by eexists|].
  - apply elem_of_list_to_map_2 in H.
    repeat (apply elem_of_cons in H as [H|H];
      [first [discriminate H | injection H as -> ->; eexists; split; [done|]; split; [done|];
        split; [done|done|by eexists|intros [=]; first [by exists "c"|done]] ]|]).
    by apply not_elem_of_nil in H.
Qed.

Lemma demo_pay_run : demo_pay = (Ok demo_paid, snd demo_pay).
Proof. vm_compute. reflexivity. Qed.

Lemma demo_pay_fresh : rows demo_charged !! (ETransactions, uuids demo_charged (drawn demo_charged)) = None.
Proof. vm_compute. reflexivity. Qed.

Lemma statement_adds_up_witness :
  ss_currentBalance demo_bill
  = 250 + sumZ (map (charge "c") (List.filter (between "2024-01-03" (ymd_text (mkYmd 2024 1 12))) (transactions demo_charged))) - 100.
Proof.
  destruct (statement_adds_up demo_card (transactions demo_charged) (mkYmd 2024 1 12) demo_bill) as (_ & _ & H & _);
    [by apply ymd_valid_example|bounds|exact demo_charged_summary|exact H].
Defined.

Lemma paying_settles_the_bill_witness :
  exists b', summariseStatement demo_card (transactions (snd demo_pay)) (ymd_text (mkYmd 2024 1 12)) = Ok (Some b')
    /\ ss_remaining b' = 0 /\ ss_currentBalance b' = 300.
Proof.
  destruct (paying_settles_the_bill "2024-01-12" demo_payment (ymd_text (mkYmd 2024 1 12)) demo_charged demo_paid (snd demo_pay)
    demo_bill demo_charged_inv demo_pay_fresh demo_pay_run eq_refl demo_charged_summary) as (b' & E & _ & _ & Hr & Hc).
  exists b'. exact (conj E (conj Hr Hc)).
Defined.

Lemma bad_payment_is_refused_witness :
  exists m, pay "2024-01-12" (mkPayBill demo_card demo_card 100 None None) demo_charged = (Throw (JsError m), demo_charged).
Proof. apply bad_payment_is_refused. right. left. reflexivity. Defined.
