(* ===== verification/Csv.v ===== *)
(** CSV out ([app/src/app/core/reports/csv.ts]) and in ([core/import/csv-parse.ts]):
    what the writer escapes, the reader restores. *)
From S2P Require Export JsString Calendar.
#[local] Open Scope string_scope.
#[local] Open Scope Z_scope.

(** * Definitions *)

Definition quote : ascii := "034"%char.
Definition CR : ascii := "013"%char.
Definition LF : ascii := "010"%char.
Definition TAB : ascii := "009"%char.

(** ** csv.ts *)

(** The only numbers the program exports are counts. *)
Inductive CsvValue : Type := CsvText (s : string) | CsvNumber (n : Z) | CsvNull.

Record CsvTable : Type := mkTable { tb_headers : list string; tb_rows : list (list CsvValue) }.

(** [/^[=+\-@\t\r]/]. *)
Definition formula_start (text : string) : bool :=
  match text with
  | String c _ => existsb (Ascii.eqb c) ["="%char; "+"%char; "-"%char; "@"%char; TAB; CR]
  | "" => false
  end.

(** A double quote, a comma or a line break. *)
Definition is_special (c : ascii) : bool := existsb (Ascii.eqb c) [quote; ","%char; CR; LF].

(** [String(value)], with the guard against formulas. *)
Definition guarded (value : CsvValue) : string :=
  match value with
  | CsvNull => ""
  | CsvText text => if formula_start text then String "'"%char text else text
  | CsvNumber n => let text := num_to_string n in if formula_start text then String "'"%char text else text
  end.

(** Every double quote doubled, by a split and a join. *)
Definition double_quotes (text : string) : string := join (String quote (String quote "")) (split_on quote text).

Definition escapeField (value : CsvValue) : string :=
  match value with
  | CsvNull => ""
  | _ =>
      let text := guarded value in
      if str_forall (fun c => negb (is_special c)) text then text
      else String quote (double_quotes text ++ String quote "")
  end.

Definition table_lines (table : CsvTable) : list (list CsvValue) := map CsvText (tb_headers table) :: tb_rows table.

Definition toCsv (table : CsvTable) : string :=
  join (String CR (String LF "")) (map (fun row => join "," (map escapeField row)) (table_lines table)).

(** [replace(/[^a-z0-9]+/g, '-')] : a run of other characters becomes one dash. *)
Fixpoint dashed (in_run : bool) (s : string) : string :=
  match s with
  | "" => ""
  | String c s' =>
      if is_digit c || is_lower c then String c (dashed false s')
      else if in_run then dashed true s' else String "-"%char (dashed true s')
  end.

(** [replace(/^-|-$/g, '')]. *)
Definition strip_dashes (s : string) : string :=
  let t := match s with String "-" r => r | _ => s end in
  if endsWith t "-" then js_slice t 0 (String.length t - 1) else t.

Definition csvFilename (prefix : string) (range : DateRange) : string :=
  strip_dashes (dashed false (toLowerCase prefix)) ++ "-" ++ from range ++ "-to-" ++ upto range ++ ".csv".

(** ** csv-parse.ts *)

Record CsvState : Type := mkCsv {
  cs_rows : list (list string); cs_row : list string; cs_field : string; cs_quoted : bool; cs_started : bool }.

Definition endField (st : CsvState) : CsvState :=
  mkCsv (cs_rows st) (cs_row st ++ [cs_field st])%list "" (cs_quoted st) false.

Definition endRow (st : CsvState) : CsvState :=
  let st := endField st in
  let keep := (1 <? length (cs_row st))%nat || negb (String.eqb (default "" (head (cs_row st))) "") in
  mkCsv (if keep then (cs_rows st ++ [cs_row st])%list else cs_rows st) [] (cs_field st) (cs_quoted st) (cs_started st).

(** [field += char], outside and inside quotes. *)
Definition add_char (c : ascii) (st : CsvState) : CsvState :=
  mkCsv (cs_rows st) (cs_row st) (cs_field st ++ String c "") (cs_quoted st) true.
Definition add_quoted (c : ascii) (st : CsvState) : CsvState :=
  mkCsv (cs_rows st) (cs_row st) (cs_field st ++ String c "") (cs_quoted st) (cs_started st).
Definition set_quoted (b : bool) (st : CsvState) : CsvState :=
  mkCsv (cs_rows st) (cs_row st) (cs_field st) b (cs_started st).

Definition open_quote (st : CsvState) : CsvState :=
  if negb (cs_started st) && String.eqb (cs_field st) ""
  then mkCsv (cs_rows st) (cs_row st) (cs_field st) true true
  else add_char quote st.

Fixpoint csv_loop (input : string) (st : CsvState) : CsvState :=
  match input with
  | "" => st
  | String char rest =>
      if cs_quoted st then
        if negb (Ascii.eqb char quote) then csv_loop rest (add_quoted char st)
        else match rest with
             | String next rest' =>
                 if Ascii.eqb next quote then csv_loop rest' (add_quoted quote st)
                 else csv_loop rest (set_quoted false st)
             | "" => csv_loop rest (set_quoted false st)
             end
      else if Ascii.eqb char quote then csv_loop rest (open_quote st)
      else if Ascii.eqb char ","%char then csv_loop rest (endField st)
      else if Ascii.eqb char CR then
        match rest with
        | String next rest' =>
            if Ascii.eqb next LF then csv_loop rest' (endRow st) else csv_loop rest (endRow st)
        | "" => csv_loop rest (endRow st)
        end
      else if Ascii.eqb char LF then csv_loop rest (endRow st)
      else csv_loop rest (add_char char st)
  end.

(** A code unit of these strings is below 256, so none is the byte-order mark. *)
Definition drop_bom (text : string) : string :=
  match text with String c rest => if code c =? 0xfeff then rest else text | "" => "" end.

Definition parseCsv (text : string) : list (list string) :=
  let st := csv_loop (drop_bom text) (mkCsv [] [] "" false false) in
  let st := if negb (String.eqb (cs_field st) "") || (0 <? length (cs_row st))%nat then endRow st else st in
  cs_rows st.

Definition normaliseHeader (header : string) : string :=
  str_filter (fun c => is_digit c || is_lower c) (toLowerCase header).

(** * Specification *)

(** A row the reader can tell from a blank line. *)
Definition row_ok (row : list CsvValue) : Prop := row <> [] /\ map guarded row <> [""].

(** [String(value)], nothing for nothing. *)
Definition cell_text (value : CsvValue) : string :=
  match value with CsvNull => "" | CsvText text => text | CsvNumber n => num_to_string n end.

(** The guard taken off. *)
Definition unguarded (text : string) : string :=
  match text with String c r => if Ascii.eqb c "'"%char && formula_start r then r else text | "" => "" end.

(** A cell that needs no guard, and one whose text does not look like a guarded one. *)
Definition plain (value : CsvValue) : Prop := formula_start (cell_text value) = false.
Definition tellable (value : CsvValue) : Prop := unguarded (cell_text value) = cell_text value.

(** * Lemmas *)

Lemma join_cons sep x l : join sep (x :: l) = match l with [] => x | _ => x ++ sep ++ join sep l end.
Proof. by destruct l. Qed.

Lemma double_quotes_cons c s :
  double_quotes (String c s)
  = if Ascii.eqb c quote then String quote (String quote (double_quotes s)) else String c (double_quotes s).
Proof.
  unfold double_quotes. cbn [split_on]. rewrite (Ascii.eqb_sym c quote). destruct (Ascii.eqb quote c).
  - rewrite join_cons. pose proof (split_on_nonempty quote s). by destruct (split_on quote s).
  - pose proof (split_on_nonempty quote s). by destruct (split_on quote s) as [|w [|w' ws]].
Qed.

(** What may follow a field. *)
Definition field_end (tail : string) : Prop :=
  match tail with "" => True | String c _ => Ascii.eqb c quote = false end.

Lemma quoted_loop text tail rws rw0 f b :
  field_end tail ->
  csv_loop (double_quotes text ++ String quote tail) (mkCsv rws rw0 f true b) = csv_loop tail (mkCsv rws rw0 (f ++ text) false b).
Proof.
  intros Ht. revert f. induction text as [|c text IH]; intros f.
  - rewrite str_app_nil_r. cbn. by destruct tail as [|c tail]; [|rewrite Ht].
  - rewrite double_quotes_cons. destruct (Ascii.eqb_spec c quote) as [->|Hc]; cbn.
    + unfold add_quoted. cbn. rewrite IH. by rewrite str_app_assoc.
    + rewrite (proj2 (Ascii.eqb_neq c quote) Hc). cbn. unfold add_quoted. cbn. rewrite IH. by rewrite str_app_assoc.
Qed.

Lemma plain_loop text tail rws rw0 f b :
  str_forall (fun c => negb (is_special c)) text = true ->
  exists b', csv_loop (text ++ tail) (mkCsv rws rw0 f false b) = csv_loop tail (mkCsv rws rw0 (f ++ text) false b').
Proof.
  revert f b. induction text as [|c text IH]; intros f b; [exists b; by rewrite str_app_nil_r|].
  cbn [str_forall]. intros [Hc H]%andb_true_iff. unfold is_special in Hc. cbn [existsb] in Hc.
  rewrite !negb_orb !andb_true_iff !negb_true_iff in Hc. destruct Hc as (H1 & H2 & H3 & H4 & _).
  cbn. rewrite H1 H2 H3 H4. unfold add_char. cbn.
  destruct (IH (f ++ String c "") true H) as (b' & E). exists b'. by rewrite E str_app_assoc.
Qed.

(** Reading a field back. *)
Lemma field_loop v tail rws rw0 :
  field_end tail ->
  exists b, csv_loop (escapeField v ++ tail) (mkCsv rws rw0 "" false false) = csv_loop tail (mkCsv rws rw0 (guarded v) false b).
Proof.
  intros Ht. assert (v = CsvNull \/ escapeField v =
    if str_forall (fun c => negb (is_special c)) (guarded v) then guarded v
    else String quote (double_quotes (guarded v) ++ String quote "")) as [->|E] by (destruct v; auto).
  - by exists false.
  - rewrite E. destruct (str_forall _ (guarded v)) eqn:Es; [by apply (plain_loop (guarded v) tail rws rw0 "" false)|].
    exists true. change (String quote ?x ++ tail) with (String quote (x ++ tail)). rewrite str_app_assoc.
    apply (quoted_loop (guarded v) tail rws rw0 "" true Ht).
Qed.

Lemma row_loop v row tail rws rw0 :
  field_end tail ->
  exists b pre field, csv_loop (join "," (map escapeField (v :: row)) ++ tail) (mkCsv rws rw0 "" false false)
      = csv_loop tail (mkCsv rws pre field false b)
    /\ (pre ++ [field])%list = (rw0 ++ map guarded (v :: row))%list.
Proof.
  intros Ht. revert v rw0. induction row as [|w row IH]; intros v rw0.
  - destruct (field_loop v tail rws rw0 Ht) as (b & E). by exists b, rw0, (guarded v).
  - cbn [map]. rewrite join_cons. cbn [map]. rewrite !str_app_assoc.
    destruct (field_loop v ("," ++ (join "," (escapeField w :: map escapeField row)) ++ tail) rws rw0) as (b & E); [done|].
    rewrite E. destruct (IH w (rw0 ++ [guarded v])%list) as (b' & pre & f & E' & Hp).
    exists b', pre, f. split; [exact E'|]. by rewrite Hp -app_assoc.
Qed.

Lemma endRow_keeps rws pre f b cells :
  (pre ++ [f])%list = cells -> cells <> [""] ->
  endRow (mkCsv rws pre f false b) = mkCsv (rws ++ [cells]) [] "" false false.
Proof.
  intros <- Hne. unfold endRow, endField. cbn [cs_rows cs_row cs_field cs_quoted cs_started]. destruct (Nat.ltb_spec 1 (length (pre ++ [f]))) as [|Hl]; [done|].
  rewrite length_app in Hl. destruct pre as [|x pre]; [|cbn in Hl; lia]. cbn in *.
  by destruct (String.eqb_spec f "") as [->|].
Qed.

Lemma lines_loop row more rws :
  Forall row_ok (row :: more) ->
  exists b pre field, csv_loop (join (String CR (String LF "")) (map (fun r => join "," (map escapeField r)) (row :: more)))
      (mkCsv rws [] "" false false) = mkCsv (rws ++ removelast (map (map guarded) (row :: more))) pre field false b
    /\ (pre ++ [field])%list = List.last (map (map guarded) (row :: more)) [].
Proof.
  revert row rws. induction more as [|row' more IH]; intros row rws [[Hne Hr] Hm]%Forall_cons.
  - destruct row as [|v row]; [done|].
    destruct (row_loop v row "" rws [] I) as (b & pre & f & E & Hp). exists b, pre, f.
    rewrite str_app_nil_r in E. cbn [map removelast]. rewrite app_nil_r. cbn [map csv_loop] in E. by rewrite -E.
  - destruct row as [|v row]; [done|]. cbn [map]. rewrite join_cons. cbn [map].
    set (rest := join (String CR (String LF "")) _).
    destruct (row_loop v row (String CR (String LF "") ++ rest) rws []) as (b & pre & f & E & Hp); [done|].
    cbn [map] in E. rewrite E. cbn [csv_loop String.append]. cbn.
    rewrite (endRow_keeps rws pre f b (map guarded (v :: row))); [|done|done].
    destruct (IH row' (rws ++ [map guarded (v :: row)])%list Hm) as (b' & pre' & f' & E' & Hp').
    exists b', pre', f'. cbn [map] in E'. fold rest in E'. rewrite E'. split; [|exact Hp'].
    by rewrite -app_assoc.
Qed.

Lemma drop_bom_id s : drop_bom s = s.
Proof.
  destruct s as [|c s]; [done|]. unfold drop_bom. destruct (Z.eqb_spec (code c) 0xfeff) as [E|]; [|done].
  exfalso. unfold code in E. pose proof (N_ascii_bounded c). lia.
Qed.

Lemma parse_written table :
  Forall row_ok (table_lines table) -> parseCsv (toCsv table) = map (map guarded) (table_lines table).
Proof.
  intros Hok. unfold parseCsv, toCsv. rewrite drop_bom_id.
  destruct (lines_loop (map CsvText (tb_headers table)) (tb_rows table) [] Hok) as (b & pre & f & E & Hp).
  unfold table_lines in *. rewrite E. cbn [cs_field cs_row]. set (all := map (map guarded) _) in *.
  assert (all <> []) as Hne by done. assert (List.last all [] ∈ all) as Hin.
  { rewrite {2}(app_removelast_last [] Hne). apply elem_of_app. right. by constructor. }
  assert (List.last all [] <> [""]) as Hlast.
  { unfold all in Hin |- *. apply list_elem_of_fmap in Hin as (r & -> & Hr). rewrite ->Forall_forall in Hok. by apply Hok. }
  assert (negb (String.eqb f "") || (0 <? length pre)%nat = true) as ->.
  { destruct pre; [|by rewrite orb_true_r]. change ([f] = List.last all []) in Hp. rewrite -Hp in Hlast. by destruct (String.eqb_spec f "") as [->|]. }
  rewrite (endRow_keeps _ pre f b (List.last all [])) //. cbn. by rewrite -(app_removelast_last [] Hne).
Qed.

Lemma guarded_text v : guarded v = if formula_start (cell_text v) then String "'"%char (cell_text v) else cell_text v.
Proof. by destruct v. Qed.

Lemma guarded_plain v : plain v -> guarded v = cell_text v.
Proof. unfold plain. rewrite guarded_text. by intros ->. Qed.

Lemma unguarded_guarded v : tellable v -> unguarded (guarded v) = cell_text v.
Proof. unfold tellable. rewrite guarded_text. destruct (formula_start (cell_text v)) eqn:E; [intros _|done]. cbn. by rewrite E. Qed.

(** * Properties *)

(** C36: Whatever a table holds — commas, quotes, line breaks, nothing at all — the exported
    text is read back as the table that was written: the same rows, the same cells in
    each, and each cell as [guarded] wrote it, which is its own text, or an apostrophe
    before it when it begins like a formula.  So a table without such cells is read back
    as itself; and taking the apostrophe off gives every table back, as long as no cell
    already was an apostrophe before a formula.  A row that is a single empty cell, which no
    reader can tell from a blank line, is left out. *)
Theorem csv_roundtrip table :
  Forall row_ok (table_lines table) ->
  parseCsv (toCsv table) = map (map guarded) (table_lines table)
  /\ (Forall (Forall plain) (table_lines table) -> parseCsv (toCsv table) = map (map cell_text) (table_lines table))
  /\ (Forall (Forall tellable) (table_lines table) ->
      map (map unguarded) (parseCsv (toCsv table)) = map (map cell_text) (table_lines table)).
Proof.
  intros Hok. rewrite parse_written //. split_and!; [done|intros H..]; [|rewrite map_map].
  - apply map_ext_Forall. eapply Forall_impl; [exact H|]. intros row Hr. apply map_ext_Forall.
    eapply Forall_impl; [exact Hr|]. exact guarded_plain.
  - apply map_ext_Forall. eapply Forall_impl; [exact H|]. intros row Hr. rewrite map_map. apply map_ext_Forall.
    eapply Forall_impl; [exact Hr|]. exact unguarded_guarded.
Qed.

(** An exported table never opens a quoted field it does not close, and never adds a
    line: it has as many records as it has rows, each as wide as its row. *)
Theorem csv_shape table :
  Forall row_ok (table_lines table) ->
  length (parseCsv (toCsv table)) = S (length (tb_rows table))
  /\ Forall2 (fun cells row => length cells = length row) (parseCsv (toCsv table)) (table_lines table).
Proof.
  intros Hok. assert (parseCsv (toCsv table) = map (map guarded) (table_lines table)) as -> by by apply parse_written.
  split; [by rewrite length_map|]. induction (table_lines table) as [|r l IH]; cbn [map]; constructor.
  - by rewrite length_map.
  - apply IH. by inversion Hok.
Qed.

(** * Witnesses *)

(** A comma, a quote, a line break, a formula, a count and an empty cell. *)
Definition demo_table : CsvTable :=
  mkTable ["Section"; "Item"]
    [[CsvText "a,b"; CsvText (String quote "q")]; [CsvText ("x" ++ String LF "y"); CsvText "-12.00"];
     [CsvNumber 3; CsvNull]].

Lemma demo_table_ok : Forall row_ok (table_lines demo_table).
Proof. repeat constructor; done. Qed.

Lemma demo_table_tellable : Forall (Forall tellable) (table_lines demo_table).
Proof. repeat constructor. Qed.

Lemma csv_roundtrip_witness :
  parseCsv (toCsv demo_table)
  = [["Section"; "Item"]; ["a,b"; String quote "q"]; ["x" ++ String LF "y"; "'-12.00"]; ["3"; ""]]
  /\ map (map unguarded) (parseCsv (toCsv demo_table))
     = [["Section"; "Item"]; ["a,b"; String quote "q"]; ["x" ++ String LF "y"; "-12.00"]; ["3"; ""]].
Proof.
  destruct (csv_roundtrip demo_table demo_table_ok) as (H1 & _ & H2).
  split; [exact H1|exact (H2 demo_table_tellable)].
Defined.

Lemma csv_shape_witness : length (parseCsv (toCsv demo_table)) = 4%nat.
Proof. apply (csv_shape demo_table demo_table_ok). Defined.
