(* ===== verification/Import.v ===== *)
(** Importing a bank's CSV ([app/src/app/core/import]): resolving every row into a plan
    ([csv-import.ts]) and writing the plan into the ledger ([import.service.ts]). *)
From S2P Require Export Csv Transactions.
#[local] Open Scope string_scope.
#[local] Open Scope Z_scope.

(** * Definitions *)

(** ** csv-import.ts *)

Record ColumnMapping : Type := mkMapping {
  cm_date : nat; cm_amount : nat; cm_payee : option nat; cm_note : option nat; cm_category : option nat }.

Record ImportOptions : Type := mkImportOptions {
  io_accountId : string; io_currency : string; io_dayFirst : bool; io_existing : list string }.

Record PlannedTransaction : Type := mkPlanned {
  pt_date : string; pt_amount : Minor; pt_kind : TransactionKind; pt_payee : string; pt_note : string;
  pt_categoryName : string }.

Record PlannedRow : Type := mkPlannedRow {
  pr_line : nat; pr_transaction : option PlannedTransaction; pr_error : option string; pr_duplicate : bool }.

Record ImportPlan : Type := mkPlan { ip_rows : list PlannedRow; ip_ready : nat; ip_duplicates : nat; ip_failed : nat }.

Record Hints : Type := mkHints {
  h_date : list string; h_amount : list string; h_payee : list string; h_note : list string; h_category : list string }.
Definition HEADER_HINTS : Hints :=
  mkHints ["date"; "transactiondate"; "posteddate"; "valuedate"; "when"]
    ["amount"; "value"; "debitcredit"; "sum"; "total"]
    ["payee"; "description"; "details"; "merchant"; "name"; "narrative"; "reference"]
    ["note"; "notes"; "memo"; "comment"]
    ["category"; "type"; "class"].

(** [list.findIndex(p)], [None] where the code has [-1]. *)
Fixpoint findIndex {A} (p : A -> bool) (l : list A) : option nat :=
  match l with [] => None | x :: l' => if p x then Some O else S <$> findIndex p l' end.

(** The first hint that has an index. *)
Fixpoint first_hint (index : string -> option nat) (hints : list string) : option nat :=
  match hints with
  | [] => None
  | hint :: rest => match index hint with Some i => Some i | None => first_hint index rest end
  end.

Definition find_column (normalised hints : list string) : option nat :=
  match first_hint (fun hint => findIndex (fun h => String.eqb h hint) normalised) hints with
  | Some exact => Some exact
  | None => first_hint (fun hint => findIndex (fun h => includes h hint) normalised) hints
  end.

Definition detectColumns (headers : list string) : ColumnMapping :=
  let normalised := map normaliseHeader headers in
  mkMapping (default 0%nat (find_column normalised (h_date HEADER_HINTS)))
    (default 1%nat (find_column normalised (h_amount HEADER_HINTS)))
    (find_column normalised (h_payee HEADER_HINTS))
    (find_column normalised (h_note HEADER_HINTS))
    (find_column normalised (h_category HEADER_HINTS)).

Definition duplicateKey (date : string) (amount : Minor) (payee : string) : string :=
  date ++ "|" ++ num_to_string amount ++ "|" ++ toLowerCase (trim payee).

(** Up to [n] digits at the start of a string, and what follows them. *)
Fixpoint take_digits (n : nat) (s : string) : string * string :=
  match n, s with
  | S n', String c s' => if is_digit c then let '(d, r) := take_digits n' s' in (String c d, r) else ("", s)
  | _, _ => ("", s)
  end.

(** A number of [least] to [most] digits at the start of a string. *)
Definition read_number (least most : nat) (s : string) : option (Z * string) :=
  let '(digits, rest) := take_digits most s in
  if (String.length digits <? least)%nat then None
  else n ← parse_digits 10 digits; Some (n, rest).

Definition read_char (p : ascii -> bool) (s : string) : option string :=
  match s with String c rest => if p c then Some rest else None | "" => None end.

(** [/^(\d{4})-(\d{1,2})-(\d{1,2})/]. *)
Definition iso_date (text : string) : option (Z * Z * Z) :=
  '(y, r1) ← read_number 4 4 text;
  r2 ← read_char (Ascii.eqb "-") r1;
  '(m, r3) ← read_number 1 2 r2;
  r4 ← read_char (Ascii.eqb "-") r3;
  '(d, _) ← read_number 1 2 r4;
  Some (y, m, d).

Definition is_separator (c : ascii) : bool := Ascii.eqb "/" c || Ascii.eqb "." c || Ascii.eqb "-" c.

(** [/^(\d{1,2})[/.\-](\d{1,2})[/.\-](\d{2,4})$/]. *)
Definition slash_date (text : string) : option (Z * Z * Z) :=
  '(a, r1) ← read_number 1 2 text;
  r2 ← read_char is_separator r1;
  '(b, r3) ← read_number 1 2 r2;
  r4 ← read_char is_separator r3;
  '(y, r5) ← read_number 2 4 r4;
  if String.eqb r5 "" then Some (a, b, y) else None.

Definition assemble (year month day : Z) : option string :=
  if (month <? 1) || (12 <? month) || (day <? 1) || (31 <? day) then None
  else if daysInMonth year month <? day then None
  else Some (format year month day).

Definition normaliseYear (year : Z) : Z :=
  if 100 <=? year then year else year + (if year <=? 68 then 2000 else 1900).

Definition parseDate (value : string) (dayFirst : bool) : option string :=
  let text := trim value in
  if String.eqb text "" then None
  else match iso_date text with
       | Some (y, m, d) => assemble y m d
       | None =>
           match slash_date text with
           | Some (first, second, y) =>
               let year := normaliseYear y in
               let swapped := dayFirst || (12 <? first) in
               assemble year (if swapped then second else first) (if swapped then first else second)
           | None => None
           end
       end.

(** [lastIndexOf(c)], [-1] where there is none. *)
Fixpoint last_index (c : ascii) (i best : Z) (s : string) : Z :=
  match s with "" => best | String d s' => last_index c (i + 1) (if Ascii.eqb c d then i else best) s' end.
Definition lastIndexOf (s : string) (c : ascii) : Z := last_index c 0 (-1) s.

(** [Number(text)] of a text of digits, points and dashes: an optional sign, then a
    decimal numeral, read to the nearest number; anything else is [None], for NaN. *)
Definition decimal_number (text : string) : option number :=
  let digits s := if String.eqb s "" then Some 0 else parse_digits 10 s in
  match split_on "." text with
  | [whole] => f_of_Z <$> parse_digits 10 whole
  | [whole; fraction] =>
      if String.eqb whole "" && String.eqb fraction "" then None
      else
        w ← digits whole;
        f ← digits fraction;
        let scale := 10 ^ Z.of_nat (String.length fraction) in
        Some (match w * scale + f with
              | Z0 => S754_zero false
              | n => SFdiv prec emax (S754_finite false (Z.to_pos n) 0) (S754_finite false (Z.to_pos scale) 0)
              end)
  | _ => None
  end.
Definition js_Number (text : string) : option number :=
  if String.eqb text "" then Some (S754_zero false)
  else match text with
       | String "-" rest => SFopp <$> decimal_number rest
       | _ => decimal_number text
       end.

(** The grouping and decimal signs of a cell, reduced to one point. *)
Definition normalise_number (text : string) : string :=
  let separators := str_filter (fun c => negb (is_digit c)) text in
  if includes separators "," && includes separators "." then
    let decimal := if lastIndexOf text "." <? lastIndexOf text "," then ","%char else "."%char in
    let grouping := if Ascii.eqb decimal "," then "."%char else ","%char in
    replace_first decimal "." (str_filter (fun c => negb (Ascii.eqb grouping c)) text)
  else if includes separators "," then
    let after := Z.of_nat (String.length text) - lastIndexOf text "," - 1 in
    if after =? 3 then str_filter (fun c => negb (Ascii.eqb "," c)) text else replace_first "," "." text
  else text.

(** The sign of a cell and the text of its number. *)
Definition signed_text (value : string) : bool * string :=
  let text := trim value in
  let parenthesised :=
    startsWith text "(" && endsWith text ")" && (2 <=? String.length text)%nat
    && str_forall (fun c => negb (code c =? 10) && negb (code c =? 13)) text in
  let text := if parenthesised then js_slice text 1 (String.length text - 1) else text in
  let trailing := endsWith text "-" in
  let text := if trailing then js_slice text 0 (String.length text - 1) else text in
  let text := str_filter (fun c => is_digit c || Ascii.eqb "," c || Ascii.eqb "." c || Ascii.eqb "-" c) text in
  let leading := startsWith text "-" in
  (parenthesised || trailing || leading, if leading then js_slice_from text 1 else text).

(** An amount past the largest number would be stored as Infinity. *)
Definition parseAmountCell (value currency : string) : result (option Minor) :=
  if String.eqb (trim value) "" then Ok None
  else
    let '(negative, text) := signed_text value in
    if String.eqb text "" then Ok None
    else match js_Number (normalise_number text) with
         | None => Ok None
         | Some parsed =>
             if negb (isFinite parsed) then Ok None
             else match js_round (f_mul parsed (pow10 (Z.of_nat (minorUnitExponent currency)))) with
                  | Some scaled => Ok (Some (if negative then - scaled else scaled))
                  | None => Throw (OutsideModel "an imported amount that is not finite")
                  end
         end.

(** [row[column] ?? ''], and the trimmed cell of an optional column. *)
Definition cell (row : list string) (column : nat) : string := default "" (row !! column).
Definition opt_cell (row : list string) (column : option nat) : string :=
  trim match column with Some c => cell row c | None => "" end.

Definition failed_row (line : nat) (error : string) : PlannedRow := mkPlannedRow line None (Some error) false.

(** One row: nothing for a blank line, else its planned row and the keys seen so far. *)
Definition plan_row (mapping : ColumnMapping) (options : ImportOptions) (line : nat) (row : list string)
    (seen : list string) : result (option PlannedRow * list string) :=
  let rawDate := cell row (cm_date mapping) in
  let rawAmount := cell row (cm_amount mapping) in
  if String.eqb (trim rawDate) "" && String.eqb (trim rawAmount) "" then Ok (None, seen)
  else match parseDate rawDate (io_dayFirst options) with
       | None => Ok (Some (failed_row line ("Could not read the date " ++ dquote ++ trim rawDate ++ dquote)), seen)
       | Some date =>
           amount ← parseAmountCell rawAmount (io_currency options);
           match amount with
           | None => Ok (Some (failed_row line ("Could not read the amount " ++ dquote ++ trim rawAmount ++ dquote)), seen)
           | Some amount =>
               if amount =? 0 then Ok (Some (failed_row line "The amount is zero"), seen)
               else
                 let payee := opt_cell row (cm_payee mapping) in
                 let transaction :=
                   mkPlanned date (Z.abs amount) (if amount <? 0 then Expense else Income) payee
                     (opt_cell row (cm_note mapping)) (opt_cell row (cm_category mapping)) in
                 let key := duplicateKey date (pt_amount transaction) payee in
                 Ok (Some (mkPlannedRow line (Some transaction) None (bool_decide (key ∈ seen))), jset_add seen key)
           end
       end.

Fixpoint plan_rows (mapping : ColumnMapping) (options : ImportOptions) (line : nat) (rows : list (list string))
    (seen : list string) : result (list PlannedRow) :=
  match rows with
  | [] => Ok []
  | row :: rest =>
      '(planned, seen) ← plan_row mapping options line row seen;
      others ← plan_rows mapping options (S line) rest seen;
      mret (match planned with Some p => p :: others | None => others end)
  end.

Definition is_ready (row : PlannedRow) : bool :=
  match pr_transaction row with Some _ => negb (pr_duplicate row) | None => false end.
Definition is_failed (row : PlannedRow) : bool :=
  match pr_error row with Some e => truthy e | None => false end.

Definition planImport (rows : list (list string)) (mapping : ColumnMapping) (options : ImportOptions) : result ImportPlan :=
  plan ← plan_rows mapping options 2 rows (jset_of (io_existing options));
  mret (mkPlan plan (length (List.filter is_ready plan)) (length (List.filter pr_duplicate plan))
          (length (List.filter is_failed plan))).

(** ** import.service.ts *)

Record ApplyOptions : Type := mkApply { ao_accountId : string; ao_currency : string; ao_includeDuplicates : bool }.

Record ImportResult : Type := mkImportResult { ir_imported : nat; ir_skipped : nat; ir_created : list string }.

Definition existingKeys (s : App) : list string :=
  jset_of (map (fun txn => duplicateKey (txn_date txn) (txn_amount txn) (txn_payee txn)) (transactions s)).

Definition shouldImport (row : PlannedRow) (includeDuplicates : bool) : bool :=
  match pr_transaction row with Some _ => negb (pr_duplicate row) || includeDuplicates | None => false end.

(** The method [toTransaction], which draws the id and reads the clock. *)
Definition imported_transaction (planned : PlannedTransaction) (categoryId : option string) (options : ApplyOptions)
  : M App Transaction :=
  s ← getS;
  rate ← liftR (if String.eqb (toUpperCase (ao_currency options)) (toUpperCase (reportingCurrency s)) then Ok None
                else rateToReporting (ao_currency options) (pt_date planned) s);
  id ← randomUUID;
  now ← Date_now;
  mret (mkTransaction id (pt_kind planned) (pt_amount planned) (ao_currency options) (ao_accountId options) None
          categoryId (pt_date planned) (pt_payee planned) (pt_note planned) [] true rate
          (match rate with Some _ => Some (pt_date planned) | None => None end) now "").

(** The category of a planned row: its id, the names known so far, the names created. *)
Definition resolve_category (planned : PlannedTransaction) (byName : list (string * string)) (created : list string)
  : M App (option string * list (string * string) * list string) :=
  if truthy (pt_categoryName planned) then
    let name := toLowerCase (pt_categoryName planned) in
    match jmap_get name byName with
    | Some id => mret (Some id, byName, created)
    | None =>
        id ← randomUUID;
        v ← save_category (mkCategoryDraft id (pt_categoryName planned)
                             (match pt_kind planned with Income => CIncome | _ => CExpense end) "" "" None None None);
        mret (Some (entity_id v), jmap_set name (entity_id v) byName, (created ++ [pt_categoryName planned])%list)
    end
  else mret (None, byName, created).

Fixpoint apply_rows (options : ApplyOptions) (rows : list PlannedRow) (byName : list (string * string))
    (result : ImportResult) : M App ImportResult :=
  match rows with
  | [] => mret result
  | row :: rest =>
      match pr_transaction row with
      | Some planned =>
          if shouldImport row (ao_includeDuplicates options) then
            resolved ← resolve_category planned byName (ir_created result);
            let '(categoryId, byName, created) := resolved in
            txn ← imported_transaction planned categoryId options;
            _ ← put ETransactions (ATransaction txn);
            apply_rows options rest byName (mkImportResult (S (ir_imported result)) (ir_skipped result) created)
          else apply_rows options rest byName (mkImportResult (ir_imported result) (S (ir_skipped result)) (ir_created result))
      | None => apply_rows options rest byName (mkImportResult (ir_imported result) (S (ir_skipped result)) (ir_created result))
      end
  end.

Definition names_of (s : App) : list (string * string) :=
  jmap_of (map (fun c => (toLowerCase (cat_name c), cat_id c)) (all_categories s)).

Definition apply_plan (plan : ImportPlan) (options : ApplyOptions) : M App ImportResult :=
  s ← getS;
  apply_rows options (ip_rows plan) (names_of s) (mkImportResult 0 0 []).

(** * Specification *)

(** What the planner promises of a planned transaction. *)
Definition planned_ok (p : PlannedTransaction) : Prop :=
  0 < pt_amount p /\ pt_kind p <> Transfer
  /\ exists y m d, pt_date p = format y m d /\ 0 <= y <= 9999 /\ 1 <= m <= 12 /\ 1 <= d <= daysInMonth y m.

Definition key_of (p : PlannedTransaction) : string := duplicateKey (pt_date p) (pt_amount p) (pt_payee p).

(** The planned transactions that applying the plan is to write. *)
Definition chosen (o : ApplyOptions) (rws : list PlannedRow) : list PlannedTransaction :=
  omap pr_transaction (List.filter (fun row => shouldImport row (ao_includeDuplicates o)) rws).

(** [t] is the planned [p] on the account of the import; its rate aside, every field. *)
Record writes_row (o : ApplyOptions) (p : PlannedTransaction) (t : Transaction) : Prop := {
  wr_kind : txn_kind t = pt_kind p; wr_amount : txn_amount t = pt_amount p; wr_currency : txn_currency t = ao_currency o;
  wr_account : txn_accountId t = ao_accountId o; wr_counter : txn_counterAccountId t = None; wr_date : txn_date t = pt_date p;
  wr_payee : txn_payee t = pt_payee p; wr_note : txn_note t = pt_note p; wr_tags : txn_tags t = [];
  wr_cleared : txn_cleared t = true }.

(** [t] is filed under the category of the name planned, whatever its case, or under none. *)
Definition filed_under (s : App) (p : PlannedTransaction) (t : Transaction) : Prop :=
  if truthy (pt_categoryName p)
  then exists c, c ∈ categories s /\ txn_categoryId t = Some (cat_id c) /\ toLowerCase (cat_name c) = toLowerCase (pt_categoryName p)
  else txn_categoryId t = None.

(** [c] is the category made for the name [p] gives. *)
Definition made_for (p : PlannedTransaction) (c : Category) : Prop :=
  cat_name c = pt_categoryName p /\ cat_kind c = match pt_kind p with Income => CIncome | _ => CExpense end
  /\ cat_parentId c = None /\ cat_archived c = false.

(** [s'] has the rows of [s] and, each in its place, the rows [new], which were not there. *)
Record grown (new : list AnyEntity) (s s' : App) : Prop := {
  gr_kept : forall place v, rows s !! place = Some v -> rows s' !! place = Some v;
  gr_new : forall v, v ∈ new -> rows s' !! (entity_table v, entity_id v) = Some v /\ rows s !! (entity_table v, entity_id v) = None;
  gr_only : forall place v, rows s' !! place = Some v -> rows s !! place = Some v \/ v ∈ new /\ place = (entity_table v, entity_id v);
  gr_size : size (rows s') = (size (rows s) + length new)%nat }.

(** Ids the device will draw are new to the ledger and never repeat. *)
Definition fresh_ids (s : App) : Prop :=
  (forall i j, uuids s i = uuids s j -> i = j)
  /\ forall i e, (drawn s <= i)%nat -> rows s !! (e, uuids s i) = None.

(** * Lemmas *)

(** ** The planner *)

Lemma read_number_range least most s n rest :
  read_number least most s = Some (n, rest) -> 0 <= n < 10 ^ Z.of_nat most.
Proof.
  unfold read_number. destruct (take_digits most s) as [digits r] eqn:E. destruct (_ <? _)%nat; [done|].
  destruct (parse_digits 10 digits) as [m|] eqn:Ep; [|done]. intros [= <- _].
  assert (String.length digits <= most)%nat as Hl.
  { clear Ep. revert s digits r E. induction most as [|k IH]; intros s digits r E; [by injection E as <- <-; cbn; lia|].
    destruct s as [|c s]; [by injection E as <- <-; cbn; lia|]. cbn [take_digits] in E.
    destruct (is_digit c); [|by injection E as <- <-; cbn; lia].
    destruct (take_digits k s) as [d r'] eqn:E'. injection E as <- <-. cbn. pose proof (IH _ _ _ E'). lia. }
  assert (0 <= m < 10 ^ Z.of_nat (String.length digits)) as Hm by by apply parse_digits_bound.
  pose proof (Z.pow_le_mono_r 10 (Z.of_nat (String.length digits)) (Z.of_nat most)). lia.
Qed.

Lemma assemble_Some y m d text :
  assemble y m d = Some text -> text = format y m d /\ 1 <= m <= 12 /\ 1 <= d <= daysInMonth y m.
Proof.
  unfold assemble. destruct (Z.ltb_spec m 1), (Z.ltb_spec 12 m), (Z.ltb_spec d 1), (Z.ltb_spec 31 d); try done.
  cbn [orb]. destruct (Z.ltb_spec (daysInMonth y m) d); [done|]. intros [= <-]. split; [done|lia].
Qed.

Lemma parseDate_Some value dayFirst text :
  parseDate value dayFirst = Some text ->
  exists y m d, text = format y m d /\ 0 <= y <= 9999 /\ 1 <= m <= 12 /\ 1 <= d <= daysInMonth y m.
Proof.
  unfold parseDate. destruct (String.eqb (trim value) ""); [done|].
  destruct (iso_date (trim value)) as [[[y m] d]|] eqn:Ei.
  - intros H%assemble_Some. exists y, m, d. split; [by destruct H|]. split; [|by destruct H].
    unfold iso_date in Ei. apply bind_Some in Ei as ([y' r] & Hy%read_number_range & Ei).
    apply bind_Some in Ei as (r2 & _ & Ei). apply bind_Some in Ei as ([m' r3] & _ & Ei).
    apply bind_Some in Ei as (r4 & _ & Ei). apply bind_Some in Ei as ([d' r5] & _ & [= <- <- <-]). lia.
  - destruct (slash_date (trim value)) as [[[a b] y]|] eqn:Es; [|done]. cbv zeta. intros H%assemble_Some.
    eexists _, _, _. split; [by destruct H|]. split; [|by destruct H].
    unfold slash_date in Es. apply bind_Some in Es as ([a' r] & _ & Es).
    apply bind_Some in Es as (r2 & _ & Es). apply bind_Some in Es as ([b' r3] & _ & Es).
    apply bind_Some in Es as (r4 & _ & Es). apply bind_Some in Es as ([y' r5] & Hy%read_number_range & Es).
    destruct (String.eqb r5 ""); [|done]. injection Es as <- <- <-. unfold normaliseYear. cbn in Hy.
    destruct (Z.leb_spec 100 y'), (Z.leb_spec y' 68); lia.
Qed.

Ltac failed_case :=
  left; split; [done|]; split; [right; eexists; split; [|reflexivity]; reflexivity|done].

(** What planning one row can come to. *)
Lemma plan_row_cases mapping options line row seen planned seen' :
  plan_row mapping options line row seen = Ok (planned, seen') ->
  (seen' = seen /\ (planned = None \/ exists e, truthy e = true /\ planned = Some (failed_row line e))
   /\ forall s, plan_row mapping options line row s = Ok (planned, s))
  \/ exists p, planned_ok p /\ planned = Some (mkPlannedRow line (Some p) None (bool_decide (key_of p ∈ seen)))
       /\ seen' = jset_add seen (key_of p)
       /\ forall s, plan_row mapping options line row s
                    = Ok (Some (mkPlannedRow line (Some p) None (bool_decide (key_of p ∈ s))), jset_add s (key_of p)).
Proof.
  unfold plan_row. destruct (_ && _); [intros [= <- <-]; left; split; [done|]; split; [by left|done]|].
  destruct (parseDate _ _) as [date|] eqn:Ed; [|intros [= <- <-]; by failed_case].
  intros (amount & Ea & H)%bind_Ok_inv. setoid_rewrite Ea. setoid_rewrite bind_Ok.
  destruct amount as [amount|]; [|injection H as <- <-; by failed_case].
  destruct (Z.eqb_spec amount 0) as [E0|Hne]; [injection H as <- <-; by failed_case|].
  injection H as <- <-. right.
  exists (mkPlanned date (Z.abs amount) (if amount <? 0 then Expense else Income) (opt_cell row (cm_payee mapping))
            (opt_cell row (cm_note mapping)) (opt_cell row (cm_category mapping))). split_and!; [|reflexivity|reflexivity|reflexivity].
  split_and!; cbn [pt_amount pt_kind pt_date]; [lia|by destruct (_ <? _)|by eapply parseDate_Some].
Qed.

(** The rows of a plan: their lines in order, each ready, repeated or failed. *)
Definition row_wf (row : PlannedRow) : Prop :=
  (exists p, planned_ok p /\ pr_transaction row = Some p /\ pr_error row = None)
  \/ (exists e, truthy e = true /\ pr_transaction row = None /\ pr_error row = Some e /\ pr_duplicate row = false).

Lemma plan_rows_wf mapping options rws : forall line seen l,
  plan_rows mapping options line rws seen = Ok l ->
  Forall (fun row => row_wf row /\ (line <= pr_line row < line + length rws)%nat) l
  /\ StronglySorted lt (map pr_line l).
Proof.
  induction rws as [|row rest IH]; intros line seen l; cbn [plan_rows].
  - intros [= <-]. split; constructor.
  - intros ([planned seen'] & E & (others & Eo & [= <-])%bind_Ok_inv)%bind_Ok_inv.
    destruct (IH _ _ _ Eo) as [Hf Hs]. assert (Forall (fun row => row_wf row /\ (line <= pr_line row < line + S (length rest))%nat) others)
      as Hf' by (eapply Forall_impl; [exact Hf|]; intros r [? ?]; split; [done|lia]).
    assert (forall r, pr_line r = line -> row_wf r ->
      Forall (fun row => row_wf row /\ (line <= pr_line row < line + S (length rest))%nat) (r :: others)
      /\ StronglySorted lt (map pr_line (r :: others))) as Hcons.
    { intros r Hl Hr. split; [constructor; [split; [done|lia]|done]|]. cbn [map]. constructor; [done|].
      apply Forall_fmap. eapply Forall_impl; [exact Hf|]. intros x [_ ?]. cbn. lia. }
    apply plan_row_cases in E as [(_ & [->|(e & He & ->)] & _)|(p & Hp & -> & _)]; [by split|..];
      (apply Hcons; [done|]); [right; by exists e|left; by exists p].
Qed.

(** Every planned key was known before or is brought in by a row that is ready. *)
Lemma plan_rows_keys mapping options rws : forall line seen l,
  plan_rows mapping options line rws seen = Ok l ->
  forall row p, row ∈ l -> pr_transaction row = Some p ->
  key_of p ∈ seen \/ exists row' p', row' ∈ l /\ is_ready row' = true /\ pr_transaction row' = Some p' /\ key_of p' = key_of p.
Proof.
  induction rws as [|row0 rest IH]; intros line seen l; cbn [plan_rows].
  - intros [= <-] row p H. by apply not_elem_of_nil in H.
  - intros ([planned seen'] & E & (others & Eo & [= <-])%bind_Ok_inv)%bind_Ok_inv row p Hin Hp.
    apply plan_row_cases in E as [(-> & [->|(e & _ & ->)] & _)|(q & _ & -> & -> & _)].
    + by eapply IH.
    + apply elem_of_cons in Hin as [->|Hin]; [done|].
      destruct (IH _ _ _ Eo row p Hin Hp) as [?|(r & p' & ? & ?)]; [by left|right; exists r, p'; set_solver].
    + set (first := mkPlannedRow line (Some q) None (bool_decide (key_of q ∈ seen))) in *.
      assert (key_of q ∈ seen \/ exists row' p', row' ∈ first :: others /\ is_ready row' = true
        /\ pr_transaction row' = Some p' /\ key_of p' = key_of q) as Hq.
      { destruct (decide (key_of q ∈ seen)) as [|Hn]; [by left|]. right. exists first, q.
        split_and!; [constructor|unfold is_ready, first; cbn; by rewrite bool_decide_eq_false_2|done..]. }
      apply elem_of_cons in Hin as [->|Hin]; [injection Hp as <-; exact Hq|].
      destruct (IH _ _ _ Eo row p Hin Hp) as [[?| ->]%elem_of_jset_add|(r & p' & ? & ? & ? & ?)];
        [by left|exact Hq|right; exists r, p'; split_and!; [by constructor|done..]].
Qed.

(** Planning the same rows against other known keys plans the same transactions. *)
Lemma plan_rows_again mapping options rws existing : forall line seen l seen',
  plan_rows mapping options line rws seen = Ok l ->
  exists l', plan_rows mapping (mkImportOptions (io_accountId options) (io_currency options) (io_dayFirst options) existing)
               line rws seen' = Ok l'
    /\ Forall2 (fun a b => pr_transaction a = pr_transaction b /\ pr_line a = pr_line b) l l'
    /\ ((forall row p, row ∈ l -> pr_transaction row = Some p -> key_of p ∈ seen') ->
        Forall (fun row => is_ready row = false) l').
Proof.
  induction rws as [|row rest IH]; intros line seen l seen'; cbn [plan_rows].
  - intros [= <-]. exists []. split_and!; [done|constructor|constructor].
  - intros ([planned seen1] & E & (others & Eo & [= <-])%bind_Ok_inv)%bind_Ok_inv.
    set (options' := mkImportOptions _ _ _ _) in *.
    assert (forall s, plan_row mapping options' line row s = plan_row mapping options line row s) as Hsame by done.
    setoid_rewrite Hsame.
    apply plan_row_cases in E as [(_ & Hpl & E)|(p & _ & -> & _ & E)]; rewrite E bind_Ok.
    + destruct (IH _ _ _ seen' Eo) as (l' & El & Hl & Hr). rewrite El bind_Ok.
      destruct Hpl as [->|(e & He & ->)]; [by exists l'|]. eexists. split_and!; [done|by constructor|].
      intros Hk. constructor; [done|]. apply Hr. intros r p Hrin. apply Hk. by constructor.
    + destruct (IH _ _ _ (jset_add seen' (key_of p)) Eo) as (l' & El & Hl & Hr). rewrite El bind_Ok.
      eexists. split_and!; [done|by constructor|]. intros Hk. constructor.
      * unfold is_ready. cbn. rewrite bool_decide_eq_true_2 //. eapply Hk; [constructor|done].
      * apply Hr. intros r q Hrin Hq. apply elem_of_jset_add. left. eapply Hk; [by constructor|done].
Qed.

(** ** Writing the plan *)

(** A step that writes new rows only: none under an id of the ledger, and the ids still
    to be drawn stay new. *)
Definition adds_rows (s s' : App) : Prop :=
  fresh_ids s -> fresh_ids s' /\ forall e k v, rows s !! (e, k) = Some v -> rows s' !! (e, k) = Some v.

Lemma adds_rows_trans s1 s2 s3 : adds_rows s1 s2 -> adds_rows s2 s3 -> adds_rows s1 s3.
Proof. intros H1 H2 Hf. destruct (H1 Hf) as [Hf2 K1]. destruct (H2 Hf2) as [Hf3 K2]. split; [done|auto]. Qed.

Lemma adds_rows_quiet s s' : rows s' = rows s -> uuids s' = uuids s -> (drawn s <= drawn s')%nat -> adds_rows s s'.
Proof. intros Hr Hu Hd [Hi Hn]. split; [|by rewrite Hr]. split; rewrite Hu ?Hr; [done|]. intros i e Hle. apply Hn. lia. Qed.

Lemma put_draws e v s r s' : put e v s = (r, s') -> uuids s' = uuids s /\ drawn s' = drawn s.
Proof.
  unfold put, on_clock, stepM, modifyS, mret, M_ret, mbind, M_bind, requireClock, Date_now.
  destruct (clock s) as [c|] eqn:Ec; cbn; rewrite ?Ec; cbn; [|by intros [= _ <-]].
  destruct (tick (nows s (reads s)) c) as [[stamp|x] c']; cbn; intros [= _ <-]; [|done].
  unfold persistClock. by destruct (clock _).
Qed.

Lemma put_adds e v s v' s' i :
  put e v s = (Ok v', s') -> entity_id v = uuids s i -> (i < drawn s)%nat -> rows s !! (e, uuids s i) = None ->
  adds_rows s s'.
Proof.
  intros E Hid Hi Hnone [Hinj Hn]. destruct (put_draws _ _ _ _ _ E) as [Hu Hd]. apply put_rows in E as [_ Hr].
  rewrite Hid in Hr. split.
  - split; rewrite Hu; [done|]. rewrite Hd Hr. intros j e' Hj. rewrite lookup_insert_ne; [by apply Hn|].
    intros [= _ Hij]. apply Hinj in Hij. lia.
  - intros e' k w Hw. rewrite Hr lookup_insert_ne; [done|]. intros [= <- <-]. congruence.
Qed.

Lemma resolve_category_adds planned byName created s x s' :
  resolve_category planned byName created s = (Ok x, s') ->
  adds_rows s s' /\ uuids s' = uuids s
  /\ (forall k, rows s' !! (ETransactions, k) = rows s !! (ETransactions, k)).
Proof.
  unfold resolve_category. destruct (truthy _); [|intros [= _ <-]; split; [by apply adds_rows_quiet|done]].
  destruct (jmap_get _ _); [intros [= _ <-]; split; [by apply adds_rows_quiet|done]|].
  intros (id & s1 & [= <- <-] & E)%M_bind_Ok_inv. apply M_bind_Ok_inv in E as (v & s2 & E & [= _ <-]).
  unfold save_category in E. apply M_bind_Ok_inv in E as (now & s3 & [= <- <-] & E).
  pose proof (put_draws _ _ _ _ _ E) as [Hu _]. split.
  - intros Hf. pose proof Hf as [_ Hn]. eapply (adds_rows_trans s (set_reads (S (reads s)) (set_drawn (S (drawn s)) s)));
      [apply adds_rows_quiet; [done..|cbn; lia]| |done].
    eapply (put_adds _ _ _ _ _ (drawn s)); [exact E|done|cbn; lia|]. cbn. apply Hn. lia.
  - split; [done|]. intros k. apply put_rows in E as [_ Hr]. rewrite Hr. by rewrite lookup_insert_ne.
Qed.

(** An imported row: a new transaction holding what was planned. *)
Lemma import_one planned categoryId options s txn s1 v s2 :
  imported_transaction planned categoryId options s = (Ok txn, s1) -> put ETransactions (ATransaction txn) s1 = (Ok v, s2) ->
  adds_rows s s2
  /\ exists t, rows s2 = <[(ETransactions, uuids s (drawn s)) := ATransaction t]> (rows s) /\ txn_id t = uuids s (drawn s)
     /\ txn_date t = pt_date planned /\ txn_amount t = pt_amount planned /\ txn_payee t = pt_payee planned
     /\ txn_kind t = pt_kind planned /\ txn_accountId t = ao_accountId options.
Proof.
  unfold imported_transaction. intros (s0 & s1' & [= <- <-] & E)%M_bind_Ok_inv Hput.
  apply M_bind_Ok_inv in E as (rate & s3 & E & E2). unfold liftR in E. injection E as _ <-.
  apply M_bind_Ok_inv in E2 as (id & s4 & [= <- <-] & E). apply M_bind_Ok_inv in E as (now & s5 & [= <- <-] & E).
  injection E as <- <-. pose proof (put_rows _ _ _ _ _ Hput) as [Hv Hr]. split.
  - intros Hf. pose proof Hf as [_ Hn].
    eapply (adds_rows_trans s (set_reads (S (reads s)) (set_drawn (S (drawn s)) s)));
      [apply adds_rows_quiet; [done..|cbn; lia]| |done].
    eapply (put_adds _ _ _ _ _ (drawn s)); [exact Hput|done|cbn; lia|]. cbn. apply Hn. lia.
  - rewrite Hv in Hr. cbn in Hr. eexists. split; [exact Hr|]. done.
Qed.

Definition holds_key (s : App) (key : string) : Prop :=
  exists id t, rows s !! (ETransactions, id) = Some (ATransaction t)
    /\ duplicateKey (txn_date t) (txn_amount t) (txn_payee t) = key.

Lemma elem_of_existingKeys s key : key ∈ existingKeys s <-> holds_key s key.
Proof.
  unfold existingKeys. rewrite elem_of_jset_of list_elem_of_fmap. unfold transactions. split.
  - intros (t & -> & (id & v & Hv & Ht)%elem_of_table_of). exists id, t. split; [|done].
    destruct v; try discriminate. by injection Ht as ->.
  - intros (id & t & Ht & <-). exists t. split; [done|]. apply elem_of_table_of. by exists id, (ATransaction t).
Qed.

(** What applying a plan does to the ledger. *)
Lemma apply_rows_spec options rws : forall byName res s r s',
  apply_rows options rws byName res s = (Ok r, s') -> fresh_ids s ->
  (forall e k v, rows s !! (e, k) = Some v -> rows s' !! (e, k) = Some v)
  /\ (forall row p, row ∈ rws -> shouldImport row (ao_includeDuplicates options) = true -> pr_transaction row = Some p ->
      holds_key s' (key_of p))
  /\ (forall k v, rows s' !! (ETransactions, k) = Some v -> rows s !! (ETransactions, k) = Some v
      \/ exists row p t, row ∈ rws /\ pr_transaction row = Some p /\ v = ATransaction t /\ txn_id t = k
         /\ txn_amount t = pt_amount p /\ txn_date t = pt_date p /\ txn_kind t = pt_kind p /\ txn_accountId t = ao_accountId options)
  /\ (ir_imported r = ir_imported res + length (List.filter (fun row => shouldImport row (ao_includeDuplicates options)) rws))%nat.
Proof.
  induction rws as [|row rest IH]; intros byName res s r s' E Hf.
  - injection E as <- <-. split_and!; [done| |by left|cbn; lia]. intros row p H. by apply not_elem_of_nil in H.
  - cbn [apply_rows] in E.
    destruct (pr_transaction row) as [planned|] eqn:Et; [destruct (shouldImport row _) eqn:Es|].
    + apply M_bind_Ok_inv in E as ([[categoryId byName'] created] & s1 & E1 & E).
      apply M_bind_Ok_inv in E as (txn & s2 & E2 & E). apply M_bind_Ok_inv in E as (v & s3 & E3 & E).
      destruct (resolve_category_adds _ _ _ _ _ _ E1) as (H1 & Hu1 & Ht1).
      destruct (import_one _ _ _ _ _ _ _ _ E2 E3) as (H2 & t & Hr & Hid & Hd & Ha & Hpay & Hk & Hacc).
      destruct (H1 Hf) as [Hf1 K1]. destruct (H2 Hf1) as [Hf2 K2].
      destruct (IH _ _ _ _ _ E Hf2) as (K & Hin & Hnew & Hn). split_and!.
      * intros e k w Hw. by apply K, K2, K1.
      * intros r0 p [->|Hr0]%elem_of_cons Hs0 Hp; [|by eapply Hin]. rewrite Et in Hp. injection Hp as <-.
        exists (uuids s1 (drawn s1)), t. split; [apply K; rewrite Hr; apply lookup_insert_eq|].
        unfold key_of. by rewrite Hd Ha Hpay.
      * intros k w [Hw|(r0 & p & t0 & ? & ?)]%Hnew; [|right; exists r0, p, t0; split; [by constructor|done]].
        rewrite Hr in Hw. apply lookup_insert_Some in Hw as [[[= <-] <-]|[_ Hw]];
          [right; exists row, planned, t; split_and!; try done; constructor|left; by rewrite -Ht1].
      * rewrite Hn. cbn [List.filter ir_imported]. rewrite Es. cbn [length]. lia.
    + destruct (IH _ _ _ _ _ E Hf) as (K & Hin & Hnew & Hn). split_and!; [done| | |].
      * intros r0 p [->|Hr0]%elem_of_cons Hs0 Hp; [congruence|by eapply Hin].
      * intros k w [Hw|(r0 & p & t0 & ? & ?)]%Hnew; [by left|right; exists r0, p, t0; split; [by constructor|done]].
      * rewrite Hn. cbn [List.filter ir_imported]. by rewrite Es.
    + destruct (IH _ _ _ _ _ E Hf) as (K & Hin & Hnew & Hn).
      assert (shouldImport row (ao_includeDuplicates options) = false) as Es by by (unfold shouldImport; rewrite Et).
      split_and!; [done| | |].
      * intros r0 p [->|Hr0]%elem_of_cons Hs0 Hp; [congruence|by eapply Hin].
      * intros k w [Hw|(r0 & p & t0 & ? & ?)]%Hnew; [by left|right; exists r0, p, t0; split; [by constructor|done]].
      * rewrite Hn. cbn [List.filter ir_imported]. by rewrite Es.
Qed.

(** *** The rows written *)

Lemma grown_refl s : grown [] s s.
Proof. split; [done|by intros v H%elem_of_nil|by left|cbn; lia]. Qed.

Lemma grown_same s s' : rows s' = rows s -> grown [] s s'.
Proof. intros E. destruct (grown_refl s) as [H1 H2 H3 H4]. by split; rewrite E. Qed.

Lemma grown_trans new1 new2 s s1 s2 : grown new1 s s1 -> grown new2 s1 s2 -> grown (new1 ++ new2) s s2.
Proof.
  intros [K1 N1 O1 Z1] [K2 N2 O2 Z2]. split; [auto| | |rewrite Z2 Z1 length_app; lia].
  - intros v [Hv|Hv]%elem_of_app; [destruct (N1 v Hv); split; auto|]. destruct (N2 v Hv) as [H1 H2]. split; [done|].
    destruct (rows s !! _) as [w|] eqn:E; [|done]. by rewrite (K1 _ _ E) in H2.
  - intros place v [Hv|[Hv ->]]%O2; [destruct (O1 _ _ Hv) as [?|[? ->]]; [by left|]|]; right; (split; [set_solver|done]).
Qed.

Lemma grown_perm new new' s s' : new ≡ₚ new' -> grown new s s' -> grown new' s s'.
Proof.
  intros Hp [K N O Z]. split; [done|intros v; rewrite -Hp; apply N|intros place v; rewrite -Hp; apply O|by rewrite -Hp].
Qed.

Lemma grown_insert v s s' :
  rows s' = <[(entity_table v, entity_id v) := v]> (rows s) -> rows s !! (entity_table v, entity_id v) = None -> grown [v] s s'.
Proof.
  intros E Hn. split; rewrite E.
  - intros place w Hw. rewrite lookup_insert_ne; [done|]. intros <-. congruence.
  - intros w ->%list_elem_of_singleton. split; [apply lookup_insert_eq|done].
  - intros place w [[<- <-]|[_ Hw]]%lookup_insert_Some; [right; split; [constructor|done]|by left].
  - rewrite map_size_insert_None //. cbn. lia.
Qed.

Lemma grown_categories new s s' c : grown new s s' -> c ∈ categories s -> c ∈ categories s'.
Proof. intros [K _ _ _]. unfold categories. rewrite !elem_of_table_of. intros (id & v & Hv & Hc). exists id, v. auto. Qed.

(** The map from names to ids knows the categories, and only them. *)
Definition knows_names (byName : list (string * string)) (s : App) : Prop :=
  (forall k id, jmap_get k byName = Some id -> exists c, c ∈ categories s /\ cat_id c = id /\ toLowerCase (cat_name c) = k)
  /\ forall c, c ∈ categories s -> is_Some (jmap_get (toLowerCase (cat_name c)) byName).

Lemma jmap_fold_get {K V} `{EqDecision K} (l : list (K * V)) k : forall m,
  (forall v, jmap_get k (fold_left (fun m kv => jmap_set (fst kv) (snd kv) m) l m) = Some v -> (k, v) ∈ l \/ jmap_get k m = Some v)
  /\ ((exists v, (k, v) ∈ l) \/ is_Some (jmap_get k m) -> is_Some (jmap_get k (fold_left (fun m kv => jmap_set (fst kv) (snd kv) m) l m))).
Proof.
  induction l as [|[k' v'] l IH]; intros m; cbn [fold_left fst snd].
  - split; [by right|]. intros [[v Hv%elem_of_nil]|H]; done.
  - destruct (IH (jmap_set k' v' m)) as [H1 H2]. destruct (decide (k = k')) as [<-|Hne].
    + rewrite jmap_get_set_eq in H1, H2. split; [|intros _; apply H2; right; by eexists].
      intros v [Hv|[= ->]]%H1; left; by constructor.
    + rewrite jmap_get_set_ne // in H1, H2. split; [intros v [?|?]%H1; [left; by constructor|by right]|].
      intros [[v [[= ? _]|Hv]%elem_of_cons]|?]; [done|apply H2; left; by exists v|apply H2; by right].
Qed.

Lemma names_of_known s : knows_names (names_of s) s.
Proof.
  assert (forall c, c ∈ all_categories s <-> c ∈ categories s) as Hall by (intros c; unfold all_categories; by rewrite js_sort_perm).
  set (l := map (fun c => (toLowerCase (cat_name c), cat_id c)) (all_categories s)). split.
  - intros k id H. destruct (proj1 (jmap_fold_get l k []) id H) as [Hin|]; [|done].
    apply list_elem_of_fmap in Hin as (c & [= -> ->] & Hc). exists c. by rewrite -Hall.
  - intros c Hc%Hall. apply (proj2 (jmap_fold_get l (toLowerCase (cat_name c)) [])). left. exists (cat_id c).
    apply list_elem_of_fmap. by exists c.
Qed.

Lemma resolve_category_writes p byName created s cid byName' created' s' :
  resolve_category p byName created s = (Ok (cid, byName', created'), s') -> fresh_ids s -> knows_names byName s ->
  knows_names byName' s'
  /\ (if truthy (pt_categoryName p)
      then exists c, c ∈ categories s' /\ cid = Some (cat_id c) /\ toLowerCase (cat_name c) = toLowerCase (pt_categoryName p)
      else cid = None)
  /\ exists cs, grown (map ACategory cs) s s' /\ created' = (created ++ map cat_name cs)%list
       /\ Forall (fun c => made_for p c /\ forall c0, c0 ∈ categories s -> toLowerCase (cat_name c0) <> toLowerCase (cat_name c)) cs.
Proof.
  unfold resolve_category. intros E Hf [Hk1 Hk2]. destruct (truthy (pt_categoryName p)); cycle 1.
  { injection E as <- <- <- <-. split_and!; [done..|]. exists []. rewrite app_nil_r. split_and!; [apply grown_refl|done|constructor]. }
  destruct (jmap_get _ byName) as [id|] eqn:Eg.
  { injection E as <- <- <- <-. split; [done|]. split; [destruct (Hk1 _ _ Eg) as (c & ? & <- & ?); by exists c|].
    exists []. rewrite app_nil_r. split_and!; [apply grown_refl|done|constructor]. }
  apply M_bind_Ok_inv in E as (id & s1 & [= <- <-] & E). apply M_bind_Ok_inv in E as (v & s2 & E & [= <- <- <- <-]).
  unfold save_category in E. apply M_bind_Ok_inv in E as (now & s3 & [= <- <-] & [Hv Hr]%put_rows). cbn in Hv, Hr.
  destruct v as [| |c| | | | |]; try done. injection Hv as Hc.
  assert (cat_id c = uuids s (drawn s) /\ made_for p c) as [Hid Hm] by (rewrite Hc; by split_and!).
  assert (grown (map ACategory [c]) s s2) as Hg.
  { apply (grown_insert (ACategory c)); cbn; rewrite Hid; [exact Hr|]. apply Hf. lia. }
  assert (forall c0, c0 ∈ categories s -> toLowerCase (cat_name c0) <> toLowerCase (cat_name c)) as Hnone.
  { intros c0 Hc0 En. destruct (Hk2 c0 Hc0) as [i Hi]. rewrite En (proj1 Hm) Eg in Hi. done. }
  assert (c ∈ categories s2) as Hc2.
  { apply elem_of_table_of. exists (cat_id c), (ACategory c). split; [|done].
    by destruct (gr_new _ _ _ Hg (ACategory c)) as [Hn _]; [constructor|]. }
  assert (toLowerCase (cat_name c) = toLowerCase (pt_categoryName p)) as Hnm by by rewrite (proj1 Hm).
  split; [split|split; [exists c; split_and!; [exact Hc2|done|exact Hnm]|]].
  - intros k i Hi. destruct (decide (k = toLowerCase (pt_categoryName p))) as [->|Hne].
    + rewrite jmap_get_set_eq in Hi. injection Hi as <-. exists c. split_and!; [exact Hc2|done|exact Hnm].
    + rewrite jmap_get_set_ne // in Hi. destruct (Hk1 _ _ Hi) as (c0 & ? & ?). exists c0. split; [by eapply grown_categories|done].
  - intros c0 Hc0. assert (c0 ∈ categories s \/ c0 = c) as [H0| ->].
    { apply elem_of_table_of in Hc0 as (i & w & Hw & Hw'). apply (gr_only _ _ _ Hg) in Hw as [Hw|[->%list_elem_of_singleton _]].
      - left. apply elem_of_table_of. by exists i, w.
      - right. by injection Hw'. }
    + destruct (decide (toLowerCase (cat_name c0) = toLowerCase (pt_categoryName p))) as [->|Hne]; [rewrite jmap_get_set_eq; eauto|].
      rewrite jmap_get_set_ne //. by apply Hk2.
    + rewrite Hnm jmap_get_set_eq. eauto.
  - exists [c]. split_and!; [exact Hg|by rewrite /= (proj1 Hm)|]. constructor; [by split|constructor].
Qed.

(** A transaction changes no name. *)
Lemma knows_names_txn byName t s s' : grown [ATransaction t] s s' -> knows_names byName s -> knows_names byName s'.
Proof.
  intros Hg [H1 H2]. split.
  - intros k id (c & Hc & ?)%H1. exists c. split; [by eapply grown_categories|done].
  - intros c (i & w & Hw & Hc)%elem_of_table_of. apply H2, elem_of_table_of. exists i, w. split; [|done].
    apply (gr_only _ _ _ Hg) in Hw as [Hw|[->%list_elem_of_singleton _]]; [done|discriminate Hc].
Qed.

Lemma import_one_writes p cid o s t s1 v s2 :
  imported_transaction p cid o s = (Ok t, s1) -> put ETransactions (ATransaction t) s1 = (Ok v, s2) -> fresh_ids s ->
  exists t', grown [ATransaction t'] s s2 /\ writes_row o p t' /\ txn_categoryId t' = cid.
Proof.
  unfold imported_transaction. intros (s0 & s1' & [= <- <-] & E)%M_bind_Ok_inv [Hv Hr]%put_rows Hf.
  apply M_bind_Ok_inv in E as (rate & s3 & E & E2). unfold liftR in E. injection E as _ <-.
  apply M_bind_Ok_inv in E2 as (id & s4 & [= <- <-] & E). apply M_bind_Ok_inv in E as (now & s5 & [= <- <-] & E).
  injection E as <- <-. rewrite Hv in Hr. cbn in Hr.
  match type of Hr with _ = <[_ := ATransaction ?t]> _ => exists t end. split_and!; [|by split|done].
  apply (grown_insert (ATransaction _)); [exact Hr|]. apply Hf. lia.
Qed.

Lemma chosen_skip o row rws : shouldImport row (ao_includeDuplicates o) = false -> chosen o (row :: rws) = chosen o rws.
Proof. unfold chosen. cbn [List.filter]. by intros ->. Qed.

Lemma chosen_take o row rws p :
  shouldImport row (ao_includeDuplicates o) = true -> pr_transaction row = Some p -> chosen o (row :: rws) = p :: chosen o rws.
Proof. unfold chosen. cbn [List.filter]. intros ->. cbn [omap list_omap]. by intros ->. Qed.

Lemma apply_rows_writes o rws : forall byName res s r s',
  apply_rows o rws byName res s = (Ok r, s') -> fresh_ids s -> knows_names byName s ->
  exists ts cs, grown (map ATransaction ts ++ map ACategory cs) s s'
    /\ Forall2 (fun p t => writes_row o p t /\ filed_under s' p t) (chosen o rws) ts
    /\ ir_created r = (ir_created res ++ map cat_name cs)%list
    /\ Forall (fun c => (exists p, p ∈ chosen o rws /\ made_for p c)
                        /\ forall c0, c0 ∈ categories s -> toLowerCase (cat_name c0) <> toLowerCase (cat_name c)) cs.
Proof.
  induction rws as [|row rest IH]; intros byName res s r s' E Hf Hk.
  - injection E as <- <-. exists [], []. cbn [map app].
    split_and!; [apply grown_refl|by apply Forall2_nil|by rewrite app_nil_r|constructor].
  - cbn [apply_rows] in E. destruct (shouldImport row (ao_includeDuplicates o)) eqn:Es; cycle 1.
    { rewrite chosen_skip //. destruct (pr_transaction row); by destruct (IH _ _ _ _ _ E Hf Hk) as (ts & cs & ?); exists ts, cs. }
    destruct (pr_transaction row) as [p|] eqn:Et; [|by rewrite /shouldImport Et in Es].
    rewrite (chosen_take _ _ _ _ Es Et).
    apply M_bind_Ok_inv in E as ([[cid byName'] created] & s1 & E1 & E).
    apply M_bind_Ok_inv in E as (txn & s2 & E2 & E). apply M_bind_Ok_inv in E as (v & s3 & E3 & E).
    destruct (resolve_category_adds _ _ _ _ _ _ E1) as (H1 & _). destruct (H1 Hf) as [Hf1 _].
    destruct (import_one _ _ _ _ _ _ _ _ E2 E3) as (H2 & _). destruct (H2 Hf1) as [Hf3 _].
    destruct (resolve_category_writes _ _ _ _ _ _ _ _ E1 Hf Hk) as (Hk1 & Hcid & cs1 & Hg1 & -> & Hcs1).
    destruct (import_one_writes _ _ _ _ _ _ _ _ E2 E3 Hf1) as (t & Hg2 & Hw & Htc).
    assert (knows_names byName' s3) as Hk3 by by eapply knows_names_txn.
    destruct (IH _ _ _ _ _ E Hf3 Hk3) as (ts & cs & Hg & Hts & Hc & Hcs). cbn [ir_created] in Hc.
    exists (t :: ts), (cs1 ++ cs)%list. split_and!.
    + eapply grown_perm; [|exact (grown_trans _ _ _ _ _ (grown_trans _ _ _ _ _ Hg1 Hg2) Hg)].
      rewrite map_app. cbn [map]. solve_Permutation.
    + constructor; [|done]. split; [done|]. unfold filed_under. destruct (truthy _); [|congruence].
      destruct Hcid as (c & Hc1 & -> & Hn). exists c. split; [|done].
      eapply grown_categories; [exact Hg|]. by eapply grown_categories.
    + by rewrite Hc map_app app_assoc.
    + apply Forall_app. split.
      * eapply Forall_impl; [exact Hcs1|]. intros c [Hm Hn]. split; [exists p; split; [constructor|done]|done].
      * eapply Forall_impl; [exact Hcs|]. intros c [(q & Hq & Hm) Hn]. split; [exists q; split; [by constructor|done]|].
        intros c0 Hc0. apply Hn. eapply grown_categories; [exact Hg2|]. by eapply grown_categories.
Qed.

Lemma length_chosen o rws :
  length (chosen o rws) = length (List.filter (fun row => shouldImport row (ao_includeDuplicates o)) rws).
Proof.
  unfold chosen. induction rws as [|row rws IH]; [done|]. cbn [List.filter]. destruct (shouldImport row _) eqn:E; [|done].
  unfold shouldImport in E. cbn [omap list_omap length]. destruct (pr_transaction row); [|done]. cbn. by rewrite -IH.
Qed.

Lemma apply_rows_skip options rws : forall byName res s,
  Forall (fun row => is_ready row = false) rws -> ao_includeDuplicates options = false ->
  apply_rows options rws byName res s
  = (Ok (mkImportResult (ir_imported res) (ir_skipped res + length rws) (ir_created res)), s).
Proof.
  induction rws as [|row rest IH]; intros byName res s Hall Hd.
  - cbn. rewrite Nat.add_0_r. by destruct res.
  - apply Forall_cons in Hall as [Hr Hall]. cbn [apply_rows length].
    assert (shouldImport row (ao_includeDuplicates options) = false) as Es.
    { unfold shouldImport, is_ready in *. rewrite Hd. destruct (pr_transaction row); [|done]. by rewrite Hr. }
    rewrite Es. destruct (pr_transaction row); rewrite (IH _ _ _ Hall Hd); cbn; by rewrite Nat.add_succ_r.
Qed.

Lemma daysInMonth_small y m : 0 <= y -> 1 <= m <= 12 -> daysInMonth y m <= 31.
Proof.
  intros Hy Hm. assert (forall z, 100 <= z -> daysInMonth z m <= 31) as H.
  { intros z Hz. rewrite daysInMonth_length; [|done..]. by apply month_length_bounds. }
  destruct (Z.le_gt_cases 100 y); [by apply H|].
  assert (daysInMonth y m = daysInMonth (1900 + y) m) as ->; [|apply H; lia].
  unfold daysInMonth, date_utc. rewrite (full_year_id (1900 + y)); [|lia]. unfold full_year.
  destruct (Z.leb_spec 0 y), (Z.leb_spec y 99); try lia. done.
Qed.

Lemma counts_partition l :
  Forall row_wf l ->
  (length (List.filter is_ready l) + length (List.filter pr_duplicate l) + length (List.filter is_failed l) = length l)%nat.
Proof.
  induction 1 as [|row l Hr _ IH]; [done|]. cbn [List.filter].
  assert (is_ready row = true /\ pr_duplicate row = false /\ is_failed row = false
    \/ is_ready row = false /\ pr_duplicate row = true /\ is_failed row = false
    \/ is_ready row = false /\ pr_duplicate row = false /\ is_failed row = true)
    as [(-> & -> & ->)|[(-> & -> & ->)|(-> & -> & ->)]]; cbn [length]; try lia.
  unfold is_ready, is_failed. destruct Hr as [(p & _ & -> & ->)|(e & He & -> & -> & ->)]; [|by rewrite He; right; right].
  destruct (pr_duplicate row); [right; left|left]; done.
Qed.

Lemma applied_inv rws mapping options plan o s r s' :
  planImport rws mapping options = Ok plan -> truthy (ao_accountId o) = true -> transactions_inv s ->
  fresh_ids s -> apply_plan plan o s = (Ok r, s') -> transactions_inv s'.
Proof.
  intros Hplan Hacc Hinv Hf Happ. unfold planImport in Hplan. apply bind_Ok_inv in Hplan as (l & El & [= <-]).
  unfold apply_plan, mbind, M_bind, getS in Happ. cbn [ip_rows] in *.
  destruct (apply_rows_spec _ _ _ _ _ _ _ Happ Hf) as (_ & _ & Hnew & _).
  apply plan_rows_wf in El as [Hwf _]. rewrite ->Forall_forall in Hwf.
  intros k v [Hv|(row & p & t & Hrow & Hp & -> & Hid & Ham & Hd & Hk & Ha)]%Hnew; [by apply Hinv|].
  destruct (Hwf row Hrow) as [[(q & (Hpos & Hkind & y & m & d & Hdate & Hy & Hm & Hday) & Hq & _)|(e & _ & Hnone & _)] _];
    [|congruence]. rewrite Hp in Hq. injection Hq as <-.
  exists t. split_and!; [done|done|]. split; [by rewrite Ham|by rewrite Ha| |by rewrite Hk].
  rewrite Hd Hdate. exists (mkYmd y m d). apply match_ymd_format; [done|lia|].
  pose proof (daysInMonth_small y m). lia.
Qed.

(** * Properties *)

(** the plan accounts for the file: every row that is not blank is exactly one of
    ready, repeated or failed (the three counts add up to the rows), on its own line of
    the file and in order; what is planned has a positive amount, the kind its sign gives
    and a date that exists. *)
Theorem plan_accounts_for_every_row rws mapping options plan :
  planImport rws mapping options = Ok plan ->
  (ip_ready plan + ip_duplicates plan + ip_failed plan = length (ip_rows plan))%nat
  /\ StronglySorted lt (map pr_line (ip_rows plan))
  /\ Forall (fun row => row_wf row /\ (2 <= pr_line row < 2 + length rws)%nat) (ip_rows plan).
Proof.
  unfold planImport. intros (l & [Hf Hs]%plan_rows_wf & [= <-])%bind_Ok_inv. cbn. split_and!; [|done|done].
  apply counts_partition. eapply Forall_impl; [exact Hf|]. by intros row [? _].
Qed.

(** C34: importing the same statement again does nothing: after a plan has been written,
    planning the same file against the ledger finds every row repeated or failed, and
    applying that plan imports nothing and leaves the ledger as it was. *)
Theorem second_import_does_nothing rws mapping options plan o s r s' :
  planImport rws mapping options = Ok plan -> io_existing options = existingKeys s ->
  fresh_ids s -> apply_plan plan o s = (Ok r, s') ->
  exists plan', planImport rws mapping (mkImportOptions (io_accountId options) (io_currency options)
                                          (io_dayFirst options) (existingKeys s')) = Ok plan'
    /\ ip_ready plan' = 0%nat
    /\ apply_plan plan' (mkApply (ao_accountId o) (ao_currency o) false) s'
       = (Ok (mkImportResult 0 (length (ip_rows plan')) []), s').
Proof.
  intros Hplan Hex Hf Happ. unfold planImport in Hplan. apply bind_Ok_inv in Hplan as (l & El & [= <-]).
  unfold apply_plan, mbind, M_bind, getS in Happ. cbn [ip_rows] in Happ.
  destruct (apply_rows_spec _ _ _ _ _ _ _ Happ Hf) as (Hkeep & Hin & _ & _).
  destruct (plan_rows_again _ _ _ (existingKeys s') _ _ _ (jset_of (existingKeys s')) El) as (l' & El' & _ & Hr).
  assert (Forall (fun row => is_ready row = false) l') as Hall.
  { apply Hr. intros row p Hrow Hp. apply elem_of_jset_of, elem_of_existingKeys.
    destruct (plan_rows_keys _ _ _ _ _ _ El row p Hrow Hp) as [Hk|(row' & p' & Hrow' & Hready & Hp' & Hk)].
    - rewrite elem_of_jset_of Hex elem_of_existingKeys in Hk. destruct Hk as (id & t & Ht & Hk).
      exists id, t. split; [by apply Hkeep|done].
    - rewrite -Hk. eapply Hin; [exact Hrow'| |exact Hp']. unfold shouldImport, is_ready in *. rewrite Hp' in Hready |- *.
      by rewrite Hready. }
  eexists. split; [unfold planImport; cbn [io_existing]; rewrite El' bind_Ok; reflexivity|]. cbn [ip_ready ip_rows]. split.
  - clear -Hall. induction Hall as [|row l Hrow _ IH]; [done|]. cbn [List.filter]. by rewrite Hrow.
  - unfold apply_plan, mbind, M_bind, getS. cbn [ip_rows]. by rewrite apply_rows_skip.
Qed.

(** C35: An import adds what the plan says and nothing else.  The rows it writes are all new;
    they are, one for one, the planned transactions that were chosen, with every field as
    planned on the account of the import, and the categories reported as created: each made
    for a name a chosen row gives, that no category of the ledger had.  Each transaction is
    filed under the category of its planned name, and all are as well formed as ones saved
    by hand. *)
Theorem import_only_adds rws mapping options plan o s r s' :
  planImport rws mapping options = Ok plan -> truthy (ao_accountId o) = true -> transactions_inv s ->
  fresh_ids s -> apply_plan plan o s = (Ok r, s') ->
  exists ts cs,
    grown (map ATransaction ts ++ map ACategory cs) s s'
    /\ Forall2 (fun p t => writes_row o p t /\ filed_under s' p t) (chosen o (ip_rows plan)) ts
    /\ ir_imported r = length ts /\ ir_created r = map cat_name cs
    /\ Forall (fun c => (exists p, p ∈ chosen o (ip_rows plan) /\ made_for p c)
                        /\ forall c0, c0 ∈ categories s -> toLowerCase (cat_name c0) <> toLowerCase (cat_name c)) cs
    /\ transactions_inv s'.
Proof.
  intros Hplan Hacc Hinv Hf Happ. pose proof (applied_inv _ _ _ _ _ _ _ _ Hplan Hacc Hinv Hf Happ) as Hinv'.
  unfold apply_plan, mbind, M_bind, getS in Happ.
  destruct (apply_rows_spec _ _ _ _ _ _ _ Happ Hf) as (_ & _ & _ & Hn).
  destruct (apply_rows_writes _ _ _ _ _ _ _ Happ Hf (names_of_known s)) as (ts & cs & Hg & Hts & Hc & Hcs).
  exists ts, cs. split_and!; try done. rewrite Hn. cbn [ir_imported]. rewrite -(Forall2_length _ _ _ Hts). symmetry. apply length_chosen.
Qed.

(** * Witnesses *)

Definition demo_rows : list (list string) :=
  [["2024-01-05"; "-12.50"; "Cafe"; "Food"]; ["05/01/2024"; "(12.50)"; " cafe "; "Food"];
   ["31/02/2024"; "1"; ""; ""]; [""; " "; ""; ""]; ["2024-01-06"; "1,500.00"; "Employer"; ""]].
Definition demo_mapping : ColumnMapping := mkMapping 0 1 (Some 2%nat) None (Some 3%nat).
Definition demo_ledger : App := set_clock (Some (newClock "a" None)) (emptyApp (fun _ => 1000) (fun n => str_repeat "x" n)).
Definition demo_options : ImportOptions := mkImportOptions "acc" "USD" true [].
Definition demo_apply : ApplyOptions := mkApply "acc" "USD" false.
Definition demo_plan : ImportPlan :=
  mkPlan
    [mkPlannedRow 2 (Some (mkPlanned "2024-01-05" 1250 Expense "Cafe" "" "Food")) None false;
     mkPlannedRow 3 (Some (mkPlanned "2024-01-05" 1250 Expense "cafe" "" "Food")) None true;
     failed_row 4 ("Could not read the date " ++ dquote ++ "31/02/2024" ++ dquote);
     mkPlannedRow 6 (Some (mkPlanned "2024-01-06" 150000 Income "Employer" "" "")) None false] 2 1 1.
Definition demo_applied : result ImportResult * App := apply_plan demo_plan demo_apply demo_ledger.

Lemma demo_planned : planImport demo_rows demo_mapping demo_options = Ok demo_plan.
Proof. vm_compute. reflexivity. Qed.

Lemma demo_applied_run : demo_applied = (Ok (mkImportResult 2 2 ["Food"]), snd demo_applied).
Proof. vm_compute. reflexivity. Qed.

Lemma demo_ledger_fresh : fresh_ids demo_ledger.
Proof.
  split; [|done]. cbn [uuids demo_ledger emptyApp set_clock]. intros i.
  induction i as [|i IH]; intros [|j] H; [done..|]. injection H as H. by rewrite (IH j H).
Qed.

Lemma plan_accounts_for_every_row_witness : StronglySorted lt (map pr_line (ip_rows demo_plan)).
Proof. apply (plan_accounts_for_every_row demo_rows demo_mapping demo_options demo_plan demo_planned). Defined.

Lemma second_import_does_nothing_witness :
  exists plan', planImport demo_rows demo_mapping (mkImportOptions "acc" "USD" true (existingKeys (snd demo_applied))) = Ok plan'
    /\ ip_ready plan' = 0%nat.
Proof.
  destruct (second_import_does_nothing demo_rows demo_mapping demo_options demo_plan demo_apply demo_ledger
    (mkImportResult 2 2 ["Food"]) (snd demo_applied) demo_planned eq_refl demo_ledger_fresh demo_applied_run)
    as (plan' & E & Hr & _).
  exists plan'. exact (conj E Hr).
Defined.

Lemma import_only_adds_witness :
  exists ts cs, grown (map ATransaction ts ++ map ACategory cs) demo_ledger (snd demo_applied) /\ length ts = 2%nat
    /\ map txn_payee ts = ["Cafe"; "Employer"] /\ map cat_name cs = ["Food"].
Proof.
  destruct (import_only_adds demo_rows demo_mapping demo_options demo_plan demo_apply demo_ledger
    (mkImportResult 2 2 ["Food"]) (snd demo_applied) demo_planned eq_refl ltac:(done) demo_ledger_fresh demo_applied_run)
    as (ts & cs & Hg & Hts & Hn & Hc & _).
  exists ts, cs. split_and!; [exact Hg|by rewrite -Hn| |by rewrite -Hc].
  assert (map pt_payee (chosen demo_apply (ip_rows demo_plan)) = ["Cafe"; "Employer"]) as <- by (vm_compute; reflexivity).
  clear -Hts. induction Hts as [|p t ps ts [H _] _ IH]; [reflexivity|]. cbn [map]. by rewrite IH (wr_payee _ _ _ H).
Defined.
