(* ===== verification/Reports.v ===== *)
(** Reports ([app/src/app/core/reports]): the aggregations ([aggregate.ts]) and the data
    of the reports screen ([reports.service.ts]). *)
From S2P Require Export Transactions Budgets.
#[local] Open Scope string_scope.
#[local] Open Scope Z_scope.

(** * Definitions *)

(** ** aggregate.ts *)

Record CategoryTotal : Type := mkCategoryTotal { ct_categoryId : option string; ct_amount : Minor; ct_share : Z; ct_count : Z }.
Record MonthlyFlow : Type := mkFlow { fl_month : string; fl_income : Minor; fl_expense : Minor; fl_net : Minor }.
Record NetWorthPoint : Type := mkPoint { np_date : string; np_amount : Minor }.
Record PayeeTotal : Type := mkPayee { pt_payee : string; pt_amount : Minor; pt_count : Z }.

(** Equal amounts by id, the uncategorised last. *)
Definition collate `{!Locale} (a b : option string) : Z :=
  if decide (a = b) then 0
  else match a, b with
       | None, _ => 1
       | _, None => -1
       | Some x, Some y => localeCompare x y
       end.

(** [totals.get(key) ?? { amount: 0, count: 0 }], one amount more. *)
Definition add_entry {K} `{EqDecision K} (key : K) (amount : Minor) (totals : list (K * (Minor * Z))) : list (K * (Minor * Z)) :=
  let entry := default (0, 0) (jmap_get key totals) in
  jmap_set key (entry.1 + amount, entry.2 + 1) totals.

Definition root_of (roots : option (list (string * string))) (categoryId : option string) : option string :=
  match categoryId with
  | Some c => Some (default c (roots ≫= jmap_get c))
  | None => None
  end.

(** An expense of the range. *)
Definition expense_in (range : DateRange) (txn : Transaction) : bool :=
  bool_decide (txn_kind txn = Expense) && within (txn_date txn) range.

Fixpoint category_loop (range : DateRange) (reporting : string) (roots : option (list (string * string)))
    (txns : list Transaction) (totals : list (option string * (Minor * Z))) : result (list (option string * (Minor * Z))) :=
  match txns with
  | [] => Ok totals
  | txn :: rest =>
      if negb (expense_in range txn) then category_loop range reporting roots rest totals
      else
        amount ← inReporting (priced txn) reporting;
        match amount with
        | None => category_loop range reporting roots rest totals
        | Some a => category_loop range reporting roots rest (add_entry (root_of roots (txn_categoryId txn)) a totals)
        end
  end.

Definition share_of (total : Z) (amount : Minor) : result Z :=
  if 0 <? total then round_Z (f_mul (f_div (f_of_Z amount) (f_of_Z total)) (f_of_Z 100)) else Ok 0.

Fixpoint with_shares (total : Z) (entries : list (option string * (Minor * Z))) : result (list CategoryTotal) :=
  match entries with
  | [] => Ok []
  | (id, (amount, count)) :: rest =>
      share ← share_of total amount;
      others ← with_shares total rest;
      mret (mkCategoryTotal id amount share count :: others)
  end.

Definition spendByCategory `{!Locale} (transactions : list Transaction) (range : DateRange) (reporting : string)
    (roots : option (list (string * string))) : result (list CategoryTotal) :=
  totals ← category_loop range reporting roots transactions [];
  let total := sumZ (map (fun e => e.2.1) totals) in
  listed ← with_shares total totals;
  mret (js_sort (fun a b => cmp_or (ct_amount b - ct_amount a) (collate (ct_categoryId a) (ct_categoryId b))) listed).

Definition set_flow (income expense : Minor) (f : MonthlyFlow) : MonthlyFlow := mkFlow (fl_month f) income expense (fl_net f).

Fixpoint flow_loop (range : DateRange) (reporting : string) (txns : list Transaction)
    (buckets : list (string * MonthlyFlow)) : result (list (string * MonthlyFlow)) :=
  match txns with
  | [] => Ok buckets
  | txn :: rest =>
      if negb (within (txn_date txn) range) then flow_loop range reporting rest buckets
      else match jmap_get (monthKey (txn_date txn)) buckets with
           | None => flow_loop range reporting rest buckets
           | Some bucket =>
               amount ← inReporting (priced txn) reporting;
               match amount, txn_kind txn with
               | Some a, Income =>
                   flow_loop range reporting rest
                     (jmap_set (monthKey (txn_date txn)) (set_flow (fl_income bucket + a) (fl_expense bucket) bucket) buckets)
               | Some a, Expense =>
                   flow_loop range reporting rest
                     (jmap_set (monthKey (txn_date txn)) (set_flow (fl_income bucket) (fl_expense bucket + a) bucket) buckets)
               | _, _ => flow_loop range reporting rest buckets
               end
           end
  end.

Definition flowByMonth (transactions : list Transaction) (range : DateRange) (reporting : string) : result (list MonthlyFlow) :=
  months ← monthsIn range;
  buckets ← flow_loop range reporting transactions (jmap_of (map (fun month => (month, mkFlow month 0 0 0)) months));
  mret (map (fun kv => mkFlow (fl_month kv.2) (fl_income kv.2) (fl_expense kv.2) (fl_income kv.2 - fl_expense kv.2)) buckets).

Definition delta (transaction : Transaction) (reporting : string) : result Minor :=
  match txn_kind transaction with
  | Transfer => Ok 0
  | kind =>
      amount ← inReporting (priced transaction) reporting;
      mret match amount with
           | None => 0
           | Some a => match kind with Income => a | _ => - a end
           end
  end.

Definition convertOpening (amount : Minor) (rate : number) (from to : string) : result Minor :=
  v ← inReporting (mkPriced amount from (Some rate)) to; mret (default 0 v).

Fixpoint opening_loop (reporting : string) (rateForCurrency : string -> result (option number)) (accounts : list Account)
    (sum : Minor) : result Minor :=
  match accounts with
  | [] => Ok sum
  | account :: rest =>
      if sameCurrency (acc_currency account) reporting
      then opening_loop reporting rateForCurrency rest (sum + acc_openingBalance account)
      else
        rate ← rateForCurrency (acc_currency account);
        match rate with
        | None => opening_loop reporting rateForCurrency rest sum
        | Some rate =>
            v ← convertOpening (acc_openingBalance account) rate (acc_currency account) reporting;
            opening_loop reporting rateForCurrency rest (sum + v)
        end
  end.

Definition lastDayOf (month : string) (range : DateRange) : result string :=
  match slice_number (js_slice month 0 4), slice_number (js_slice month 5 7) with
  | Some year, Some monthNumber =>
      let lastDay := daysInMonth year monthNumber in
      let end_ := month ++ "-" ++ padStart (num_to_string lastDay) 2 "0" in
      Ok (if String.ltb (upto range) end_ then upto range else end_)
  | _, _ => Throw (OutsideModel "lastDayOf of a string that is not a month")
  end.

(** The inner loop: the transactions up to the cutoff, and the rest. *)
Fixpoint run_to (cutoff reporting : string) (ordered : list Transaction) (running : Minor)
  : result (Minor * list Transaction) :=
  match ordered with
  | txn :: rest =>
      if String.leb (txn_date txn) cutoff then
        d ← delta txn reporting; run_to cutoff reporting rest (running + d)
      else Ok (running, ordered)
  | [] => Ok (running, [])
  end.

Fixpoint points_loop (range : DateRange) (reporting : string) (months : list string) (ordered : list Transaction)
    (running : Minor) : result (list NetWorthPoint) :=
  match months with
  | [] => Ok []
  | month :: rest =>
      cutoff ← lastDayOf month range;
      '(running, later) ← run_to cutoff reporting ordered running;
      others ← points_loop range reporting rest later running;
      mret (mkPoint cutoff running :: others)
  end.

Definition netWorthOver (accounts : list Account) (transactions : list Transaction) (range : DateRange) (reporting : string)
    (rateForCurrency : string -> result (option number)) : result (list NetWorthPoint) :=
  opening ← opening_loop reporting rateForCurrency accounts 0;
  let ordered := js_sort (fun a b => cmp_string (txn_date a) (txn_date b)) transactions in
  months ← monthsIn range;
  points_loop range reporting months ordered opening.

Fixpoint payee_loop (range : DateRange) (reporting : string) (txns : list Transaction) (totals : list (string * (Minor * Z)))
  : result (list (string * (Minor * Z))) :=
  match txns with
  | [] => Ok totals
  | txn :: rest =>
      let payee := trim (txn_payee txn) in
      if negb (expense_in range txn) || negb (truthy payee) then payee_loop range reporting rest totals
      else
        amount ← inReporting (priced txn) reporting;
        match amount with
        | None => payee_loop range reporting rest totals
        | Some a => payee_loop range reporting rest (add_entry payee a totals)
        end
  end.

Definition topPayees `{!Locale} (transactions : list Transaction) (range : DateRange) (reporting : string) (limit : nat)
  : result (list PayeeTotal) :=
  totals ← payee_loop range reporting transactions [];
  mret (take limit
    (js_sort (fun a b => cmp_or (pt_amount b - pt_amount a) (localeCompare (pt_payee a) (pt_payee b)))
       (map (fun e => mkPayee e.1 e.2.1 e.2.2) totals))).

Fixpoint range_totals_loop (range : DateRange) (reporting : string) (txns : list Transaction) (income expense : Minor)
  : result (Minor * Minor) :=
  match txns with
  | [] => Ok (income, expense)
  | txn :: rest =>
      if negb (within (txn_date txn) range) then range_totals_loop range reporting rest income expense
      else
        amount ← inReporting (priced txn) reporting;
        match amount, txn_kind txn with
        | Some a, Income => range_totals_loop range reporting rest (income + a) expense
        | Some a, Expense => range_totals_loop range reporting rest income (expense + a)
        | _, _ => range_totals_loop range reporting rest income expense
        end
  end.

Record RangeTotals : Type := mkRangeTotals { rt_income : Minor; rt_expense : Minor; rt_net : Minor }.
Definition totalsFor (transactions : list Transaction) (range : DateRange) (reporting : string) : result RangeTotals :=
  '(income, expense) ← range_totals_loop range reporting transactions 0 0;
  mret (mkRangeTotals income expense (income - expense)).

Fixpoint unconverted_loop (range : DateRange) (reporting : string) (txns : list Transaction) (count : Z) : result Z :=
  match txns with
  | [] => Ok count
  | txn :: rest =>
      if negb (within (txn_date txn) range) || bool_decide (txn_kind txn = Transfer)
      then unconverted_loop range reporting rest count
      else
        amount ← inReporting (priced txn) reporting;
        unconverted_loop range reporting rest (match amount with None => count + 1 | Some _ => count end)
  end.
Definition unconvertedIn (transactions : list Transaction) (range : DateRange) (reporting : string) : result Z :=
  unconverted_loop range reporting transactions 0.

(** ** reports.service.ts *)

Inductive RangePreset : Type := PMonth | PQuarter | PHalf | PYear | PTwelve.

Definition RANGE_OPTIONS : list (RangePreset * string) :=
  [(PMonth, "This month"); (PQuarter, "Last 3 months"); (PHalf, "Last 6 months"); (PTwelve, "Last 12 months");
   (PYear, "This year")].

(** [today] is the local date. *)
Definition monthsBack (today : Ymd) (count : Z) : string := toIsoDate (local_date (year today) (month today - 1 - count) 1).

Definition rangeFor (preset : RangePreset) (today : Ymd) : DateRange :=
  let to := toIsoDate today in
  match preset with
  | PMonth => currentMonth today
  | PQuarter => mkRange (monthsBack today 2) to
  | PHalf => mkRange (monthsBack today 5) to
  | PTwelve => mkRange (monthsBack today 11) to
  | PYear => mkRange (num_to_string (year today) ++ "-01-01") to
  end.

Record ReportData : Type := mkReport {
  rd_range : DateRange; rd_categories : list CategoryTotal; rd_flow : list MonthlyFlow; rd_netWorth : list NetWorthPoint;
  rd_payees : list PayeeTotal; rd_totals : RangeTotals; rd_currency : string; rd_unconverted : Z }.

Definition report_data `{!Locale} (preset : RangePreset) (today : Ymd) (s : App) : result ReportData :=
  let range := rangeFor preset today in
  let reporting := reportingCurrency s in
  categories ← spendByCategory (transactions s) range reporting (Some (rootIds (categories s)));
  flow ← flowByMonth (transactions s) range reporting;
  netWorth ← netWorthOver (accounts s) (transactions s) range reporting (fun c => rateToReporting c (toIsoDate today) s);
  payees ← topPayees (transactions s) range reporting 8;
  totals ← totalsFor (transactions s) range reporting;
  unconverted ← unconvertedIn (transactions s) range reporting;
  mret (mkReport range categories flow netWorth payees totals reporting unconverted).

Definition report_hasHistory (s : App) : bool := (0 <? length (transactions s))%nat.

Definition nameFor (categoryId : option string) (s : App) : string :=
  match categoryId with
  | None => "Uncategorised"
  | Some id => default "Deleted category" (jmap_get id (jmap_of (map (fun c => (cat_id c, cat_name c)) (categories s))))
  end.

(** * Specification *)

Definition delta_value (reporting : string) (txn : Transaction) : Z := value 0 (delta txn reporting).

(** The expenses of a range filed under one line of the report. *)
Definition filed_under_line (range : DateRange) (roots : option (list (string * string))) (id : option string) (txn : Transaction) : bool :=
  expense_in range txn && bool_decide (root_of roots (txn_categoryId txn) = id).

(** What the transactions of one kind in a range come to. *)
Definition range_total (range : DateRange) (reporting : string) (kind : TransactionKind) (txns : list Transaction) : Z :=
  sumZ (map (reporting_value reporting)
    (List.filter (fun t => within (txn_date t) range && bool_decide (txn_kind t = kind)) txns)).

(** * Lemmas *)

Lemma reporting_value_Ok reporting t a : inReporting (priced t) reporting = Ok a -> reporting_value reporting t = default 0 a.
Proof. intros H. unfold reporting_value. by rewrite H. Qed.

(** ** Entries *)

Lemma sum_jmap_set {K V} `{EqDecision K} (f : V -> Z) (k : K) v v' m :
  jmap_get k m = Some v -> sumZ (map (fun e => f e.2) (jmap_set k v' m)) = sumZ (map (fun e => f e.2) m) - f v + f v'.
Proof.
  induction m as [|[k1 v1] m IH]; [done|]. cbn [jmap_get jmap_set]. case_decide; intros H1; cbn [map]; rewrite !sumZ_cons.
  - injection H1 as ->. cbn. lia.
  - rewrite IH //. cbn. lia.
Qed.

Lemma sum_jmap_new {K V} `{EqDecision K} (f : V -> Z) (k : K) v' m :
  jmap_get k m = None -> sumZ (map (fun e => f e.2) (jmap_set k v' m)) = sumZ (map (fun e => f e.2) m) + f v'.
Proof.
  induction m as [|[k1 v1] m IH]; cbn [jmap_get jmap_set]; [cbn; lia|]. case_decide; intros H1; [done|].
  cbn [map]. rewrite !sumZ_cons IH //. cbn. lia.
Qed.

Lemma category_loop_spec range reporting roots txns : forall totals out,
  category_loop range reporting roots txns totals = Ok out ->
  NoDup (map fst totals) ->
  NoDup (map fst out)
  /\ sumZ (map (fun e => e.2.1) out) = sumZ (map (fun e => e.2.1) totals) + range_total range reporting Expense txns
  /\ forall id, (default (0, 0) (jmap_get id out)).1 = (default (0, 0) (jmap_get id totals)).1
       + sumZ (map (reporting_value reporting) (List.filter (filed_under_line range roots id) txns)).
Proof.
  unfold range_total. induction txns as [|t txns IH]; intros totals out; cbn [category_loop List.filter].
  - intros [= <-] Hnd. split_and!; [done|cbn; lia|intros; cbn; lia].
  - unfold filed_under_line at 1. unfold expense_in at 1 2.
    destruct (bool_decide (txn_kind t = Expense)) eqn:Ek, (within (txn_date t) range); cbn [andb negb]; try apply IH.
    intros (a & Ha & H)%bind_Ok_inv Hnd. cbn [map]. rewrite sumZ_cons (reporting_value_Ok _ _ _ Ha).
    destruct a as [a|]; cbn [default].
    + destruct (IH _ _ H) as (Hn & Hs & Hk); [by apply jmap_set_NoDup|].
      set (k := root_of roots (txn_categoryId t)) in *. split_and!; [done| |].
      * rewrite Hs. unfold add_entry. destruct (jmap_get k totals) as [[x n]|] eqn:E; cbn [default fst snd].
        -- rewrite (sum_jmap_set fst k (x, n)) //. cbn. lia.
        -- rewrite (sum_jmap_new fst k) //. cbn. lia.
      * intros id. rewrite Hk. unfold add_entry. rewrite jmap_get_set. destruct (decide (id = k)) as [->|Hne].
        -- rewrite bool_decide_eq_true_2 //. cbn [map default fst]. rewrite sumZ_cons (reporting_value_Ok _ _ _ Ha). cbn. lia.
        -- rewrite bool_decide_eq_false_2; [done|congruence].
    + destruct (IH _ _ H Hnd) as (Hn & Hs & Hk). split_and!; [done|lia|]. intros id. rewrite Hk.
      destruct (bool_decide (root_of roots (txn_categoryId t) = id)); [|done].
      cbn [map]. rewrite sumZ_cons (reporting_value_Ok _ _ _ Ha). cbn. lia.
Qed.

Lemma with_shares_spec total entries l :
  with_shares total entries = Ok l ->
  map (fun c => (ct_categoryId c, ct_amount c, ct_count c)) l = map (fun e => (e.1, e.2.1, e.2.2)) entries.
Proof.
  revert l. induction entries as [|[id [a n]] rest IH]; intros l; cbn [with_shares]; [by intros [= <-]|].
  intros (sh & _ & (others & Ho & [= <-])%bind_Ok_inv)%bind_Ok_inv. cbn. by rewrite (IH _ Ho).
Qed.

Lemma range_totals_spec range reporting txns : forall income expense i e,
  range_totals_loop range reporting txns income expense = Ok (i, e) ->
  i = income + range_total range reporting Income txns /\ e = expense + range_total range reporting Expense txns.
Proof.
  unfold range_total. induction txns as [|t txns IH]; intros income expense i e; cbn [range_totals_loop List.filter].
  - intros [= <- <-]. cbn. lia.
  - destruct (within (txn_date t) range); cbn [negb andb]; [|apply IH].
    intros (a & Ha & H)%bind_Ok_inv. pose proof (reporting_value_Ok _ _ _ Ha) as Hv.
    destruct a as [a|]; simpl in Hv; destruct (txn_kind t); apply IH in H as [-> ->];
      decide_closed; cbn [map]; rewrite ?sumZ_cons ?Hv; lia.
Qed.

(** ** Months *)

Lemma flow_loop_spec range reporting txns : forall buckets out,
  flow_loop range reporting txns buckets = Ok out ->
  (forall t, t ∈ txns -> within (txn_date t) range = true -> monthKey (txn_date t) ∈ map fst buckets) ->
  map (fun e => (e.1, fl_month e.2)) out = map (fun e => (e.1, fl_month e.2)) buckets
  /\ sumZ (map (fun e => fl_income e.2) out) = sumZ (map (fun e => fl_income e.2) buckets) + range_total range reporting Income txns
  /\ sumZ (map (fun e => fl_expense e.2) out) = sumZ (map (fun e => fl_expense e.2) buckets) + range_total range reporting Expense txns.
Proof.
  unfold range_total. induction txns as [|t txns IH]; intros buckets out; cbn [flow_loop List.filter].
  - intros [= <-] _. cbn. split_and!; [done|lia|lia].
  - intros H Hin. assert (forall t0, t0 ∈ txns -> within (txn_date t0) range = true -> monthKey (txn_date t0) ∈ map fst buckets)
      as Hin' by (intros t0 H0; apply Hin; by constructor).
    specialize (Hin t ltac:(constructor)).
    destruct (within (txn_date t) range); cbn [negb andb] in *; [|by apply IH]. specialize (Hin eq_refl).
    destruct (jmap_get (monthKey (txn_date t)) buckets) as [b|] eqn:Eb; [|by apply jmap_get_None in Eb].
    apply bind_Ok_inv in H as (a & Ha & H). pose proof (reporting_value_Ok _ _ _ Ha) as Hv.
    assert (forall f, fl_month f = fl_month b ->
      map (fun e => (e.1, fl_month e.2)) (jmap_set (monthKey (txn_date t)) f buckets) = map (fun e => (e.1, fl_month e.2)) buckets
      /\ map fst (jmap_set (monthKey (txn_date t)) f buckets) = map fst buckets) as Hkeys.
    { intros f Hf. split; [|rewrite jmap_set_keys; by rewrite decide_True]. clear -Eb Hf.
      induction buckets as [|[k1 v1] m IHm]; [done|]. cbn [jmap_get jmap_set] in *. case_decide as Hd.
      - injection Eb as ->. subst. cbn. by rewrite Hf.
      - cbn. by rewrite IHm. }
    destruct a as [a|]; simpl in Hv; destruct (txn_kind t); decide_closed; cbn [map]; rewrite ?sumZ_cons ?Hv;
      try (destruct (IH _ _ H Hin') as (-> & -> & ->); split_and!; [done|lia|lia]).
    + destruct (Hkeys (set_flow (fl_income b + a) (fl_expense b) b) eq_refl) as [K1 K2].
      destruct (IH _ _ H) as (-> & -> & ->); [by rewrite K2|].
      rewrite (sum_jmap_set fl_income _ b) // (sum_jmap_set fl_expense _ b) //. cbn. split_and!; [done|lia|lia].
    + destruct (Hkeys (set_flow (fl_income b) (fl_expense b + a) b) eq_refl) as [K1 K2].
      destruct (IH _ _ H) as (-> & -> & ->); [by rewrite K2|].
      rewrite (sum_jmap_set fl_income _ b) // (sum_jmap_set fl_expense _ b) //. cbn. split_and!; [done|lia|lia].
Qed.

(** ** Net worth *)

Lemma filter_filter_b {A} (p q : A -> bool) l : List.filter p (List.filter q l) = List.filter (fun x => q x && p x) l.
Proof. induction l as [|x l IH]; [done|]. cbn. destruct (q x); cbn; [destruct (p x)|]; by rewrite IH. Qed.

Definition date_le (cutoff : string) (t : Transaction) : bool := String.leb (txn_date t) cutoff.
Definition in_date_order : list Transaction -> Prop := StronglySorted (fun a b => String.leb (txn_date a) (txn_date b) = true).

Lemma run_to_spec cutoff reporting ordered : forall running r later,
  in_date_order ordered -> run_to cutoff reporting ordered running = Ok (r, later) ->
  r = running + sumZ (map (delta_value reporting) (List.filter (date_le cutoff) ordered))
  /\ later = List.filter (fun t => negb (date_le cutoff t)) ordered.
Proof.
  induction ordered as [|t ordered IH]; intros running r later Hs; cbn [run_to List.filter].
  - intros [= <- <-]. cbn. split; [lia|done].
  - apply StronglySorted_inv in Hs as [Hs Hall]. change (String.leb (txn_date t) cutoff) with (date_le cutoff t).
    destruct (date_le cutoff t) eqn:Ec; cbn [negb map].
    + intros (d & Hd & H)%bind_Ok_inv. assert (delta_value reporting t = d) as Hv by by unfold delta_value; rewrite Hd.
      destruct (IH _ _ _ Hs H) as [-> ->]. rewrite sumZ_cons Hv. split; [lia|done].
    + intros [= <- <-]. assert (forall x, x ∈ ordered -> date_le cutoff x = false) as Hlate.
      { intros x Hx. rewrite ->Forall_forall in Hall. unfold date_le in *. destruct (String.leb (txn_date x) cutoff) eqn:E; [|done].
        rewrite (string_leb_trans _ _ _ (Hall x Hx) E) in Ec. done. }
      rewrite (filter_ext_in_b (date_le cutoff) (fun _ => false) ordered); [|by intros x Hx; apply Hlate].
      rewrite (filter_ext_in_b (fun x => negb (date_le cutoff x)) (fun _ => true) ordered); [|by intros x Hx; rewrite Hlate].
      clear. induction ordered as [|x l [IH1 IH2]]; cbn; [split; [lia|done]|]. cbn in IH1. split; [done|congruence].
Qed.

(** The points over growing cutoffs, when what is left to scan is what the last one left. *)
Lemma points_loop_spec range reporting all opening months : forall p running points,
  in_date_order all -> running = opening + sumZ (map (delta_value reporting) (List.filter p all)) ->
  Forall (fun m => forall c, lastDayOf m range = Ok c -> forall t, p t = true -> date_le c t = true) months ->
  StronglySorted (fun m m' => forall c c', lastDayOf m range = Ok c -> lastDayOf m' range = Ok c' -> String.leb c c' = true) months ->
  points_loop range reporting months (List.filter (fun t => negb (p t)) all) running = Ok points ->
  Forall2 (fun m pt => lastDayOf m range = Ok (np_date pt)
    /\ np_amount pt = opening + sumZ (map (delta_value reporting) (List.filter (date_le (np_date pt)) all))) months points.
Proof.
  induction months as [|m months IH]; intros p running points Hs Hrun Hp Hm; cbn [points_loop]; [intros [= <-]; constructor|].
  intros (c & Hc & ([r later] & E & (others & Eo & [= <-])%bind_Ok_inv)%bind_Ok_inv)%bind_Ok_inv.
  apply run_to_spec in E as [-> ->]; [|by apply StronglySorted_filter].
  apply Forall_cons in Hp as [Hpm Hp]. apply StronglySorted_inv in Hm as [Hm Hm1].
  assert (List.filter (date_le c) all ≡ₚ List.filter p all ++ List.filter (date_le c) (List.filter (fun t => negb (p t)) all)) as Hsplit.
  { rewrite filter_filter_b. apply filter_split; intros t _; specialize (Hpm c Hc t); destruct (p t), (date_le c t); auto. }
  assert (running + sumZ (map (delta_value reporting) (List.filter (date_le c) (List.filter (fun t => negb (p t)) all)))
          = opening + sumZ (map (delta_value reporting) (List.filter (date_le c) all))) as Hr.
  { rewrite Hsplit map_app sumZ_app Hrun. lia. }
  constructor; [cbn; by split|]. apply (IH (date_le c) _ others Hs Hr).
  - eapply Forall_impl; [exact Hm1|]. intros m' Hle c' Hc' t Ht. unfold date_le in *. eapply string_leb_trans; [exact Ht|by apply Hle].
  - done.
  - rewrite -Eo. f_equal. rewrite filter_filter_b. apply filter_ext_in_b. intros t _. specialize (Hpm c Hc t).
    destruct (p t), (date_le c t); auto. by specialize (Hpm eq_refl).
Qed.

(** ** The months of a range *)

Lemma slice_month a : month_small a ->
  slice_number (js_slice (month_text a) 0 4) = Some (a / 12) /\ slice_number (js_slice (month_text a) 5 7) = Some (a mod 12 + 1).
Proof.
  intros Ha. rewrite month_text_fixed //. unfold month_small in Ha. pose proof (Z.mod_pos_bound a 12).
  assert (0 <= a / 12 <= 9999) by div_lia. split.
  - change (slice_number (fixed 10 4 (a / 12) "") = Some (a / 12)). unfold slice_number.
    rewrite parse_fixed; [done|lia|lia|simpl; lia].
  - change (slice_number (fixed 10 2 (a mod 12 + 1) "") = Some (a mod 12 + 1)). unfold slice_number.
    rewrite parse_fixed; [done|lia|lia|simpl; lia].
Qed.

(** The cutoff of a month: its last day, or the end of the range. *)
Definition cutoff_day (q : Ymd) (a : Z) : Ymd := if day_number q <? day_number (cycle_day a 31) then q else cycle_day a 31.

Lemma lastDayOf_text p q a :
  ymd_valid q -> month_in_range a -> lastDayOf (month_text a) (mkRange p (ymd_text q)) = Ok (ymd_text (cutoff_day q a)).
Proof.
  intros Hq Ha. pose proof (cycle_day_valid a 31 Ha) as Hc. unfold month_in_range in Ha.
  destruct (slice_month a) as [E1 E2]; [unfold month_small; lia|]. unfold lastDayOf. rewrite E1 E2. cbn [upto].
  pose proof (Z.mod_pos_bound a 12 ltac:(lia)) as Hm. assert (100 <= a / 12) as Hy by div_lia.
  pose proof (month_length_bounds (a / 12) (a mod 12 + 1) ltac:(lia)) as Hl.
  assert (month_text a ++ "-" ++ padStart (num_to_string (daysInMonth (a / 12) (a mod 12 + 1))) 2 "0" = ymd_text (cycle_day a 31)) as ->.
  { rewrite daysInMonth_length; [|lia..]. unfold month_text, ymd_text, format, cycle_day. cbn [year month day].
    rewrite !str_app_assoc. replace (Z.min (Z.max 31 1) (month_length (a / 12) (a mod 12 + 1)))
      with (month_length (a / 12) (a mod 12 + 1)) by lia. done. }
  rewrite ltb_text //. unfold cutoff_day. by destruct (_ <? _).
Qed.

Lemma cutoff_day_valid q a : ymd_valid q -> month_in_range a -> ymd_valid (cutoff_day q a).
Proof. intros Hq Ha. unfold cutoff_day. destruct (_ <? _); [done|by apply cycle_day_valid]. Qed.

Lemma cutoff_day_mono q a b :
  ymd_valid q -> month_in_range a -> month_in_range b -> a < b -> day_number (cutoff_day q a) <= day_number (cutoff_day q b).
Proof.
  intros Hq Ha Hb Hab. pose proof (day_number_month_lt _ _ (cycle_day_valid a 31 Ha) (cycle_day_valid b 31 Hb)) as Hlt.
  rewrite !cycle_day_month in Hlt. specialize (Hlt Hab). unfold cutoff_day.
  destruct (Z.ltb_spec (day_number q) (day_number (cycle_day a 31))), (Z.ltb_spec (day_number q) (day_number (cycle_day b 31))); lia.
Qed.

Lemma month_end_reached q : ymd_valid q -> day_number (cycle_day (month_index q) 31) <= day_number q -> cycle_day (month_index q) 31 = q.
Proof.
  intros (Hy & Hm & Hd)%ymd_valid_length. unfold cycle_day, month_index, day_number. cbn [year month day].
  replace ((year q * 12 + (month q - 1)) / 12) with (year q) by div_lia.
  replace ((year q * 12 + (month q - 1)) mod 12 + 1) with (month q) by div_lia.
  pose proof (month_length_bounds (year q) (month q) Hm) as Hl.
  replace (Z.min (Z.max 31 1) (month_length (year q) (month q))) with (day q + (month_length (year q) (month q) - day q)) by lia.
  rewrite make_day_date. intros H. destruct q as [y m d]. cbn in *. f_equal. lia.
Qed.

Lemma seqZ_sorted m n : StronglySorted Z.lt (seqZ m n).
Proof.
  destruct (Z.le_gt_cases n 0) as [|Hn]; [by rewrite seqZ_nil; [constructor|]|].
  remember (Z.to_nat n) as k eqn:Ek. revert m n Hn Ek. induction k as [|k IH]; intros m n Hn Ek; [lia|].
  rewrite seqZ_cons //. constructor.
  - destruct (Z.le_gt_cases (Z.pred n) 0); [rewrite seqZ_nil //; constructor|]. apply IH; lia.
  - apply Forall_forall. intros x Hx%elem_of_seqZ. lia.
Qed.

Section Range.
Context (p q : Ymd) (Hp : ymd_valid p) (Hq : ymd_valid q) (Hpq : day_number p <= day_number q).
Context (Hspan : month_index q < month_index p + 1200).

Let range : DateRange := mkRange (ymd_text p) (ymd_text q).
Let months : list Z := seqZ (month_index p) (month_index q - month_index p + 1).

Lemma month_le : month_index p <= month_index q.
Proof.
  destruct (Z.le_gt_cases (month_index p) (month_index q)); [done|]. pose proof (day_number_month_lt q p Hq Hp). lia.
Qed.

Lemma months_in_range a : a ∈ months -> month_in_range a.
Proof.
  intros Ha%elem_of_seqZ. pose proof (month_index_range p Hp). pose proof (month_index_range q Hq).
  unfold month_in_range in *. lia.
Qed.

Lemma months_NoDup : NoDup (map month_text months).
Proof.
  apply (NoDup_fmap_2_strong month_text); [|apply NoDup_seqZ]. intros a b Ha%months_in_range Hb%months_in_range E.
  unfold month_in_range in *. assert (month_small a /\ month_small b) as [Sa Sb] by (unfold month_small; lia).
  pose proof (compare_month_text a b Sa Sb) as Hc. rewrite E string_compare_refl in Hc. by apply Z.compare_eq.
Qed.

(** A date of the range lies in one of its months. *)
Lemma within_month d : ymd_valid d -> within (ymd_text d) range = true -> monthKey (ymd_text d) ∈ map month_text months.
Proof.
  intros Hd. unfold within, range. cbn [from upto]. rewrite !leb_text // andb_true_iff !Z.leb_le. intros [H1 H2].
  rewrite monthKey_text //. apply list_elem_of_fmap. exists (month_index d). split; [done|]. apply elem_of_seqZ.
  destruct (Z.le_gt_cases (month_index p) (month_index d)); [|pose proof (day_number_month_lt d p Hd Hp); lia].
  destruct (Z.le_gt_cases (month_index d) (month_index q)); [lia|pose proof (day_number_month_lt q d Hq Hd); lia].
Qed.

Lemma cutoffs_grow :
  StronglySorted (fun m m' => forall c c', lastDayOf m range = Ok c -> lastDayOf m' range = Ok c' -> String.leb c c' = true)
    (map month_text months).
Proof.
  assert (forall l, StronglySorted Z.lt l -> (forall a, a ∈ l -> month_in_range a) ->
    StronglySorted (fun m m' => forall c c', lastDayOf m range = Ok c -> lastDayOf m' range = Ok c' -> String.leb c c' = true)
      (map month_text l)) as H.
  { induction 1 as [|a l _ IH Hall]; intros Hr; cbn [map]; constructor; [apply IH; intros; apply Hr; by constructor|].
    apply Forall_fmap, Forall_forall. intros b Hb c c'. rewrite ->Forall_forall in Hall. specialize (Hall b Hb). cbn.
    pose proof (Hr a ltac:(constructor)) as Ha. pose proof (Hr b ltac:(by constructor)) as Hb'.
    unfold range. rewrite !lastDayOf_text //. intros [= <-] [= <-]. rewrite leb_text; [|by apply cutoff_day_valid..].
    apply Z.leb_le. by apply cutoff_day_mono. }
  apply H; [apply seqZ_sorted|apply months_in_range].
Qed.
End Range.

(** * Properties *)

(** the category report accounts for the spending: each line once, holding exactly
    what the expenses of the range filed under it come to, and the lines add up to the
    expense total of the same range. *)
Theorem category_report_adds_up `{!Locale} txns range reporting roots lines t :
  spendByCategory txns range reporting roots = Ok lines -> totalsFor txns range reporting = Ok t ->
  NoDup (map ct_categoryId lines)
  /\ sumZ (map ct_amount lines) = rt_expense t
  /\ forall c, c ∈ lines ->
       ct_amount c = sumZ (map (reporting_value reporting) (List.filter (filed_under_line range roots (ct_categoryId c)) txns)).
Proof.
  unfold spendByCategory. intros (totals & Hc & (listed & Hl & [= <-])%bind_Ok_inv)%bind_Ok_inv.
  unfold totalsFor. intros ([i e] & Ht & [= <-])%bind_Ok_inv. cbn [rt_expense].
  apply range_totals_spec in Ht as [_ He]. apply category_loop_spec in Hc as (Hnd & Hs & Hk); [|constructor].
  apply with_shares_spec in Hl.
  assert (map ct_categoryId listed = map fst totals /\ map ct_amount listed = map (fun x => x.2.1) totals) as [Hids Ham].
  { pose proof (f_equal (map (fun x => x.1.1)) Hl) as H1. pose proof (f_equal (map (fun x => x.1.2)) Hl) as H2.
    rewrite !map_map in H1, H2. by split. }
  split_and!; [by rewrite js_sort_perm Hids|rewrite js_sort_perm Ham Hs He; cbn; lia|].
  intros c Hin%elem_of_js_sort. assert ((ct_categoryId c, ct_amount c, ct_count c) ∈ map (fun x => (x.1, x.2.1, x.2.2)) totals) as Hx.
  { rewrite -Hl. apply list_elem_of_fmap. by exists c. }
  apply list_elem_of_fmap in Hx as ([k [a n]] & [= Hk1 Ha1 _] & Hx). cbn in *.
  specialize (Hk (ct_categoryId c)). rewrite Hk1 (jmap_elem_get totals k (a, n) Hnd Hx) in Hk. cbn in Hk. rewrite Ha1 Hk1. lia.
Qed.

(** the monthly flow covers the range: every month of it once, in order, the empty
    ones included, and the months add up to the income and the expense of the range. *)
Theorem monthly_flow_adds_up txns p q reporting flow t :
  ymd_valid p -> ymd_valid q -> day_number p <= day_number q -> month_index q < month_index p + 1200 ->
  (forall x, x ∈ txns -> exists d, ymd_valid d /\ txn_date x = ymd_text d) ->
  flowByMonth txns (mkRange (ymd_text p) (ymd_text q)) reporting = Ok flow ->
  totalsFor txns (mkRange (ymd_text p) (ymd_text q)) reporting = Ok t ->
  map fl_month flow = map month_text (seqZ (month_index p) (month_index q - month_index p + 1))
  /\ sumZ (map fl_income flow) = rt_income t /\ sumZ (map fl_expense flow) = rt_expense t
  /\ Forall (fun f => fl_net f = fl_income f - fl_expense f) flow.
Proof.
  intros Hp Hq Hpq Hspan Hdates. unfold flowByMonth. rewrite monthsIn_text // bind_Ok.
  pose proof (months_NoDup p q Hp Hq) as Hnd. pose proof (within_month p q Hp Hq) as Hin.
  set (ms := map month_text _) in *. set (range := mkRange _ _) in *. clearbody ms.
  assert (forall l, NoDup l -> jmap_of (map (fun m => (m, mkFlow m 0 0 0)) l) = map (fun m => (m, mkFlow m 0 0 0)) l) as Hjm.
  { intros l Hl. apply jmap_of_nodup. by rewrite map_map map_id. }
  rewrite Hjm //. intros (out & Ho & [= <-])%bind_Ok_inv.
  unfold totalsFor. intros ([i e] & Ht & [= <-])%bind_Ok_inv. apply range_totals_spec in Ht as [-> ->]. cbn [rt_income rt_expense].
  apply flow_loop_spec in Ho as (Hm & Hi & He).
  - rewrite !map_map in Hm, Hi, He. cbn [fst snd fl_income fl_expense fl_month] in Hm, Hi, He.
    assert (forall l : list string, sumZ (map (fun _ => 0) l) = 0) as Hz
      by (induction l as [|m l IH]; [done|]; cbn [map]; by rewrite sumZ_cons IH). rewrite Hz in Hi, He.
    rewrite !map_map. cbn [fl_income fl_expense fl_month]. split_and!; [|rewrite Hi; lia|rewrite He; lia|apply Forall_fmap, Forall_forall; done].
    pose proof (f_equal (map snd) Hm) as H. rewrite !map_map in H. cbn [snd] in H. by rewrite H map_id.
  - intros x Hx Hw. destruct (Hdates x Hx) as (d & Hd & E). rewrite E in Hw |- *. rewrite map_map map_id.
    by apply Hin.
Qed.

(** C38: the single pass over the ledger is the rescan it replaces: every point of the
    net worth line is the opening balances plus the effect of every transaction dated up
    to it, at the end of each month of the range, the last point on the range's last day. *)
Theorem net_worth_is_cumulative accounts txns p q reporting rateForCurrency opening points :
  ymd_valid p -> ymd_valid q -> day_number p <= day_number q -> month_index q < month_index p + 1200 ->
  opening_loop reporting rateForCurrency accounts 0 = Ok opening ->
  netWorthOver accounts txns (mkRange (ymd_text p) (ymd_text q)) reporting rateForCurrency = Ok points ->
  map np_date points = map (fun a => ymd_text (cutoff_day q a)) (seqZ (month_index p) (month_index q - month_index p + 1))
  /\ List.last (map np_date points) "" = ymd_text q
  /\ Forall (fun pt => np_amount pt
       = opening + sumZ (map (delta_value reporting) (List.filter (date_le (np_date pt)) txns))) points.
Proof.
  intros Hp Hq Hpq Hspan Ho. unfold netWorthOver. rewrite Ho bind_Ok monthsIn_text // bind_Ok.
  set (ordered := js_sort _ txns). set (ms := seqZ _ _). set (range := mkRange _ _). intros E.
  assert (in_date_order ordered) as Hsort.
  { eapply StronglySorted_mono; [|apply (js_sort_sorted (fun a b => cmp_string (txn_date a) (txn_date b)))].
    intros a b H. rewrite leb_cmp_string. by apply Z.leb_le. }
  assert (ordered = List.filter (fun t => negb ((fun _ => false) t)) ordered) as Eo by (clear; by induction ordered; cbn; f_equal).
  rewrite Eo in E. eapply (points_loop_spec range reporting ordered opening) in E; [|done| | |by apply cutoffs_grow]; cycle 1.
  { assert (List.filter (fun _ : Transaction => false) ordered = []) as -> by (clear; by induction ordered). cbn. lia. }
  { by apply Forall_forall. }
  assert (map np_date points = map (fun a => ymd_text (cutoff_day q a)) ms) as Hdates.
  { assert (forall a, a ∈ ms -> lastDayOf (month_text a) range = Ok (ymd_text (cutoff_day q a))) as Hlast
      by (intros a Ha; apply lastDayOf_text; [done|by apply (months_in_range p q Hp Hq)]).
    clear -E Hlast. revert points E. induction ms as [|a l IH]; intros points E; inversion E as [|? pt ? pts [Hc _] Hrest]; subst; [done|].
    cbn. rewrite (IH ltac:(intros; apply Hlast; by constructor) pts Hrest). rewrite Hlast in Hc; [|constructor].
    injection Hc as <-. done. }
  split_and!; [done| |].
  - rewrite Hdates. unfold ms. pose proof (month_le p q Hp Hq Hpq) as Hle.
    replace (month_index q - month_index p + 1) with ((month_index q - month_index p) + 1) by lia.
    rewrite seqZ_app; [|lia..]. rewrite map_app. change (seqZ ?a 1) with [a]. cbn [map]. rewrite last_last. f_equal. unfold cutoff_day.
    replace (month_index p + (month_index q - month_index p)) with (month_index q) by lia.
    destruct (Z.ltb_spec (day_number q) (day_number (cycle_day (month_index q) 31))) as [|Hge]; [done|].
    by rewrite (month_end_reached q Hq Hge).
  - clear -E. induction E as [|m pt l pts [_ Hpt] _ IH]; constructor; [|done]. rewrite Hpt. unfold ordered. by rewrite js_sort_perm.
Qed.

(** * Witnesses *)

Definition demo_spending (id : string) (kind : TransactionKind) (amount : Minor) (category : option string) (date : string)
  : Transaction :=
  mkTransaction id kind amount "USD" "a" None category date "Shop" "" [] true None None 0 "".
Definition demo_history : list Transaction :=
  [ demo_spending "1" Income 5000 None "2024-01-01"; demo_spending "2" Expense 300 (Some "lunch") "2024-01-15";
    demo_spending "3" Expense 200 (Some "food") "2024-02-29"; demo_spending "4" Expense 40 None "2024-02-02";
    demo_spending "5" Expense 7 None "2023-12-31" ].
Definition demo_from : Ymd := mkYmd 2024 1 1.
Definition demo_upto : Ymd := mkYmd 2024 3 15.
Definition demo_range : DateRange := mkRange (ymd_text demo_from) (ymd_text demo_upto).
Definition demo_lines : list CategoryTotal := [mkCategoryTotal (Some "food") 500 93 2; mkCategoryTotal None 40 7 1].
Definition demo_flow : list MonthlyFlow :=
  [mkFlow "2024-01" 5000 300 4700; mkFlow "2024-02" 0 240 (-240); mkFlow "2024-03" 0 0 0].
Definition demo_points : list NetWorthPoint :=
  [mkPoint "2024-01-31" 5693; mkPoint "2024-02-29" 5453; mkPoint "2024-03-15" 5453].

Lemma demo_lines_run :
  spendByCategory (H := codeunit_locale) demo_history demo_range "USD" (Some [("lunch", "food")]) = Ok demo_lines.
Proof. vm_compute. reflexivity. Qed.

Lemma demo_totals_run : totalsFor demo_history demo_range "USD" = Ok (mkRangeTotals 5000 540 4460).
Proof. vm_compute. reflexivity. Qed.

Lemma demo_flow_run : flowByMonth demo_history demo_range "USD" = Ok demo_flow.
Proof. vm_compute. reflexivity. Qed.

Lemma demo_points_run :
  netWorthOver [demo_account "a" "USD" 1000 None] demo_history demo_range "USD" (fun _ => Ok None) = Ok demo_points.
Proof. vm_compute. reflexivity. Qed.

Lemma demo_history_dated x : x ∈ demo_history -> exists d, ymd_valid d /\ txn_date x = ymd_text d.
Proof.
  intros Hx. unfold demo_history in Hx. apply elem_of_cons in Hx as [->|Hx].
  { exists (mkYmd 2024 1 1). split; [by apply ymd_valid_example|done]. }
  apply elem_of_cons in Hx as [->|Hx]; [exists (mkYmd 2024 1 15); split; [by apply ymd_valid_example|done]|].
  apply elem_of_cons in Hx as [->|Hx]; [exists (mkYmd 2024 2 29); split; [by apply ymd_valid_example|done]|].
  apply elem_of_cons in Hx as [->|Hx]; [exists (mkYmd 2024 2 2); split; [by apply ymd_valid_example|done]|].
  apply elem_of_cons in Hx as [->|Hx]; [exists (mkYmd 2023 12 31); split; [by apply ymd_valid_example|done]|].
  by apply not_elem_of_nil in Hx.
Qed.

Lemma demo_from_valid : ymd_valid demo_from.
Proof. by apply ymd_valid_example. Qed.
Lemma demo_upto_valid : ymd_valid demo_upto.
Proof. by apply ymd_valid_example. Qed.
Lemma demo_days : day_number demo_from <= day_number demo_upto.
Proof. vm_compute. congruence. Qed.
Lemma demo_months : month_index demo_upto < month_index demo_from + 1200.
Proof. vm_compute. reflexivity. Qed.

Lemma category_report_adds_up_witness : sumZ (map ct_amount demo_lines) = 540.
Proof.
  exact (proj1 (proj2 (category_report_adds_up (H := codeunit_locale) _ _ _ _ _ _ demo_lines_run demo_totals_run))).
Defined.

Lemma monthly_flow_adds_up_witness : sumZ (map fl_income demo_flow) = 5000 /\ sumZ (map fl_expense demo_flow) = 540.
Proof.
  destruct (monthly_flow_adds_up _ _ _ _ _ _ demo_from_valid demo_upto_valid demo_days demo_months demo_history_dated
    demo_flow_run demo_totals_run) as (_ & Hi & He & _).
  exact (conj Hi He).
Defined.

Lemma net_worth_is_cumulative_witness :
  List.last (map np_date demo_points) "" = "2024-03-15"
  /\ Forall (fun pt => np_amount pt = 1000 + sumZ (map (delta_value "USD") (List.filter (date_le (np_date pt)) demo_history)))
       demo_points.
Proof.
  exact (proj2 (net_worth_is_cumulative [demo_account "a" "USD" 1000 None] demo_history demo_from
    demo_upto "USD" (fun _ => Ok None) 1000 demo_points demo_from_valid demo_upto_valid demo_days demo_months eq_refl
    demo_points_run)).
Defined.
