(* ===== verification/NumberText.v ===== *)
(** Numbers and the texts a page shows and reads: [Number(text)], [String(x)] and the
    numbers in the path of a chart. *)
From S2P Require Export Import.
#[local] Open Scope string_scope.
#[local] Open Scope Z_scope.

(** * Definitions *)

(** [Number(text)]; [None] is NaN.  Texts that may be numerals in another notation, with
    an exponent or a radix, are not followed. *)
Definition to_number (text : string) : result (option number) :=
  let t := trim text in
  if str_forall (fun c => is_digit c || Ascii.eqb c "." || Ascii.eqb c "-") t then Ok (js_Number t)
  else if existsb (fun c => existsb (Ascii.eqb c) ["e"; "E"; "x"; "X"; "b"; "B"; "o"; "O"; "+"; "I"]%char) (list_ascii_of_string t)
  then Throw (OutsideModel "a numeral in another notation")
  else Ok None.

(** [String(x)] of a positive number: the shortest digits that read back as [x]. *)
Definition numeral (digits : Z) (k n : Z) : string :=
  let d := num_to_string digits in
  if k <=? n then d ++ str_repeat "0" (Z.to_nat (n - k))
  else if 0 <? n then js_slice d 0 (Z.to_nat n) ++ "." ++ js_slice_from d (Z.to_nat n)
  else "0." ++ str_repeat "0" (Z.to_nat (- n)) ++ d.

(** The count of digits before the point, of [m * 2^e]; not above zero below one. *)
Fixpoint decimal_point (fuel : nat) (num den n : Z) : Z :=
  match fuel with
  | O => n
  | S fuel' =>
      if den <=? num then decimal_point fuel' num (den * 10) (n + 1)
      else if num * 10 <? den then decimal_point fuel' (num * 10) den (n - 1)
      else n
  end.

Fixpoint shortest (fuel : nat) (k num den n : Z) (x : number) : option string :=
  match fuel with
  | O => None
  | S fuel' =>
      let shift := k - n in
      let scaled := if 0 <=? shift then (2 * num * 10 ^ shift + den) / (2 * den)
                    else (2 * num + den * 10 ^ (- shift)) / (2 * den * 10 ^ (- shift)) in
      let text := numeral scaled k n in
      if match to_number text with Ok (Some y) => bool_decide (y = x) | _ => false end
      then Some text else shortest fuel' (k + 1) num den n x
  end.

Definition number_text (x : number) : result string :=
  match x with
  | S754_finite false m e =>
      let num := if 0 <=? e then Z.pos m * 2 ^ e else Z.pos m in
      let den := if 0 <=? e then 1 else 2 ^ (- e) in
      let n := decimal_point 400 num den 0 in
      if (n <=? -6) || (21 <? n) then Throw (OutsideModel "a number written with an exponent")
      else match shortest 17 1 num den n x with
           | Some text => Ok text
           | None => Throw (OutsideModel "a number of more digits than a binary64 needs")
           end
  | _ => Throw (OutsideModel "the text of a number that is not a rate")
  end.

(** [String(x)] of any number. *)
Definition number_string (x : number) : result string :=
  match x with
  | S754_nan => Ok "NaN"
  | S754_infinity false => Ok "Infinity"
  | S754_infinity true => Ok "-Infinity"
  | S754_zero _ => Ok "0"
  | S754_finite false _ _ => number_text x
  | S754_finite true m e => text ← number_text (S754_finite false m e); mret ("-" ++ text)
  end.

(** * Lemmas *)

Lemma shortest_reads_back fuel : forall k num den n x text, shortest fuel k num den n x = Some text -> to_number text = Ok (Some x).
Proof.
  induction fuel as [|fuel IH]; intros k num den n x text; [done|]. cbn [shortest].
  set (t := numeral _ k n). destruct (to_number t) as [[y|]|] eqn:E; [|by apply IH..].
  case_bool_decide as Hy; [|by apply IH]. intros [= <-]. by rewrite E Hy.
Qed.

(** The text of a rate reads back as the rate, is not empty, and the rate is above zero. *)
Lemma number_text_ok x text : number_text x = Ok text ->
  to_number text = Ok (Some x) /\ truthy (trim text) = true /\ SFltb (S754_zero false) x = true.
Proof.
  unfold number_text. destruct x as [| | |[] m e]; try done. destruct (_ || _); [done|].
  destruct (shortest _ _ _ _ _ _) as [t|] eqn:E; [|done]. intros [= <-]. apply shortest_reads_back in E. split_and!; [done| |done].
  unfold truthy. destruct (String.eqb_spec (trim t) "") as [Ht|]; [|done]. unfold to_number in E. rewrite Ht in E. done.
Qed.
