(* ===== verification/TransactionEditor.v ===== *)
(** The sheet that records or edits a transaction
    ([features/transactions/transaction-editor.component.ts]): its form, what opening,
    typing and the arrival of accounts do to it, and saving. *)
From S2P Require Import Sync.
From S2P Require Export Transactions Rates NumberText.
#[local] Open Scope string_scope.
#[local] Open Scope Z_scope.

(** * Definitions *)

(** ** The form *)

Record TransactionForm : Type := mkTxnForm {
  tf_existing : option Transaction; tf_kind : TransactionKind; tf_amount : string;
  tf_accountId : option string; tf_counterAccountId : option string; tf_categoryId : option string;
  tf_payee : string; tf_note : string; tf_date : string; tf_cleared : bool; tf_rate : string;
  tf_error : option string }.

Definition set_tf_rate (rate : string) (f : TransactionForm) : TransactionForm :=
  mkTxnForm (tf_existing f) (tf_kind f) (tf_amount f) (tf_accountId f) (tf_counterAccountId f) (tf_categoryId f)
    (tf_payee f) (tf_note f) (tf_date f) (tf_cleared f) rate (tf_error f).
Definition set_tf_error (error : option string) (f : TransactionForm) : TransactionForm :=
  mkTxnForm (tf_existing f) (tf_kind f) (tf_amount f) (tf_accountId f) (tf_counterAccountId f) (tf_categoryId f)
    (tf_payee f) (tf_note f) (tf_date f) (tf_cleared f) (tf_rate f) error.
Definition set_tf_accountId (accountId : option string) (f : TransactionForm) : TransactionForm :=
  mkTxnForm (tf_existing f) (tf_kind f) (tf_amount f) accountId (tf_counterAccountId f) (tf_categoryId f)
    (tf_payee f) (tf_note f) (tf_date f) (tf_cleared f) (tf_rate f) (tf_error f).

(** The account chosen, its currency, and whether a rate is wanted. *)
Definition form_account (f : TransactionForm) (s : App) : option Account := account_byId (default "" (tf_accountId f)) s.
Definition form_currency (f : TransactionForm) (s : App) : string :=
  match form_account f s with Some account => acc_currency account | None => reportingCurrency s end.
Definition needsRate (f : TransactionForm) (s : App) : bool :=
  negb (String.eqb (toUpperCase (form_currency f s)) (toUpperCase (reportingCurrency s))).
Definition canSave (f : TransactionForm) : bool := truthy (trim (tf_amount f)) && bool_decide (is_Some (tf_accountId f)).

(** Offer the rate recorded for the currency and the date, if the field is empty. *)
Definition suggestRate (f : TransactionForm) (s : App) : result TransactionForm :=
  if negb (needsRate f s) || truthy (trim (tf_rate f)) then Ok f
  else
    suggestion ← rateToReporting (form_currency f s) (tf_date f) s;
    match suggestion with
    | Some rate => text ← number_text rate; mret (set_tf_rate text f)
    | None => mret f
    end.

(** Opening the sheet, on a transaction or a new one. *)
Definition load_form (today : string) (txn : option Transaction) (s : App) : result TransactionForm :=
  match txn with
  | Some t =>
      rate ← match txn_rate t with Some r => number_text r | None => Ok "" end;
      suggestRate (mkTxnForm (Some t) (txn_kind t) (formatAmount (txn_amount t) (txn_currency t)) (Some (txn_accountId t))
        (txn_counterAccountId t) (txn_categoryId t) (txn_payee t) (txn_note t) (txn_date t) (txn_cleared t) rate None) s
  | None =>
      suggestRate (mkTxnForm None Expense "" (acc_id <$> head (active_accounts s)) None None "" "" today true "" None) s
  end.

(** The second effect: the accounts changed under the open sheet. *)
Definition accounts_arrived (f : TransactionForm) (s : App) : result TransactionForm :=
  match tf_existing f, tf_accountId f, head (active_accounts s) with
  | None, None, Some first => suggestRate (set_tf_accountId (Some (acc_id first)) f) s
  | _, _, _ => Ok f
  end.

Definition setKind (kind : TransactionKind) (f : TransactionForm) : TransactionForm :=
  mkTxnForm (tf_existing f) kind (tf_amount f) (tf_accountId f) (tf_counterAccountId f) None
    (tf_payee f) (tf_note f) (tf_date f) (tf_cleared f) (tf_rate f) (tf_error f).
Definition setAccount (accountId : string) (f : TransactionForm) (s : App) : result TransactionForm :=
  suggestRate (set_tf_accountId (Some accountId) f) s.
Definition setDate (date : string) (f : TransactionForm) (s : App) : result TransactionForm :=
  suggestRate (mkTxnForm (tf_existing f) (tf_kind f) (tf_amount f) (tf_accountId f) (tf_counterAccountId f) (tf_categoryId f)
    (tf_payee f) (tf_note f) date (tf_cleared f) (tf_rate f) (tf_error f)) s.

(** The draft a form stands for; the identity is drawn before the amount is read. *)
Definition draft_of (f : TransactionForm) (account : Account) : M App TransactionDraft :=
  id ← match tf_existing f with Some t => mret (txn_id t) | None => randomUUID end;
  amount ← liftR (parseAmount (tf_amount f) (acc_currency account));
  s ← getS;
  value ← liftR (to_number (tf_rate f));
  let rate := match value with Some x => if needsRate f s && SFltb (S754_zero false) x then Some x else None | None => None end in
  createdAt ← match tf_existing f with Some t => mret (txn_createdAt t) | None => Date_now end;
  let transfer := match tf_kind f with Transfer => true | _ => false end in
  mret (mkTxnDraft id (tf_kind f) amount (acc_currency account) (acc_id account) (tf_date f)
          (Some (if transfer then tf_counterAccountId f else None)) (Some (if transfer then None else tf_categoryId f))
          (trim (tf_payee f)) (Some (trim (tf_note f)))
          (Some match tf_existing f with Some t => txn_tags t | None => [] end) (Some (tf_cleared f))
          rate (match rate with Some _ => Some (tf_date f) | None => None end) (Some createdAt)).

(** The form afterwards, with what went wrong, and the transaction saved. *)
Definition save_form (f : TransactionForm) : M App (TransactionForm * option AnyEntity) :=
  s ← getS;
  let f := set_tf_error None f in
  match form_account f s with
  | None => mret (set_tf_error (Some "Choose an account first") f, None)
  | Some account =>
      catchM (draft ← draft_of f account;
              saved ← save_transaction draft;
              mret (f, Some saved))
             (fun error => mret (set_tf_error (Some (exn_message error)) f, None))
  end.

Definition remove_form (f : TransactionForm) : M App unit :=
  match tf_existing f with None => mret tt | Some txn => remove_transaction (txn_id txn) end.

(** * Specification *)

(** A transaction as the program stores it, whose account has its currency, and the state
    it is opened in: what was trimmed stays so, and a rate is there when it is wanted. *)
Record as_stored (t : Transaction) (s : App) : Prop := {
  as_wf : txn_wf t;
  as_account : exists a, account_byId (txn_accountId t) s = Some a /\ acc_currency a = txn_currency t;
  as_amount : txn_amount t <= MAX_SAFE_INTEGER;
  as_payee : trim (txn_payee t) = txn_payee t;
  as_note : trim (txn_note t) = txn_note t;
  as_kind : match txn_kind t with Transfer => txn_categoryId t = None | _ => txn_counterAccountId t = None end;
  as_rate : match txn_rate t with
            | Some _ => sameCurrency (txn_currency t) (reportingCurrency s) = false /\ txn_rateDate t = Some (txn_date t)
            | None => txn_rateDate t = None
                /\ (sameCurrency (txn_currency t) (reportingCurrency s) = true
                    \/ rateToReporting (txn_currency t) (txn_date t) s = Ok None)
            end }.

(** [t] before it is stamped. *)
Definition unstamped (t : Transaction) : Transaction :=
  mkTransaction (txn_id t) (txn_kind t) (txn_amount t) (txn_currency t) (txn_accountId t) (txn_counterAccountId t)
    (txn_categoryId t) (txn_date t) (txn_payee t) (txn_note t) (txn_tags t) (txn_cleared t) (txn_rate t) (txn_rateDate t)
    (txn_createdAt t) "".

(** * Lemmas *)

Lemma account_byId_id id a s : account_byId id s = Some a -> acc_id a = id.
Proof. unfold account_byId. intros [_ H]%List.find_some. by apply String.eqb_eq. Qed.

Lemma suggestRate_full f s : truthy (trim (tf_rate f)) = true -> suggestRate f s = Ok f.
Proof. intros H. unfold suggestRate. by rewrite H orb_true_r. Qed.

(** Opening a stored transaction fills the form with it and suggests nothing. *)
Lemma load_stored today t s f : as_stored t s -> load_form today (Some t) s = Ok f ->
  exists rate, f = mkTxnForm (Some t) (txn_kind t) (formatAmount (txn_amount t) (txn_currency t)) (Some (txn_accountId t))
      (txn_counterAccountId t) (txn_categoryId t) (txn_payee t) (txn_note t) (txn_date t) (txn_cleared t) rate None
    /\ match txn_rate t with
       | Some x => to_number rate = Ok (Some x) /\ SFltb (S754_zero false) x = true
       | None => rate = ""
       end.
Proof.
  intros H Hl. destruct (as_account _ _ H) as (a & Ha & Hc). pose proof (as_rate _ _ H) as Hr.
  cbn [load_form] in Hl. apply bind_Ok_inv in Hl as (rate & Er & Hs). exists rate. destruct (txn_rate t) as [x|].
  - apply number_text_ok in Er as (En & Et & Ep). rewrite suggestRate_full // in Hs. injection Hs as <-. done.
  - injection Er as <-. destruct Hr as [_ Hr]. split; [|done]. revert Hs. unfold suggestRate, needsRate, form_currency, form_account.
    cbn [tf_accountId tf_date default from_option id]. rewrite Ha Hc. destruct Hr as [Hr|Hr].
    + unfold sameCurrency in Hr. rewrite Hr. cbn. by intros [= <-].
    + rewrite Hr. destruct (negb _ || _); by intros [= <-].
Qed.

(** The draft of such a form fills in to the transaction, unstamped. *)
Lemma draft_stored t a s rate :
  as_stored t s -> account_byId (txn_accountId t) s = Some a -> acc_currency a = txn_currency t ->
  match txn_rate t with
  | Some x => to_number rate = Ok (Some x) /\ SFltb (S754_zero false) x = true
  | None => rate = ""
  end ->
  exists d, draft_of (mkTxnForm (Some t) (txn_kind t) (formatAmount (txn_amount t) (txn_currency t)) (Some (txn_accountId t))
      (txn_counterAccountId t) (txn_categoryId t) (txn_payee t) (txn_note t) (txn_date t) (txn_cleared t) rate None) a s = (Ok d, s)
    /\ forall now, fill_draft now d = unstamped t.
Proof.
  intros H Ha Hc Hrate. pose proof (account_byId_id _ _ _ Ha) as Hid. pose proof (tw_amount _ (as_wf _ _ H)) as Hpos.
  assert (exists value, to_number rate = Ok value
    /\ match value with
       | Some x => if needsRate (mkTxnForm (Some t) (txn_kind t) (formatAmount (txn_amount t) (txn_currency t)) (Some (txn_accountId t))
                      (txn_counterAccountId t) (txn_categoryId t) (txn_payee t) (txn_note t) (txn_date t) (txn_cleared t) rate None) s
                      && SFltb (S754_zero false) x then Some x else None
       | None => None
       end = txn_rate t) as (value & Ev & Hv).
  { pose proof (as_rate _ _ H) as Hr. destruct (txn_rate t) as [x|].
    - destruct Hrate as [-> Hx]. exists (Some x). split; [done|]. rewrite Hx. unfold needsRate, form_currency, form_account.
      cbn [tf_accountId default from_option id]. rewrite Ha Hc. destruct Hr as [Hr _]. unfold sameCurrency in Hr. by rewrite Hr.
    - subst rate. exists (Some (S754_zero false)). split; [done|]. by rewrite andb_false_r. }
  unfold draft_of, mbind, M_bind, liftR, getS, mret, M_ret. cbn [tf_existing tf_amount tf_rate tf_kind tf_payee tf_note tf_cleared tf_date].
  rewrite Hc parse_formatAmount; [|pose proof (as_amount _ _ H); lia]. rewrite Ev Hv. eexists. split; [reflexivity|].
  intros now. unfold fill_draft, unstamped.
  cbn [td_id td_kind td_amount td_currency td_accountId td_counterAccountId td_categoryId td_date td_payee td_note td_tags td_cleared
       td_rate td_rateDate td_createdAt default from_option id tf_counterAccountId tf_categoryId].
  rewrite (as_payee _ _ H) (as_note _ _ H) Hid Z.abs_eq; [|lia]. pose proof (as_kind _ _ H) as Hk. pose proof (as_rate _ _ H) as Hr.
  assert (match txn_rate t with Some _ => Some (txn_date t) | None => None end = txn_rateDate t) as ->.
  { destruct (txn_rate t); [by destruct Hr as [_ ->]|by destruct Hr as [-> _]]. }
  destruct (txn_kind t); by rewrite Hk.
Qed.

(** * Properties *)

(** C27: Opening a transaction and saving it untouched writes the same transaction, if its
    account still has its currency and its rate is the one the sheet would settle on: a rate
    of the transaction's own day where its currency is not the one reported in, and none
    where it is, or where none is known.  The form then says all of the row, and the save is
    one write of it.  (Of other rows an untouched save changes the rate: it stores the one
    suggested, or drops one that is no longer wanted, or dates it anew.) *)
Theorem saving_untouched_writes_the_same today t s f :
  as_stored t s -> load_form today (Some t) s = Ok f ->
  save_form f s = match put ETransactions (ATransaction (unstamped t)) (snd (Date_now s)) with
                  | (Ok v, s') => (Ok (f, Some v), s')
                  | (Throw e, s') => (Ok (set_tf_error (Some (exn_message e)) f, None), s')
                  end.
Proof.
  intros H Hl. destruct (load_stored _ _ _ _ H Hl) as (rate & -> & Hrate). destruct (as_account _ _ H) as (a & Ha & Hc).
  pose proof (account_byId_id _ _ _ Ha) as Hid. pose proof (as_wf _ _ H) as Hwf. pose proof (tw_amount _ Hwf) as Hpos.
  destruct (draft_stored t a s rate H Ha Hc Hrate) as (d & Ed & Hd).
  unfold save_form, mbind, M_bind at 1, getS. change (form_account _ s) with (account_byId (txn_accountId t) s). rewrite Ha.
  unfold catchM, M_bind at 1. rewrite Ed. unfold save_transaction, mbind, M_bind, Date_now, liftR. rewrite Hd.
  assert (assertValid (unstamped t) = Ok tt) as -> by (apply assertValid_iff; by destruct Hwf).
  cbn [snd]. by destruct (put _ _ _) as [[v|e] s'].
Qed.

(** Accounts arriving under an open sheet, from a download or another tab, change
    nothing that was typed: at most they fill in an account that was not chosen, on a new
    transaction, and a rate whose field is empty. *)
Theorem arrival_keeps_what_was_typed f s f' :
  accounts_arrived f s = Ok f' ->
  f' = set_tf_rate (tf_rate f') (set_tf_accountId (tf_accountId f') f)
  /\ (tf_accountId f <> None \/ tf_existing f <> None -> f' = f)
  /\ (truthy (trim (tf_rate f)) = true -> tf_rate f' = tf_rate f).
Proof.
  unfold accounts_arrived. destruct (tf_existing f) eqn:Ee, (tf_accountId f) as [i|] eqn:Ea, (head (active_accounts s)) as [first|];
    try (intros [= <-]; split_and!; [destruct f; cbn in *; by subst|done..]).
  unfold suggestRate. destruct (negb _ || _) eqn:Hn.
  - intros [= <-]. split_and!; [by destruct f|by intros [?|?]|done].
  - apply orb_false_iff in Hn as [_ Ht]. cbn [set_tf_accountId tf_rate] in Ht.
    intros (sug & _ & H)%bind_Ok_inv. assert (tf_rate f = tf_rate f) by done.
    destruct sug as [r|]; [apply bind_Ok_inv in H as (text & _ & [= <-])|injection H as <-];
      (split_and!; [by destruct f|by intros [?|?]|congruence]).
Qed.

(** * Witnesses *)

(** A ledger in dollars with an account in euros, and a lunch on it at its rate. *)
Definition editor_account : Account := demo_account "acc" "EUR" 0 None.
Definition editor_ledger : App := snd (put EAccounts (AnAccount editor_account) (demo_device "a")).
Definition editor_lunch : Transaction :=
  mkTransaction "t1" Expense 1250 "EUR" "acc" None (Some "food") "2024-05-01" "Café" "" ["work"] true (Some demo_rate)
    (Some "2024-05-01") 7 "stamp".

Lemma editor_lunch_stored : as_stored editor_lunch editor_ledger.
Proof.
  split; try done.
  - exists (match account_byId "acc" editor_ledger with Some a => a | None => editor_account end). split; vm_compute; reflexivity.
Qed.

Definition editor_form : TransactionForm :=
  match load_form "2024-06-01" (Some editor_lunch) editor_ledger with
  | Ok f => f
  | Throw _ => mkTxnForm None Expense "" None None None "" "" "" true "" None
  end.

Lemma editor_shows : (tf_amount editor_form, tf_rate editor_form) = ("12.50", "1.1").
Proof. vm_compute. reflexivity. Qed.

Lemma editor_loaded : load_form "2024-06-01" (Some editor_lunch) editor_ledger = Ok editor_form.
Proof. vm_compute. reflexivity. Qed.

Lemma saving_untouched_writes_the_same_witness :
  option_map as_transaction (match fst (save_form editor_form editor_ledger) with Ok (_, v) => v | _ => None end)
  = Some (Some (mkTransaction "t1" Expense 1250 "EUR" "acc" None (Some "food") "2024-05-01" "Café" "" ["work"] true (Some demo_rate)
      (Some "2024-05-01") 7 "0000000000000001000-0001-a")).
Proof.
  rewrite (saving_untouched_writes_the_same "2024-06-01" editor_lunch editor_ledger editor_form editor_lunch_stored editor_loaded).
  vm_compute. reflexivity.
Defined.

(** A new transaction, typed before the accounts are there. *)
Definition typed_form : TransactionForm := mkTxnForm None Expense "12.50" None None None "Café" "" "2024-05-01" true "1.1" None.
Lemma arrival_keeps_what_was_typed_witness :
  accounts_arrived typed_form editor_ledger
  = Ok (mkTxnForm None Expense "12.50" (Some "acc") None None "Café" "" "2024-05-01" true "1.1" None)
  /\ tf_rate typed_form = "1.1".
Proof.
  assert (accounts_arrived typed_form editor_ledger
    = Ok (mkTxnForm None Expense "12.50" (Some "acc") None None "Café" "" "2024-05-01" true "1.1" None)) as E by (vm_compute; reflexivity).
  split; [exact E|]. symmetry. exact (proj2 (proj2 (arrival_keeps_what_was_typed typed_form editor_ledger _ E)) eq_refl).
Defined.

(** Choosing an account in another currency keeps the rate offered for the one before,
    though a rate for it is known, and saving stores it. *)
Definition pounds_rate : number := S754_finite false 6755399441055744 (-52).
Definition pounds_ledger : App :=
  snd (save_rate (mkRateDraft "GBP" "USD" pounds_rate "2024-04-30" None)
        (snd (put EAccounts (AnAccount (demo_account "gbp" "GBP" 0 None)) editor_ledger))).
Definition pounds_form : TransactionForm := mkTxnForm None Expense "12.50" (Some "acc") None None "" "" "2024-05-01" true "1.1" None.

Lemma the_rate_stays_when_the_account_changes :
  rateToReporting "GBP" "2024-05-01" pounds_ledger = Ok (Some pounds_rate)
  /\ match setAccount "gbp" pounds_form pounds_ledger with
     | Ok f => tf_rate f = "1.1" /\ match fst (save_form f pounds_ledger) with
                                   | Ok (_, Some (ATransaction t)) => txn_currency t = "GBP" /\ txn_rate t = Some demo_rate
                                   | _ => False
                                   end
     | Throw _ => False
     end.
Proof. vm_compute. by split_and!. Qed.

(** So a transaction that was stored without a rate gets one by being looked at and saved. *)
Definition unrated_tea : Transaction :=
  mkTransaction "t2" Expense 300 "GBP" "gbp" None (Some "food") "2024-05-01" "Tea" "" [] true None None 7 "stamp".

Lemma an_untouched_save_may_add_a_rate :
  match (f ← load_form "2024-06-01" (Some unrated_tea) pounds_ledger; fst (save_form f pounds_ledger)) with
  | Ok (_, Some (ATransaction t)) => txn_rate unrated_tea = None /\ txn_rate t = Some pounds_rate
  | _ => False
  end.
Proof. vm_compute. by split. Qed.
