(* ===== verification/Editors.v ===== *)
(** The editors of accounts, groups, categories, budgets and recurring rules, and the sheet
    that pays a card's bill ([features/accounts/account-editor.component.ts],
    [group-editor.component.ts], [pay-bill.component.ts],
    [features/categories/category-editor.component.ts],
    [features/budgets/budget-editor.component.ts],
    [features/recurring/rule-editor.component.ts]): what opening one puts in its form, and
    what saving the form writes. *)
From S2P Require Export TransactionEditor Groups Budgets Recurring Cards.
From S2P Require Import Sync.
#[local] Open Scope string_scope.
#[local] Open Scope Z_scope.

(** * Definitions *)

(** What saving comes to: the error the form shows, or the row that was written. *)
Definition saving (m : M App AnyEntity) : M App (option string * option AnyEntity) :=
  catchM (saved ← m; mret (None, Some saved)) (fun error => mret (Some (exn_message error), None)).

(** The identity and the creation time of what is edited, or new ones. *)
Definition id_or_new (id : option string) : M App string := match id with Some i => mret i | None => randomUUID end.
Definition created_or_now (createdAt : option Z) : M App Z := match createdAt with Some t => mret t | None => Date_now end.

(** ** account-editor.component.ts *)

(** A day field holds nothing, a number, or the text typed over it. *)
Inductive DayField : Type := DayNull | DayNumber (day : Z) | DayText (text : string).

Record AccountForm : Type := mkAccountForm {
  af_existing : option Account; af_name : string; af_kind : AccountKind; af_currency : string;
  af_openingBalance : string; af_groupId : option string; af_creditLimit : string;
  af_statementDay : DayField; af_dueDay : DayField; af_archived : bool;
  af_currencyTouched : bool; af_recorded : option nat }.

Definition kind_icon (kind : AccountKind) : string :=
  match kind with
  | Kcash => "cash-outline" | Kbank => "business-outline" | Kcard => "card-outline"
  | Kwallet => "phone-portrait-outline" | Ksavings => "save-outline" | Kinvestment => "trending-up-outline"
  end.

Definition form_isCreditCard (f : AccountForm) (s : App) : bool :=
  match group_byId (af_groupId f) s with Some g => bool_decide (ag_type g = GCreditCard) | None => false end.

(** Locked by what is recorded, and while that is unknown. *)
Definition currencyLocked (f : AccountForm) : bool :=
  bool_decide (is_Some (af_existing f)) && negb (bool_decide (af_recorded f = Some 0%nat)).

Definition day_field (day : option Z) : DayField := match day with Some d => DayNumber d | None => DayNull end.

(** The count of recorded transactions arrives later, with [set_recorded]. *)
Definition load_account (account : option Account) (s : App) : AccountForm :=
  match account with
  | Some a =>
      mkAccountForm (Some a) (acc_name a) (acc_kind a) (acc_currency a) (formatAmount (acc_openingBalance a) (acc_currency a))
        (ag_id <$> group_byId (acc_groupId a) s)
        (match acc_creditLimit a with Some l => formatAmount l (acc_currency a) | None => "" end)
        (day_field (acc_statementDay a)) (day_field (acc_dueDay a)) (acc_archived a) true None
  | None =>
      mkAccountForm None "" Kbank (reportingCurrency s) "0.00" None "" DayNull DayNull false false (Some 0%nat)
  end.

Definition set_recorded (f : AccountForm) (s : App) : AccountForm :=
  match af_existing f with
  | None => f
  | Some a =>
      mkAccountForm (af_existing f) (af_name f) (af_kind f) (af_currency f) (af_openingBalance f) (af_groupId f) (af_creditLimit f)
        (af_statementDay f) (af_dueDay f) (af_archived f) (af_currencyTouched f) (Some (account_transactionCount (acc_id a) s))
  end.

Definition set_form_currency (code : string) (touched : bool) (f : AccountForm) : AccountForm :=
  mkAccountForm (af_existing f) (af_name f) (af_kind f) code (af_openingBalance f) (af_groupId f) (af_creditLimit f)
    (af_statementDay f) (af_dueDay f) (af_archived f) touched (af_recorded f).
Definition setCurrency (code : string) (f : AccountForm) : AccountForm := set_form_currency code true f.

(** The vault's currency, once it is known, on a new account whose currency was not touched. *)
Definition offerVaultCurrency (f : AccountForm) (s : App) : AccountForm :=
  if bool_decide (is_Some (af_existing f)) || af_currencyTouched f then f
  else set_form_currency (reportingCurrency s) false f.

(** A limit is a capacity: blank, zero and negative amounts are none. *)
Definition parseOptionalAmount (input currency : string) : result (option Minor) :=
  let trimmed := trim input in
  if negb (truthy trimmed) then Ok None
  else amount ← parseAmount trimmed currency; mret (if 0 <? amount then Some amount else None).

(** [Math.trunc] of a finite number. *)
Definition js_trunc (x : number) : option Z :=
  match x with
  | S754_zero _ => Some 0
  | S754_finite neg m e =>
      let magnitude := if 0 <=? e then Z.pos m * 2 ^ e else Z.pos m / 2 ^ (- e) in
      Some (if neg then - magnitude else magnitude)
  | _ => None
  end.

Definition in_month (day : Z) : option Z := if (1 <=? day) && (day <=? 31) then Some day else None.
Definition dayOrUndefined (value : DayField) : result (option Z) :=
  match value with
  | DayNull => Ok None
  | DayNumber day => Ok (in_month day)
  | DayText text =>
      if String.eqb text "" then Ok None
      else number ← to_number text; mret (x ← number; day ← js_trunc x; in_month day)
  end.

Definition card_only {A} (card : bool) (m : result (option A)) : result (option A) := if card then m else Ok None.

(** The draft has no [excludedFromTotals]. *)
Definition save_account_form (f : AccountForm) : M App (option string * option AnyEntity) :=
  s ← getS;
  let card := form_isCreditCard f s in
  saving
    (id ← id_or_new (acc_id <$> af_existing f);
     opening ← liftR (parseAmount (if truthy (af_openingBalance f) then af_openingBalance f else "0") (af_currency f));
     limit ← liftR (card_only card (parseOptionalAmount (af_creditLimit f) (af_currency f)));
     statementDay ← liftR (card_only card (dayOrUndefined (af_statementDay f)));
     dueDay ← liftR (card_only card (dayOrUndefined (af_dueDay f)));
     createdAt ← created_or_now (acc_createdAt <$> af_existing f);
     save_account
       (mkAccount id (trim (af_name f)) (af_kind f) (af_currency f) opening (af_archived f)
          (match af_existing f with Some a => acc_colour a | None => "#3880ff" end) (kind_icon (af_kind f)) (af_groupId f)
          limit statementDay dueDay None createdAt "") (Some createdAt)).

(** ** group-editor.component.ts *)

Record GroupForm : Type := mkGroupForm { gf_existing : option AccountGroup; gf_name : string; gf_type : AccountGroupType; gf_archived : bool }.

Definition type_icon (type : AccountGroupType) : string :=
  match type with
  | GDefault => "folder-outline" | GCreditCard => "card-outline" | GDebitCard => "card-outline" | GLoan => "trending-down-outline"
  end.

Definition load_group (group : option AccountGroup) : GroupForm :=
  match group with
  | Some g => mkGroupForm (Some g) (ag_name g) (ag_type g) (ag_archived g)
  | None => mkGroupForm None "" GDefault false
  end.

Definition save_group_form (f : GroupForm) : M App (option string * option AnyEntity) :=
  saving
    (id ← id_or_new (ag_id <$> gf_existing f);
     save_group (mkGroupDraft id (trim (gf_name f)) (gf_type f) (ag_order <$> gf_existing f)
       (Some match gf_existing f with Some g => ag_colour g | None => "#3880ff" end) (Some (type_icon (gf_type f)))
       (Some (gf_archived f)) (ag_createdAt <$> gf_existing f))).

(** ** category-editor.component.ts *)

Record CategoryForm : Type := mkCategoryForm {
  cf_existing : option Category; cf_kind : CategoryKind; cf_name : string; cf_archived : bool; cf_newChild : string }.

Definition load_category (kind : CategoryKind) (category : option Category) : CategoryForm :=
  mkCategoryForm category kind (match category with Some c => cat_name c | None => "" end)
    (match category with Some c => cat_archived c | None => false end) "".

Definition showSubcategories (f : CategoryForm) (s : App) : bool := subcategoriesEnabled s && bool_decide (is_Some (cf_existing f)).

Definition save_category_form (f : CategoryForm) : M App (option string * option AnyEntity) :=
  saving
    (id ← id_or_new (cat_id <$> cf_existing f);
     createdAt ← created_or_now (cat_createdAt <$> cf_existing f);
     save_category (mkCategoryDraft id (trim (cf_name f)) (cf_kind f)
       (match cf_existing f with Some c => cat_colour c | None => "#92949c" end)
       (match cf_existing f with Some c => cat_icon c | None => "pricetag-outline" end)
       (Some match cf_existing f with Some c => cat_parentId c | None => None end)
       (Some (cf_archived f)) (Some createdAt))).

(** A child of the category, under its kind, colour and icon. *)
Definition addChild (f : CategoryForm) : M App (option string * option AnyEntity) :=
  let name := trim (cf_newChild f) in
  match cf_existing f with
  | Some parent =>
      if negb (truthy name) then mret (None, None)
      else saving
             (id ← randomUUID;
              save_category (mkCategoryDraft id name (cat_kind parent) (cat_colour parent) (cat_icon parent)
                (Some (Some (cat_id parent))) None None))
  | None => mret (None, None)
  end.

Definition renameChild (id name : string) : M App unit :=
  s ← getS;
  match category_byId (Some id) s with
  | None => mret tt
  | Some child =>
      if negb (truthy (trim name)) || String.eqb (cat_name child) (trim name) then mret tt
      else
        _ ← save_category (mkCategoryDraft (cat_id child) (trim name) (cat_kind child) (cat_colour child) (cat_icon child)
              (Some (cat_parentId child)) (Some (cat_archived child)) (Some (cat_createdAt child)));
        mret tt
  end.

(** What is said before removing a child, and removing it. *)
Definition removal_warning (child : Category) (s : App) : string :=
  let count := Z.of_nat (category_transactionCount (cat_id child) s) in
  if 0 <? count
  then num_to_string count ++ " transaction(s) are filed under " ++ cat_name child ++ ". They will be kept, but will no longer have a category."
  else cat_name child ++ " has no transactions filed under it.".
Definition removeChild (child : Category) (confirms : bool) : M App unit :=
  if confirms then remove_category (cat_id child) else mret tt.

(** ** budget-editor.component.ts *)

Record BudgetForm : Type := mkBudgetForm {
  bf_existing : option Budget; bf_name : string; bf_amount : string; bf_categoryIds : list string;
  bf_period : BudgetPeriod; bf_startDate : string; bf_rollover : bool }.

Definition load_budget (today : string) (budget : option Budget) : BudgetForm :=
  match budget with
  | Some b => mkBudgetForm (Some b) (bud_name b) (formatAmount (bud_amount b) (bud_currency b)) (bud_categoryIds b) (bud_period b)
                (bud_startDate b) (bud_rollover b)
  | None => mkBudgetForm None "" "" [] Monthly today false
  end.

Definition canSave_budget (f : BudgetForm) : bool :=
  truthy (trim (bf_name f)) && truthy (trim (bf_amount f)) && negb (length (bf_categoryIds f) =? 0)%nat.

Definition ordinal (day : Z) : string :=
  let suffix := if (11 <=? day mod 100) && (day mod 100 <=? 13) then "th"
                else if day mod 10 =? 1 then "st" else if day mod 10 =? 2 then "nd" else if day mod 10 =? 3 then "rd" else "th" in
  num_to_string day ++ suffix.

(** The day is [Number] of two characters of the date; a date without them says NaN. *)
Definition anchorHint (f : BudgetForm) : result string :=
  match bf_period f with
  | Monthly =>
      match parse_digits 10 (js_slice (bf_startDate f) 8 10) with
      | Some day =>
          Ok (if day =? 1 then "Runs in calendar months."
              else "Runs from the " ++ ordinal day ++ " of one month to the "
                   ++ ordinal (if day - 1 =? 0 then 31 else day - 1) ++ " of the next.")
      | None => Throw (OutsideModel "a start date without a day")
      end
  | Weekly => Ok "Runs in seven-day periods from the start date."
  | Yearly => Ok "Runs for a year from the start date."
  end.

Definition budget_form_currency (f : BudgetForm) (s : App) : string :=
  match bf_existing f with
  | Some b => bud_currency b
  | None => match head (active_accounts s) with Some a => acc_currency a | None => "USD" end
  end.

Definition save_budget_form (f : BudgetForm) : M App (option string * option AnyEntity) :=
  s ← getS;
  let currency := budget_form_currency f s in
  saving
    (id ← id_or_new (bud_id <$> bf_existing f);
     amount ← liftR (parseAmount (bf_amount f) currency);
     createdAt ← created_or_now (bud_createdAt <$> bf_existing f);
     save_budget (mkBudgetDraft id (trim (bf_name f)) (bf_categoryIds f) (bf_period f) amount currency (bf_startDate f)
       (Some (bf_rollover f)) (Some match bf_existing f with Some b => bud_archived b | None => false end) (Some createdAt))).

(** ** rule-editor.component.ts *)

Inductive Ending : Type := Never | On | After.

Record RuleForm : Type := mkRuleForm {
  rf_existing : option RecurringRule; rf_name : string; rf_kind : TransactionKind; rf_amount : string;
  rf_accountId : option string; rf_counterAccountId : option string; rf_categoryId : option string; rf_payee : string;
  rf_interval : Z; rf_unit : RecurrenceUnit; rf_startDate : string; rf_ending : Ending; rf_endDate : string;
  rf_maxOccurrences : Z }.

(** [endDate] keeps what it held when a new rule is opened: here, the day the sheet was made. *)
Definition load_rule (today : string) (rule : option RecurringRule) (s : App) : RuleForm :=
  match rule with
  | Some r =>
      mkRuleForm (Some r) (rule_name r) (rule_kind r) (formatAmount (rule_amount r) (rule_currency r)) (Some (rule_accountId r))
        (rule_counterAccountId r) (rule_categoryId r) (rule_payee r) (rule_interval r) (rule_unit r) (rule_startDate r)
        (match rule_endDate r, rule_maxOccurrences r with Some _, _ => On | None, Some _ => After | None, None => Never end)
        (default today (rule_endDate r)) (default 12 (rule_maxOccurrences r))
  | None =>
      mkRuleForm None "" Expense "" (acc_id <$> head (active_accounts s)) None None "" 1 UMonth today Never today 12
  end.

(** The effect reads the accounts without [untracked], so it runs again when they change. *)
Definition rule_accounts_changed (today : string) (f : RuleForm) (s : App) : RuleForm :=
  match rf_existing f with None => load_rule today None s | Some _ => f end.

Definition setKind_rule (kind : TransactionKind) (f : RuleForm) : RuleForm :=
  mkRuleForm (rf_existing f) (rf_name f) kind (rf_amount f) (rf_accountId f) (rf_counterAccountId f) None (rf_payee f)
    (rf_interval f) (rf_unit f) (rf_startDate f) (rf_ending f) (rf_endDate f) (rf_maxOccurrences f).

Definition canSave_rule (f : RuleForm) : bool :=
  truthy (trim (rf_name f)) && truthy (trim (rf_amount f))
  && match rf_accountId f with Some i => truthy i | None => false end.

Definition end_of (f : RuleForm) : option string := match rf_ending f with On => Some (rf_endDate f) | _ => None end.
Definition limit_of (f : RuleForm) : option Z := match rf_ending f with After => Some (rf_maxOccurrences f) | _ => None end.
Definition skipped_of (f : RuleForm) : list string := match rf_existing f with Some r => rule_skipped r | None => [] end.

(** The schedule of the form; the fields a schedule does not have are blank. *)
Definition form_schedule (f : RuleForm) : RecurringRule :=
  mkRule "" "" Expense 0 "" "" None None "" "" [] (rf_interval f) (rf_unit f) (rf_startDate f) (end_of f) (limit_of f)
    (skipped_of f) false 0 "".

Definition previousDay (date : string) : result string :=
  match match_ymd date with
  | Some p => Ok (toIsoDate (local_date (year p) (month p - 1) (day p - 1)))
  | None => Throw (OutsideModel "a start date that is not one")
  end.

(** The next three dates, the start included. *)
Definition form_preview (f : RuleForm) : result (list string) :=
  cursor ← previousDay (rf_startDate f);
  Recurring.preview (form_schedule f) 3 cursor.

Definition save_rule_form (f : RuleForm) : M App (option string * option AnyEntity) :=
  s ← getS;
  match account_byId (default "" (rf_accountId f)) s with
  | None => mret (Some "Choose an account first", None)
  | Some account =>
      let transfer := match rf_kind f with Transfer => true | _ => false end in
      saving
        (id ← id_or_new (rule_id <$> rf_existing f);
         amount ← liftR (parseAmount (rf_amount f) (acc_currency account));
         createdAt ← created_or_now (rule_createdAt <$> rf_existing f);
         save_rule (mkRuleDraft id (trim (rf_name f)) (rf_kind f) amount (acc_currency account) (acc_id account)
           (rf_interval f) (rf_unit f) (rf_startDate f)
           (Some (if transfer then rf_counterAccountId f else None)) (Some (if transfer then None else rf_categoryId f))
           (Some (trim (rf_payee f))) (Some match rf_existing f with Some r => rule_note r | None => "" end)
           (Some match rf_existing f with Some r => rule_tags r | None => [] end) (Some (end_of f)) (Some (limit_of f))
           (Some (skipped_of f)) (Some match rf_existing f with Some r => rule_archived r | None => false end) (Some createdAt)))
  end.

(** ** pay-bill.component.ts *)

Inductive PayChoice : Type := PayStatement | PayFull | PayCustom.

Record PayForm : Type := mkPayForm {
  pf_card : option Account; pf_summary : option StatementSummary; pf_choice : PayChoice; pf_custom : string;
  pf_fromId : option string; pf_date : string }.

Definition account_balance (a : Account) (s : App) : Minor := default (acc_openingBalance a) (jmap_get (acc_id a) (balances s)).

Definition currentOwed (f : PayForm) (s : App) : Minor :=
  match pf_card f with Some card => owed (account_balance card s) | None => 0 end.

(** Not the card, no liability, and in its currency. *)
Definition fundingAccounts (card : option Account) (s : App) : list Account :=
  match card with
  | None => []
  | Some card =>
      List.filter (fun a => negb (String.eqb (acc_id a) (acc_id card)) && negb (isLiability a s)
                            && String.eqb (toUpperCase (acc_currency a)) (toUpperCase (acc_currency card))) (active_accounts s)
  end.

(** A typed amount that is nonsense is worth nothing. *)
Definition safeAmount (input currency : string) : Minor :=
  match parseAmount (if truthy (trim input) then trim input else "0") currency with Ok a => a | Throw _ => 0 end.

Definition pay_amount (f : PayForm) (s : App) : Minor :=
  match pf_card f with
  | None => 0
  | Some card =>
      match pf_choice f with
      | PayStatement => match pf_summary f with Some summary => ss_remaining summary | None => 0 end
      | PayFull => currentOwed f s
      | PayCustom => safeAmount (pf_custom f) (acc_currency card)
      end
  end.

Definition canPay (f : PayForm) (s : App) : bool := (0 <? pay_amount f s) && bool_decide (is_Some (pf_fromId f)).

(** The effect, with the summary that arrives after it: on a card, and again whenever the
    accounts or the groups change. *)
Definition pay_effect (today : string) (card : option Account) (f : PayForm) (s : App) : result PayForm :=
  match card with
  | None => Ok (mkPayForm None None (pf_choice f) "" (pf_fromId f) today)
  | Some c =>
      summary ← summarise c today s;
      let options := fundingAccounts card s in
      let fromId := if existsb (fun a => bool_decide (Some (acc_id a) = pf_fromId f)) options then pf_fromId f
                    else acc_id <$> head options in
      let choice := match summary with
                    | Some sm => if 0 <? ss_remaining sm then PayStatement else PayFull
                    | None => PayFull
                    end in
      mret (mkPayForm card summary choice "" fromId today)
  end.

Definition pay_form (today : string) (f : PayForm) : M App (option string * option AnyEntity) :=
  s ← getS;
  match pf_card f, List.find (fun a => bool_decide (Some (acc_id a) = pf_fromId f)) (fundingAccounts (pf_card f) s) with
  | Some card, Some from => saving (pay today (mkPayBill card from (pay_amount f s) (Some (pf_date f)) None))
  | _, _ => mret (None, None)
  end.

(** * Specification *)

(** What an account's terms are when its group is no credit card, or is one. *)
Definition terms_ok (card : bool) (a : Account) : Prop :=
  (card = false -> acc_creditLimit a = None /\ acc_statementDay a = None /\ acc_dueDay a = None)
  /\ (forall l, acc_creditLimit a = Some l -> 0 < l)
  /\ (forall d, acc_statementDay a = Some d \/ acc_dueDay a = Some d -> 1 <= d <= 31).

(** * Lemmas *)

Lemma saving_Some m s e v s' : saving m s = (Ok (e, Some v), s') -> m s = (Ok v, s') /\ e = None.
Proof.
  unfold saving, catchM, mbind, M_bind. destruct (m s) as [[w|err] s1]; intros H; [by injection H as <- <- <-|].
  unfold mret, M_ret in H. by injection H.
Qed.

Lemma saving_Throw m s e s' : m s = (Throw e, s') -> saving m s = (Ok (Some (exn_message e), None), s').
Proof. intros E. unfold saving, catchM, mbind, M_bind. by rewrite E. Qed.

Lemma save_account_Ok draft createdAt s v s' : save_account draft createdAt s = (Ok v, s') ->
  exists now, v = AnAccount (mkAccount (acc_id draft) (acc_name draft) (acc_kind draft) (acc_currency draft)
    (acc_openingBalance draft) (acc_archived draft) (acc_colour draft) (acc_icon draft) (acc_groupId draft)
    (acc_creditLimit draft) (acc_statementDay draft) (acc_dueDay draft) (acc_excludedFromTotals draft)
    (default now createdAt) (entity_updatedAt v)).
Proof. intros (now & s1 & _ & [-> _]%put_rows)%M_bind_Ok_inv. by exists now. Qed.

Lemma in_month_Some d x : in_month d = Some x -> 1 <= x <= 31.
Proof. unfold in_month. destruct (Z.leb_spec 1 d), (Z.leb_spec d 31); cbn [andb]; try done. by intros [= <-]. Qed.

Lemma dayOrUndefined_range f x : dayOrUndefined f = Ok (Some x) -> 1 <= x <= 31.
Proof.
  destruct f as [|d|t]; cbn; [done|by intros [= ?%in_month_Some]|]. destruct (String.eqb t ""); [done|].
  intros (n & _ & [= H])%bind_Ok_inv. destruct n as [n|]; [|done]. cbn in H. destruct (js_trunc n); [|done]. by apply in_month_Some in H.
Qed.

Lemma parseOptionalAmount_positive input currency l : parseOptionalAmount input currency = Ok (Some l) -> 0 < l.
Proof.
  unfold parseOptionalAmount. destruct (negb _); [done|]. intros (amount & _ & [= H])%bind_Ok_inv.
  destruct (Z.ltb_spec 0 amount); [by injection H as <-|done].
Qed.

Lemma card_only_Ok {A} card (m : result (option A)) x : card_only card m = Ok x -> (card = false -> x = None) /\ (forall a, x = Some a -> m = Ok (Some a)).
Proof. destruct card; cbn; [intros ->; split; [done|by intros a ->]|by intros [= <-]]. Qed.

(** What the account editor writes. *)
Lemma save_account_form_Ok f s e v s' : save_account_form f s = (Ok (e, Some v), s') ->
  exists a, v = AnAccount a /\ terms_ok (form_isCreditCard f s) a /\ acc_excludedFromTotals a = None
    /\ acc_currency a = af_currency f /\ acc_name a = trim (af_name f) /\ acc_groupId a = af_groupId f
    /\ acc_kind a = af_kind f /\ acc_archived a = af_archived f
    /\ (forall old, af_existing f = Some old -> acc_id a = acc_id old /\ acc_createdAt a = acc_createdAt old /\ acc_colour a = acc_colour old)
    /\ parseAmount (if truthy (af_openingBalance f) then af_openingBalance f else "0") (af_currency f) = Ok (acc_openingBalance a).
Proof.
  intros (s0 & s1 & [= <- <-] & [H _]%saving_Some)%M_bind_Ok_inv.
  apply M_bind_Ok_inv in H as (id & s2 & Hid & H). apply M_bind_Ok_inv in H as (opening & s3 & [= Ho <-] & H).
  apply M_bind_Ok_inv in H as (limit & s4 & [= Hl%card_only_Ok <-] & H). apply M_bind_Ok_inv in H as (sday & s5 & [= Hs%card_only_Ok <-] & H).
  apply M_bind_Ok_inv in H as (dday & s6 & [= Hd%card_only_Ok <-] & H). apply M_bind_Ok_inv in H as (created & s7 & Hc & H).
  apply save_account_Ok in H as (now & ->). eexists. split; [reflexivity|]. unfold terms_ok. cbn. split_and!; try done.
  - intros Hcard. split_and!; [by apply Hl|by apply Hs|by apply Hd].
  - intros l El. by eapply parseOptionalAmount_positive, Hl.
  - intros d [E|E]; eapply dayOrUndefined_range; [by apply (proj2 Hs)|by apply (proj2 Hd)].
  - intros old Eo. rewrite Eo in Hid, Hc |- *. by injection Hid as <- _; injection Hc as <- _.
Qed.

(** * Properties *)

(** Card terms belong to cards: an account saved from the editor has a credit limit, a
    statement day or a due day only if the group chosen is a credit card's, a limit is
    above zero and the days are days of a month, whatever was typed in the fields. *)
Theorem card_terms_belong_to_cards f s e a s' :
  save_account_form f s = (Ok (e, Some (AnAccount a)), s') ->
  ((exists g, group_byId (acc_groupId a) s = Some g /\ ag_type g = GCreditCard)
   \/ (acc_creditLimit a = None /\ acc_statementDay a = None /\ acc_dueDay a = None))
  /\ (forall l, acc_creditLimit a = Some l -> 0 < l)
  /\ (forall d, acc_statementDay a = Some d \/ acc_dueDay a = Some d -> 1 <= d <= 31).
Proof.
  intros (a' & [= <-] & (Hno & Hl & Hd) & _ & _ & _ & Hg & _)%save_account_form_Ok. split_and!; [|done..].
  unfold form_isCreditCard in Hno. rewrite -Hg in Hno. destruct (group_byId (acc_groupId a) s) as [g|]; [|right; by apply Hno].
  case_bool_decide as Ht; [left; by exists g|right; by apply Hno].
Qed.

(** The account editor forgets an exclusion: saving an account that was left out of the
    totals, untouched or not, stores it without that mark, so it counts again. *)
Theorem editing_an_account_counts_it_again old s e v s' :
  save_account_form (load_account (Some old) s) s = (Ok (e, Some v), s') ->
  exists a, v = AnAccount a /\ acc_id a = acc_id old /\ countsInTotals a = true.
Proof.
  intros (a & -> & _ & He & _ & _ & _ & _ & _ & Hold & _)%save_account_form_Ok. exists a. destruct (Hold old eq_refl) as [-> _].
  unfold countsInTotals. by rewrite He.
Qed.

(** A bill is paid out of money held: what the payment sheet writes is a transfer of a
    positive amount to the card from one of the active accounts that is not the card, is
    no liability, and is in the card's currency. *)
Theorem bill_is_paid_from_money_held today f s e v s' :
  transactions_inv s -> pay_form today f s = (Ok (e, Some v), s') ->
  exists t card from, v = ATransaction t /\ pf_card f = Some card /\ from ∈ active_accounts s
    /\ txn_kind t = Transfer /\ txn_accountId t = acc_id from /\ txn_counterAccountId t = Some (acc_id card)
    /\ 0 < txn_amount t /\ txn_amount t = pay_amount f s /\ acc_id from <> acc_id card /\ isLiability from s = false
    /\ sameCurrency (acc_currency from) (acc_currency card) = true.
Proof.
  intros Hinv (s0 & s1 & [= <- <-] & H)%M_bind_Ok_inv. destruct (pf_card f) as [card|] eqn:Ec; [|done].
  destruct (List.find _ _) as [from|] eqn:Ef; [|done]. apply List.find_some in Ef as [Hin _].
  apply filter_In in Hin as [Hin [[_ Hl%negb_true_iff]%andb_prop _]%andb_prop]. apply saving_Some in H as [H _].
  apply pay_Ok in H as (t & -> & _ & _ & _ & Hpos & Hne & Hcur & Hk & Ha & Hacc & Hctr & _); [|done]. cbn in *.
  exists t, card, from. split_and!; try done; [by apply list_elem_of_In|by rewrite Ha|].
  unfold sameCurrency. by apply String.eqb_eq.
Qed.

(** Opening a budget and saving it untouched writes the same budget: one write of the
    row as it was. *)
Theorem saving_an_untouched_budget today b s :
  assertValid_budget b = Ok tt -> Z.abs (bud_amount b) <= MAX_SAFE_INTEGER -> trim (bud_name b) = bud_name b ->
  jset_of (bud_categoryIds b) = bud_categoryIds b ->
  save_budget_form (load_budget today (Some b)) s
  = saving (fun s => put EBudgets (ABudget (mkBudget (bud_id b) (bud_name b) (bud_categoryIds b) (bud_period b) (bud_amount b)
      (bud_currency b) (bud_startDate b) (bud_rollover b) (bud_archived b) (bud_createdAt b) "")) (snd (Date_now s))) s.
Proof.
  intros Hv Ha Hn Hc. unfold save_budget_form, mbind, M_bind at 1, getS. unfold saving, catchM, mbind, M_bind.
  cbn [load_budget bf_existing bf_amount bf_name bf_categoryIds bf_period bf_startDate bf_rollover budget_form_currency fmap option_fmap option_map].
  unfold id_or_new, created_or_now, mret, M_ret, liftR. rewrite parse_formatAmount //.
  unfold save_budget, mbind, M_bind, Date_now, liftR.
  cbn [bd_id bd_name bd_categoryIds bd_period bd_amount bd_currency bd_startDate bd_rollover bd_archived bd_createdAt default from_option id].
  rewrite Hn Hc. destruct b. cbn in *. unfold assertValid_budget in *. cbn in *. by rewrite Hv.
Qed.

(** Opening a recurring rule and saving it untouched writes the same rule, with its
    skipped dates, its tags and its note, in one write of the row as it was. *)
Theorem saving_an_untouched_rule today r a s :
  rule_wf r -> rule_amount r <= MAX_SAFE_INTEGER -> trim (rule_name r) = rule_name r -> trim (rule_payee r) = rule_payee r ->
  account_byId (rule_accountId r) s = Some a -> acc_currency a = rule_currency r ->
  match rule_kind r with Transfer => rule_categoryId r = None | _ => rule_counterAccountId r = None end ->
  (rule_endDate r = None \/ rule_maxOccurrences r = None) ->
  save_rule_form (load_rule today (Some r) s) s
  = saving (fun s => put ERecurringRules (ARule (mkRule (rule_id r) (rule_name r) (rule_kind r) (rule_amount r) (rule_currency r)
      (rule_accountId r) (rule_counterAccountId r) (rule_categoryId r) (rule_payee r) (rule_note r) (rule_tags r) (rule_interval r)
      (rule_unit r) (rule_startDate r) (rule_endDate r) (rule_maxOccurrences r) (rule_skipped r) (rule_archived r)
      (rule_createdAt r) "")) (snd (Date_now s))) s.
Proof.
  intros Hwf Hm Hn Hp Ha Hc Hk He. pose proof (rw_amount _ Hwf) as Hpos. pose proof (account_byId_id _ _ _ Ha) as Hid.
  unfold save_rule_form, mbind, M_bind at 1, getS. cbn [load_rule rf_accountId default from_option id]. rewrite Ha.
  unfold saving, catchM, mbind, M_bind.
  cbn [rf_existing rf_amount rf_name rf_kind rf_interval rf_unit rf_startDate rf_payee rf_counterAccountId rf_categoryId fmap option_fmap option_map].
  unfold id_or_new, created_or_now, mret, M_ret, liftR. rewrite Hc parse_formatAmount; [|lia].
  unfold save_rule, mbind, M_bind, Date_now, liftR.
  match goal with |- context [fill_rule ?now ?d] => set (filled := fill_rule now d) end.
  assert (filled = mkRule (rule_id r) (rule_name r) (rule_kind r) (rule_amount r) (rule_currency r)
      (rule_accountId r) (rule_counterAccountId r) (rule_categoryId r) (rule_payee r) (rule_note r) (rule_tags r) (rule_interval r)
      (rule_unit r) (rule_startDate r) (rule_endDate r) (rule_maxOccurrences r) (rule_skipped r) (rule_archived r)
      (rule_createdAt r) "") as ->.
  { subst filled. unfold fill_rule. cbn. rewrite Hn Hp Hid Z.abs_eq; [|lia]. unfold end_of, limit_of, skipped_of. cbn.
    assert (match match rule_endDate r, rule_maxOccurrences r with Some _, _ => On | None, Some _ => After | None, None => Never end with
            | On => Some (default today (rule_endDate r)) | _ => None end = rule_endDate r) as ->
      by by destruct (rule_endDate r), (rule_maxOccurrences r).
    assert (match match rule_endDate r, rule_maxOccurrences r with Some _, _ => On | None, Some _ => After | None, None => Never end with
            | After => Some (default 12 (rule_maxOccurrences r)) | _ => None end = rule_maxOccurrences r) as ->
      by by destruct (rule_endDate r), (rule_maxOccurrences r); destruct He.
    destruct (rule_kind r); by rewrite Hk. }
  rewrite (proj2 (assertValid_rule_iff _)); [done|]. by destruct Hwf.
Qed.

(** * Witnesses *)

(** The account of a card, typed with a day out of the month, a limit of zero and a day. *)
Definition typed_account : AccountForm :=
  mkAccountForm None "Visa " Kcard "USD" "" (Some "cards") "0" (DayText "31") (DayNumber 40) false true (Some 0%nat).
Definition typed_saved : Account :=
  mkAccount "u" "Visa" Kcard "USD" 0 false "#3880ff" "card-outline" (Some "cards") None (Some 31) None None 1000
    (encodeHlc (mkHlcState 1000 0) "d").

Lemma typed_account_saved :
  save_account_form typed_account demo_grouped
  = (Ok (None, Some (AnAccount typed_saved)), snd (save_account_form typed_account demo_grouped)).
Proof. vm_compute. reflexivity. Qed.

Lemma card_terms_belong_to_cards_witness : exists g, group_byId (Some "cards") demo_grouped = Some g /\ ag_type g = GCreditCard.
Proof.
  destruct (proj1 (card_terms_belong_to_cards typed_account demo_grouped None typed_saved _ typed_account_saved)) as [H|(_ & H & _)];
    [exact H|discriminate H].
Defined.

(** An account left out of the totals, opened and saved: it counts again. *)
Definition left_out : Account := set_excluded (Some true) (demo_account "a" "USD" 1000 None).
Lemma left_out_saved :
  exists v, fst (save_account_form (load_account (Some left_out) demo_bank) demo_bank) = Ok (None, Some v).
Proof. eexists. vm_compute. reflexivity. Qed.

Lemma editing_an_account_counts_it_again_witness :
  countsInTotals left_out = false
  /\ exists a, fst (save_account_form (load_account (Some left_out) demo_bank) demo_bank) = Ok (None, Some (AnAccount a))
       /\ countsInTotals a = true.
Proof.
  split; [vm_compute; reflexivity|]. destruct left_out_saved as (v & E).
  destruct (editing_an_account_counts_it_again left_out demo_bank None v (snd (save_account_form (load_account (Some left_out) demo_bank) demo_bank)))
    as (a & -> & _ & H); [rewrite -E; apply surjective_pairing|]. exists a. split; [exact E|exact H].
Defined.

(** Paying the demo card's bill from the sheet. *)
Definition demo_sheet : PayForm := mkPayForm (Some demo_card) (Some demo_bill) PayStatement "" (Some "a") "2024-01-10".
Lemma demo_sheet_paid : fst (pay_form "2024-01-12" demo_sheet demo_charged) = Ok (None, Some demo_paid).
Proof. vm_compute. reflexivity. Qed.

Lemma bill_is_paid_from_money_held_witness :
  canPay demo_sheet demo_charged = true /\ exists t, demo_paid = ATransaction t /\ txn_amount t = 150 /\ txn_kind t = Transfer.
Proof.
  split; [vm_compute; reflexivity|].
  destruct (bill_is_paid_from_money_held "2024-01-12" demo_sheet demo_charged None demo_paid
    (snd (pay_form "2024-01-12" demo_sheet demo_charged)) demo_charged_inv) as (t & card & from & Hv & _ & _ & Hk & _ & _ & _ & Ha & _).
  - rewrite -demo_sheet_paid. apply surjective_pairing.
  - exists t. split; [exact Hv|]. split; [|exact Hk]. rewrite Ha. vm_compute. reflexivity.
Defined.

Lemma saving_an_untouched_budget_witness :
  exists v, fst (save_budget_form (load_budget "2024-05-01" (Some (demo_budget true))) (demo_device "a")) = Ok (None, Some (ABudget v))
    /\ bud_amount v = 10000.
Proof.
  eexists. rewrite (saving_an_untouched_budget "2024-05-01" (demo_budget true) (demo_device "a")); [vm_compute; split; reflexivity|..];
    first [vm_compute; reflexivity|vm_compute; discriminate].
Defined.

Definition rule_ledger : App := snd (put EAccounts (AnAccount (demo_account "acc" "USD" 0 None)) demoR).
Lemma demo_rule_stored_wf : rule_wf demo_rule_stored.
Proof. apply assertValid_rule_iff. vm_compute. reflexivity. Qed.

Lemma saving_an_untouched_rule_witness :
  exists v, fst (save_rule_form (load_rule "2026-03-01" (Some demo_rule_stored) rule_ledger) rule_ledger) = Ok (None, Some (ARule v))
    /\ rule_startDate v = "2026-01-31".
Proof.
  eexists. rewrite (saving_an_untouched_rule "2026-03-01" demo_rule_stored
    (match account_byId "acc" rule_ledger with Some a => a | None => demo_account "acc" "USD" 0 None end) rule_ledger demo_rule_stored_wf);
    [vm_compute; split; reflexivity|..]; first [vm_compute; reflexivity|vm_compute; discriminate|by left].
Defined.

(** A rule typed while a download brings an account: the form is reset. *)
Definition typed_rule : RuleForm := mkRuleForm None "Rent" Expense "1200" None None None "Landlord" 1 UMonth "2026-02-28" Never "2026-02-28" 12.
Lemma arrival_wipes_a_typed_rule :
  rule_accounts_changed "2026-03-01" typed_rule rule_ledger
  = mkRuleForm None "" Expense "" (Some "acc") None None "" 1 UMonth "2026-03-01" Never "2026-03-01" 12.
Proof. vm_compute. reflexivity. Qed.

(** So is a payment: the amount typed and the day chosen go when the accounts change. *)
Lemma arrival_wipes_a_typed_payment :
  (f ← pay_effect "2024-01-12" (Some demo_card) (mkPayForm (Some demo_card) (Some demo_bill) PayCustom "75" (Some "a") "2024-01-09") demo_charged;
   mret (pf_choice f, pf_custom f, pf_date f)) = Ok (PayStatement, "", "2024-01-12").
Proof. vm_compute. reflexivity. Qed.

(** What the rule editor shows of a rule on the last day of the month. *)
Lemma form_preview_shows :
  form_preview (load_rule "2026-03-01" (Some demo_rule_stored) rule_ledger) = Ok ["2026-01-31"; "2026-02-28"; "2026-03-31"].
Proof. vm_compute. reflexivity. Qed.
