(* ===== verification/Pages.v ===== *)
(** The pages that are forms over a service: the sync destination
    ([features/settings/sync-settings.page.ts]), importing and restoring
    ([features/data/data.page.ts]), the passphrase and the device lock
    ([features/settings/security.page.ts]) and exchange rates ([features/rates/rates.page.ts]).
    An alert that asks to confirm is a boolean, whether the user confirms; toasts, icons and
    the busy flag are left out. *)
From S2P Require Export Editors Import Csv Backup Settings.
From S2P Require Import Sync.
#[local] Open Scope string_scope.
#[local] Open Scope Z_scope.

(** * Definitions *)

(** ** sync-settings.page.ts *)

Inductive SyncTargetKind : Type := KindNone | KindServer | KindS3 | KindGit.
#[export] Instance SyncTargetKind_eq_dec : EqDecision SyncTargetKind.
Proof. solve_decision. Defined.

Definition target_kind (t : SyncTarget) : SyncTargetKind :=
  match t with NoneTarget _ => KindNone | ServerTarget _ _ _ => KindServer | S3Target _ _ _ _ _ _ _ _ => KindS3 | GitTarget _ _ _ _ _ _ _ _ => KindGit end.

(** One draft per kind. *)
Record SyncForm : Type := mkSyncForm {
  sf_kind : SyncTargetKind; sf_intervalMinutes : Z; sf_syncOnReconnect : bool; sf_wifiOnly : bool;
  sf_server : SyncTarget; sf_s3 : SyncTarget; sf_git : SyncTarget; sf_message : option string }.

Definition blank_server : SyncTarget := ServerTarget "Sync server" "" "".
Definition blank_s3 : SyncTarget := S3Target "S3 storage" "" "auto" "" "" "" true "".
Definition blank_git : SyncTarget := GitTarget "Git repository" "" "main" "" "docket" "" "Easy Docket" "docket@localhost".

Definition open_sync_page (current : SyncSettings) : SyncForm :=
  let target := ss_target current in
  mkSyncForm (target_kind target) (ss_intervalMinutes current) (ss_syncOnReconnect current) (ss_wifiOnly current)
    (match target_kind target with KindServer => target | _ => blank_server end)
    (match target_kind target with KindS3 => target | _ => blank_s3 end)
    (match target_kind target with KindGit => target | _ => blank_git end) None.

Definition setKind_sync (kind : SyncTargetKind) (f : SyncForm) : SyncForm :=
  mkSyncForm kind (sf_intervalMinutes f) (sf_syncOnReconnect f) (sf_wifiOnly f) (sf_server f) (sf_s3 f) (sf_git f) None.
(** [{ ...current, ...partial }] on the draft of one kind. *)
Definition patchServer (partial : SyncTarget -> SyncTarget) (f : SyncForm) : SyncForm :=
  mkSyncForm (sf_kind f) (sf_intervalMinutes f) (sf_syncOnReconnect f) (sf_wifiOnly f) (partial (sf_server f)) (sf_s3 f) (sf_git f) (sf_message f).
Definition patchS3 (partial : SyncTarget -> SyncTarget) (f : SyncForm) : SyncForm :=
  mkSyncForm (sf_kind f) (sf_intervalMinutes f) (sf_syncOnReconnect f) (sf_wifiOnly f) (sf_server f) (partial (sf_s3 f)) (sf_git f) (sf_message f).
Definition patchGit (partial : SyncTarget -> SyncTarget) (f : SyncForm) : SyncForm :=
  mkSyncForm (sf_kind f) (sf_intervalMinutes f) (sf_syncOnReconnect f) (sf_wifiOnly f) (sf_server f) (sf_s3 f) (partial (sf_git f)) (sf_message f).

Definition form_target (f : SyncForm) : SyncTarget :=
  match sf_kind f with
  | KindServer => sf_server f | KindS3 => sf_s3 f | KindGit => sf_git f | KindNone => NoneTarget "Not configured"
  end.

(** The settings [save] stores, and whether it then sets a sync going. *)
Definition form_settings (f : SyncForm) : SyncSettings :=
  mkSyncSettings (form_target f) (sf_intervalMinutes f) (sf_syncOnReconnect f) (sf_wifiOnly f).
Definition syncs_after_save (f : SyncForm) : bool := negb (bool_decide (sf_kind f = KindNone)).

(** ** data.page.ts *)

Record DataPage : Type := mkDataPage {
  dp_accountId : option string; dp_dayFirst : bool; dp_plan : option ImportPlan; dp_error : option string;
  dp_rows : list (list string); dp_mapping : option ColumnMapping }.

Definition set_dp_error (error : option string) (p : DataPage) : DataPage :=
  mkDataPage (dp_accountId p) (dp_dayFirst p) (dp_plan p) error (dp_rows p) (dp_mapping p).

(** Choosing an account from the list only sets the signal. *)
Definition chooseAccount (id : string) (p : DataPage) : DataPage :=
  mkDataPage (Some id) (dp_dayFirst p) (dp_plan p) (dp_error p) (dp_rows p) (dp_mapping p).

(** The account the page imports into: the one chosen, or the first active one. *)
Definition into_account (p : DataPage) (s : App) : option Account :=
  match account_byId (default "" (dp_accountId p)) s with Some a => Some a | None => head (active_accounts s) end.

Definition set_plan (accountId : string) (plan : option ImportPlan) (p : DataPage) : DataPage :=
  mkDataPage (Some accountId) (dp_dayFirst p) plan (dp_error p) (dp_rows p) (dp_mapping p).

(** The account is written to the page before the plan is made, so it stays when planning
    throws. *)
Definition replan (s : App) : M DataPage unit := fun p =>
  match dp_mapping p, into_account p s with
  | Some mapping, Some account =>
      match planImport (dp_rows p) mapping (mkImportOptions (acc_id account) (acc_currency account) (dp_dayFirst p) (existingKeys s)) with
      | Ok plan => (Ok tt, set_plan (acc_id account) (Some plan) p)
      | Throw problem => (Throw problem, set_plan (acc_id account) (dp_plan p) p)
      end
  | _, _ => (Ok tt, p)
  end.

(** The text of the file chosen. *)
Definition readCsv (text : string) (s : App) : M DataPage unit :=
  _ ← modifyS (set_dp_error None);
  match parseCsv text with
  | headers :: ((_ :: _) as rows) =>
      _ ← modifyS (fun p => mkDataPage (dp_accountId p) (dp_dayFirst p) (dp_plan p) (dp_error p) rows (Some (detectColumns headers)));
      catchM (replan s) (fun problem => modifyS (set_dp_error (Some (exn_message problem))))
  | _ => modifyS (set_dp_error (Some "That file has no rows to import."))
  end.

Definition setDayFirst (dayFirst : bool) (s : App) : M DataPage unit :=
  _ ← modifyS (fun p => mkDataPage (dp_accountId p) dayFirst (dp_plan p) (dp_error p) (dp_rows p) (dp_mapping p));
  replan s.

Definition clear_page (p : DataPage) : DataPage := mkDataPage (dp_accountId p) (dp_dayFirst p) None (dp_error p) [] None.

(** The import, into the account chosen now; with what is said of it. *)
Definition applyImport (p : DataPage) : M App (DataPage * option string) :=
  s ← getS;
  match dp_plan p, account_byId (default "" (dp_accountId p)) s with
  | Some plan, Some account =>
      result ← apply_plan plan (mkApply (acc_id account) (acc_currency account) false);
      let created := match ir_created result with
                     | [] => ""
                     | ids => ", " ++ num_to_string (Z.of_nat (length ids)) ++ " new category(s)"
                     end in
      mret (clear_page p, Some ("Imported " ++ num_to_string (Z.of_nat (ir_imported result)) ++ " transaction(s)" ++ created))
  | _, _ => mret (p, None)
  end.

(** The first five rows that could not be read. *)
Definition problems (p : DataPage) : list string :=
  match dp_plan p with
  | None => []
  | Some plan =>
      map (fun row => "Line " ++ num_to_string (Z.of_nat (pr_line row)) ++ ": " ++ default "" (pr_error row))
        (take 5 (List.filter (fun row => match pr_error row with Some e => truthy e | None => false end) (ip_rows plan)))
  end.

(** The file of a backup, with what is said of it; [n] is the draw the seal uses. *)
Definition exportBackup {Key} `{!WebCrypto Key} (vault : VaultSession Key) (n : nat) (p : DataPage) : M App (DataPage * option (string * string)) :=
  catchM ('(contents, count) ← export vault n;
          mret (p, Some (contents, "Backed up " ++ num_to_string (Z.of_nat count) ++ " row(s)")))
    (fun problem => mret (set_dp_error (Some (exn_message problem)) p, None)).

(** Reading a backup asks to confirm before anything is written. *)
Definition readBackup {Key} `{!WebCrypto Key} (vault : VaultSession Key) (contents : string) (confirms : bool) (p : DataPage) : M Shelf (DataPage * option string) :=
  let p := set_dp_error None p in
  match inspect vault contents with
  | Throw problem => mret (set_dp_error (Some (exn_message problem)) p, None)
  | Ok payload =>
      if negb confirms then mret (p, None)
      else
        result ← restore_payload payload;
        mret (p, Some ("Restored " ++ num_to_string (Z.of_nat (restored result)) ++ " row(s), kept " ++ num_to_string (Z.of_nat (skipped result))))
  end.

(** ** security.page.ts *)

Record SecurityForm : Type := mkSecurity {
  sp_biometricLock : bool; sp_current : string; sp_next : string; sp_confirmation : string; sp_error : option string;
  sp_bundle : option (string * WrappedMasterKey) }.

Section Security.
Context {Key : Type} `{!WebCrypto Key}.

Definition open_security (v : Vault Key) : SecurityForm := mkSecurity (biometric_enabled v) "" "" "" None None.

Definition set_lock (enabled : bool) (f : SecurityForm) : SecurityForm :=
  mkSecurity enabled (sp_current f) (sp_next f) (sp_confirmation f) (sp_error f) (sp_bundle f).

(** [passes]: whether the user would pass the check if asked now. *)
Definition setBiometricLock (enabled passes : bool) (f : SecurityForm) : M (Vault Key) SecurityForm :=
  v ← getS;
  if enabled && negb (biometric_verify passes v) then mret (set_lock false f)
  else _ ← setEnabled enabled; mret (set_lock enabled f).

Definition canChange (f : SecurityForm) : bool :=
  (0 <? String.length (sp_current f))%nat && (8 <=? String.length (sp_next f))%nat.

Definition with_error_sp (error : option string) (f : SecurityForm) : SecurityForm :=
  mkSecurity (sp_biometricLock f) (sp_current f) (sp_next f) (sp_confirmation f) error (sp_bundle f).

(** The three fields are emptied once the vault was asked, whatever it answered.  [toast] is
    how showing the message of success ended, which the same [try] awaits. *)
Definition change (toast : result unit) (f : SecurityForm) : M (Vault Key) SecurityForm :=
  if negb (String.eqb (sp_next f) (sp_confirmation f))
  then mret (with_error_sp (Some "The two new passphrases do not match") f)
  else
    let emptied error := mkSecurity (sp_biometricLock f) "" "" "" error (sp_bundle f) in
    catchM (_ ← changePassphrase (sp_current f) (sp_next f); _ ← liftR toast; mret (emptied None))
      (fun problem => mret (emptied (Some (exn_message problem)))).

Definition reveal (f : SecurityForm) : M (Vault Key) SecurityForm :=
  let shows bundle := mkSecurity (sp_biometricLock f) (sp_current f) (sp_next f) (sp_confirmation f) (sp_error f) bundle in
  match sp_bundle f with
  | Some _ => mret (shows None)
  | None => exported ← exportWrappedKey; mret (shows exported)
  end.

Definition confirmReset (confirms : bool) : M (Vault Key) unit := if confirms then destroy else mret tt.
End Security.

(** ** rates.page.ts *)

Record RateForm : Type := mkRateForm { rp_base : string; rp_quote : string; rp_rate : string; rp_date : string; rp_open : bool; rp_error : option string }.

Definition add_rate (today : string) (s : App) : RateForm := mkRateForm "" (reportingCurrency s) "" today true None.
Definition addFor (today : string) (pair : PairSummary) (s : App) : result RateForm :=
  rate ← number_text (ps_rate pair);
  mret (mkRateForm (ps_base pair) (ps_quote pair) rate (rp_date (add_rate today s)) true None).

Definition canSave_rate (f : RateForm) : result bool :=
  rate ← to_number (rp_rate f);
  mret ((String.length (rp_base f) =? 3)%nat && (String.length (rp_quote f) =? 3)%nat
        && match rate with Some x => SFltb (S754_zero false) x | None => false end).

Definition rate_explanation (f : RateForm) : result string :=
  can ← canSave_rate f;
  mret (if can : bool then "1 " ++ rp_base f ++ " = " ++ rp_rate f ++ " " ++ rp_quote f
        else "One unit of the first currency, in units of the second.").

Definition save_rate_form (f : RateForm) : M App (RateForm * option AnyEntity) :=
  catchM
    (rate ← liftR (to_number (rp_rate f));
     saved ← save_rate (mkRateDraft (rp_base f) (rp_quote f) (default S754_nan rate) (rp_date f) None);
     mret (mkRateForm (rp_base f) (rp_quote f) (rp_rate f) (rp_date f) false None, Some saved))
    (fun error => mret (mkRateForm (rp_base f) (rp_quote f) (rp_rate f) (rp_date f) (rp_open f) (Some (exn_message error)), None)).

Definition changeReporting (currency : string) (confirms : bool) : M App unit :=
  s ← getS;
  if String.eqb currency (reportingCurrency s) || negb confirms then mret tt else setReportingCurrency currency.


(** * Specification *)

(** What the import page shows is what importing would do: the plan is the file's, for the
    account chosen and the reading of dates chosen. *)
Definition plan_for_account (p : DataPage) (s : App) : Prop :=
  forall plan, dp_plan p = Some plan -> exists account mapping,
    account_byId (default "" (dp_accountId p)) s = Some account /\ dp_mapping p = Some mapping
    /\ planImport (dp_rows p) mapping (mkImportOptions (acc_id account) (acc_currency account) (dp_dayFirst p) (existingKeys s)) = Ok plan.

(** The passphrase [q] opens the vault to its key [k]. *)
Definition opens {Key} `{!WebCrypto Key} (refusals : bool) (v : Vault Key) (q : string) (k : Key) : Prop :=
  vault_run refusals v (Some (q, k)) /\ exists r v2, Vault.unlock q v = (r, v2) /\ requireKey (session v2) = Ok k.

(** * Lemmas *)

Lemma run_opens {Key} `{!WebCrypto Key} `{!WebCryptoLaws Key} refusals (v : Vault Key) q k :
  vault_run refusals v (Some (q, k)) -> opens refusals v q k.
Proof.
  intros H. split; [done|]. destruct (unlock_run refusals v q k (run_inv _ _ _ H)) as (r & v2 & E & _ & Hk & _).
  exists r, v2. split; [done|]. unfold requireKey. cbn. by rewrite Hk.
Qed.

Lemma catchM_Ok {S A} (m : M S A) h s x s' : catchM m h s = (Ok x, s') ->
  m s = (Ok x, s') \/ exists e s1, m s = (Throw e, s1) /\ h e s1 = (Ok x, s').
Proof. unfold catchM. destruct (m s) as [[y|e] s1] eqn:E; [by left|]. right. by exists e, s1. Qed.

Lemma into_account_id p s account : accounts_inv s -> into_account p s = Some account -> account_byId (acc_id account) s = Some account.
Proof.
  intros Hinv. unfold into_account, account_byId.
  destruct (List.find _ (all_accounts s)) as [a|] eqn:E.
  - intros [= <-]. apply List.find_some in E as E'. destruct E' as [_ Hid%String.eqb_eq]. by rewrite Hid.
  - intros Hh. apply find_by_id.
    + unfold all_accounts. rewrite js_sort_perm. by apply accounts_NoDup.
    + apply head_Some_elem_of in Hh. unfold active_accounts in Hh. apply list_elem_of_In, filter_In in Hh as [Hh _]. split; [by apply list_elem_of_In|done].
Qed.

Lemma replan_plans s p p' :
  accounts_inv s -> is_Some (into_account p s) -> is_Some (dp_mapping p) -> replan s p = (Ok tt, p') -> plan_for_account p' s.
Proof.
  intros Hinv [account Ha] [mapping Hm] E plan Hp. unfold replan in E. rewrite Hm Ha in E.
  destruct (planImport _ _ _) as [plan'|e] eqn:Ep; [|done]. injection E as <-. cbn in Hp. injection Hp as ->.
  exists account, mapping. cbn. split_and!; [by eapply into_account_id|done|exact Ep].
Qed.

Lemma into_active p s : active_accounts s <> [] -> is_Some (into_account p s).
Proof. intros H. unfold into_account. case_match; [by eexists|]. destruct (active_accounts s); [done|by eexists]. Qed.

(** * Properties *)

(** opening the page of sync settings and saving without a change stores the settings there
    were, whatever other kinds of destination were looked at in between. *)
Theorem saving_sync_untouched_keeps_the_settings c kinds :
  (forall label, ss_target c = NoneTarget label -> label = "Not configured") ->
  form_settings (setKind_sync (target_kind (ss_target c)) (foldr setKind_sync (open_sync_page c) kinds)) = c.
Proof.
  intros Hl. assert (forall kinds, let f := foldr setKind_sync (open_sync_page c) kinds in
    sf_intervalMinutes f = ss_intervalMinutes c /\ sf_syncOnReconnect f = ss_syncOnReconnect c /\ sf_wifiOnly f = ss_wifiOnly c
    /\ sf_server f = sf_server (open_sync_page c) /\ sf_s3 f = sf_s3 (open_sync_page c) /\ sf_git f = sf_git (open_sync_page c)) as H.
  { clear kinds. intros kinds. cbn zeta. induction kinds as [|k l IH]; [by split_and!|exact IH]. }
  destruct (H kinds) as (H1 & H2 & H3 & H4 & H5 & H6). unfold form_settings, form_target. cbn [sf_kind setKind_sync].
  cbn [setKind_sync sf_intervalMinutes sf_syncOnReconnect sf_wifiOnly sf_server sf_s3 sf_git]. rewrite H1 H2 H3 H4 H5 H6.
  destruct c as [[label| | |] i r w]; cbn in *; [|done..]. by rewrite (Hl label).
Qed.

(** what the import page shows is for the account it will write to: after a file was
    read, and after the reading of dates was changed, the plan is the one of that file for
    the account shown, in its currency, against what is already recorded. *)
Theorem plan_is_for_the_account_shown s p p' :
  accounts_inv s -> active_accounts s <> [] ->
  (exists text, readCsv text s p = (Ok tt, p') /\ dp_error p' = None)
  \/ (exists dayFirst, plan_for_account p s /\ setDayFirst dayFirst s p = (Ok tt, p')) ->
  plan_for_account p' s.
Proof.
  intros Hinv Hact [(text & E & He)|(dayFirst & Hok & E)].
  - unfold readCsv in E. apply M_bind_Ok_inv in E as ([] & p1 & [= <-] & E).
    destruct (parseCsv text) as [|headers [|row rws]]; [by injection E as <-..|].
    apply M_bind_Ok_inv in E as ([] & p2 & [= <-] & E). apply catchM_Ok in E as [E|(e & p3 & _ & E)]; [|by injection E as <-].
    eapply replan_plans; [done| | |exact E]; [by apply into_active|by eexists].
  - unfold setDayFirst in E. apply M_bind_Ok_inv in E as ([] & p1 & [= <-] & E).
    destruct (dp_mapping p) as [mapping|] eqn:Em.
    + eapply replan_plans; [done| | |exact E]; [by apply into_active|by eexists].
    + unfold replan in E. cbn in E. injection E as <-. intros plan Hp. cbn in Hp.
      destruct (Hok plan Hp) as (? & ? & _ & Hm & _). by rewrite Em in Hm.
Qed.

(** C16: Only a backup of this vault is restored.  If the chosen file is one (sealed under
    the key the vault holds, well formed, of its identity), it is restored once the person
    confirms, and without that nothing happens.  Any other file is refused: the page shows
    why, nothing is restored, and no row, operation or clock changes. *)
Theorem only_this_vaults_backups_are_restored {Key} `{!WebCrypto Key} `{!WebCryptoLaws Key} (vault : VaultSession Key)
    contents confirms page sh r sh' :
  readBackup vault contents confirms page sh = (r, sh') ->
  (exists payload, backup_of vault contents payload
     /\ if confirms : bool then exists x, restore_payload payload sh = (x, sh')
        else sh' = sh /\ r = Ok (set_dp_error None page, None))
  \/ ((forall payload, ~ backup_of vault contents payload) /\ sh' = sh
      /\ exists e, r = Ok (set_dp_error (Some (exn_message e)) page, None)
           /\ ((exists why, e = BackupFormatError why) \/ (exists why, e = OutsideModel why) \/ requireVaultId vault = Throw e)).
Proof.
  unfold readBackup. destruct (inspect vault contents) as [payload|e] eqn:Ei.
  - intros H. left. exists payload. split; [by apply inspect_accepts_exactly|]. destruct confirms; cbn [negb] in H.
    + unfold mbind, M_bind in H. destruct (restore_payload payload sh) as [[x|e] sh1]; injection H as _ <-; by eexists.
    + by injection H as <- <-.
  - intros [= <- <-]. right. split_and!; [|done|].
    + intros payload Hp%inspect_accepts_exactly. by rewrite Ei in Hp.
    + exists e. split; [done|by eapply inspect_throw].
Qed.

(** C29: what changing the passphrase on the security screen comes to.  If the new passphrase
    was not typed twice alike, the vault is not asked, and the form is as it was but for the
    message.  If it was, nothing typed is kept, and: when no message is shown, the new
    passphrase opens the vault, to the same key (the current one having been given); when
    one is shown, the old one still opens it, unless what failed is the toast that was to
    announce the success: then it may be either of the two. *)
Theorem passphrase_form_outcome {Key} `{!WebCrypto Key} `{!WebCryptoLaws Key} refusals (v : Vault Key) p k toast f r v' :
  vault_run refusals v (Some (p, k)) -> change toast f v = (r, v') ->
  exists f', r = Ok f'
    /\ (sp_next f <> sp_confirmation f ->
        v' = v /\ f' = with_error_sp (Some "The two new passphrases do not match") f /\ opens refusals v' p k)
    /\ (sp_next f = sp_confirmation f ->
        sp_current f' = "" /\ sp_next f' = "" /\ sp_confirmation f' = ""
        /\ (sp_error f' = None -> sp_current f = p -> opens refusals v' (sp_next f) k)
        /\ (is_Some (sp_error f') -> toast = Ok tt -> opens refusals v' p k)
        /\ (is_Some (sp_error f') -> sp_current f = p -> opens refusals v' p k \/ opens refusals v' (sp_next f) k)).
Proof.
  intros Hrun E. unfold change in E. destruct (String.eqb_spec (sp_next f) (sp_confirmation f)) as [Hc|Hc]; cbn [negb] in E.
  - unfold catchM, mbind, M_bind, liftR in E. destruct (changePassphrase (sp_current f) (sp_next f) v) as [[[]|e] v1] eqn:E1.
    + assert (sp_current f = p -> opens refusals v1 (sp_next f) k) as Hnew.
      { intros Hp. rewrite Hp in E1. apply run_opens. by eapply vr_change. }
      destruct toast as [[]|e]; injection E as <- <-; (eexists; split; [reflexivity|split; [done|intros _; cbn]]).
      * split_and!; naive_solver.
      * split_and!; try done. intros _ Hp. right. by apply Hnew.
    + assert (opens refusals v1 p k) as Hold by (apply run_opens; eapply vr_failed; [exact Hrun|apply at_change|exact E1]).
      injection E as <- <-. eexists. split; [reflexivity|]. split; [done|]. intros _. cbn. split_and!; try done. by left.
  - injection E as <- <-. eexists. split; [reflexivity|]. split; [|done]. intros _. split_and!; try done. by apply run_opens.
Qed.

(** * Witnesses *)

Definition usd_account : Account := demo_account "a" "USD" 0 None.
Definition jpy_account : Account := demo_account "y" "JPY" 0 None.
Definition two_accounts : App :=
  set_rows (fun r => <[(EAccounts, "a") := AnAccount usd_account]> (<[(EAccounts, "y") := AnAccount jpy_account]> r)) (demo_device "a").

Lemma two_accounts_inv : accounts_inv two_accounts.
Proof.
  intros id v H. unfold two_accounts in H. cbn [set_rows rows] in H.
  do 2 (apply lookup_insert_Some in H as [[[= <-] <-]|[_ H]]; [by eexists|]). by rewrite lookup_empty in H.
Qed.

Definition blank_page : DataPage := mkDataPage None true None None [] None.
Definition statement : string := "Date,Amount,Payee" ++ String LF  "2024-05-01,-12.50,Bakery".
Definition page_read : DataPage := snd (readCsv statement two_accounts blank_page).

Lemma page_read_run : readCsv statement two_accounts blank_page = (Ok tt, page_read).
Proof. vm_compute. reflexivity. Qed.

Lemma two_accounts_active : active_accounts two_accounts = [usd_account; jpy_account].
Proof. vm_compute. reflexivity. Qed.

Lemma plan_is_for_the_account_shown_witness : plan_for_account page_read two_accounts.
Proof.
  apply (plan_is_for_the_account_shown two_accounts blank_page page_read two_accounts_inv); [by rewrite two_accounts_active|].
  left. exists statement. split; [exact page_read_run|vm_compute; reflexivity].
Defined.

(** Choosing another account keeps the plan, so 12.50 dollars are written as 1250 yen. *)
Lemma changing_the_account_keeps_the_plan :
  let page := chooseAccount "y" page_read in
  let '(r, s) := applyImport page two_accounts in
  r = Ok (clear_page page, Some "Imported 1 transaction(s)")
  /\ map (fun t => (txn_accountId t, txn_currency t, txn_amount t)) (transactions s) = [("y", "JPY", 1250)].
Proof. vm_compute. by split_and!. Qed.

Definition new_words : SecurityForm := mkSecurity false "correct horse" "battery staple" "battery staple" None None.
Definition phone_changed : result SecurityForm * Vault bool := change (Ok tt) new_words phone_a.

Lemma passphrase_form_outcome_witness : opens false (snd phone_changed) "battery staple" false.
Proof.
  destruct (passphrase_form_outcome false phone_a "correct horse" false (Ok tt) new_words (fst phone_changed) (snd phone_changed) phone_a_run
    (surjective_pairing phone_changed)) as (f' & Hf & _ & Hu).
  assert (fst phone_changed = Ok (mkSecurity false "" "" "" None None)) as E by (vm_compute; reflexivity).
  rewrite E in Hf. injection Hf as <-. exact (proj1 (proj2 (proj2 (proj2 (Hu eq_refl)))) eq_refl eq_refl).
Defined.

(** A toast that cannot be shown turns a change that was made into an error. *)
Lemma a_failed_toast_hides_the_change :
  let m := change (Throw (JsError "No overlay")) new_words phone_a in
  fst m = Ok (mkSecurity false "" "" "" (Some "No overlay") None)
  /\ fst (Vault.unlock "battery staple" (snd m)) = Ok tt /\ fst (Vault.unlock "correct horse" (snd m)) <> Ok tt.
Proof. split_and!; [vm_compute; reflexivity|vm_compute; reflexivity|vm_compute; discriminate]. Qed.

(** A file of the first phone's vault, read on that phone and on a stranger's. *)
Definition other_vault : VaultSession bool := mkSession true (Some false) (Some "vault-2") (Some "phone").

Lemma refused_elsewhere payload : backup_of other_vault demo_contents payload <-> False.
Proof. rewrite -inspect_accepts_exactly. split; [|done]. vm_compute. discriminate. Qed.

Lemma only_this_vaults_backups_are_restored_witness :
  (exists payload, backup_of demo_vault demo_contents payload) /\ forall payload, ~ backup_of other_vault demo_contents payload.
Proof.
  pose proof (only_this_vaults_backups_are_restored demo_vault demo_contents false blank_page (mkShelf demoA1 ∅ ∅) _ _
    (surjective_pairing _)) as [(payload & H & _)|(H & _)]; cycle 1.
  { by destruct (H demo_payload (proj1 (inspect_accepts_exactly _ _ _) demo_inspect_run)). }
  split; [by exists payload|].
  pose proof (only_this_vaults_backups_are_restored other_vault demo_contents true blank_page (mkShelf demoA1 ∅ ∅) _ _
    (surjective_pairing _)) as [(payload' & Hp & _)|(Hn & _)]; [|exact Hn].
  by destruct (proj1 (refused_elsewhere payload') Hp).
Defined.
