(* ===== verification/Screens.v ===== *)
(** What the lists and summaries show and what their buttons do: accounts and groups
    ([features/accounts/accounts.page.ts], [groups.page.ts]), the summary
    ([features/dashboard/dashboard.page.ts]), reports ([features/reports/reports.page.ts]),
    budgets, categories, rules, transactions ([features/budgets/budgets.page.ts],
    [categories/categories.page.ts], [categories/category-picker.component.ts],
    [recurring/rules.page.ts], [transactions/transactions.page.ts]) and the settings' own
    lines ([settings/settings.page.ts], [settings/totals.page.ts]).  An alert that asks to
    confirm is a boolean, whether the user confirms; the months of a locale are a parameter. *)
From S2P Require Export Editors Csv Reports SyncTarget.
From S2P Require Import Sync.
#[local] Open Scope string_scope.
#[local] Open Scope Z_scope.

(** * Definitions *)

(** ** accounts.page.ts *)

(** The sections of the screen, and of the summary, from the ledger. *)
Definition sections `{!Locale} (today : string) (s : App) : result (list AccountSection) :=
  buildSections (mkInput (active_accounts s) (active_groups s) (balances s) (reportingCurrency s) (fun currency => rateToReporting currency today s)).

Definition archived_accounts (s : App) : list Account := List.filter acc_archived (all_accounts s).

(** The halves of the balance sheet, with their totals. *)
Definition halves (sections : list AccountSection) : list (BalanceSheetSide * Minor * list AccountSection) :=
  let sheet := balanceSheet sections in
  let half side := List.filter (fun sec => match sec_side sec, side with Asset, Asset | Liability, Liability => true | _, _ => false end) sections in
  [(Asset, bs_assets sheet, half Asset); (Liability, bs_liabilities sheet, half Liability)].

(** The line under a name; [formatMoney] and [formatDueDate] are the locale's. *)
Definition subtitle (formatMoney : Minor -> string -> string) (formatDueDate : string -> string) (kind_name : AccountKind -> string)
    (today : string) (account : Account) (sec : AccountSection) (s : App) : result string :=
  if negb (sec_owed sec) then Ok (kind_name (acc_kind account))
  else
    let credit := match availableCredit (account_balance account s) (acc_creditLimit account) with
                  | Some available => [formatMoney available (acc_currency account) ++ " available"]
                  | None => []
                  end in
    due ← match acc_dueDay account, acc_statementDay account with
          | Some dueDay, Some statementDay =>
              closed ← lastStatementDate statementDay today;
              due ← dueDateFor dueDay closed;
              mret ["due " ++ formatDueDate due]
          | _, _ => mret []
          end;
    mret (match (credit ++ due)%list with [] => kind_name (acc_kind account) | parts => JsString.join " · " parts end).

Definition payable (account : Account) (sec : AccountSection) (s : App) : bool :=
  sec_owed sec && (account_balance account s <? 0) && isCreditCard account s.
Definition shown (account : Account) (sec : AccountSection) (s : App) : Minor := displayBalance (account_balance account s) (sec_owed sec).
Definition alarming (account : Account) (sec : AccountSection) (s : App) : bool := negb (sec_owed sec) && (account_balance account s <? 0).

(** The balance in the reporting currency, unless it is in it already or no rate is known. *)
Definition converted_balance (today : string) (account : Account) (s : App) : result (option Minor) :=
  let reporting := reportingCurrency s in
  if String.eqb (toUpperCase (acc_currency account)) (toUpperCase reporting) then Ok None
  else
    rate ← rateToReporting (acc_currency account) today s;
    match rate with
    | None => Ok None
    | Some rate => Some <$> convert (account_balance account s) rate (acc_currency account) reporting
    end.

(** The question asked of the person: the history is counted now, and it is what the count
    was then that decides what confirming does later. *)
Inductive AccountAlert : Type := ArchiveInstead (message : string) | DeleteAccount (message : string).
Definition confirmDelete_account (account : Account) : M App AccountAlert :=
  s ← getS;
  let count := account_transactionCount (acc_id account) s in
  if (0 <? count)%nat
  then mret (ArchiveInstead (acc_name account ++ " has " ++ num_to_string (Z.of_nat count)
         ++ " transaction(s). Deleting it would leave them without an account. Archive it to hide it from the lists while keeping its history."))
  else mret (DeleteAccount (acc_name account ++ " will be removed from every device you sync with.")).

(** The handler of the button that is not Cancel. *)
Definition confirmed_account (alert : AccountAlert) (account : Account) : M App unit :=
  match alert with
  | ArchiveInstead _ => setArchived (acc_id account) true
  | DeleteAccount _ => remove_account (acc_id account)
  end.

(** ** groups.page.ts *)

(** [ids.splice(from, 1)], then the one moved back in at [to]. *)
Definition splice_move {A} (from to : nat) (ids : list A) : list A :=
  match ids !! from with
  | Some moved => let rest := (take from ids ++ drop (S from) ids)%list in (take to rest ++ moved :: drop to rest)%list
  | None => ids
  end.

Definition reorder_groups `{!Locale} (from to : nat) : M App unit :=
  s ← getS; reorder (splice_move from to (map ag_id (active_groups s))).

Definition archived_groups `{!Locale} (s : App) : list AccountGroup := List.filter ag_archived (ordered_groups s).

Definition labelFor_group (group : AccountGroup) : string :=
  match ag_type group with GDefault => "Default" | GCreditCard => "Credit card" | GDebitCard => "Debit card" | GLoan => "Loan" end.

Definition accounts_noun (count : Z) : string := if count =? 1 then "1 account" else num_to_string count ++ " accounts".
Definition countIn (group : AccountGroup) (s : App) : string := accounts_noun (Z.of_nat (length (accountsIn (ag_id group) s))).

(** What deleting a group is said to do, and what it does. *)
Definition group_consequence (group : AccountGroup) (s : App) : string :=
  let count := Z.of_nat (length (accountsIn (ag_id group) s)) in
  if count =? 0 then "It has no accounts in it."
  else "Its " ++ (if count =? 1 then "account" else num_to_string count ++ " accounts") ++ " will be kept and left ungrouped.".
Definition confirmDelete_group (group : AccountGroup) (confirms : bool) : M App unit :=
  if confirms then remove_group (ag_id group) else mret tt.

(** ** dashboard.page.ts *)

Definition unconvertedAccounts (today : string) (s : App) : result (list string) := nw_unconverted <$> netWorthDetail today s.
Definition recent (f : TransactionFilter) (s : App) : list Transaction := take 5 (visible f s).


Definition dueIn (today date : string) : result string :=
  days ← daysBetween today date;
  mret (if days <=? 0 then "due today" else if days =? 1 then "due tomorrow" else "due in " ++ num_to_string days ++ " days").

Definition headline (statuses : list BudgetStatus) : list BudgetStatus :=
  take 3 (List.filter (fun st => bool_decide (is_Some (bst_progress st))) (byUrgency statuses)).

Definition viewAllLabel (statuses : list BudgetStatus) : string :=
  let over := Z.of_nat (length (overspent statuses)) in
  if (length (headline statuses) <? length statuses)%nat then "View all " ++ num_to_string (Z.of_nat (length statuses)) ++ " budgets"
  else if 0 <? over then (if over =? 1 then "1 budget over its limit" else num_to_string over ++ " budgets over their limit")
  else "All budgets within their limits".

Record TopCategory : Type := mkTop { tc_categoryId : string; tc_amount : Minor; tc_name : string; tc_colour : string; tc_share : Z }.

(** [Math.round((amount / largest) * 100)] *)
Definition bar_share (amount largest : Minor) : result Z :=
  match js_round (f_mul (f_div (f_of_Z amount) (f_of_Z largest)) (f_of_Z 100)) with
  | Some z => Ok z
  | None => Throw (OutsideModel "a share that is not finite")
  end.

Definition topCategories (f : TransactionFilter) (s : App) : result (list TopCategory) :=
  spend ← txn_spendByCategory f s;
  let rows := take 5 spend in
  let largest := match rows with (_, amount) :: _ => amount | [] => 1 end in
  mapM (fun row : string * Z =>
    share ← bar_share row.2 largest;
    let category := category_byId (Some row.1) s in
    mret (mkTop row.1 row.2 (match category with Some c => cat_name c | None => "Uncategorised" end)
            (match category with Some c => cat_colour c | None => "var(--ion-color-medium)" end) share)) rows.

(** ** reports.page.ts *)

(** The file of the report; [labelFor] is the localised name of a month. *)
Definition report_table (labelFor : string -> string) (data : ReportData) (s : App) : CsvTable :=
  let amount a := CsvText (formatAmount a (rd_currency data)) in
  mkTable ["Section"; "Item"; "Amount (" ++ rd_currency data ++ ")"; "Count"]
    (map (fun row => [CsvText "Category"; CsvText (nameFor (ct_categoryId row) s); amount (ct_amount row); CsvNumber (ct_count row)]) (rd_categories data)
     ++ flat_map (fun row => [[CsvText "Income"; CsvText (labelFor (fl_month row)); amount (fl_income row); CsvText ""];
                              [CsvText "Expense"; CsvText (labelFor (fl_month row)); amount (fl_expense row); CsvText ""]]) (rd_flow data)
     ++ map (fun point => [CsvText "Net worth"; CsvText (np_date point); amount (np_amount point); CsvText ""]) (rd_netWorth data)
     ++ map (fun payee => [CsvText "Payee"; CsvText (pt_payee payee); amount (pt_amount payee); CsvNumber (pt_count payee)]) (rd_payees data))%list.
Definition exportCsv (labelFor : string -> string) (data : ReportData) (s : App) : string * string :=
  (csvFilename "easy-docket-report" (rd_range data), toCsv (report_table labelFor data s)).

(** ** category-picker.component.ts *)

Record Picker : Type := mkPicker { pk_selected : option string; pk_expanded : option string; pk_picked : list string; pk_dismissed : bool }.

Definition hasChildren (node : CategoryNode) (s : App) : bool := subcategoriesEnabled s && (0 <? length (node_children node))%nat.

(** The effect on a selection only ever opens. *)
Definition selection_changed (selected : option string) (p : Picker) (s : App) : Picker :=
  mkPicker selected
    (match category_byId selected s with
     | Some c => match truthy_opt (cat_parentId c) with Some parent => Some parent | None => pk_expanded p end
     | None => pk_expanded p
     end) (pk_picked p) (pk_dismissed p).

Definition choose (node : CategoryNode) (p : Picker) (s : App) : Picker :=
  let id := cat_id (node_category node) in
  let picked := (pk_picked p ++ [id])%list in
  if negb (hasChildren node s) then mkPicker (pk_selected p) (pk_expanded p) picked true
  else mkPicker (pk_selected p) (if bool_decide (pk_expanded p = Some id) then None else Some id) picked (pk_dismissed p).

Definition pick (child : Category) (p : Picker) : Picker :=
  mkPicker (pk_selected p) (pk_expanded p) (pk_picked p ++ [cat_id child])%list true.

(** ** categories.page.ts *)

Definition kind_of_route (forKind : option CategoryKind) (route : option string) : CategoryKind :=
  match forKind with
  | Some kind => kind
  | None => if bool_decide (route = Some "income") then CIncome else CExpense
  end.
Definition anyChildren `{!Locale} (kind : CategoryKind) (s : App) : bool :=
  existsb (fun node => (0 <? length (node_children node))%nat) (category_tree kind s).
Definition archived_categories (kind : CategoryKind) (s : App) : list Category :=
  List.filter (fun c => cat_archived c && bool_decide (cat_kind c = kind)) (all_categories s).

Definition countOf (node : CategoryNode) (s : App) : string :=
  if hasChildren node s then " (" ++ num_to_string (Z.of_nat (length (node_children node))) ++ ")" else "".
Definition preview_children (node : CategoryNode) (s : App) : string :=
  if negb (hasChildren node s) then ""
  else
    let names := map cat_name (node_children node) in
    let shown := JsString.join ", " (take 4 names) in
    if (4 <? length names)%nat then shown ++ "…" else shown.

(** What is said before deleting, and the deletion. *)
Definition delete_warning (node : CategoryNode) (s : App) : string :=
  let children := Z.of_nat (length (node_children node)) in
  let count := Z.of_nat (category_transactionCount (cat_id (node_category node)) s) in
  let filed := if 0 <? count then num_to_string count ++ " transaction(s) are filed under it. They will be kept, but will no longer have a category."
               else "No transactions are filed under it." in
  JsString.join " "
    (if 0 <? children then ["Its " ++ num_to_string children ++ " subcategor" ++ (if children =? 1 then "y" else "ies") ++ " go too."; filed]
     else [filed]).
Definition confirmDelete_category (node : CategoryNode) (confirms : bool) : M App unit :=
  if confirms then remove_category (cat_id (node_category node)) else mret tt.

(** ** budgets.page.ts *)

(** [describeWindow] writes the window in the locale's words. *)
Definition describe (describeWindow : BudgetPeriod -> BudgetWindow -> string) (st : BudgetStatus) : string :=
  match bst_progress st with
  | Some progress => describeWindow (bud_period (bst_budget st)) (bp_window progress)
  | None => "Starts " ++ bud_startDate (bst_budget st)
  end.
Definition archived_budgets `{!Locale} (s : App) : list Budget := List.filter bud_archived (all_budgets s).
Definition toggleArchive_budget (budget : Budget) : M App unit := setArchived_budget (bud_id budget) (negb (bud_archived budget)).

(** The message of the alert, if pruning refuses. *)
Definition fix_budget (st : BudgetStatus) : M App (option string) :=
  catchM (_ ← pruneStaleCategories (bud_id (bst_budget st)); mret None) (fun error => mret (Some (exn_message error))).
Definition confirmDelete_budget (budget : Budget) (confirms : bool) : M App unit :=
  if confirms then remove_budget (bud_id budget) else mret tt.

(** ** rules.page.ts *)

Definition unit_name (unit : RecurrenceUnit) : string :=
  match unit with UDay => "day" | UWeek => "week" | UMonth => "month" | UYear => "year" end.
Definition cadence (rule : RecurringRule) : string :=
  if rule_interval rule =? 1 then "every " ++ unit_name (rule_unit rule)
  else "every " ++ num_to_string (rule_interval rule) ++ " " ++ unit_name (rule_unit rule) ++ "s".
Definition dueText (st : RuleStatus) : string := match rs_next st with Some next => "next " ++ next | None => "finished" end.
Definition skip_next (st : RuleStatus) : M App unit :=
  match rs_next st with Some next => skip (rule_id (rs_rule st)) next | None => mret tt end.
Definition toggleArchive_rule (rule : RecurringRule) : M App unit := setArchived_rule (rule_id rule) (negb (rule_archived rule)).
Definition confirmDelete_rule (rule : RecurringRule) (confirms : bool) : M App unit :=
  if confirms then remove_rule (rule_id rule) else mret tt.

(** ** transactions.page.ts *)

Definition list_currency (s : App) : string := match head (active_accounts s) with Some a => acc_currency a | None => "USD" end.
Definition shift_months (delta : Z) (f : TransactionFilter) : result TransactionFilter :=
  range ← shiftMonth (f_range f) delta; mret (setRange range f).
Definition name_or (otherwise : string) (name : option string) : string := default otherwise name.
Definition txn_label (txn : Transaction) (s : App) : string :=
  match txn_kind txn with
  | Transfer => "Transfer"
  | _ => name_or "Untitled" (cat_name <$> category_byId (txn_categoryId txn) s)
  end.
Definition txn_subtitle (txn : Transaction) (s : App) : string :=
  let account := name_or "Unknown account" (acc_name <$> account_byId (txn_accountId txn) s) in
  match txn_kind txn with
  | Transfer => account ++ " → " ++ name_or "Unknown" (acc_name <$> account_byId (default "" (txn_counterAccountId txn)) s)
  | _ => name_or "Uncategorised" (cat_name <$> category_byId (txn_categoryId txn) s) ++ " · " ++ account
  end.
Definition txn_sign (txn : Transaction) : string := match txn_kind txn with Income => "+" | Expense => "−" | Transfer => "" end.

(** ** totals.page.ts, settings.page.ts *)

Definition totals_rows `{!Locale} (s : App) : list (Account * bool * string) :=
  map (fun account => (account, countsInTotals account, name_or "Not in a group" (ag_name <$> group_byId (acc_groupId account) s))) (active_accounts s).

Definition categorySummary `{!Locale} (kind : CategoryKind) (s : App) : string :=
  let tree := category_tree kind s in
  let children := fold_left (fun sum node => sum + Z.of_nat (length (node_children node))) tree 0 in
  let n := Z.of_nat (length tree) in
  let parents := num_to_string n ++ " categor" ++ (if n =? 1 then "y" else "ies") in
  if (children =? 0) || negb (subcategoriesEnabled s) then parents
  else parents ++ ", " ++ num_to_string children ++ " subcategor" ++ (if children =? 1 then "y" else "ies").

Definition countedSummary (s : App) : string :=
  let active := Z.of_nat (length (active_accounts s)) in
  let counts := Z.of_nat (length (counted s)) in
  let noun := if active =? 1 then "account" else "accounts" in
  if counts =? active then "All " ++ num_to_string active ++ " " ++ noun
  else num_to_string counts ++ " of " ++ num_to_string active ++ " " ++ noun.

Definition targetLabel (settings : SyncSettings) : string :=
  match ss_target settings with
  | ServerTarget _ endpoint _ => endpoint
  | S3Target _ bucket _ _ _ _ _ _ => "S3 · " ++ bucket
  | GitTarget _ repoUrl _ _ _ _ _ _ => "Git · " ++ repoUrl
  | NoneTarget _ => "Not configured — this device only"
  end.

(** [localTime] is the locale's writing of an instant. *)
Definition syncSummary (localTime : Z -> string) (status : SyncStatus) : string :=
  match st_state status, st_lastSyncAt status with
  | SyncError, _ => "Last attempt failed: " ++ default "null" (st_lastError status)
  | _, None => "Never synced"
  | _, Some when =>
      if when =? 0 then "Never synced"
      else if (0 <? st_pending status)%nat
      then "Last synced " ++ localTime when ++ " · " ++ num_to_string (Z.of_nat (st_pending status)) ++ " change(s) waiting"
      else "Last synced " ++ localTime when ++ " · up to date"
  end.

(** * Specification *)

(** Every transaction is against accounts there are, a transfer on both sides. *)
Definition has_account (id : string) (s : App) : Prop := is_Some (get_account id s).
Definition no_orphans (s : App) : Prop :=
  forall t, t ∈ transactions s -> has_account (txn_accountId t) s /\ forall c, txn_counterAccountId t = Some c -> has_account c s.

(** Some transaction names the account, on either side. *)
Definition in_use (id : string) (s : App) : Prop :=
  exists t, t ∈ transactions s /\ (txn_accountId t = id \/ txn_counterAccountId t = Some id).

(** * Lemmas *)

Lemma filter_empty {A} (p : A -> bool) l x : length (List.filter p l) = 0%nat -> x ∈ l -> p x = false.
Proof.
  intros H%nil_length_inv Hx. destruct (p x) eqn:E; [|done]. apply list_elem_of_In in Hx.
  pose proof (proj2 (filter_In p x l) (conj Hx E)) as Hin. by rewrite H in Hin.
Qed.

(** An account nothing counts is on neither side of any transaction. *)
Lemma uncounted_account id s t :
  account_transactionCount id s = 0%nat -> t ∈ transactions s -> txn_accountId t <> id /\ txn_counterAccountId t <> Some id.
Proof.
  unfold account_transactionCount. intros [H1 H2]%Nat.eq_add_0 Ht. split.
  - apply String.eqb_neq. exact (filter_empty _ _ t H1 Ht).
  - pose proof (filter_empty _ _ t H2 Ht) as H. cbn beta in H. by apply bool_decide_eq_false in H.
Qed.

Lemma count_in_use id s : (0 < account_transactionCount id s)%nat <-> in_use id s.
Proof.
  split.
  - unfold account_transactionCount. destruct (List.filter (fun t => String.eqb (txn_accountId t) id) (transactions s)) as [|t l] eqn:E1.
    + destruct (List.filter (fun t => bool_decide (txn_counterAccountId t = Some id)) (transactions s)) as [|t l] eqn:E2; [cbn; lia|intros _].
      exists t. assert (t ∈ t :: l) as Hin by constructor. rewrite -E2 in Hin. apply list_elem_of_In, filter_In in Hin as [Hin Hb].
      split; [by apply list_elem_of_In|right]. by apply bool_decide_eq_true_1 in Hb.
    + intros _. exists t. assert (t ∈ t :: l) as Hin by constructor. rewrite -E1 in Hin. apply list_elem_of_In, filter_In in Hin as [Hin Hb].
      split; [by apply list_elem_of_In|left; by apply String.eqb_eq].
  - intros (t & Ht & Hn). destruct (account_transactionCount id s) eqn:E; [|lia].
    destruct (uncounted_account id s t E Ht) as [H1 H2]. by destruct Hn.
Qed.

(** What archiving does to the rows. *)
Lemma archived_rows id s s' : setArchived id true s = (Ok tt, s') -> accounts_inv s ->
  match get_account id s with
  | None => rows s' = rows s
  | Some a => exists stamp, rows s' = <[(EAccounts, id) := set_updatedAt stamp (AnAccount (set_acc_archived true a))]> (rows s)
  end.
Proof.
  unfold setArchived, update_account. intros E Hinv. destruct (get_account id s) as [a|] eqn:Ea; [|by injection E as <-].
  apply M_bind_Ok_inv in E as (v & s1 & [Hv Hr]%put_rows & [= <-]). exists (entity_updatedAt v). rewrite Hr -Hv.
  assert (entity_id (AnAccount (set_acc_archived true a)) = id) as ->; [|done].
  unfold get_account, get_of, table_get in Ea. destruct (rows s !! (EAccounts, id)) as [w|] eqn:Ew; [|done].
  destruct (Hinv id w Ew) as (a' & -> & Hid & _). injection Ea as <-. by destruct a'.
Qed.

Lemma transactions_ext s s' : (forall id, rows s' !! (ETransactions, id) = rows s !! (ETransactions, id)) -> forall t, t ∈ transactions s' -> t ∈ transactions s.
Proof.
  intros H t. unfold transactions. rewrite !elem_of_table_of. intros (id & v & Hv & Ht). exists id, v. by rewrite -H.
Qed.

Lemma splice_move_perm {A} from to (ids : list A) : splice_move from to ids ≡ₚ ids.
Proof.
  unfold splice_move. destruct (ids !! from) as [moved|] eqn:E; [|done].
  rewrite -Permutation_middle take_drop Permutation_middle. by rewrite take_drop_middle.
Qed.

Lemma splice_move_lookup {A} from to (ids : list A) moved :
  ids !! from = Some moved -> (to < length ids)%nat -> splice_move from to ids !! to = Some moved.
Proof.
  intros E Hto. unfold splice_move. rewrite E. set (rest := (take from ids ++ drop (S from) ids)%list).
  assert (length rest = length ids - 1)%nat as Hl.
  { unfold rest. rewrite length_app length_take length_drop. apply lookup_lt_Some in E. lia. }
  rewrite lookup_app_r; rewrite length_take; [|lia]. by replace (to - to `min` length rest)%nat with 0%nat by lia.
Qed.

Lemma has_account_delete id i s s' : rows s' = delete (EAccounts, id) (rows s) -> i <> id -> has_account i s -> has_account i s'.
Proof.
  intros Hr Hi. unfold has_account, get_account, get_of, table_get. by rewrite Hr lookup_delete_ne; [|congruence].
Qed.

Lemma has_account_insert id v i s s' :
  rows s' = <[(EAccounts, id) := v]> (rows s) -> is_Some (as_account v) -> has_account i s -> has_account i s'.
Proof.
  intros Hr [a Hv]. unfold has_account, get_account, get_of, table_get. rewrite Hr. destruct (decide (id = i)) as [->|Hi].
  - rewrite lookup_insert_eq. cbn. by rewrite Hv.
  - by rewrite lookup_insert_ne; [|congruence].
Qed.

(** What is left by a change that touches no transaction and no account in use. *)
Lemma no_orphans_mono s s' :
  (forall id, rows s' !! (ETransactions, id) = rows s !! (ETransactions, id)) ->
  (forall t i, t ∈ transactions s -> i = txn_accountId t \/ txn_counterAccountId t = Some i -> has_account i s -> has_account i s') ->
  no_orphans s -> no_orphans s'.
Proof.
  intros Ht Ha H t Hin%(transactions_ext s s' Ht). destruct (H t Hin) as [H1 H2]. split; [|intros c Hc].
  - apply (Ha t); [done|by left|done].
  - apply (Ha t); [done|by right|by apply H2].
Qed.

(** The positions of a list in display order, when every element stands at its own. *)
Lemma sorted_positions (l : list AccountGroup) (ids : list string) :
  NoDup (map ag_id l) -> map ag_id l ≡ₚ ids ->
  StronglySorted (fun a b => ag_order a <= ag_order b) l ->
  (forall g, g ∈ l -> exists i, ids !! i = Some (ag_id g) /\ ag_order g = Z.of_nat i) ->
  map ag_id l = ids.
Proof.
  intros Hnd Hp Hs Hpos. pose (pos g := Z.to_nat (ag_order g)).
  assert (forall g, g ∈ l -> ids !! pos g = Some (ag_id g)) as Hat.
  { intros g (i & Hi & Ho)%Hpos. unfold pos. by rewrite Ho Nat2Z.id. }
  assert (map pos l = seq 0 (length l)) as Hseq.
  { apply (StronglySorted_unique_strong le); [intros; lia| | |].
    - clear Hp. induction Hs as [|g l Hs IH Hg]; [constructor|]. cbn [map]. constructor.
      + apply NoDup_cons in Hnd as [_ Hnd]. apply IH; [done| |]; intros; (apply Hpos || apply Hat); by constructor.
      + apply Forall_map. eapply Forall_impl; [exact Hg|]. intros x Hx. unfold pos. cbn in Hx |- *. lia.
    - clear. generalize 0%nat. induction (length l) as [|n IH]; intros k; [constructor|]. cbn [seq]. constructor; [apply IH|].
      apply Forall_forall. intros x Hx%elem_of_seq. lia.
    - assert (NoDup (map pos l)) as Hndp.
      { apply NoDup_fmap_2_strong; [|by eapply NoDup_fmap_1]. intros x y Hx Hy E.
        apply Hat in Hx as Ix. apply Hat in Hy as Iy. rewrite E Iy in Ix. injection Ix as Ix.
        apply list_elem_of_lookup in Hx as [i Hi], Hy as [j Hj].
        assert (i = j) as ->; [|congruence]. apply (NoDup_lookup (map ag_id l) i j (ag_id x)); [done| |];
          rewrite list_lookup_fmap ?Hi ?Hj; cbn; congruence. }
      apply submseteq_length_Permutation; [|by rewrite length_seq length_map].
      apply NoDup_submseteq; [done|]. intros p (g & -> & Hg)%list_elem_of_fmap. apply elem_of_seq.
      apply Hat, lookup_lt_Some in Hg. rewrite -Hp length_map in Hg. lia. }
  apply list_eq. intros i. rewrite list_lookup_fmap. destruct (l !! i) as [g|] eqn:E; cbn.
  - assert (pos g = i) as Hi.
    { assert (map pos l !! i = Some (pos g)) as H by by rewrite list_lookup_fmap E.
      rewrite Hseq in H. apply lookup_seq in H as [-> _]. done. }
    by rewrite -Hi (Hat g); [|by eapply list_elem_of_lookup_2].
  - symmetry. apply lookup_ge_None. rewrite -Hp length_map. by apply lookup_ge_None.
Qed.

Lemma active_groups_NoDup `{!Locale} s : groups_inv s -> NoDup (map ag_id (active_groups s)).
Proof.
  intros Hgs%groups_NoDup. assert (NoDup (map ag_id (ordered_groups s))) as Hn by (unfold ordered_groups; by rewrite js_sort_perm).
  unfold active_groups. induction (ordered_groups s) as [|g l IH]; [constructor|]. cbn [map List.filter] in *.
  apply NoDup_cons in Hn as [Hg Hn]. destruct (negb (ag_archived g)); [|by apply IH]. cbn [map]. constructor; [|by apply IH].
  intros (x & Hx & Hin)%list_elem_of_fmap. apply Hg. rewrite Hx. apply list_elem_of_fmap. exists x. split; [done|].
  apply list_elem_of_In, filter_In in Hin as [? _]. by apply list_elem_of_In.
Qed.

Lemma elem_of_active_groups `{!Locale} s g : groups_inv s -> g ∈ active_groups s <-> get_group (ag_id g) s = Some g /\ ag_archived g = false.
Proof.
  intros Hinv. unfold active_groups. rewrite list_elem_of_In filter_In -list_elem_of_In negb_true_iff.
  unfold ordered_groups. rewrite elem_of_js_sort elem_of_groups; [|done]. unfold get_group, get_of, table_get.
  split; intros [Hg ?]; (split; [|done]).
  - by rewrite Hg.
  - destruct (rows s !! (EAccountGroups, ag_id g)) as [v|] eqn:E; [|done].
    destruct (Hinv (ag_id g) v E) as (g' & -> & _). by injection Hg as ->.
Qed.

Lemma get_group_id s id g : groups_inv s -> get_group id s = Some g -> ag_id g = id.
Proof.
  intros Hinv. unfold get_group, get_of, table_get. destruct (rows s !! (EAccountGroups, id)) as [v|] eqn:E; [|done].
  destruct (Hinv id v E) as (g' & -> & <- & _). by intros [= ->].
Qed.

(** Writing positions over the active groups leaves exactly those active. *)
Lemma reordered_groups `{!Locale} ids s s' :
  groups_inv s -> ids ≡ₚ map ag_id (active_groups s) -> reorder ids s = (Ok tt, s') ->
  map ag_id (active_groups s') = ids.
Proof.
  intros Hinv Hp E. assert (NoDup ids) as Hnd by (rewrite Hp; by apply active_groups_NoDup).
  destruct (reorder_loop 0 ids s s' Hinv Hnd E) as (Hinv' & Hr & Hg).
  assert (forall id, id ∉ ids -> get_group id s' = get_group id s) as Hsame.
  { intros id Hid. unfold get_group, get_of, table_get. by rewrite Hr; [|right]. }
  assert (forall g', g' ∈ active_groups s' -> exists i, ids !! i = Some (ag_id g') /\ ag_order g' = Z.of_nat i) as Hpos.
  { intros g' [Hg' Ha]%elem_of_active_groups; [|done].
    destruct (decide (ag_id g' ∈ ids)) as [Hin|Hin].
    - apply list_elem_of_lookup in Hin as [i Hi]. exists i. split; [done|].
      assert (ag_id g' ∈ map ag_id (active_groups s)) as (g & Hid & Hgin)%list_elem_of_fmap by (rewrite -Hp; by eapply list_elem_of_lookup_2).
      apply elem_of_active_groups in Hgin as [Hgs _]; [|done]. rewrite -Hid in Hgs.
      destruct (Hg i (ag_id g') g Hi Hgs) as (g2 & Hg2 & Ho & _). rewrite Hg' in Hg2. by injection Hg2 as <-.
    - exfalso. apply Hin. rewrite Hp. apply list_elem_of_fmap. exists g'. split; [done|]. apply elem_of_active_groups; [done|].
      split; [|done]. by rewrite -Hsame. }
  apply sorted_positions; [by apply active_groups_NoDup| | |done].
  - apply NoDup_Permutation; [by apply active_groups_NoDup|done|]. intros id. split.
    + intros (g' & -> & Hg')%list_elem_of_fmap. destruct (Hpos g' Hg') as (i & Hi & _). by eapply list_elem_of_lookup_2.
    + intros Hin. apply list_elem_of_lookup in Hin as [i Hi] .
      assert (id ∈ map ag_id (active_groups s)) as (g & Hid & Hgin)%list_elem_of_fmap by (rewrite -Hp; by eapply list_elem_of_lookup_2).
      apply elem_of_active_groups in Hgin as [Hgs Ha]; [|done]. rewrite -Hid in Hgs.
      destruct (Hg i id g Hi Hgs) as (g2 & Hg2 & _ & [_ Ha2] & _). apply list_elem_of_fmap. exists g2.
      pose proof (get_group_id s' id g2 Hinv' Hg2) as Hid2. split; [done|]. apply elem_of_active_groups; [done|].
      rewrite Hid2. split; [done|congruence].
  - unfold active_groups. apply StronglySorted_filter. eapply StronglySorted_mono; [|apply js_sort_sorted, _].
    intros x y Hle. unfold compareGroups, cmp_or in Hle. cbn beta in Hle. case_match; lia.
Qed.

(** Writing an account orphans nothing. *)
Lemma no_orphans_account id s s' :
  rows s' = rows s \/ (exists a, rows s' = <[(EAccounts, id) := AnAccount a]> (rows s)) -> no_orphans s -> no_orphans s'.
Proof.
  intros [Hr|[a Hr]]; (eapply no_orphans_mono; [intros i; by rewrite Hr ?lookup_insert_ne|]); intros t i _ _.
  - unfold has_account, get_account, get_of, table_get. by rewrite Hr.
  - apply (has_account_insert id (AnAccount a) i s s' Hr). by eexists.
Qed.

(** * Properties *)

(** C28: Deleting an account on the accounts screen orphans no transaction.  If none named the
    account when the question was asked, and none came to before it was answered, confirming
    removes that one row and leaves no transaction without its account.  If one named it, on
    either side, confirming only archives it: the row stays as it was but for that flag and
    its stamp.  No other row changes in either case. *)
Theorem deleting_an_account_orphans_nothing account s alert s0 s1 s2 :
  confirmDelete_account account s = (Ok alert, s0) ->
  (in_use (acc_id account) s1 -> in_use (acc_id account) s) -> accounts_inv s1 -> no_orphans s1 ->
  confirmed_account alert account s1 = (Ok tt, s2) ->
  s0 = s /\ no_orphans s2
  /\ (forall place, place <> (EAccounts, acc_id account) -> rows s2 !! place = rows s1 !! place)
  /\ (in_use (acc_id account) s ->
      (exists message, alert = ArchiveInstead message)
      /\ forall a, get_account (acc_id account) s1 = Some a ->
           exists stamp, rows s2 !! (EAccounts, acc_id account) = Some (set_updatedAt stamp (AnAccount (set_acc_archived true a))))
  /\ (~ in_use (acc_id account) s ->
      (exists message, alert = DeleteAccount message) /\ rows s2 !! (EAccounts, acc_id account) = None).
Proof.
  intros (s' & s3 & [= <- <-] & E)%M_bind_Ok_inv Hlater Hinv Hok. cbv zeta in E.
  destruct (Nat.ltb_spec 0 (account_transactionCount (acc_id account) s)) as [Hn|Hn]; injection E as <- <-; cbn [confirmed_account].
  - intros E%archived_rows; [|done]. apply count_in_use in Hn.
    assert (rows s2 = rows s1 \/ exists a, rows s2 = <[(EAccounts, acc_id account) := AnAccount a]> (rows s1)) as Hr.
    { destruct (get_account _ s1); [right|by left]. destruct E as [stamp E]. rewrite E. destruct (set_acc_archived true a). by eexists. }
    split_and!; [done|by eapply no_orphans_account| | |done].
    + intros place Hp. destruct Hr as [->|[a ->]]; [done|by rewrite lookup_insert_ne].
    + intros _. split; [by eexists|]. intros a Ha. rewrite Ha in E. destruct E as [stamp ->]. exists stamp. apply lookup_insert_eq.
  - intros E%remove_rows. assert (~ in_use (acc_id account) s) as Hfree by (rewrite -count_in_use; lia).
    split_and!; [done| |intros place Hp; by rewrite E lookup_delete_ne|done|].
    + eapply no_orphans_mono; [intros id; rewrite E; by rewrite lookup_delete_ne| |done].
      intros t i Ht Hi. eapply has_account_delete; [exact E|]. intros ->. apply Hfree, Hlater. exists t. split; [done|]. naive_solver.
    + intros _. split; [by eexists|]. rewrite E. apply lookup_delete_eq.
Qed.

(** dragging a group puts the list in the order it was dropped in: after the writes the
    groups listed are the ones listed before, the one dragged at the place it was dropped
    and the others in the order they had. *)
Theorem dragging_orders_the_list `{!Locale} from to s s' :
  groups_inv s -> (from < length (active_groups s))%nat -> (to < length (active_groups s))%nat ->
  reorder_groups from to s = (Ok tt, s') ->
  map ag_id (active_groups s') = splice_move from to (map ag_id (active_groups s))
  /\ ag_id <$> active_groups s' !! to = ag_id <$> active_groups s !! from.
Proof.
  intros Hinv Hf Ht. unfold reorder_groups. intros (s0 & s1 & [= <- <-] & E)%M_bind_Ok_inv.
  pose proof (reordered_groups _ s s' Hinv (splice_move_perm from to _) E) as Hids. split; [done|].
  rewrite -!list_lookup_fmap. change (@fmap list _ AccountGroup string ag_id) with (map ag_id). rewrite Hids.
  destruct (map ag_id (active_groups s) !! from) as [moved|] eqn:Em.
  - apply splice_move_lookup; [done|by rewrite length_map].
  - apply lookup_ge_None in Em. rewrite length_map in Em. lia.
Qed.

(** * Witnesses *)

(** Accounts "a" and "c" with transactions on them, and "b" with none. *)
Definition unused_account : Account := demo_account "b" "USD" 0 None.
Definition used_account : Account := demo_account "c" "usd" 0 (Some "cards").
Definition bank : App := snd (put EAccounts (AnAccount unused_account) demo_bank).
Definition asked (account : Account) (s : App) : AccountAlert :=
  match fst (confirmDelete_account account s) with Ok alert => alert | Throw _ => DeleteAccount "" end.
Definition answered (alert : AccountAlert) (account : Account) (s : App) : App := snd (confirmed_account alert account s).

Lemma bank_rows : exists a, rows bank = <[(EAccounts, "b") := AnAccount a]> (rows demo_bank) /\ acc_id a = "b".
Proof.
  assert (is_Some (match fst (put EAccounts (AnAccount unused_account) demo_bank) with Ok v => Some v | Throw _ => None end)) as [w Hw]
    by (vm_compute; eauto).
  unfold bank. destruct (put _ _ _) as [[v|e] s'] eqn:E; [|done]. apply put_rows in E as [-> E].
  exists (match set_updatedAt (entity_updatedAt v) (AnAccount unused_account) with AnAccount a => a | _ => unused_account end).
  by split.
Qed.

Lemma bank_inv : accounts_inv bank.
Proof.
  destruct bank_rows as (a & E & Ha). intros id v. rewrite E.
  intros [[[= <-] <-]|[_ H]]%lookup_insert_Some; [by exists a|by apply demo_bank_inv].
Qed.

Lemma bank_no_orphans : no_orphans bank.
Proof.
  destruct bank_rows as (a & E & _). apply (no_orphans_account "b" demo_bank); [right; by exists a|].
  intros t Ht. assert (Forall (fun t => has_account (txn_accountId t) demo_bank
    /\ forall c, txn_counterAccountId t = Some c -> has_account c demo_bank) (transactions demo_bank)) as H.
  { assert (transactions demo_bank = [demo_txn "1" Income 500 "a" None; demo_txn "2" Expense 300 "c" None; demo_txn "3" Transfer 100 "a" (Some "c")])
      as -> by (vm_compute; reflexivity).
    repeat constructor; try (vm_compute; eauto); intros c [= <-]; vm_compute; eauto. }
  rewrite ->Forall_forall in H. by apply H.
Qed.

Lemma deleting_an_account_orphans_nothing_witness :
  no_orphans (answered (asked unused_account bank) unused_account bank)
  /\ get_account "b" (answered (asked unused_account bank) unused_account bank) = None
  /\ exists stamp, rows (answered (asked used_account bank) used_account bank) !! (EAccounts, "c")
       = Some (set_updatedAt stamp (AnAccount (set_acc_archived true used_account))).
Proof.
  assert (forall account, confirmDelete_account account bank = (Ok (asked account bank), bank)) as Easked.
  { intros account. unfold asked, confirmDelete_account, mbind, M_bind, getS. by destruct (_ <? _)%nat. }
  assert (forall account, confirmed_account (asked account bank) account bank = (Ok tt, answered (asked account bank) account bank) ->
    _) as H by (intros account; exact (deleting_an_account_orphans_nothing account bank (asked account bank) bank bank
      (answered (asked account bank) account bank) (Easked account) (fun H => H) bank_inv bank_no_orphans)).
  destruct (H unused_account ltac:(vm_compute; reflexivity)) as (_ & H1 & _ & _ & H2).
  destruct (H used_account ltac:(vm_compute; reflexivity)) as (_ & _ & _ & H3 & _).
  split; [exact H1|]. split.
  - unfold get_account, get_of, table_get. rewrite (proj2 (H2 _)) //. rewrite -count_in_use. vm_compute. intros Hn. inversion Hn.
  - refine (proj2 (H3 _) used_account _); [|vm_compute; reflexivity]. apply count_in_use. vm_compute. apply le_n_S, Nat.le_0_l.
Defined.

(** A transaction that is written between the question and the answer, here by a cycle that
    downloads it, is not looked for: it is left without its account. *)
Definition spent_meanwhile : App := snd (put ETransactions (ATransaction (demo_txn "4" Expense 700 "b" None)) bank).

Lemma a_transaction_can_slip_in :
  let s2 := answered (asked unused_account bank) unused_account spent_meanwhile in
  get_account "b" s2 = None /\ map txn_accountId (List.filter (fun t => String.eqb (txn_id t) "4") (transactions s2)) = ["b"].
Proof. split; vm_compute; reflexivity. Qed.

(** A rule that posts to the account is not counted: deleting the account lets the rule
    go on writing transactions without one. *)
Definition rule_account : Account := demo_account "acc" "USD" 0 None.
Definition account_deleted : App := answered (asked rule_account rule_ledger) rule_account rule_ledger.

Lemma a_rule_outlives_its_account :
  let '(r, s) := run "2026-04-30" 500 account_deleted in
  r = Ok (mkMatResult 4 []) /\ map txn_accountId (transactions s) = ["acc"; "acc"; "acc"; "acc"] /\ get_account "acc" s = None.
Proof. vm_compute. by split_and!. Qed.

#[local] Existing Instance codeunit_locale.

Definition groups_dragged : App := snd (reorder_groups 1 0 demo_grouped).

Lemma groups_dragged_run : reorder_groups 1 0 demo_grouped = (Ok tt, groups_dragged).
Proof. vm_compute. reflexivity. Qed.

Lemma demo_grouped_active : map ag_id (active_groups demo_grouped) = ["cards"; "b"].
Proof. vm_compute. reflexivity. Qed.

Lemma dragging_orders_the_list_witness : map ag_id (active_groups groups_dragged) = ["b"; "cards"].
Proof.
  destruct (dragging_orders_the_list 1 0 demo_grouped groups_dragged (proj1 demo_grouped_inv)) as [H _];
    [rewrite -(length_map ag_id) demo_grouped_active; cbn; lia ..|exact groups_dragged_run|].
  rewrite H demo_grouped_active. reflexivity.
Defined.
