(* ===== verification/Shell.v ===== *)
(** What every screen shares: the theme ([core/theme/theme.service.ts]), the sign of the
    sync state ([shared/sync-status.component.ts]), the bar of a budget
    ([shared/budget-bar.component.ts]) and the label of a day ([shared/day.pipe.ts]). *)
From S2P Require Export Pages.
From S2P Require Import Sync.
#[local] Open Scope string_scope.
#[local] Open Scope Z_scope.

(** * Definitions *)

(** ** theme.service.ts *)

Definition STORAGE_KEY : string := "docket.theme".

(** The service, the preferences it keeps its choice in and what the system asks for;
    [th_document] is the class it toggles on the document.  The stored text is taken for a
    choice unread. *)
Record Theme : Type := mkTheme {
  th_choice : string; th_isDark : bool; th_document : bool; th_prefs : option string; th_system : bool; th_listening : bool }.

Definition new_theme (prefs : option string) (system : bool) : Theme := mkTheme "auto" false false prefs system false.

Definition apply_theme (t : Theme) : Theme :=
  let dark := String.eqb (th_choice t) "dark" || (String.eqb (th_choice t) "auto" && th_listening t && th_system t) in
  mkTheme (th_choice t) dark dark (th_prefs t) (th_system t) (th_listening t).

Definition initialise_theme (t : Theme) : Theme :=
  apply_theme (mkTheme (default "auto" (th_prefs t)) (th_isDark t) (th_document t) (th_prefs t) (th_system t) true).
Definition set_theme (choice : string) (t : Theme) : Theme :=
  apply_theme (mkTheme choice (th_isDark t) (th_document t) (Some choice) (th_system t) (th_listening t)).

(** The media query changes; the listener applies it only while the choice is the system's. *)
Definition system_changes (dark : bool) (t : Theme) : Theme :=
  let t := mkTheme (th_choice t) (th_isDark t) (th_document t) (th_prefs t) dark (th_listening t) in
  if th_listening t && String.eqb (th_choice t) "auto" then apply_theme t else t.

(** ** sync-status.component.ts *)

Definition not_configured (settings : SyncSettings) : bool := bool_decide (target_kind (ss_target settings) = KindNone).
Definition failed (status : SyncStatus) : bool := match st_state status with SyncError => true | _ => false end.

Definition icon (settings : SyncSettings) (status : SyncStatus) : string :=
  if not_configured settings then "cloud-offline-outline"
  else if failed status then "warning-outline"
  else if (0 <? st_pending status)%nat then "cloud-upload-outline" else "cloud-done-outline".
Definition colour (settings : SyncSettings) (status : SyncStatus) : string :=
  if failed status then "danger"
  else if not_configured settings then "medium"
  else if (0 <? st_pending status)%nat then "warning" else "success".
Definition label (settings : SyncSettings) (status : SyncStatus) : string :=
  match st_state status with
  | Syncing => "Syncing"
  | SyncError => "Sync failed — tap to retry"
  | Idle =>
      if not_configured settings then "Sync not configured"
      else if (0 <? st_pending status)%nat then "Sync " ++ num_to_string (Z.of_nat (st_pending status)) ++ " pending change(s)"
      else "Synced — tap to sync now"
  end.

(** ** budget-bar.component.ts, day.pipe.ts *)

Definition bar_colour (over : bool) : string := if over then "var(--ion-color-danger)" else "var(--ion-color-success)".
Definition bar_label (share : Z) (over : bool) : string :=
  if over then "Over budget, " ++ num_to_string share ++ "% of allowance used" else num_to_string share ++ "% of budget used".

(** [localDay] writes a date in the locale, with its year unless it is this one. *)
Definition day_label (localDay : string -> bool -> string) (today date : string) : result string :=
  if String.eqb date today then Ok "Today"
  else
    yesterday ← addDays today (-1);
    mret (if String.eqb date yesterday then "Yesterday"
          else localDay date (negb (String.eqb (js_slice date 0 4) (js_slice today 0 4)))).

(** * Specification *)

(** The life of the theme: the application starts, the user chooses, the system changes. *)
Inductive theme_run : Theme -> Prop :=
| tr_start prefs system : theme_run (initialise_theme (new_theme prefs system))
| tr_set t choice : theme_run t -> theme_run (set_theme choice t)
| tr_system t dark : theme_run t -> theme_run (system_changes dark t).

(** * Properties *)

(** what is drawn is what was chosen: at any time the screen is dark exactly when dark was
    chosen, or the choice was left to the system and the system asks for dark; the class on
    the document agrees, and a restart finds the same choice. *)
Theorem theme_follows_the_choice t :
  theme_run t ->
  th_isDark t = String.eqb (th_choice t) "dark" || (String.eqb (th_choice t) "auto" && th_system t)
  /\ th_document t = th_isDark t /\ th_choice (initialise_theme (new_theme (th_prefs t) (th_system t))) = th_choice t.
Proof.
  assert (theme_run t -> th_listening t = true /\ th_document t = th_isDark t /\ default "auto" (th_prefs t) = th_choice t
    /\ th_isDark t = String.eqb (th_choice t) "dark" || (String.eqb (th_choice t) "auto" && th_system t)) as H.
  { induction 1 as [prefs system|t choice _ (Hl & Hd & Hp & Hk)|t dark _ (Hl & Hd & Hp & Hk)].
    - split_and!; [done..|]. cbn. by rewrite andb_true_r.
    - unfold set_theme, apply_theme. cbn. rewrite Hl andb_true_r. by split_and!.
    - unfold system_changes. cbn. rewrite Hl. cbn [andb]. destruct (String.eqb_spec (th_choice t) "auto") as [E|E].
      + unfold apply_theme. cbn. rewrite E. cbn. by rewrite Hp E.
      + cbn. split_and!; [done..|]. rewrite Hk. by destruct (String.eqb_spec (th_choice t) "auto"). }
  intros (Hl & Hd & Hp & Hk)%H. by split_and!.
Qed.

(** the sign never says all is sent while something waits or the last attempt failed. *)
Theorem the_sign_is_honest settings status :
  colour settings status = "success" <-> st_state status <> SyncError /\ not_configured settings = false /\ st_pending status = 0%nat.
Proof.
  unfold colour, failed. destruct (st_state status), (not_configured settings), (Nat.ltb_spec 0 (st_pending status)); cbn;
    (split; [intros Hs|intros (Ha & Hb & Hc)]); try done; try (split_and!; (done || lia)); lia.
Qed.
