(* ===== verification/Charts.v ===== *)
(** The charts of the reports: their geometry ([core/reports/geometry.ts]) and what the three
    components draw and say ([shared/charts/category-bar-chart.component.ts],
    [flow-column-chart.component.ts], [trend-line-chart.component.ts]).  Coordinates are
    binary64 numbers, amounts are integers turned into them; the sign of a zero is not kept,
    and [Math.log10] is taken as exact before its floor. *)
From S2P Require Export NumberText.
#[local] Open Scope string_scope.
#[local] Open Scope Z_scope.

(** * Definitions *)

(** ** Arithmetic *)

Definition f_add (x y : number) : number := SFadd prec emax x y.
Definition f_sub (x y : number) : number := SFsub prec emax x y.
Definition is_nan (x : number) : bool := match x with S754_nan => true | _ => false end.
Definition f_max (x y : number) : number := if is_nan x || is_nan y then S754_nan else if SFltb x y then y else x.
Definition f_min (x y : number) : number := if is_nan x || is_nan y then S754_nan else if SFltb y x then y else x.
Definition zero : number := S754_zero false.

(** [v / 2^k] rounded by [round_to] to an integer. *)
Definition to_integer (round_to : Z -> Z -> Z) (x : number) : number :=
  match x with
  | S754_finite s m e =>
      if 0 <=? e then x else f_of_Z (round_to (if s then Z.neg m else Z.pos m) (2 ^ (- e)))
  | _ => x
  end.
Definition f_floor : number -> number := to_integer Z.div.
Definition f_ceil : number -> number := to_integer (fun v d => - ((- v) / d)).

(** [Math.floor(Math.log10(x))] of a positive number. *)
Definition log10_floor (x : number) : Z :=
  match x with
  | S754_finite false m e => (if 0 <=? e then decimal_point 400 (Z.pos m * 2 ^ e) 1 0 else decimal_point 400 (Z.pos m) (2 ^ (- e)) 0) - 1
  | _ => 0
  end.

(** [Math.round(value * 100) / 100] *)
Definition f_round (value : number) : number :=
  let scaled := f_mul value (f_of_Z 100) in
  match js_round scaled with Some z => f_div (f_of_Z z) (f_of_Z 100) | None => scaled end.

(** ** geometry.ts *)

Record Point : Type := mkPoint { pt_x : number; pt_y : number }.
Record Rect : Type := mkRect { rc_x : number; rc_y : number; rc_width : number; rc_height : number }.
Record Axis : Type := mkAxis { ax_ticks : list number; ax_min : number; ax_max : number }.

Definition niceStep (raw : number) : number :=
  if f_nonpos raw then f_of_Z 1
  else
    let magnitude := pow10 (log10_floor raw) in
    let normalised := f_div raw magnitude in
    let below n := SFleb normalised n in
    let two_and_a_half := f_div (f_of_Z 5) (f_of_Z 2) in
    let factor := if below (f_of_Z 1) then f_of_Z 1 else if below (f_of_Z 2) then f_of_Z 2
                  else if below two_and_a_half then two_and_a_half else if below (f_of_Z 5) then f_of_Z 5 else f_of_Z 10 in
    f_mul factor magnitude.

Definition niceAxis (min max : number) (targetTicks : Z) : result Axis :=
  if negb (isFinite min) || negb (isFinite max) || (SFeqb min zero && SFeqb max zero)
  then Ok (mkAxis [zero; f_of_Z 1] zero (f_of_Z 1))
  else
    let low := f_min zero min in
    let high := f_max zero max in
    if SFeqb low high then Ok (mkAxis [low; f_add low (f_of_Z 1)] low (f_add low (f_of_Z 1)))
    else
      let step := niceStep (f_div (f_sub high low) (f_of_Z (Z.max 1 targetTicks))) in
      let niceLow := f_mul (f_floor (f_div low step)) step in
      let niceHigh := f_mul (f_ceil (f_div high step)) step in
      match js_round (f_div (f_sub niceHigh niceLow) step) with
      | Some count =>
          Ok (mkAxis (map (fun i => f_round (f_add niceLow (f_mul (f_of_Z (Z.of_nat i)) step))) (seq 0 (Z.to_nat (count + 1)))) niceLow niceHigh)
      | None => Throw (OutsideModel "an axis too long for the numbers")
      end.

Definition scale (value : number) (domain : Axis) (from to : number) : number :=
  let span := f_sub (ax_max domain) (ax_min domain) in
  if SFeqb span zero then from
  else f_add from (f_mul (f_div (f_sub value (ax_min domain)) span) (f_sub to from)).

Record BarOptions : Type := mkBarOptions { bo_width : number; bo_band : number; bo_thickness : number; bo_labelHeight : number }.

Definition index_number (i : nat) : number := f_of_Z (Z.of_nat i).

Definition horizontalBars (values : list number) (options : BarOptions) : list Rect :=
  let largest := fold_left f_max values zero in
  imap (fun index value =>
    mkRect zero (f_add (f_mul (index_number index) (bo_band options)) (bo_labelHeight options))
      (if SFltb zero largest then f_max (f_of_Z 2) (f_mul (f_div value largest) (bo_width options)) else f_of_Z 2)
      (bo_thickness options)) values.

Record ColumnOptions : Type := mkColumnOptions {
  co_width : number; co_height : number; co_series : nat; co_innerGap : number; co_bandPadding : number; co_maxThickness : number }.

Definition column_thickness (groups : nat) (options : ColumnOptions) : number :=
  let usable := f_mul (f_div (co_width options) (index_number groups)) (f_sub (f_of_Z 1) (co_bandPadding options)) in
  let series := index_number (co_series options) in
  f_min (co_maxThickness options)
    (f_max (f_of_Z 2) (f_div (f_sub usable (f_mul (co_innerGap options) (f_sub series (f_of_Z 1)))) series)).

Definition groupedColumns (groups : list (list number)) (domain : Axis) (options : ColumnOptions) : list (list Rect) :=
  let band := f_div (co_width options) (index_number (length groups)) in
  let series := index_number (co_series options) in
  let thickness := column_thickness (length groups) options in
  let groupWidth := f_add (f_mul thickness series) (f_mul (co_innerGap options) (f_sub series (f_of_Z 1))) in
  let baseline := scale zero domain (co_height options) zero in
  imap (fun groupIndex values =>
    let left := f_add (f_mul (index_number groupIndex) band) (f_div (f_sub band groupWidth) (f_of_Z 2)) in
    imap (fun seriesIndex value =>
      let top := scale value domain (co_height options) zero in
      mkRect (f_add left (f_mul (index_number seriesIndex) (f_add thickness (co_innerGap options))))
        (f_min top baseline) thickness (SFabs (f_sub baseline top))) values) groups.

Definition linePoints (values : list number) (domain : Axis) (width height : number) : list Point :=
  match values with
  | [value] => [mkPoint (f_div width (f_of_Z 2)) (scale value domain height zero)]
  | _ =>
      let step := f_div width (f_of_Z (Z.of_nat (length values) - 1)) in
      imap (fun index value => mkPoint (f_mul (index_number index) step) (scale value domain height zero)) values
  end.

(** The words of a path: a command and its coordinates, rounded. *)
Fixpoint coordinates (ns : list number) : result (list string) :=
  match ns with
  | [] => Ok []
  | n :: rest => t ← number_string (f_round n); ts ← coordinates rest; mret (t :: ts)
  end.
Definition command (letter : string) (ns : list number) : result string :=
  ts ← coordinates ns; mret (letter ++ JsString.join " " ts).
Fixpoint commands (cs : list (string * list number)) : result (list string) :=
  match cs with
  | [] => Ok []
  | (letter, ns) :: rest => t ← command letter ns; ts ← commands rest; mret (t :: ts)
  end.
Definition path_of (cs : list (string * list number)) : result string := JsString.join " " <$> commands cs.

Definition line_commands (points : list Point) : list (string * list number) :=
  imap (fun i p => (if (i =? 0)%nat then "M" else "L", [pt_x p; pt_y p])) points.
Definition linePath (points : list Point) : result string := path_of (line_commands points).

Definition areaPath (points : list Point) (baseline : number) : result string :=
  match head points, last points with
  | Some first, Some end_ =>
      if (length points <? 2)%nat then Ok ""
      else path_of (line_commands points ++ [("L", [pt_x end_; baseline]); ("L", [pt_x first; baseline]); ("Z", [])])%list
  | _, _ => Ok ""
  end.

Inductive direction : Type := Rightwards | Upwards.

Definition barPath (rect : Rect) (radius : number) (towards : direction) : result string :=
  let '(mkRect x y width height) := rect in
  let half n := f_div n (f_of_Z 2) in
  if f_nonpos width || f_nonpos height then Ok ""
  else match towards with
  | Rightwards =>
      let r := f_min (f_min radius width) (half height) in
      let right := f_add x width in
      let bottom := f_add y height in
      path_of [("M", [x; y]); ("H", [f_sub right r]); ("Q", [right; y; right; f_add y r]); ("V", [f_sub bottom r]);
               ("Q", [right; bottom; f_sub right r; bottom]); ("H", [x]); ("Z", [])]
  | Upwards =>
      let r := f_min (f_min radius height) (half width) in
      let right := f_add x width in
      path_of [("M", [x; f_add y height]); ("V", [f_add y r]); ("Q", [x; y; f_add x r; y]); ("H", [f_sub right r]);
               ("Q", [right; y; right; f_add y r]); ("V", [f_add y height]); ("Z", [])]
  end.

Definition distance (x : number) (p : Point) : number := SFabs (f_sub (pt_x p) x).

(** The loop over [i], with the best so far and its distance. *)
Fixpoint nearest_loop (points : list Point) (x : number) (i best : Z) (bestDistance : number) : Z :=
  match points with
  | [] => best
  | p :: rest =>
      if SFltb (distance x p) bestDistance then nearest_loop rest x (i + 1) i (distance x p)
      else nearest_loop rest x (i + 1) best bestDistance
  end.
Definition nearestIndex (points : list Point) (x : number) : Z :=
  match points with [] => -1 | _ => nearest_loop points x 0 0 (S754_infinity false) end.

(** ** The components; [money] writes an amount in the locale and the currency of the chart *)

Record ChartDatum : Type := mkDatum { cd_id : string; cd_label : string; cd_value : Minor }.
Record ChartGroup : Type := mkGroup { cg_id : string; cg_label : string; cg_values : list Minor }.

Section Components.
Context (money : Minor -> string).

Definition amounts (rows : list ChartDatum) : list number := map (fun row => f_of_Z (cd_value row)) rows.

Definition bar_options : BarOptions := mkBarOptions (f_of_Z 300) (f_of_Z 42) (f_of_Z 8) (f_of_Z 18).
Definition bars_height (rows : list ChartDatum) : Z := Z.max 42 (Z.of_nat (length rows) * 42).
Fixpoint with_paths {A} (rows : list A) (rects : list Rect) (radius : number) (towards : direction) : result (list (A * Rect * string)) :=
  match rows, rects with
  | row :: rows, rect :: rects =>
      path ← barPath rect radius towards; rest ← with_paths rows rects radius towards; mret ((row, rect, path) :: rest)
  | _, _ => Ok []
  end.
Definition placed_bars (rows : list ChartDatum) : result (list (ChartDatum * Rect * string)) :=
  with_paths rows (horizontalBars (amounts rows) bar_options) (f_of_Z 4) Rightwards.
Definition bars_summary (caption : string) (rows : list ChartDatum) : string :=
  match rows with
  | [] => "No spending in this period."
  | first :: _ =>
      caption ++ ". " ++ num_to_string (Z.of_nat (length rows)) ++ " categories totalling "
      ++ money (fold_left (fun sum row => sum + cd_value row) rows 0) ++ ". Largest: " ++ cd_label first ++ " at " ++ money (cd_value first) ++ "."
  end.

Definition column_options (series : nat) : ColumnOptions :=
  mkColumnOptions (f_of_Z 320) (f_of_Z 140) series (f_of_Z 2) (f_div (f_of_Z 34) (f_of_Z 100)) (f_of_Z 18).
Definition flow_values (groups : list ChartGroup) : list (list number) := map (fun group => map f_of_Z (cg_values group)) groups.
Definition flow_axis (groups : list ChartGroup) : result Axis :=
  niceAxis zero (fold_left f_max (concat (flow_values groups)) zero) 4.
Definition placed_columns (series : nat) (groups : list ChartGroup) : result (list (list (Minor * Rect * string))) :=
  axis ← flow_axis groups;
  mapM (fun gr : ChartGroup * list Rect => with_paths (cg_values gr.1) gr.2 (f_of_Z 3) Upwards)
    (combine groups (groupedColumns (flow_values groups) axis (column_options series))).
Definition flow_readout (series : list string) (group : ChartGroup) : result string :=
  texts ← mapM (fun iv : nat * Minor =>
      match series !! iv.1 with
      | Some label => mret (label ++ " " ++ money iv.2)
      | None => Throw (JsError "Cannot read properties of undefined (reading 'label')")
      end) (imap pair (cg_values group));
  mret (cg_label group ++ ": " ++ JsString.join " · " texts).
Definition flow_summary (caption : string) (series : list string) (groups : list ChartGroup) : string :=
  match groups with
  | [] => "Nothing recorded in this period."
  | _ =>
      let totals := imap (fun index label =>
        label ++ " " ++ money (fold_left (fun sum group => sum + default 0 (cg_values group !! index)) groups 0)) series in
      caption ++ ", " ++ num_to_string (Z.of_nat (length groups)) ++ " periods. Totals: " ++ JsString.join ", " totals ++ "."
  end.

(** [y] of the two charts with an axis. *)
Definition chart_y (axis : Axis) (height value : number) : number :=
  if SFeqb (ax_max axis) (ax_min axis) then height
  else f_sub height (f_mul (f_div (f_sub value (ax_min axis)) (f_sub (ax_max axis) (ax_min axis))) height).

(** [Math.round] of a finite number. *)
Definition rounded (x : number) : Z := default 0 (js_round x).
Definition shortMoney (value : Minor) : result string :=
  let major := f_div (f_of_Z value) (f_of_Z 100) in
  if SFleb (f_of_Z 1000) (SFabs major)
  then text ← number_string (f_div (f_of_Z (rounded (f_div major (f_of_Z 100)))) (f_of_Z 10)); mret (text ++ "k")
  else Ok (num_to_string (rounded major)).

Definition trend_axis (rows : list ChartDatum) : result Axis :=
  niceAxis (fold_left f_min (amounts rows) zero) (fold_left f_max (amounts rows) zero) 4.
Definition trend_points (rows : list ChartDatum) : result (list Point) :=
  axis ← trend_axis rows; mret (linePoints (amounts rows) axis (f_of_Z 320) (f_of_Z 120)).
Definition trend_path (rows : list ChartDatum) : result string := points ← trend_points rows; linePath points.
Definition trend_area (rows : list ChartDatum) : result string :=
  axis ← trend_axis rows; points ← trend_points rows;
  areaPath points (chart_y axis (f_of_Z 120) (f_max zero (ax_min axis))).
Definition trend_summary (caption : string) (rows : list ChartDatum) : string :=
  match head rows, last rows with
  | Some first, Some end_ =>
      let trend := if cd_value first <? cd_value end_ then "up" else if cd_value end_ <? cd_value first then "down" else "flat" in
      caption ++ ", " ++ cd_label first ++ " to " ++ cd_label end_ ++ ": " ++ money (cd_value first) ++ " to " ++ money (cd_value end_)
      ++ ", trending " ++ trend ++ "."
  | _, _ => "Not enough history to chart yet."
  end.

(** The reading under a pointer at [clientX], over a plot that starts at [left]; [active] is
    what was marked before. *)
Definition track (rows : list ChartDatum) (clientX left width : number) (active : option Z) : result (option Z) :=
  if SFeqb width zero then Ok active
  else
    points ← trend_points rows;
    let viewX := f_sub (f_mul (f_div (f_sub clientX left) width) (f_of_Z (320 + 50))) (f_of_Z 38) in
    let index := nearestIndex points viewX in
    mret (if 0 <=? index then Some index else None).
End Components.

(** * Lemmas *)

(** The order of numbers that are not below zero. *)
Definition unsigned (x : number) : Prop := SFabs x = x.

Lemma unsigned_abs x : unsigned (SFabs x).
Proof. by destruct x. Qed.

Lemma SFltb_trans x y z : unsigned x -> unsigned y -> unsigned z -> SFltb x y = true -> SFltb y z = true -> SFltb x z = true.
Proof.
  destruct x as [[]|[]| |[] m1 e1], y as [[]|[]| |[] m2 e2], z as [[]|[]| |[] m3 e3]; try done. intros _ _ _. unfold SFltb, SFcompare.
  change (Pcompare m1 m2 Eq) with (Pos.compare m1 m2). change (Pcompare m2 m3 Eq) with (Pos.compare m2 m3).
  change (Pcompare m1 m3 Eq) with (Pos.compare m1 m3).
  destruct (Z.compare_spec e1 e2), (Z.compare_spec e2 e3), (Z.compare_spec e1 e3); try done; try lia;
    destruct (Pos.compare_spec m1 m2); try done; destruct (Pos.compare_spec m2 m3); try done;
    destruct (Pos.compare_spec m1 m3); try done; lia.
Qed.

Lemma SFltb_infinity x y : unsigned x -> SFltb x (S754_infinity false) = false -> SFltb y x = true -> SFltb y (S754_infinity false) = true.
Proof. by destruct x as [[]|[]| |[] m e], y as [[]|[]| |[] m2 e2]. Qed.

(** The loop keeps the index it came with, or that of a nearer point than all others. *)
Lemma nearest_loop_spec x ps : forall i best bestDistance,
  unsigned bestDistance ->
  nearest_loop ps x i best bestDistance = best /\ (forall q, q ∈ ps -> SFltb (distance x q) bestDistance = false)
  \/ exists k p, nearest_loop ps x i best bestDistance = i + Z.of_nat k /\ ps !! k = Some p /\ SFltb (distance x p) bestDistance = true
       /\ forall q, q ∈ ps -> SFltb (distance x q) (distance x p) = false.
Proof.
  induction ps as [|p ps IH]; intros i best bd Hbd; cbn [nearest_loop].
  { left. split; [done|]. intros q Hq. by apply not_elem_of_nil in Hq. }
  destruct (SFltb (distance x p) bd) eqn:Hp.
  - destruct (IH (i + 1) i (distance x p) (unsigned_abs _)) as [[-> Hall]|(k & q & -> & Hk & Hq & Hall)]; right.
    + exists 0%nat, p. split_and!; [lia|done|done|]. intros q [->|Hq]%elem_of_cons; [|by apply Hall].
      unfold distance. generalize (SFabs (f_sub (pt_x p) x)). intros d. clear. destruct d as [[]|[]| |[] m e]; try done;
        unfold SFltb, SFcompare; rewrite Z.compare_refl; change (Pcompare m m Eq) with (Pos.compare m m); by rewrite Pos.compare_refl.
    + exists (S k), q. split_and!; [lia|done| |].
      * eapply SFltb_trans; [apply unsigned_abs|apply unsigned_abs|done|exact Hq|exact Hp].
      * intros q' [->|Hq']%elem_of_cons; [|by apply Hall]. destruct (SFltb (distance x p) (distance x q)) eqn:E; [|done].
        pose proof (SFltb_trans _ _ _ (unsigned_abs _) (unsigned_abs _) (unsigned_abs _) Hq E) as H.
        by rewrite (Hall q (list_elem_of_lookup_2 _ _ _ Hk)) in H.
  - destruct (IH (i + 1) best bd Hbd) as [[-> Hall]|(k & q & -> & Hk & Hq & Hall)]; [left|right].
    + split; [done|]. intros q [->|Hq]%elem_of_cons; [done|by apply Hall].
    + exists (S k), q. split_and!; [lia|done|done|]. intros q' [->|Hq']%elem_of_cons; [|by apply Hall].
      destruct (SFltb (distance x p) (distance x q)) eqn:E; [|done].
      by rewrite (SFltb_trans _ _ _ (unsigned_abs _) (unsigned_abs _) Hbd E Hq) in Hp.
Qed.

(** * Properties *)

(** the point under a finger is a nearest one: the index is that of a point, and no point of
    the line is strictly nearer, whatever the coordinates, those that are not numbers
    included. *)
Theorem nearest_index_is_nearest points x :
  points <> [] -> exists k p, nearestIndex points x = Z.of_nat k /\ points !! k = Some p
    /\ forall q, q ∈ points -> SFltb (distance x q) (distance x p) = false.
Proof.
  intros Hne. assert (nearestIndex points x = nearest_loop points x 0 0 (S754_infinity false)) as -> by (by destruct points).
  destruct (nearest_loop_spec x points 0 0 (S754_infinity false) eq_refl) as [[-> Hall]|(k & p & -> & Hk & _ & Hall)]; [|by exists k, p].
  destruct points as [|p points]; [done|]. exists 0%nat, p. split_and!; [done|done|]. intros q Hq.
  destruct (SFltb (distance x q) (distance x p)) eqn:E; [|done].
  pose proof (SFltb_infinity _ _ (unsigned_abs _) (Hall p (list_elem_of_here _ _)) E) as H. by rewrite (Hall q Hq) in H.
Qed.

(** the readings of a line keep their order: one point each, and drawing them takes one
    command each. *)
Theorem a_point_for_every_reading values domain width height :
  length (linePoints values domain width height) = length values
  /\ length (line_commands (linePoints values domain width height)) = length values
  /\ forall i v, values !! i = Some v -> exists p, linePoints values domain width height !! i = Some p /\ pt_y p = scale v domain height zero.
Proof.
  assert (length (linePoints values domain width height) = length values) as Hl.
  { destruct values as [|v [|w values]]; [done|done|]. unfold linePoints. by rewrite length_imap. }
  split_and!; [done|unfold line_commands; by rewrite length_imap|]. intros i v Hi.
  destruct values as [|v0 [|w values]]; [done| |].
  - destruct i as [|i]; [|done]. injection Hi as ->. by eexists.
  - unfold linePoints. rewrite list_lookup_imap Hi. by eexists.
Qed.

(** * Witnesses *)

Definition ticks_of (a : result Axis) : result (list string) := axis ← a; coordinates (ax_ticks axis).

Lemma axes_are_readable :
  ticks_of (niceAxis zero (f_of_Z 37500) 4) = Ok ["0"; "10000"; "20000"; "30000"; "40000"]
  /\ ticks_of (niceAxis (f_of_Z (-350)) (f_of_Z 1000) 4) = Ok ["-500"; "0"; "500"; "1000"]
  /\ ticks_of (niceAxis zero zero 4) = Ok ["0"; "1"].
Proof. vm_compute. by split_and!. Qed.

Lemma a_bar_is_drawn :
  barPath (mkRect zero (f_of_Z 18) (f_of_Z 300) (f_of_Z 8)) (f_of_Z 4) Rightwards
  = Ok "M0 18 H296 Q300 18 300 22 V22 Q300 26 296 26 H0 Z".
Proof. vm_compute. reflexivity. Qed.

Definition three_points : list Point := map (fun x => mkPoint (f_of_Z x) zero) [0; 160; 320].

Lemma the_middle_point_is_nearest : nearestIndex three_points (f_of_Z 200) = 1.
Proof. vm_compute. reflexivity. Qed.

(** The labels of the axis divide by a hundred whatever the currency: 150,000 yen, which
    have no smaller unit, are labelled as one and a half thousand. *)
Lemma yen_are_labelled_a_hundredfold_less : minorUnitExponent "JPY" = 0%nat /\ shortMoney 150000 = Ok "1.5k".
Proof. vm_compute. by split. Qed.
