(* ===== verification/Program.v ===== *)
(** The program as a whole: what the user can have the services do, one device of a
    vault as a run of them, and several such devices around one destination.  Every
    service reaches the ledger through [put] and [remove] alone, so such a program is a
    run of the fleet, and the tables of every device hold records of their type. *)
From S2P Require Export Backup Rates Categories Accounts Groups Transactions Budgets Recurring Cards Import SyncSafety.
#[local] Open Scope string_scope.
#[local] Open Scope Z_scope.

(** * Definitions *)

(** What the screens ask of the services. *)
Inductive act : Type :=
| SetReportingCurrency (currency : string) | SaveRate (draft : RateDraft) | RemoveRate (id : string)
| SetSubcategories (enabled : bool) | SaveCategory (draft : CategoryDraft) | RemoveCategory (id : string) | SeedCategories
| SaveAccount (draft : Account) (createdAt : option Z) | RemoveAccount (id : string)
| SetCounted (id : string) (counted : bool) | ArchiveAccount (id : string) (archived : bool)
| SaveGroup (draft : AccountGroupDraft) | RemoveGroup (id : string) | ArchiveGroup (id : string) (archived : bool)
| SeedGroups | MoveAccount (accountId : string) (groupId : option string) | Reorder (ids : list string)
| SaveTransaction (draft : TransactionDraft) | RemoveTransaction (id : string)
| SaveBudget (draft : BudgetDraft) | RemoveBudget (id : string) | ArchiveBudget (id : string) (archived : bool)
| PruneBudget (id : string)
| SaveRule (draft : RecurringDraft) | RemoveRule (id : string) | ArchiveRule (id : string) (archived : bool)
| RunRules (asOf : string) (limit : nat) | SkipOccurrence (ruleId date : string)
| PayBill (today : string) (request : PayBillRequest)
| ImportPlanned (plan : ImportPlan) (options : ApplyOptions)
| RestoreBackup (payload : BackupPayload)
| Reopen.

Definition void {S A} (m : M S A) : M S unit := _ ← m; mret tt.

Definition perform (a : act) : M App unit :=
  match a with
  | SetReportingCurrency currency => setReportingCurrency currency
  | SaveRate draft => void (save_rate draft)
  | RemoveRate id => remove_rate id
  | SetSubcategories enabled => setSubcategoriesEnabled enabled
  | SaveCategory draft => void (save_category draft)
  | RemoveCategory id => remove_category id
  | SeedCategories => seedIfEmpty
  | SaveAccount draft createdAt => void (save_account draft createdAt)
  | RemoveAccount id => remove_account id
  | SetCounted id counted => setCountedInTotals id counted
  | ArchiveAccount id archived => setArchived id archived
  | SaveGroup draft => void (save_group draft)
  | RemoveGroup id => remove_group id
  | ArchiveGroup id archived => setArchived_group id archived
  | SeedGroups => seed_groupsIfEmpty
  | MoveAccount accountId groupId => moveAccount accountId groupId
  | Reorder ids => reorder ids
  | SaveTransaction draft => void (save_transaction draft)
  | RemoveTransaction id => remove_transaction id
  | SaveBudget draft => void (save_budget draft)
  | RemoveBudget id => remove_budget id
  | ArchiveBudget id archived => setArchived_budget id archived
  | PruneBudget id => void (pruneStaleCategories id)
  | SaveRule draft => void (save_rule draft)
  | RemoveRule id => remove_rule id
  | ArchiveRule id archived => setArchived_rule id archived
  | RunRules asOf limit => void (run asOf limit)
  | SkipOccurrence ruleId date => skip ruleId date
  | PayBill today request => void (pay today request)
  | ImportPlanned plan options => void (apply_plan plan options)
  | RestoreBackup payload => void (restore_typed payload)
  | Reopen => fun s => initialise (device_of s) s
  end.

(** A device through a list of acts, each of which may throw. *)
Fixpoint perform_all (acts : list act) (s : App) : App :=
  match acts with
  | [] => s
  | a :: rest => perform_all rest (snd (perform a s))
  end.

(** * Specification *)

(** Devices of one vault around one destination: from fresh installations, each lets its
    services act and synchronises, in any order; either may fail at any point. *)
Inductive world {R Bytes Key : Type} `{!SyncAdapter R Bytes} `{!AdapterLaws R Bytes} `{!Sealing Key Bytes}
    (devices : list string) (key : Key) (vaultId : string) : (string -> App) -> R -> Prop :=
| w_start : forall f r, (forall d, d ∈ devices -> fresh_device d (f d)) -> contents r = ∅ -> world devices key vaultId f r
| w_act : forall f r d a x s', world devices key vaultId f r -> d ∈ devices -> perform a (f d) = (x, s') ->
    world devices key vaultId (upd f d s') r
| w_sync : forall f d vault target override st x st', world devices key vaultId f (remote st) -> d ∈ devices ->
    Sync.app st = f d -> vs_key vault = Some key -> vs_vaultId vault = Some vaultId ->
    runCycle vault target override st = (x, st') -> world devices key vaultId (upd f d (Sync.app st')) (remote st')
| w_ext : forall f f' r, world devices key vaultId f r -> (forall d, f' d = f d) -> world devices key vaultId f' r.

(** An operation whose value is a record of the table and the id it names. *)
Definition op_filed (o : Operation) : Prop :=
  forall v, op_value o = Some v -> entity_table v = op_entity o /\ entity_id v = op_entityId o.

(** * Lemmas *)

(** ** What a service does to the application *)

(** A run of writes to tables of their type, deletions, and steps that touch neither. *)
Inductive edits : App -> App -> Prop :=
| ed_refl : forall s, edits s s
| ed_put : forall s v v' s1 s2, put (entity_table v) v s = (Ok v', s1) -> edits s1 s2 -> edits s s2
| ed_remove : forall s e id s1 s2, remove e id s = (Ok tt, s1) -> edits s1 s2 -> edits s s2
| ed_quiet : forall s s1 s2, quiet s s1 -> edits s1 s2 -> edits s s2.

Lemma edits_trans s1 s2 s3 : edits s1 s2 -> edits s2 s3 -> edits s1 s3.
Proof. induction 1; intros H'; [done|eapply ed_put; eauto|eapply ed_remove; eauto|eapply ed_quiet; eauto]. Qed.

Lemma edits_quiet s s' : quiet s s' -> edits s s'.
Proof. intros H. eapply ed_quiet; [exact H|apply ed_refl]. Qed.

(** A computation that does nothing but edits, whether it returns or throws. *)
Definition edits_only {A} (m : M App A) : Prop := forall s r s', m s = (r, s') -> edits s s'.

Create HintDb docket_edits.

Lemma eo_ret {A} (a : A) : edits_only (mret a).
Proof. intros s r s' [= _ <-]. apply ed_refl. Qed.
Lemma eo_liftR {A} (x : result A) : edits_only (liftR x).
Proof. intros s r s' [= _ <-]. apply ed_refl. Qed.
Lemma eo_throw {A} e : edits_only (throwM (A := A) e).
Proof. intros s r s' [= _ <-]. apply ed_refl. Qed.
Lemma eo_read {A} (f : App -> result A) : edits_only (fun s => (f s, s)).
Proof. intros s r s' [= _ <-]. apply ed_refl. Qed.
Lemma eo_getS : edits_only getS.
Proof. intros s r s' [= _ <-]. apply ed_refl. Qed.

Lemma eo_bind {A B} (m : M App A) (f : A -> M App B) :
  edits_only m -> (forall a, edits_only (f a)) -> edits_only (mbind f m).
Proof.
  intros Hm Hf s r s'. unfold mbind, M_bind. destruct (m s) as [[a|e] s1] eqn:E.
  - intros H. eapply edits_trans; [by eapply Hm|by eapply Hf].
  - intros [= _ <-]. by eapply Hm.
Qed.

(** A step that reads the state before it decides. *)
Lemma eo_branch {A} (m : App -> M App A) (n : M App A) :
  (forall s, n s = m s s) -> (forall s, edits_only (m s)) -> edits_only n.
Proof. intros Hn Hm s r s' H. rewrite Hn in H. by eapply Hm. Qed.

Lemma eo_forM {A} (xs : list A) (f : A -> M App unit) : (forall x, edits_only (f x)) -> edits_only (forM_ xs f).
Proof. intros Hf. induction xs as [|x xs IH]; [apply eo_ret|]. cbn [forM_]. by apply eo_bind. Qed.

Lemma eo_foldM {A B} (xs : list A) (f : B -> A -> M App B) : (forall b x, edits_only (f b x)) -> forall b, edits_only (foldM f b xs).
Proof. intros Hf. induction xs as [|x xs IH]; intros b; [apply eo_ret|]. cbn [foldM]. by apply eo_bind. Qed.

Lemma quiet_same s s' :
  rows s' = rows s -> oplog s' = oplog s -> clock s' = clock s -> meta_clock s' = meta_clock s -> nows s' = nows s -> quiet s s'.
Proof. intros. right. right. split_and!; try done. congruence. Qed.

Lemma eo_Date_now : edits_only Date_now.
Proof. intros s r s' [= _ <-]. by apply edits_quiet, quiet_same. Qed.
Lemma eo_randomUUID : edits_only randomUUID.
Proof. intros s r s' [= _ <-]. by apply edits_quiet, quiet_same. Qed.
Lemma eo_created_at t : edits_only (created_at t).
Proof. destruct t; [apply eo_ret|apply eo_Date_now]. Qed.

(** A write that the clock refuses leaves everything but the count of readings. *)
Lemma refused_write_quiet s s' x : (exists c, requireClock s = (Throw c, s')) \/ on_clock tick s = (Throw x, s') -> quiet s s'.
Proof.
  intros [[c H]|H].
  - unfold requireClock in H. destruct (clock s); [done|]. injection H as _ <-. by apply quiet_same.
  - destruct (on_clock_throw tick s x s' tick_throw H) as [->| ->]; by apply quiet_same.
Qed.

Lemma eo_put v : edits_only (put (entity_table v) v).
Proof.
  intros s [v'|x] s' H; [eapply ed_put; [exact H|apply ed_refl]|]. apply edits_quiet, (refused_write_quiet s s' x).
  apply M_bind_Throw_inv in H as [H|(c & s1 & E & H)]; [left; by eexists|]. rewrite (requireClock_Ok _ _ _ E) in H.
  apply M_bind_Throw_inv in H as [H|(hlc & s2 & _ & H)]; [by right|done].
Qed.

Lemma eo_put_at e v : entity_table v = e -> edits_only (put e v).
Proof. intros <-. apply eo_put. Qed.

Lemma eo_remove e id : edits_only (remove e id).
Proof.
  intros s [[]|x] s' H; [eapply ed_remove; [exact H|apply ed_refl]|]. apply edits_quiet, (refused_write_quiet s s' x).
  apply M_bind_Throw_inv in H as [H|(c & s1 & E & H)]; [left; by eexists|]. rewrite (requireClock_Ok _ _ _ E) in H.
  apply M_bind_Throw_inv in H as [H|(hlc & s2 & _ & H)]; [by right|done].
Qed.

Lemma read_entity_table e v r : read_entity e v = Some r -> entity_table r = e.
Proof. destruct e; cbn [read_entity]; by intros (x & _ & ->)%fmap_Some_1. Qed.

#[local] Hint Resolve eo_ret eo_liftR eo_throw eo_read eo_getS eo_Date_now eo_randomUUID eo_created_at eo_remove : docket_edits.
#[local] Hint Extern 1 (edits_only (put _ _)) => apply eo_put_at; first [reflexivity|eapply read_entity_table; eassumption] : docket_edits.

(** Walk through the text of a service. *)
Ltac eo_step := first
  [ solve [eauto with docket_edits]
  | apply eo_bind; [|intros ?]
  | apply eo_forM; intros ?
  | apply eo_foldM; intros ? ?
  | match goal with
    | |- edits_only (if ?b then _ else _) => destruct b
    | |- edits_only (match ?x with _ => _ end) => destruct x eqn:?
    end ].
Ltac eo := repeat (cbv zeta; eo_step).

Lemma eo_void {A} (m : M App A) : edits_only m -> edits_only (void m).
Proof. intros H. unfold void. eo. Qed.

(** The same for a service written as a function of the state. *)
Ltac eo_state :=
  let s := fresh "s" in let r := fresh "r" in let s' := fresh "s'" in let H := fresh "H" in
  intros s r s' H; repeat (case_match; try (injection H as _ <-; apply ed_refl)); revert H;
  match goal with |- ?m s = _ -> _ => let E := fresh in assert (edits_only m) as E by eo; exact (E s r s') end.

(** ** Every service only edits *)

Lemma eo_setReportingCurrency currency : edits_only (setReportingCurrency currency).
Proof. unfold setReportingCurrency. eo. Qed.
Lemma eo_save_rate draft : edits_only (save_rate draft).
Proof. unfold save_rate. eo. Qed.
Lemma eo_setSubcategoriesEnabled enabled : edits_only (setSubcategoriesEnabled enabled).
Proof. unfold setSubcategoriesEnabled. eo. Qed.
Lemma eo_save_category draft : edits_only (save_category draft).
Proof. unfold save_category. eo. Qed.
Lemma eo_save_account draft createdAt : edits_only (save_account draft createdAt).
Proof. unfold save_account. eo. Qed.
Lemma eo_save_group draft : edits_only (save_group draft).
Proof. unfold save_group. eo. Qed.
Lemma eo_save_transaction draft : edits_only (save_transaction draft).
Proof. unfold save_transaction. eo. Qed.
Lemma eo_save_budget draft : edits_only (save_budget draft).
Proof. unfold save_budget. eo. Qed.
Lemma eo_save_rule draft : edits_only (save_rule draft).
Proof. unfold save_rule. eo. Qed.
#[local] Hint Resolve eo_setReportingCurrency eo_save_rate eo_setSubcategoriesEnabled eo_save_category eo_save_account
  eo_save_group eo_save_transaction eo_save_budget eo_save_rule eo_void : docket_edits.

Lemma eo_remove_category id : edits_only (remove_category id).
Proof. unfold remove_category. eo. Qed.
Lemma eo_seedIfEmpty : edits_only seedIfEmpty.
Proof. unfold seedIfEmpty. eo_state. Qed.
Lemma eo_update_account id f : edits_only (update_account id f).
Proof. unfold update_account. eo_state. Qed.
Lemma eo_setArchived_group id archived : edits_only (setArchived_group id archived).
Proof. unfold setArchived_group. eo_state. Qed.
Lemma eo_remove_group id : edits_only (remove_group id).
Proof. unfold remove_group. eo. Qed.
Lemma eo_seed_starter currency order starter : edits_only (seed_starter currency order starter).
Proof. unfold seed_starter. eo. Qed.
#[local] Hint Resolve eo_remove_category eo_seedIfEmpty eo_update_account eo_setArchived_group eo_remove_group eo_seed_starter : docket_edits.
Lemma eo_seed_groupsIfEmpty : edits_only seed_groupsIfEmpty.
Proof. unfold seed_groupsIfEmpty. eo_state. Qed.
Lemma eo_moveAccount accountId groupId : edits_only (moveAccount accountId groupId).
Proof. unfold moveAccount. eo_state. Qed.
Lemma eo_reorder_step entry : edits_only (reorder_step entry).
Proof. unfold reorder_step. eo_state. Qed.
#[local] Hint Resolve eo_seed_groupsIfEmpty eo_moveAccount eo_reorder_step : docket_edits.
Lemma eo_reorder ids : edits_only (reorder ids).
Proof. unfold reorder. eo. Qed.
Lemma eo_setArchived_budget id archived : edits_only (setArchived_budget id archived).
Proof. unfold setArchived_budget. eo_state. Qed.
Lemma eo_pruneStaleCategories id : edits_only (pruneStaleCategories id).
Proof. unfold pruneStaleCategories. eo_state. Qed.
Lemma eo_setArchived_rule id archived : edits_only (setArchived_rule id archived).
Proof. unfold setArchived_rule. eo. Qed.
Lemma eo_run_rule asOf limit acc rule : edits_only (run_rule asOf limit acc rule).
Proof. unfold run_rule, run_date. eo. Qed.
#[local] Hint Resolve eo_reorder eo_setArchived_budget eo_pruneStaleCategories eo_setArchived_rule eo_run_rule : docket_edits.
Lemma eo_run asOf limit : edits_only (run asOf limit).
Proof. unfold run. eo. Qed.
Lemma eo_skip ruleId date : edits_only (skip ruleId date).
Proof. unfold skip. eo. Qed.
Lemma eo_pay today request : edits_only (pay today request).
Proof. unfold pay. eo. Qed.
Lemma eo_apply_rows options rows : forall byName result, edits_only (apply_rows options rows byName result).
Proof.
  induction rows as [|row rows IH]; intros byName result; cbn [apply_rows]; [eo|].
  unfold resolve_category, imported_transaction. eo.
Qed.
#[local] Hint Resolve eo_run eo_skip eo_pay eo_apply_rows : docket_edits.
Lemma eo_apply_plan plan options : edits_only (apply_plan plan options).
Proof. unfold apply_plan. eo. Qed.

#[local] Hint Resolve eo_apply_plan : docket_edits.

(** Restoring only edits, if it ends with no operation of a stray. *)
Definition shelf_edits {A} (m : M Shelf A) : Prop :=
  forall sh r sh', m sh = (r, sh') -> sh_strayOps sh' = ∅ -> sh_strayOps sh = ∅ /\ edits (sh_app sh) (sh_app sh').

Lemma se_bind {A B} (m : M Shelf A) (f : A -> M Shelf B) : shelf_edits m -> (forall a, shelf_edits (f a)) -> shelf_edits (mbind f m).
Proof.
  intros Hm Hf sh r sh'. unfold mbind, M_bind. destruct (m sh) as [[a|e] sh1] eqn:E.
  - intros H Hn. destruct (Hf a _ _ _ H Hn) as [H1 H2]. destruct (Hm _ _ _ E H1) as [H3 H4].
    split; [done|by eapply edits_trans].
  - intros [= _ <-]. by eapply Hm.
Qed.
Lemma se_same {A} (m : M Shelf A) :
  (forall sh r sh', m sh = (r, sh') -> sh_strayOps sh' = sh_strayOps sh /\ edits (sh_app sh) (sh_app sh')) -> shelf_edits m.
Proof. intros H sh r sh' [E He]%H. by rewrite E. Qed.
Lemma se_ret {A} (x : A) : shelf_edits (mret x).
Proof. apply se_same. intros sh r sh' [= _ <-]. split; [done|apply ed_refl]. Qed.
Lemma se_on_typed {A} (m : M App A) : edits_only m -> shelf_edits (on_typed m).
Proof.
  intros Hm. apply se_same. intros sh r sh'. unfold on_typed. destruct (m (sh_app sh)) as [x s] eqn:E. intros [= _ <-].
  split; [done|by eapply Hm].
Qed.
Lemma se_foldM {A B} (xs : list A) (f : B -> A -> M Shelf B) : (forall b x, shelf_edits (f b x)) -> forall b, shelf_edits (foldM f b xs).
Proof. intros Hf. induction xs as [|x xs IH]; intros b; [apply se_ret|]. cbn [foldM]. by apply se_bind. Qed.

(** A stray put adds its operation, unless the clock refuses and nothing happens. *)
Lemma se_put_stray name id row : shelf_edits (put_stray name id row).
Proof.
  intros sh r sh' H Hn. unfold put_stray, on_typed in H.
  destruct (requireClock (sh_app sh)) as [[c|e] s1] eqn:E1; unfold mbind, M_bind in H; rewrite E1 in H; cbn in H.
  - rewrite (requireClock_Ok _ _ _ E1) in H. destruct (on_clock tick (sh_app sh)) as [[hlc|e] s2] eqn:E2.
    + injection H as _ <-. cbn in Hn. by apply insert_non_empty in Hn.
    + injection H as _ <-. split; [done|]. apply edits_quiet, (refused_write_quiet _ _ e). by right.
  - injection H as _ <-. split; [done|]. apply edits_quiet, (refused_write_quiet _ _ e). left. by exists e.
Qed.

Lemma se_restore_row name acc row : shelf_edits (restore_row name acc row).
Proof.
  unfold restore_row. destruct (field "id" row) as [[]|]; try apply se_ret. apply se_bind.
  - apply se_same. intros sh r sh'. unfold isNewerLocally, mbind, M_bind, getS.
    destruct (row_at _ sh); intros [= _ <-]; (split; [done|apply ed_refl]).
  - intros []; [apply se_ret|]. apply se_bind; [|intros; apply se_ret]. unfold put_row.
    destruct (read_entity name _) as [value|] eqn:E; [|apply se_put_stray]. apply se_bind; [apply se_on_typed; eo|].
    intros _. apply se_same. intros sh r sh' [= _ <-]. split; [done|apply ed_refl].
Qed.

Lemma eo_restore_typed payload : edits_only (restore_typed payload).
Proof.
  intros s r s'. unfold restore_typed. destruct (restore_payload payload _) as [x sh] eqn:E.
  destruct (decide _) as [Hn|_]; intros [= _ <-]; [|apply ed_refl].
  assert (shelf_edits (restore_payload payload)) as H by (apply se_foldM; intros; apply se_foldM; intros; apply se_restore_row).
  exact (proj2 (H _ _ _ E Hn)).
Qed.
#[local] Hint Resolve eo_restore_typed : docket_edits.

Lemma eo_perform a : edits_only (perform a).
Proof.
  destruct a; cbn [perform]; unfold remove_rate, remove_account, remove_transaction, remove_budget, remove_rule,
    setCountedInTotals, setArchived; try solve [eauto with docket_edits].
  intros s r s' H. apply edits_quiet. right. left. unfold initialise in *. congruence.
Qed.

(** ** A program is a run of the fleet *)

Lemma put_typed v s v' s' :
  put (entity_table v) v s = (Ok v', s') ->
  op_filed (mkOp (entity_updatedAt v') (entity_table v) (entity_id v') Put (Some v') (device_of s)).
Proof.
  intros H. apply M_bind_Ok_inv in H as (c & s1 & _ & H). apply M_bind_Ok_inv in H as (hlc & s2 & _ & H).
  apply M_bind_Ok_inv in H as ([] & s3 & _ & [= <- _]). intros w [= <-]. by autorewrite with docket.
Qed.

Section Runs.
Context {R Bytes Key : Type} `{!SyncAdapter R Bytes} `{!AdapterLaws R Bytes} `{!Sealing Key Bytes}.
Context (devices : list string) (key : Key) (vaultId : string).

Lemma edits_shared d s s' : d ∈ devices -> edits s s' -> forall f g (r : R),
  f d = s -> shared devices key vaultId f g r -> Forall op_filed g ->
  exists g', shared devices key vaultId (upd f d s') g' r /\ Forall op_filed g'.
Proof.
  intros Hd. induction 1 as [s|s v v' s1 s2 E _ IH|s e id s1 s2 E _ IH|s s1 s2 Hq _ IH]; intros f g r <- Hs Hg.
  - exists g. split; [|done]. eapply sh_ext; [exact Hs|]. intros d'. unfold upd. destruct (String.eqb_spec d' d) as [->|]; done.
  - destruct (IH _ _ r (upd_eq f d s1) (sh_put _ _ _ _ _ _ _ _ _ _ _ Hs Hd E)) as (g' & H & Hg').
    { constructor; [by eapply put_typed|done]. }
    exists g'. split; [|done]. eapply sh_ext; [exact H|]. intros d'. unfold upd. by destruct (String.eqb d' d).
  - destruct (IH _ _ r (upd_eq f d s1) (sh_remove _ _ _ _ _ _ _ _ _ _ Hs Hd E)) as (g' & H & Hg').
    { by constructor. }
    exists g'. split; [|done]. eapply sh_ext; [exact H|]. intros d'. unfold upd. by destruct (String.eqb d' d).
  - destruct (IH _ _ r (upd_eq f d s1) (sh_quiet _ _ _ _ _ _ _ _ Hs Hd Hq) Hg) as (g' & H & Hg').
    exists g'. split; [|done]. eapply sh_ext; [exact H|]. intros d'. unfold upd. by destruct (String.eqb d' d).
Qed.

Lemma world_shared f (r : R) : world devices key vaultId f r ->
  exists g, shared devices key vaultId f g r /\ Forall op_filed g.
Proof.
  induction 1 as [f r Hf Hr|f r d a x s' _ (g & IH & Hg) Hd E|f d vault target override st x st' _ (g & IH & Hg) Hd Ha Hk Hv E
    |f f' r _ (g & IH & Hg) Hf].
  - exists []. split; [by apply sh_init|done].
  - by eapply edits_shared; [exact Hd|eapply eo_perform, E|..].
  - exists g. split; [|done]. by eapply sh_sync.
  - exists g. split; [by eapply sh_ext|done].
Qed.
End Runs.

(** * Properties *)

(** The program refines its specification.  Let the devices of a vault do anything
    their services do - save, archive, move, reorder, import, restore a backup, pay a
    bill, run and skip standing instructions, throw half-way, restart - and synchronise,
    in any order: the ledgers are a run of the fleet of replicated ledgers, and what is
    at the destination under the key of the vault is honest. *)
Theorem program_refines_the_fleet {R Bytes Key : Type} `{!SyncAdapter R Bytes} `{!AdapterLaws R Bytes} `{!Sealing Key Bytes}
    devices (key : Key) vaultId f (r : R) :
  (forall d, d ∈ devices -> no_dash d = true) -> world devices key vaultId f r ->
  exists k g, fleet devices f k g /\ honest g key vaultId (contents r).
Proof.
  intros Hdash (g & H & _)%world_shared. destruct (shared_sound _ _ _ _ _ _ Hdash H) as [(k & Hk) Hh]. by exists k, g.
Qed.

(** the tables are well typed: in every state the program reaches, whatever was
    downloaded, each row of a table is a record of that table's type, stored under its own
    id.  A backup with a row that is not of its type is left out: restoring it does not check
    ([restore_stores_what_is_no_category]). *)
Theorem tables_hold_their_type {R Bytes Key : Type} `{!SyncAdapter R Bytes} `{!AdapterLaws R Bytes} `{!Sealing Key Bytes}
    devices (key : Key) vaultId f (r : R) d :
  (forall d, d ∈ devices -> no_dash d = true) -> world devices key vaultId f r -> d ∈ devices -> filed (f d).
Proof.
  intros Hdash (g & H & Hg)%world_shared Hd. destruct (shared_sound _ _ _ _ _ _ Hdash H) as [(k & Hk) _].
  pose proof (fleet_invariant _ Hdash _ _ _ Hk) as [Hdev Hkn _ _ Hu]. destruct (Hdev d Hd) as [Hh _].
  destruct (device_inv _ _ Hh) as (c & Hi & _).
  { eapply from_unique; [exact Hu|]. intros op Hop. by eapply Hkn. }
  intros e id v Hv. apply (inv_lww _ _ Hi) in Hv as (op & (Hin & [<- <-] & _) & Hst).
  - destruct (Hkn d op Hd Hin) as (o & Ho & _ & (He & Hid & Hop & Hval)). rewrite He Hid.
    apply (proj1 (Forall_forall _ _) Hg o Ho). unfold op_state in Hst. rewrite -Hval. destruct (op_op op); [|done].
    by destruct (op_value op).
  - eapply from_unique; [exact Hu|]. intros op Hop. by eapply Hkn.
Qed.

(** A filed ledger has the invariant the category service relies on. *)
Lemma filed_categories s : filed s -> categories_inv s.
Proof. intros H id v Hv. destruct (H _ _ _ Hv) as [Ht Hid]. destruct v; try done. by eexists. Qed.

(** * Witnesses *)

(** Two devices, envelopes of bytes sealed by the toy cipher, an in-memory destination. *)
#[local] Existing Instance crypto_sealing.

Definition world_vault (device : string) : VaultSession bool := mkSession true (Some true) (Some "v") (Some device).
Definition world_remote : InMemoryAdapter bytes := mkMemory ∅ (mkCalls 0 0 0 0 0 0) None false.
Definition world_cycle (device : string) (s : App) (r : InMemoryAdapter bytes) : result SyncStatus * Engine (InMemoryAdapter bytes) :=
  runCycle (Key := bool) (world_vault device) (NoneTarget "") true (mkEngine s r 0 INITIAL_STATUS).
Definition world_act : act := SaveCategory (mkCategoryDraft "c1" "Rent" CExpense "#fff" "home" None None None).

Definition world_a0 : App := snd (perform world_act (demo_device "a")).
Definition world_a1 : Engine (InMemoryAdapter bytes) := snd (world_cycle "a" world_a0 world_remote).
Definition world_b1 : Engine (InMemoryAdapter bytes) := snd (world_cycle "b" (demo_device "b") (remote world_a1)).
Definition world_end : string -> App :=
  upd (upd (upd demo_device "a" world_a0) "a" (Sync.app world_a1)) "b" (Sync.app world_b1).

Lemma world_delivers :
  rows (world_end "b") = rows (world_end "a") /\ is_Some (rows (world_end "b") !! (ECategories, "c1")).
Proof. split; vm_compute; [reflexivity|eauto]. Qed.

Lemma demo_world : world (Key := bool) demo_ids true "v" world_end (remote world_b1).
Proof.
  assert (world (Key := bool) (R := InMemoryAdapter bytes) demo_ids true "v" demo_device world_remote) as H0.
  { apply w_start; [|done]. intros d _. split_and!; try done. }
  assert (world (Key := bool) demo_ids true "v" (upd demo_device "a" world_a0) world_remote) as H1.
  { refine (w_act demo_ids true "v" demo_device world_remote "a" world_act (fst (perform world_act (demo_device "a"))) world_a0 H0 _ _);
      [elem_of_closed|vm_compute; reflexivity]. }
  assert (world (Key := bool) demo_ids true "v" (upd (upd demo_device "a" world_a0) "a" (Sync.app world_a1)) (remote world_a1)) as H2.
  { refine (w_sync demo_ids true "v" _ "a" (world_vault "a") (NoneTarget "") true (mkEngine world_a0 world_remote 0 INITIAL_STATUS)
      (fst (world_cycle "a" world_a0 world_remote)) world_a1 H1 _ eq_refl eq_refl eq_refl _); [elem_of_closed|vm_compute; reflexivity]. }
  refine (w_sync demo_ids true "v" _ "b" (world_vault "b") (NoneTarget "") true (mkEngine (demo_device "b") (remote world_a1) 0 INITIAL_STATUS)
      (fst (world_cycle "b" (demo_device "b") (remote world_a1))) world_b1 H2 _ eq_refl eq_refl eq_refl _); [elem_of_closed|vm_compute; reflexivity].
Qed.

Lemma program_refines_the_fleet_witness :
  exists k g, fleet demo_ids world_end k g /\ honest g true "v" (contents (remote world_b1)).
Proof. exact (program_refines_the_fleet demo_ids true "v" world_end (remote world_b1) demo_ids_dash demo_world). Defined.

Lemma tables_hold_their_type_witness : filed (world_end "b").
Proof.
  refine (tables_hold_their_type demo_ids true "v" world_end (remote world_b1) "b" demo_ids_dash demo_world _). elem_of_closed.
Defined.
