(* ===== verification/Startup.v ===== *)
(** A running installation: the vault, the sync settings, the ledger and the engine of
    one device behind the scheduler ([app/src/app/core/sync/sync-scheduler.service.ts]),
    the work before the first screen ([core/app-bootstrap.ts]) and the unlock screen
    ([features/vault/vault.page.ts]). *)
From S2P Require Export Settings Program.
#[local] Open Scope string_scope.
#[local] Open Scope Z_scope.

(** * Definitions *)

(** The services of one installation; [mc_timer] is the period of the running interval in
    milliseconds, [mc_started] whether the listeners are attached. *)
Record Machine (Key R : Type) : Type := mkMachine {
  mc_vault : Vault Key; mc_settings : SettingsStore; mc_engine : Engine R; mc_timer : option Z; mc_started : bool }.
Arguments mkMachine {Key R}.
Arguments mc_vault {Key R}.
Arguments mc_settings {Key R}.
Arguments mc_engine {Key R}.
Arguments mc_timer {Key R}.
Arguments mc_started {Key R}.

(** What [Network.getStatus()] says. *)
Record Connection : Type := mkConnection { cn_connected : bool; cn_type : string }.

(** What can start a cycle by itself. *)
Inductive trigger : Type := Interval | StatusChange (status : Connection) | Resumed.

Section Service.
Context {R Bytes Key : Type} `{!SyncAdapter R Bytes} `{!WebCrypto Key} `{!Sealing Key Bytes}.
Notation machine := (Machine Key R).
Implicit Types m : machine.

Definition onVault {A} (f : M (Vault Key) A) : M machine A := fun m =>
  let '(r, v) := f (mc_vault m) in (r, mkMachine v (mc_settings m) (mc_engine m) (mc_timer m) (mc_started m)).
Definition onSettings {A} (f : M SettingsStore A) : M machine A := fun m =>
  let '(r, s) := f (mc_settings m) in (r, mkMachine (mc_vault m) s (mc_engine m) (mc_timer m) (mc_started m)).
Definition onEngine {A} (f : M (Engine R) A) : M machine A := fun m =>
  let '(r, e) := f (mc_engine m) in (r, mkMachine (mc_vault m) (mc_settings m) e (mc_timer m) (mc_started m)).
Definition onLedger {A} (f : M App A) : M machine A := onEngine (onApp f).
Definition set_timer (t : option Z) m : machine := mkMachine (mc_vault m) (mc_settings m) (mc_engine m) t (mc_started m).
Definition set_started (b : bool) m : machine := mkMachine (mc_vault m) (mc_settings m) (mc_engine m) (mc_timer m) b.

(** The signals the scheduler reads. *)
Definition unlocked m : bool := isUnlocked (mc_vault m).
Definition current_settings m : SyncSettings := st_current (mc_settings m).

(** ** sync-scheduler.service.ts *)

Definition disarm : M machine unit := modifyS (set_timer None).
Definition arm (intervalMinutes : Z) : M machine unit :=
  _ ← disarm;
  if intervalMinutes <=? 0 then mret tt else modifyS (set_timer (Some (intervalMinutes * 60000))).

(** The effect, which runs when the settings or the state of the vault change. *)
Definition rearm : M machine unit :=
  m ← getS;
  arm (if unlocked m then ss_intervalMinutes (current_settings m) else 0).

Definition start : M machine unit :=
  m ← getS;
  if mc_started m then mret tt else modifyS (set_started true).

(** [SyncService.sync] with no cycle in flight. *)
Definition sync : M machine SyncStatus :=
  m ← getS;
  onEngine (runCycle (session (mc_vault m)) (ss_target (current_settings m)) false).

Definition syncNow (today : string) : M machine unit :=
  _ ← sync;
  _ ← onLedger (run today MAX_OCCURRENCES_PER_RUN);
  mret tt.

Definition runIfUnlocked (network : Connection) (today : string) : M machine unit :=
  m ← getS;
  if negb (unlocked m) then mret tt
  else if ss_wifiOnly (current_settings m) && negb (String.eqb (cn_type network) "wifi") then mret tt
  else syncNow today.

Definition networkStatusChange (status network : Connection) (today : string) : M machine unit :=
  m ← getS;
  if negb (cn_connected status) then mret tt
  else if negb (ss_syncOnReconnect (current_settings m)) then mret tt
  else if ss_wifiOnly (current_settings m) && negb (String.eqb (cn_type status) "wifi") then mret tt
  else runIfUnlocked network today.

(** A trigger reaches the scheduler: the interval when it is armed, the listeners when
    they are attached. *)
Definition fire (t : trigger) (network : Connection) (today : string) : M machine unit :=
  m ← getS;
  match t with
  | Interval => match mc_timer m with Some _ => runIfUnlocked network today | None => mret tt end
  | StatusChange status => if mc_started m then networkStatusChange status network today else mret tt
  | Resumed => if mc_started m then runIfUnlocked network today else mret tt
  end.

(** ** app-bootstrap.ts *)

Definition activateVault (today : string) : M machine unit :=
  m ← getS;
  _ ← onSettings (Settings.load (session (mc_vault m)));
  _ ← onEngine initialise_sync;
  _ ← onLedger (run today MAX_OCCURRENCES_PER_RUN);
  start.

(** What is awaited before the first screen; the answer says whether [syncNow] was then
    set going in the background.  The theme is left out. *)
Definition bootstrapApp (confirms : bool) (today : string) : M machine bool :=
  state ← onVault (initialise_vault confirms);
  m ← getS;
  device ← liftR (requireDeviceId (session (mc_vault m)));
  _ ← onLedger (Ledger.initialise device);
  if bool_decide (state = Unlocked) then
    m ← getS;
    _ ← onSettings (Settings.load (session (mc_vault m)));
    _ ← onEngine initialise_sync;
    _ ← onLedger (run today MAX_OCCURRENCES_PER_RUN);
    _ ← start;
    mret true
  else mret false.

(** ** vault.page.ts *)

(** [VaultPage.submit]: the message shown, [None] when the app moved on to the dashboard.
    The screen is creating a vault when there is none. *)
Definition submit (passphrase confirmation currency today : string) : M machine (option string) :=
  m ← getS;
  let creating := bool_decide (v_state (mc_vault m) = Uninitialised) in
  if creating && negb (String.eqb passphrase confirmation) then mret (Some "The two passphrases do not match")
  else
    catchM
      (_ ← (if creating then
              _ ← onVault (Vault.create passphrase);
              _ ← onLedger (setReportingCurrency currency);
              _ ← onLedger seedIfEmpty;
              onLedger seed_groupsIfEmpty
            else onVault (Vault.unlock passphrase));
       _ ← activateVault today;
       mret None)
      (fun error => mret (Some (exn_message error))).

(** The page is closed and opened again: signals and timers start over. *)
Definition reopen m : machine :=
  mkMachine (restart (mc_vault m)) (mkSettingsStore (st_row (mc_settings m)) DEFAULT_SYNC_SETTINGS)
    (mkEngine (Sync.app (mc_engine m)) (remote (mc_engine m)) (draws (mc_engine m)) INITIAL_STATUS) None false.

(** ** What can happen on an installation *)

Inductive chore : Type :=
| Act (a : act)
| Boot (confirms : bool) (today : string)
| Activate (today : string)
| Fire (t : trigger) (network : Connection) (today : string)
| SyncNow (today : string)
| SaveSettings (settings : SyncSettings)
| ClearSettings.

(** The effect of the scheduler follows every change, thrown or not. *)
Definition settle {A} (f : M machine A) : M machine A := fun m => let '(r, m') := f m in (r, snd (rearm m')).

Definition do_chore (c : chore) : M machine unit :=
  settle match c with
  | Act a => onLedger (perform a)
  | Boot confirms today =>
      _ ← modifyS reopen;
      background ← bootstrapApp confirms today;
      if (background : bool) then syncNow today else mret tt
  | Activate today => _ ← activateVault today; syncNow today
  | Fire t network today => fire t network today
  | SyncNow today => syncNow today
  | SaveSettings settings =>
      m ← getS;
      n ← onEngine draw;
      onSettings (Settings.save (session (mc_vault m)) n settings)
  | ClearSettings => onSettings Settings.clear
  end.
End Service.

(** * Specification *)

Definition at_destination {Key R} (r : R) (m : Machine Key R) : Machine Key R :=
  mkMachine (mc_vault m) (mc_settings m)
    (mkEngine (Sync.app (mc_engine m)) r (draws (mc_engine m)) (status (mc_engine m))) (mc_timer m) (mc_started m).
Definition set_vault {Key R} (v : Vault Key) (m : Machine Key R) : Machine Key R :=
  mkMachine v (mc_settings m) (mc_engine m) (mc_timer m) (mc_started m).

Section Deployed.
Context {R Bytes Key : Type} `{!SyncAdapter R Bytes} `{!AdapterLaws R Bytes} `{!WebCrypto Key} `{!WebCryptoLaws Key} `{!Sealing Key Bytes}.
Context (devices : list string) (key : Key) (vaultId : string).

(** Device [d] has created or joined the vault [vaultId], whose key is [key]; its keystore
    refuses nothing (what refusals do is with the vault). *)
Definition on_vault (d : string) (v : Vault Key) : Prop :=
  (exists p, vault_run false v (Some (p, key))) /\ v_prefs v !! KEY_VAULT_ID = Some vaultId /\ v_prefs v !! KEY_DEVICE_ID = Some d.

End Deployed.

(** * Lemmas *)

(** ** What a vault of the deployment shows *)

Section Vaults.
Context {Key : Type} `{!WebCrypto Key} `{!WebCryptoLaws Key}.
Context (key : Key) (vaultId : string).


End Vaults.

(** Walk through the text of a method, proving its parts by [leaf]. *)
Ltac walk leaf := repeat (cbv zeta; first
  [ solve [leaf]
  | match goal with
    | |- through _ (mret _) => apply through_ret
    | |- through _ (liftR _) => apply through_liftR
    | |- through _ (mbind _ getS) =>
        let m := fresh "m" in let x := fresh "x" in let m' := fresh "m'" in let Hm := fresh "Hm" in let E := fresh "E" in
        apply through_getS; intros m x m' Hm E; revert E;
        match goal with |- ?c m = _ -> _ => match type of Hm with ?I m => let K := fresh in
          assert (through I c) as K; [clear Hm|exact (K m x m' Hm)] end end
    | |- through _ (mbind _ _) => apply through_bind; [|intros ?]
    | |- through _ (if ?b then _ else _) => destruct b
    | |- through _ (match ?x with _ => _ end) => destruct x
    end ]).

(** ** A chore is a run of the world *)

Section Chores.
Context {R Bytes Key : Type} `{!SyncAdapter R Bytes} `{!AdapterLaws R Bytes} `{!WebCrypto Key} `{!WebCryptoLaws Key} `{!Sealing Key Bytes}.
Context (devices : list string) (Hdash : forall d, d ∈ devices -> no_dash d = true) (key : Key) (vaultId : string).
Context (f : string -> App) (d : string) (Hd : d ∈ devices).
Implicit Types m : Machine Key R.

(** The installation is on the vault, and the world with its ledger and its destination
    is reachable. *)
Definition fine m : Prop :=
  on_vault key vaultId d (mc_vault m)
  /\ world devices key vaultId (upd f d (Sync.app (mc_engine m))) (remote (mc_engine m)).
Notation keeps := (through fine).


Lemma keeps_reopen_vault v m : fine m -> on_vault key vaultId d v -> fine (set_vault v m).
Proof. by intros [_ Hw] Hv. Qed.






End Chores.

Section Runs.
Context {R Bytes Key : Type} `{!SyncAdapter R Bytes} `{!AdapterLaws R Bytes} `{!WebCrypto Key} `{!WebCryptoLaws Key} `{!Sealing Key Bytes}.
Context (devices : list string) (Hdash : forall d, d ∈ devices -> no_dash d = true) (key : Key) (vaultId : string).
Context (f : string -> App) (d : string) (Hd : d ∈ devices).
Notation fine := (fine (R := R) devices key vaultId f d).
Notation keeps := (through fine).




End Runs.



(** ** What start-up does not do *)

Section Offline.
Context {R Bytes Key : Type} `{!SyncAdapter R Bytes} `{!WebCrypto Key} `{!Sealing Key Bytes}.
Implicit Types m : Machine Key R.

Definition remote_is (r : R) m : Prop := remote (mc_engine m) = r.

Lemma offline_onVault {A} r (c : M (Vault Key) A) : through (remote_is r) (onVault c).
Proof. intros m x m' <-. unfold onVault. destruct (c _). by intros [= _ <-]. Qed.
Lemma offline_onSettings {A} r (c : M SettingsStore A) : through (remote_is r) (onSettings c).
Proof. intros m x m' <-. unfold onSettings. destruct (c _). by intros [= _ <-]. Qed.
Lemma offline_onLedger {A} r (c : M App A) : through (remote_is r) (onLedger c).
Proof. intros m x m' <-. unfold onLedger, onEngine, onApp. destruct (c _). by intros [= _ <-]. Qed.
Lemma offline_initialise_sync r : through (remote_is r) (onEngine initialise_sync).
Proof. by intros m x m' <- [= _ <-]. Qed.
Lemma offline_started r b : through (remote_is r) (modifyS (set_started b)).
Proof. by intros m x m' <- [= _ <-]. Qed.

Lemma offline_bootstrapApp r confirms today : through (remote_is r) (bootstrapApp confirms today).
Proof.
  unfold bootstrapApp, start. walk ltac:(first [apply offline_onVault|apply offline_onSettings|apply offline_onLedger
    |apply offline_initialise_sync|apply offline_started]).
Qed.

Definition vault_is (v : Vault Key) m : Prop := mc_vault m = v.

Lemma vault_onSettings {A} v (c : M SettingsStore A) : through (vault_is v) (onSettings c).
Proof. intros m x m' <-. unfold onSettings. destruct (c _). by intros [= _ <-]. Qed.
Lemma vault_onEngine {A} v (c : M (Engine R) A) : through (vault_is v) (onEngine c).
Proof. intros m x m' <-. unfold onEngine. destruct (c _). by intros [= _ <-]. Qed.

(** What follows an unlocked start. *)
Definition wake (today : string) : M (Machine Key R) bool :=
  m ← getS;
  _ ← onSettings (Settings.load (session (mc_vault m)));
  _ ← onEngine initialise_sync;
  _ ← onLedger (run today MAX_OCCURRENCES_PER_RUN);
  _ ← start;
  mret true.

Lemma wake_answers today m b m' : wake today m = (Ok b, m') -> b = true.
Proof.
  intros (m1 & m2 & _ & H)%M_bind_Ok_inv. apply M_bind_Ok_inv in H as (? & m3 & _ & H). apply M_bind_Ok_inv in H as (? & m4 & _ & H).
  apply M_bind_Ok_inv in H as (? & m5 & _ & H). apply M_bind_Ok_inv in H as (? & m6 & _ & H). by injection H.
Qed.

Lemma wake_keeps_vault today m m' : wake today m = (Ok true, m') -> mc_vault m' = mc_vault m /\ mc_started m' = true.
Proof.
  intros E. split.
  - refine ((_ : through (vault_is (mc_vault m)) (wake today)) m (Ok true) m' eq_refl E). unfold wake, onLedger, start.
    walk ltac:(first [apply vault_onSettings|apply vault_onEngine|by intros ? ? ? <- [= _ <-]]).
  - apply M_bind_Ok_inv in E as (m1 & m2 & _ & H). apply M_bind_Ok_inv in H as (? & m3 & _ & H).
    apply M_bind_Ok_inv in H as (? & m4 & _ & H). apply M_bind_Ok_inv in H as (? & m5 & _ & H).
    apply M_bind_Ok_inv in H as ([] & m6 & H6 & H). injection H as <-. unfold start, mbind, M_bind, getS in H6.
    destruct (mc_started m5) eqn:Es; [by injection H6 as <-|by injection H6 as <-].
Qed.

Lemma onVault_inv {A} (c : M (Vault Key) A) m (a : A) m' : onVault c m = (Ok a, m') ->
  exists v, c (mc_vault m) = (Ok a, v) /\ m' = mkMachine v (mc_settings m) (mc_engine m) (mc_timer m) (mc_started m).
Proof. unfold onVault. destruct (c (mc_vault m)) as [r v]. intros [= -> <-]. by exists v. Qed.

(** The state start-up returns is the state the vault is left in. *)
Lemma initialise_vault_state confirms (v : Vault Key) s v' : initialise_vault confirms v = (Ok s, v') -> v_state v' = s.
Proof.
  unfold initialise_vault. intros (v0 & v1 & _ & H)%M_bind_Ok_inv. apply M_bind_Ok_inv in H as ([] & v2 & _ & H).
  apply M_bind_Ok_inv in H as (id & v3 & _ & H). apply M_bind_Ok_inv in H as ([] & v4 & _ & H). destruct (_ || _).
  { by injection H as <- <-. }
  apply M_bind_Ok_inv in H as (v5 & v6 & [= <- <-] & H). destruct (v_secure _ !! _) as [stashed|]; [|by injection H as <- <-].
  destruct (negb _); [by injection H as <- <-|]. destruct (_ && _); [by injection H as <- <-|].
  apply M_bind_Ok_inv in H as (raw & v7 & _ & H). apply M_bind_Ok_inv in H as (k & v8 & _ & H). by injection H as <- <-.
Qed.
End Offline.

(** * Properties *)


(** A cold start never waits on the network: what is awaited before the first screen
    leaves the destination alone, in every case.  When the vault does not open, nothing
    else happens either: no row and no operation changes, no listener is attached, the
    settings stay sealed and no cycle is set going. *)
Theorem startup_stays_offline {R Bytes Key : Type} `{!SyncAdapter R Bytes} `{!WebCrypto Key} `{!Sealing Key Bytes}
    confirms today (m : Machine Key R) x m' :
  bootstrapApp confirms today m = (x, m') ->
  remote (mc_engine m') = remote (mc_engine m)
  /\ (x = Ok true -> unlocked m' = true /\ mc_started m' = true)
  /\ (x = Ok false -> unlocked m' = false
      /\ rows (Sync.app (mc_engine m')) = rows (Sync.app (mc_engine m))
      /\ oplog (Sync.app (mc_engine m')) = oplog (Sync.app (mc_engine m))
      /\ mc_started m' = mc_started m /\ mc_settings m' = mc_settings m /\ status (mc_engine m') = status (mc_engine m)).
Proof.
  intros E. split; [by eapply offline_bootstrapApp; [|exact E]|].
  unfold bootstrapApp in E. split; intros ->.
  - apply M_bind_Ok_inv in E as (s & m1 & E1 & E). apply M_bind_Ok_inv in E as (m2 & m3 & [= <- <-] & E).
    apply M_bind_Ok_inv in E as (device & m3 & [= _ <-] & E). apply M_bind_Ok_inv in E as ([] & m3 & E3 & E).
    apply onVault_inv in E1 as (v & Ev & ->). injection E3 as <-.
    destruct (bool_decide_reflect (s = Unlocked)) as [->|]; [|done]. apply initialise_vault_state in Ev.
    apply wake_keeps_vault in E as [Hk Hs]. unfold unlocked, isUnlocked. by rewrite Hk Ev.
  - apply M_bind_Ok_inv in E as (s & m1 & E1 & E). apply M_bind_Ok_inv in E as (m2 & m3 & [= <- <-] & E).
    apply M_bind_Ok_inv in E as (device & m3 & [= _ <-] & E). apply M_bind_Ok_inv in E as ([] & m3 & E3 & E).
    apply onVault_inv in E1 as (v & Ev & ->). injection E3 as <-. apply initialise_vault_state in Ev.
    destruct (bool_decide_reflect (s = Unlocked)) as [->|Hne]; [by apply wake_answers in E|]. injection E as <-.
    split_and!; try done. unfold unlocked, isUnlocked. cbn. by rewrite Ev bool_decide_eq_false_2.
Qed.

(** Nothing travels unasked: whatever trigger reaches the scheduler, it does something
    only if the vault is unlocked, the interval is armed or the listeners attached, the
    connection is one the settings allow, and a reconnection is one they ask for; what it
    then does is exactly what the button does. *)
Theorem triggers_respect_settings {R Bytes Key : Type} `{!SyncAdapter R Bytes} `{!WebCrypto Key} `{!Sealing Key Bytes}
    t network today (m : Machine Key R) x m' :
  fire t network today m = (x, m') ->
  (x, m') = (Ok tt, m)
  \/ ((x, m') = syncNow today m /\ unlocked m = true
      /\ (ss_wifiOnly (current_settings m) = true -> cn_type network = "wifi")
      /\ match t with
         | Interval => is_Some (mc_timer m)
         | StatusChange status => mc_started m = true /\ cn_connected status = true
             /\ ss_syncOnReconnect (current_settings m) = true
             /\ (ss_wifiOnly (current_settings m) = true -> cn_type status = "wifi")
         | Resumed => mc_started m = true
         end).
Proof.
  assert (forall x m', runIfUnlocked network today m = (x, m') -> (x, m') = (Ok tt, m)
    \/ ((x, m') = syncNow today m /\ unlocked m = true /\ (ss_wifiOnly (current_settings m) = true -> cn_type network = "wifi"))) as Hrun.
  { intros y n. unfold runIfUnlocked, mbind, M_bind at 1, getS. destruct (unlocked m); [|by intros [= <- <-]; left].
    destruct (ss_wifiOnly _); [|intros <-; right; by split_and!]. cbn [andb negb].
    destruct (String.eqb_spec (cn_type network) "wifi"); [intros <-; right; by split_and!|by intros [= <- <-]; left]. }
  unfold fire, mbind, M_bind at 1, getS. destruct t as [|status|].
  - destruct (mc_timer m); [|by intros [= <- <-]; left]. intros [?|(? & ? & ?)]%Hrun; [by left|right; by split_and!].
  - destruct (mc_started m); [|by intros [= <- <-]; left]. unfold networkStatusChange, mbind, M_bind at 1, getS.
    destruct (cn_connected status); [|by intros [= <- <-]; left]. destruct (ss_syncOnReconnect _); [|by intros [= <- <-]; left].
    cbn [negb]. destruct (ss_wifiOnly _) eqn:Ew; cbn [andb].
    + destruct (String.eqb_spec (cn_type status) "wifi"); [|by intros [= <- <-]; left].
      intros [?|(? & ? & ?)]%Hrun; [by left|right; by split_and!].
    + intros [?|(? & ? & ?)]%Hrun; [by left|right; by split_and!].
  - destruct (mc_started m); [|by intros [= <- <-]; left]. intros [?|(? & ? & ?)]%Hrun; [by left|right; by split_and!].
Qed.

(** * Witnesses *)

#[local] Existing Instance crypto_sealing.

(** Two phones: the first creates the vault, the second joins it with the bundle. *)
Definition blank_phone (seed : nat) : Vault bool := mkVault None Uninitialised None None ∅ ∅ true true (fun _ => "vault-1") 0 seed.
Definition phone_1 : Vault bool := snd (Vault.create "correct horse" (snd (initialise_vault true (restart (blank_phone 0))))).
Definition bundle : string * WrappedMasterKey :=
  match exportWrappedKey phone_1 with (Ok (Some b), _) => b | _ => ("", mkWrapped 0 "" 0 "" "" "") end.
Definition phone_2 : Vault bool :=
  snd (Vault.restore bundle.1 bundle.2 "correct horse" (snd (initialise_vault true (restart (blank_phone 1))))).
Definition phone_vault (d : string) : Vault bool := if String.eqb d "AAAAAAAA" then phone_1 else phone_2.
Definition phone (d : string) : Machine bool (InMemoryAdapter bytes) :=
  mkMachine (phone_vault d) (mkSettingsStore None DEFAULT_SYNC_SETTINGS) (mkEngine (demo_device d) world_remote 0 INITIAL_STATUS)
    None false.
Definition phone_settings : SyncSettings := mkSyncSettings (ServerTarget "NAS" "https://nas" "s3cret") 15 true false.

(** Chores on phones, each with its phone. *)
Fixpoint phones_after (cs : list (string * chore)) (st : (string -> Machine bool (InMemoryAdapter bytes)) * InMemoryAdapter bytes) :=
  match cs with
  | [] => st
  | (d, c) :: rest =>
      let m' := snd (do_chore c (at_destination st.2 (st.1 d))) in
      phones_after rest (upd st.1 d m', remote (mc_engine m'))
  end.

Definition phone_day : list (string * chore) :=
  [("AAAAAAAA", SaveSettings phone_settings); ("AAAAAAAA", Act world_act); ("AAAAAAAA", SyncNow "2024-05-01");
   ("AQEBAQEB", SaveSettings phone_settings); ("AQEBAQEB", Boot true "2024-05-01")].
Definition phones_evening := phones_after phone_day (phone, world_remote).

Lemma phones_deliver :
  let ledger d := rows (Sync.app (mc_engine (phones_evening.1 d))) in
  ledger "AQEBAQEB" = ledger "AAAAAAAA" /\ is_Some (ledger "AQEBAQEB" !! (ECategories, "c1")).
Proof. split; vm_compute; [reflexivity|eauto]. Qed.






Definition phone_booted := bootstrapApp false "2024-05-01" (reopen (phone "AAAAAAAA")).

Lemma startup_stays_offline_witness :
  remote (mc_engine (snd phone_booted)) = world_remote /\ unlocked (snd phone_booted) = true.
Proof.
  destruct (startup_stays_offline false "2024-05-01" (reopen (phone "AAAAAAAA")) (fst phone_booted) (snd phone_booted)
    (surjective_pairing _)) as (H1 & H2 & _). split; [exact H1|]. apply H2. vm_compute. reflexivity.
Defined.

Lemma triggers_respect_settings_witness :
  exists x m', fire Resumed (mkConnection true "cellular") "2024-05-01" (phone "AAAAAAAA") = (x, m')
    /\ (x, m') = (Ok tt, phone "AAAAAAAA").
Proof.
  exists (Ok tt), (phone "AAAAAAAA").
  assert (fire Resumed (mkConnection true "cellular") "2024-05-01" (phone "AAAAAAAA") = (Ok tt, phone "AAAAAAAA")) as E by reflexivity.
  split; [exact E|]. destruct (triggers_respect_settings _ _ _ _ _ _ E) as [H|(_ & _ & _ & H)]; [exact H|discriminate].
Defined.

(** ** What the composition shows *)

(** Wi-Fi only is not kept at start-up: the cycle started behind the first screen, and
    the one after an unlock, go to the network whatever the connection, which a trigger
    on the same connection does not. *)
Definition wifi_phone : Machine bool (InMemoryAdapter bytes) :=
  let m := phone "AAAAAAAA" in
  snd ((_ ← onSettings (Settings.save (session (mc_vault m)) 0 (mkSyncSettings (ServerTarget "NAS" "https://nas" "s3cret") 15 true true));
        onLedger (perform world_act)) m).

Lemma startup_sync_ignores_wifi_only :
  ss_wifiOnly (current_settings wifi_phone) = true
  /\ contents (remote (mc_engine (fire Resumed (mkConnection true "cellular") "2024-05-01" (set_started true wifi_phone)).2)) = ∅
  /\ contents (remote (mc_engine wifi_phone)) = ∅
  /\ size (contents (remote (mc_engine (do_chore (Boot true "2024-05-01") wifi_phone).2))) = 1%nat.
Proof. split_and!; vm_compute; reflexivity. Qed.

(** Erasing the vault leaves the ledger and the sealed settings on the device; a vault
    created afterwards shows the old ledger and cannot open the old settings, so the
    unlock screen reports an error and no part of [activateVault] after them runs. *)
Definition erased_phone : Machine bool (InMemoryAdapter bytes) := snd (onVault Vault.destroy wifi_phone).
Definition phone_again := submit "battery staple!" "battery staple!" "EUR" "2024-05-01" (reopen erased_phone).

Lemma erasing_keeps_the_ledger :
  rows (Sync.app (mc_engine erased_phone)) = rows (Sync.app (mc_engine wifi_phone))
  /\ st_row (mc_settings erased_phone) = st_row (mc_settings wifi_phone)
  /\ is_Some (rows (Sync.app (mc_engine (snd phone_again))) !! (ECategories, "c1")).
Proof. split_and!; vm_compute; [reflexivity..|eauto]. Qed.

Lemma new_vault_stumbles_on_old_settings :
  match fst phone_again with Ok (Some _) => true | _ => false end = true
  /\ unlocked (snd phone_again) = true /\ mc_started (snd phone_again) = false.
Proof. split_and!; vm_compute; reflexivity. Qed.
